(* ===== verification/_CoqProject ===== *)
-Q . S2P
Prelude.v
Asm.v
Context.v
Scheduler.v
SchedulerSpec.v
SchedulerInv.v
SchedulerRun.v
Vga.v
FixedBlock.v
FixedBlockSpec.v
Frames.v
Elf.v
Spawn.v
Fs.v
FsSpec.v
Acpi.v
Pci.v
Gdt.v
Executor.v
Keyboard.v
KeyTask.v
Interrupts.v
Preempt.v
Disk.v
DiskSpec.v
Layout.v
Syscall.v
SyscallSpec.v
System.v
Boot.v
Messages.v
Entry.v
