(* ===== verification/Prelude.v ===== *)
(** * Verification of lobsterOS

    lobsterOS is a small x86-64 kernel in Rust ([src/src]).  [init] of
    [lib.rs] loads the segments and the interrupt table, maps a heap, finds the
    disks through ACPI and PCI, reads a FAT32 file system, loads [/bin/bash]
    from it and gives it to the scheduler; after that the kernel only runs in
    interrupts and system calls.  This library is a shallow embedding of the
    kernel: a Rust function is a Rocq function on explicit state, with the name
    it has in the source wherever that is possible.

    ** Conventions

    - Integers are [Z], kept in the range of their width by the code's own
      operations.  [add_u], [sub_u], [mul_u], [shl_u] and [shr_u] are the
      operators of Rust: they panic or wrap around according to the class
      [Profile], which tells a build with overflow checks ([dev_profile]) from
      one without ([release_profile]).  Theorems hold for both unless they name
      one.
    - A computation is an [outcome]: [Ret], [Panic] or [NoFuel].  [Result] is
      the type [result].
    - A loop that need not end takes fuel and answers [NoFuel] when it is cut
      off.  Theorems that say that such code returns give a bound on the fuel
      that is enough: one iteration per task in the scheduler, one poll per task
      and wake-up in the executor, in the disk driver the number of polls after
      which the device answers (the class [Responsive] of [DiskSpec]); the scan
      of directories returns for every fuel from some amount on.  Theorems that say
      that code never returns have [NoFuel] for every amount of fuel; a wait for
      a spin lock that can never be released is [NoFuel] as well.
    - A static variable or a value behind a lock is part of a state record
      ([World], [Console], [IrqState], [Kernel], ...), the lock with it where
      the code can meet it taken.
    - Code of other crates and the hardware are classes, with a class of laws
      that states what their documentation promises: [FallbackHeap],
      [Mapper], [OffsetPageTable], [PageTableEntry], [VirtAddrNew],
      [DescriptorTable], [ArrayQueue], [AtomicWaker], [PcKeyboard],
      [AhciDevice], [DmaMemory], [BitfieldStruct], [SerialPort]; and [TimerCode],
      the compiled code around the timer handler, with the conventions of the
      compiler as its laws.  Every theorem that uses
      laws has an example at the end of its file, which applies it to a
      concrete instance.

    ** Files

    - [Prelude]: outcomes, checked arithmetic, byte strings, the tactics and
      hint databases, and lemmas on lists and integers.
    - [Asm], [Context]: the instructions of the inline assembly, and [activate],
      [deactivate] and [switch_to_usermode] of [process.rs] in terms of them.
      [deactivate] followed by [activate] returns a second time from
      [deactivate] with the registers as they were.
    - [Scheduler]: [threading/scheduler.rs].  [SchedulerSpec] refines the search
      for the next task to a round-robin queue, [SchedulerInv] has the invariant
      over all operations as a step relation, [SchedulerRun] what ticks,
      blocking and ends of tasks do to the CPU, and the states the code does not
      survive.
    - [Vga]: [display/vga_text.rs], as a refinement of a terminal with unlimited
      scroll-back.
    - [FixedBlock], [FixedBlockSpec]: [allocator/fixed_block.rs].  The free
      lists live in memory; allocations are aligned and disjoint from all live
      ones, and what is freed is used again.
    - [Frames]: the frame allocators of [memory.rs] and [init_heap] of
      [allocator.rs].
    - [Elf]: [elf.rs], the header check and the loader.
    - [Spawn]: the rest of [process.rs]: the page table, the stack and the image
      of a new process, with [memory::init].
    - [Fs], [FsSpec]: [fs.rs] on top of the interface [BlockDevice], and its
      meaning on FAT32 images described independently of the scan.
    - [Acpi], [Pci]: [acpi.rs] and [pci.rs], over the bytes of firmware memory.
    - [Gdt]: [gdt.rs].
    - [Executor], [Keyboard]: [task.rs], [task/executor.rs] and
      [task/keyboard.rs].  [Keyboard] has the interleaving of the keyboard
      interrupt with the task that reads scancodes as a step relation, and the
      proof that no wake-up is lost.  [KeyTask] has the task [print_keypresses]
      as a future of the executor: the keys that are pressed reach the screen.
    - [Interrupts]: [interrupts.rs], the table and all handlers, on top of the
      scheduler, the screen and the keyboard.
    - [Preempt]: a timer interrupt as the program sees it that is interrupted:
      the frame the CPU pushes on the stack of the TSS, the handler, the switch
      and the return.  A process that is alone does not notice it
      ([preemption_transparent]); two processes do.
    - [Disk], [DiskSpec]: [disk.rs], and a specification of the AHCI controller
      under which reads and writes move sectors.  [ahci_block_device_laws] is
      the proof that the driver implements the [BlockDevice] of [Fs].
    - [Layout]: the packed structs and bit fields of all files as lists of
      fields.  The decoders of the other files read at the offsets that follow
      from the lists, and the commands of the driver are in memory what AHCI
      prescribes.
    - [Syscall], [SyscallSpec]: [syscall.rs] and [syscall/], from the [syscall]
      instruction to [sysretq], on top of the allocator, the screen and the
      scheduler.
    - [System]: user code, interrupts, exceptions and system calls as events of
      one transition system, with the invariant under which the kernel serves a
      process forever ([kernel_serves_process]).
    - [Boot]: [init] and [get_bash] of [lib.rs].  [init_runs_shell] composes the
      components: from the firmware tables and the sectors of the disk to the
      first instruction of the shell in user mode; [shell_is_served] goes on
      from there with the events of [System].
    - [Messages]: [tree] of [fs.rs] and the texts of numbers and errors.
    - [Entry]: [display/serial.rs], [main.rs] and the test harness of [lib.rs],
      with the tests of [display/vga_text.rs].

    ** What the theorems show

    Most theorems say that a component does what it is for, on every input its
    callers can give.  A second group is about inputs and states the code does
    not handle; each says exactly what happens then: the end of the last task
    ([end_last_task]), a queue without a ready task
    ([get_next_task_no_ready_diverges]), the end of the running task by its id
    ([kill_current_is_lost]), a frame handed out twice
    ([last_frame_handed_out_twice]), segments of more than a page
    ([load_segment_large_panics]), frames that are not clear
    ([spawn_stale_frame_panics]), a timer interrupt while [init] holds the
    scheduler ([init_lock_window]), the result register of a system call
    ([syscall_result_lost]), large files and cyclic directories
    ([get_data_truncated], [parse_directory_cycle]), the last bus
    ([last_bus_missed]), two processes on one kernel stack
    ([preemption_mixes_contexts]), the stack under [exit]
    ([exit_frees_own_stack]), the count of command slots and the reception of FISes
    of the disk driver ([read_sectors_no_slots],
    [init_leaves_fis_receive_off]).

    Some of these limits are conditions of the theorem about the boot: the
    executable has segments of less than a page, the frames of its page tables
    are clear, files and directories lie in successive clusters, and no timer
    interrupt comes before [init] has released the scheduler.  The laws
    of the AHCI controller ask it to run commands in the state in which the
    driver leaves its ports, that is without the reception of FISes.

    ** Not modelled

    - [threading/thread.rs], a struct whose [run] is empty, and [userspace.rs],
      an endless loop in front of code that is never reached: no code uses them.
    - The derived [Debug] implementations; the text of a [PanicInfo] and of an
      interrupt frame is a parameter where it is printed.
    - The endless loop of [Executor::run], whose body is modelled ([run_pass]);
      [hlt_loop] is where a run of the model ends.
    - The translation of addresses by the page tables during ordinary accesses:
      the kernel's accesses go through the mapping of all physical memory, and
      the accesses of the loader are checked against the mapper.  The stack in
      [Asm] is a store of aligned words.
    - Interrupts inside functions other than [poll_next] and the window of
      [init_lock_window]; in [System] a system call is one event.  The service
      of more than one process is not a theorem, because the code does not
      provide it ([preemption_mixes_contexts]); nor is the end of the only one
      ([end_last_task]). *)

From stdpp Require Export base list gmap strings sorting.
From Stdlib Require Export ZArith Lia.

Declare Scope lobster_scope.
Delimit Scope lobster_scope with lobster.
#[global] Open Scope Z_scope.
#[global] Open Scope lobster_scope.

(** ** Outcomes of Rust code

    [Ret a] is a normal return, [Panic why] a call of [panic!] (or of one of
    the checks the compiler inserts), and [NoFuel] says that a loop was cut
    off before it finished.  The kernel is built with [panic = abort], so a
    panic ends the run and no state has to be carried with it. *)
Inductive outcome (A : Type) : Type :=
| Ret (a : A)
| Panic (why : string)
| NoFuel.
Arguments Ret {A} _.
Arguments Panic {A} _.
Arguments NoFuel {A}.

#[global] Instance outcome_ret : MRet outcome := @Ret.
#[global] Instance outcome_bind : MBind outcome := fun A B f m =>
  match m with
  | Ret a => f a
  | Panic w => Panic w
  | NoFuel => NoFuel
  end.

(** Rust's [Result]. *)
Inductive result (A E : Type) : Type :=
| Ok (a : A)
| Err (e : E).
Arguments Ok {A E} _.
Arguments Err {A E} _.

(** [Option::expect] and [Option::unwrap] (which has a fixed message). *)
Definition expect {A} (msg : string) (o : option A) : outcome A :=
  match o with Some a => Ret a | None => Panic msg end.

Definition unwrap_msg : string := "called `Option::unwrap()` on a `None` value".
Definition unwrap {A} (o : option A) : outcome A := expect unwrap_msg o.

(** [assert!]. *)
Definition assert_ (b : bool) (msg : string) : outcome unit :=
  if b then Ret tt else Panic msg.

(** A [for] loop over an iterator whose items are known: the body may
    update the state and may panic. *)
Fixpoint for_each {A S} (l : list A) (body : A -> S -> outcome S) (s : S) : outcome S :=
  match l with
  | [] => Ret s
  | a :: l => s' ← body a s; for_each l body s'
  end.

(** ** Machine integers

    A value of a [w]-bit unsigned type is a [Z] in [0, 2^w).  The kernel is
    built by cargo's two profiles: the [dev] profile checks arithmetic for
    overflow and panics, the [release] profile wraps around.  Definitions
    that do arithmetic take the profile as an instance, and theorems hold
    for both unless they name one. *)
Class Profile := { overflow_checks : bool }.
Definition dev_profile : Profile := {| overflow_checks := true |}.
Definition release_profile : Profile := {| overflow_checks := false |}.

Definition wrap (w v : Z) : Z := v mod 2 ^ w.
Definition in_u (w v : Z) : Prop := 0 <= v < 2 ^ w.
Definition fits (w v : Z) : bool := (0 <=? v) && (v <? 2 ^ w).

Definition add_msg : string := "attempt to add with overflow".
Definition sub_msg : string := "attempt to subtract with overflow".
Definition mul_msg : string := "attempt to multiply with overflow".
Definition shr_msg : string := "attempt to shift right with overflow".
Definition shl_msg : string := "attempt to shift left with overflow".

Section arith.
Context {P : Profile}.

(** The result [v] of an exact computation, brought back to [w] bits. *)
Definition arith (msg : string) (w v : Z) : outcome Z :=
  if fits w v then Ret v
  else if overflow_checks then Panic msg else Ret (wrap w v).

Definition add_u (w a b : Z) : outcome Z := arith add_msg w (a + b).
Definition sub_u (w a b : Z) : outcome Z := arith sub_msg w (a - b).
Definition mul_u (w a b : Z) : outcome Z := arith mul_msg w (a * b).

(** Shifts check the shift amount; without the check it is masked. *)
Definition shr_u (w a n : Z) : outcome Z :=
  if (0 <=? n) && (n <? w) then Ret (Z.shiftr a n)
  else if overflow_checks then Panic shr_msg
  else Ret (Z.shiftr a (n mod w)).
Definition shl_u (w a n : Z) : outcome Z :=
  if (0 <=? n) && (n <? w) then Ret (wrap w (Z.shiftl a n))
  else if overflow_checks then Panic shl_msg
  else Ret (wrap w (Z.shiftl a (n mod w))).
End arith.

(** The range from [start] on in steps of [step], [n] items. *)
Fixpoint step_from (start step : Z) (n : nat) : list Z :=
  match n with
  | O => []
  | S n => start :: step_from (start + step) step n
  end.

(** ** Slices *)
Definition oob_msg : string := "index out of bounds".

(** [l.get(i)] for a [usize] index. *)
Definition get {A} (l : list A) (i : Z) : option A :=
  if (0 <=? i) && (i <? Z.of_nat (length l)) then l !! Z.to_nat i else None.
(** [l[i]]. *)
Definition index {A} (l : list A) (i : Z) : outcome A := expect oob_msg (get l i).
(** [l[i] = a]. *)
Definition index_set {A} (l : list A) (i : Z) (a : A) : outcome (list A) :=
  match get l i with
  | Some _ => Ret (<[Z.to_nat i := a]> l)
  | None => Panic oob_msg
  end.
(** [&l[a..b]]. *)
Definition slice {A} (l : list A) (a b : Z) : outcome (list A) :=
  if (0 <=? a) && (a <=? b) && (b <=? Z.of_nat (length l))
  then Ret (take (Z.to_nat (b - a)) (drop (Z.to_nat a) l))
  else Panic oob_msg.

(** ** Little-endian numbers in bytes *)
Fixpoint le_val (bs : list Z) : Z :=
  match bs with
  | [] => 0
  | b :: bs => b + 256 * le_val bs
  end.

Fixpoint to_le_bytes (n : nat) (v : Z) : list Z :=
  match n with
  | O => []
  | S n => v mod 256 :: to_le_bytes n (v / 256)
  end.

Definition bytes (l : list Z) : Prop := Forall (in_u 8) l.

(** ** Generic lemmas and automation *)

Create HintDb lobster.

Lemma fits_spec w v : fits w v = true <-> in_u w v.
Proof. unfold fits, in_u. lia. Qed.

Lemma wrap_small w v : in_u w v -> wrap w v = v.
Proof. apply Z.mod_small. Qed.

Lemma ret_bind {A B} (a : A) (f : A -> outcome B) : (Ret a ≫= f) = f a.
Proof. done. Qed.

Lemma bind_ret_inv {A B} (m : outcome A) (f : A -> outcome B) b :
  (m ≫= f) = Ret b -> exists a, m = Ret a /\ f a = Ret b.
Proof. destruct m; naive_solver. Qed.

Section arith_lemmas.
Context {P : Profile}.

Lemma arith_ok msg w v : in_u w v -> arith msg w v = Ret v.
Proof. unfold arith. intros H%fits_spec. by rewrite H. Qed.

Lemma add_u_ok w a b : in_u w (a + b) -> add_u w a b = Ret (a + b).
Proof. apply arith_ok. Qed.
Lemma sub_u_ok w a b : in_u w (a - b) -> sub_u w a b = Ret (a - b).
Proof. apply arith_ok. Qed.
Lemma mul_u_ok w a b : in_u w (a * b) -> mul_u w a b = Ret (a * b).
Proof. apply arith_ok. Qed.

Lemma arith_wrap msg w v :
  overflow_checks = false -> arith msg w v = Ret (wrap w v).
Proof.
  unfold arith. intros ->. destruct (fits w v) eqn:H; [|done].
  apply fits_spec in H. unfold wrap, in_u in *. by rewrite Z.mod_small.
Qed.

Lemma arith_panic msg w v :
  overflow_checks = true -> ~ in_u w v -> arith msg w v = Panic msg.
Proof.
  unfold arith. intros -> H. destruct (fits w v) eqn:E; [|done].
  by apply fits_spec in E.
Qed.

Lemma arith_range msg w v v' : 0 <= w -> arith msg w v = Ret v' -> in_u w v'.
Proof.
  unfold arith. intros Hw. destruct (fits w v) eqn:E.
  - intros [= <-]. by apply fits_spec.
  - destruct overflow_checks; intros [= <-].
    unfold wrap, in_u. apply Z.mod_pos_bound. lia.
Qed.
End arith_lemmas.

(** Turns boolean comparisons in the hypotheses into propositions. *)
Ltac prop_of_bool :=
  repeat match goal with
  | H : (_ <=? _) = true |- _ => apply Z.leb_le in H
  | H : (_ <=? _) = false |- _ => apply Z.leb_gt in H
  | H : (_ <? _) = true |- _ => apply Z.ltb_lt in H
  | H : (_ <? _) = false |- _ => apply Z.ltb_ge in H
  | H : (_ =? _) = true |- _ => apply Z.eqb_eq in H
  | H : (_ =? _) = false |- _ => apply Z.eqb_neq in H
  | H : (_ && _) = true |- _ => apply andb_true_iff in H as [? ?]
  | H : (_ || _) = false |- _ => apply orb_false_iff in H as [? ?]
  end.
Ltac blia := prop_of_bool; lia.

(** Case analysis on the boolean tests of the goal. *)
Ltac case_bool :=
  match goal with
  | |- context [if ?b then _ else _] => let E := fresh "E" in destruct b eqn:E; prop_of_bool
  end.

(** Discharges the range side condition of a checked operation. *)
Ltac range := unfold in_u in *; lia.

(** Runs checked operations whose range condition [lia] can see. *)
Ltac run_arith :=
  repeat first
    [ rewrite add_u_ok by range
    | rewrite sub_u_ok by range
    | rewrite mul_u_ok by range ];
  cbn [mbind outcome_bind].

(** The same for the operations at the head of the left-hand side, one after
    the other. *)
Ltac run_all :=
  repeat match goal with
  | |- add_u ?w ?a ?b ≫= _ = _ => rewrite (add_u_ok w a b) by range; cbn [mbind outcome_bind]
  | |- sub_u ?w ?a ?b ≫= _ = _ => rewrite (sub_u_ok w a b) by range; cbn [mbind outcome_bind]
  | |- mul_u ?w ?a ?b ≫= _ = _ => rewrite (mul_u_ok w a b) by range; cbn [mbind outcome_bind]
  | |- add_u ?w ?a ?b = _ => rewrite (add_u_ok w a b) by range
  end.

(** Takes a hypothesis [m ≫= f = Ret b] apart. *)
Ltac inv_bind H :=
  let a := fresh "a" in let Ha := fresh "Ha" in
  apply bind_ret_inv in H as (a & Ha & H).

Lemma get_lookup {A} (l : list A) i : 0 <= i -> get l i = l !! Z.to_nat i.
Proof.
  intros Hi. unfold get. case_bool; [done|]. symmetry. apply lookup_ge_None.
  rewrite andb_false_iff, Z.leb_gt, Z.ltb_ge in E. lia.
Qed.

Lemma get_nat {A} (l : list A) (i : nat) : get l (Z.of_nat i) = l !! i.
Proof. rewrite get_lookup by lia. by rewrite Nat2Z.id. Qed.

Lemma get_Some {A} (l : list A) i a :
  get l i = Some a -> 0 <= i < Z.of_nat (length l) /\ l !! Z.to_nat i = Some a.
Proof. unfold get. case_bool; [|done]. intros Hl. split; [lia|done]. Qed.

Lemma get_None {A} (l : list A) i : Z.of_nat (length l) <= i -> get l i = None.
Proof. unfold get. intros H. case_bool; [lia|done]. Qed.

Lemma index_get {A} (l : list A) i a : get l i = Some a -> index l i = Ret a.
Proof. unfold index. by intros ->. Qed.

Lemma get_is_Some {A} (l : list A) i :
  0 <= i < Z.of_nat (length l) -> is_Some (get l i).
Proof. intros H. rewrite get_lookup by lia. apply lookup_lt_is_Some. lia. Qed.

Lemma index_set_ok {A} (l : list A) i a :
  0 <= i < Z.of_nat (length l) -> index_set l i a = Ret (<[Z.to_nat i := a]> l).
Proof. intros H. unfold index_set. by destruct (get_is_Some l i H) as [? ->]. Qed.

Lemma slice_ok {A} (l : list A) a b :
  0 <= a <= b -> b <= Z.of_nat (length l) ->
  slice l a b = Ret (take (Z.to_nat (b - a)) (drop (Z.to_nat a) l)).
Proof.
  intros Ha Hb. unfold slice. case_bool; [done|].
  rewrite !andb_false_iff, !Z.leb_gt in E. lia.
Qed.

(** A loop whose body never panics is a fold. *)
Lemma for_each_foldl {A S} (l : list A) (body : A -> S -> outcome S) (f : S -> A -> S) s :
  (forall a s, body a s = Ret (f s a)) -> for_each l body s = Ret (foldl f s l).
Proof. intros H. revert s. induction l as [|a l IH]; intros s; cbn; [done|]. rewrite H. apply IH. Qed.

(** A loop whose passes append to a vector. *)
Lemma for_each_collect {A B} (l : list A) (body : A -> list B -> outcome (list B)) (f : A -> list B) acc :
  (forall a acc, a ∈ l -> body a acc = Ret (acc ++ f a)) ->
  for_each l body acc = Ret (acc ++ (l ≫= f)).
Proof.
  revert acc. induction l as [|a l IH]; intros acc H; cbn [for_each]; [by rewrite app_nil_r|].
  rewrite H by left. cbn [mbind outcome_bind]. rewrite IH by (intros; apply H; by right).
  by rewrite <- app_assoc.
Qed.

Lemma bind_singleton {A B} (f : A -> B) (l : list A) : (l ≫= fun a => [f a]) = f <$> l.
Proof. induction l as [|a l IH]; [done|]. cbn. by f_equal. Qed.

Lemma for_each_app {A S} (l1 l2 : list A) (body : A -> S -> outcome S) s :
  for_each (l1 ++ l2) body s = (for_each l1 body s ≫= for_each l2 body).
Proof.
  revert s. induction l1 as [|a l1 IH]; intros s; cbn; [done|].
  destruct (body a s); cbn; auto.
Qed.

(** A loop invariant. *)
Lemma for_each_inv {A S} (I : S -> Prop) (l : list A) (body : A -> S -> outcome S) s s' :
  (forall a s s', a ∈ l -> I s -> body a s = Ret s' -> I s') ->
  I s -> for_each l body s = Ret s' -> I s'.
Proof.
  revert s. induction l as [|a l IH]; intros s Hb Hs H; cbn [for_each] in H.
  - congruence.
  - inv_bind H. eapply IH; [|eapply Hb; [| |exact Ha]|done]; [|set_solver|done].
    intros ????. apply Hb. set_solver.
Qed.

(** A counted loop whose [k]-th iteration writes the [k]-th element of [new]
    over an array [old] that is part of the state. *)
Lemma for_each_update {A S} (emb : list A -> S) (old new : list A) (lo : Z) (n : nat)
    (body : Z -> S -> outcome S) :
  (n <= length old)%nat -> (n <= length new)%nat ->
  (forall k x, (k < n)%nat -> new !! k = Some x ->
     body (lo + Z.of_nat k) (emb (take k new ++ drop k old)) =
     Ret (emb (<[k := x]> (take k new ++ drop k old)))) ->
  for_each (seqZ lo (Z.of_nat n)) body (emb old) = Ret (emb (take n new ++ drop n old)).
Proof.
  induction n as [|n IH]; intros Ho Hn Hb; [done|].
  rewrite Nat2Z.inj_succ, <- Z.add_1_r, seqZ_app by lia. rewrite for_each_app.
  rewrite IH by (intros; try apply Hb; lia || done). cbn [mbind outcome_bind].
  rewrite seqZ_cons by lia. cbn [for_each]. rewrite seqZ_nil by lia.
  destruct (lookup_lt_is_Some_2 new n ltac:(lia)) as [x Hx].
  destruct (lookup_lt_is_Some_2 old n ltac:(lia)) as [y Hy].
  rewrite (Hb n x) by (lia || done). cbn [mbind outcome_bind]. do 2 f_equal.
  rewrite (drop_S _ _ _ Hy), (take_S_r _ _ _ Hx).
  rewrite insert_app_r_alt by (rewrite length_take; lia).
  rewrite length_take, Nat.min_l, Nat.sub_diag by lia. cbn. by rewrite <- app_assoc.
Qed.

Lemma step_from_seqZ start step n : step_from start step n = (fun i => start + step * i) <$> seqZ 0 (Z.of_nat n).
Proof.
  revert start. induction n as [|n IH]; intros start; [done|]. cbn [step_from].
  rewrite seqZ_cons by lia. cbn [fmap list_fmap]. f_equal; [lia|]. rewrite IH.
  replace (Z.pred (Z.of_nat (S n))) with (Z.of_nat n) by lia. apply list_eq. intros i.
  rewrite !list_lookup_fmap. destruct (decide (i < n)%nat).
  - rewrite !lookup_seqZ_lt by lia. cbn. f_equal. lia.
  - by rewrite !lookup_seqZ_ge by lia.
Qed.

Lemma Forall_sublist {A} (Q : A -> Prop) (l1 l2 : list A) :
  Forall Q l2 -> l1 `sublist_of` l2 -> Forall Q l1.
Proof. intros H Hs. induction Hs; inversion_clear H; auto. Qed.

(** *** Little-endian numbers *)
Lemma le_val_range bs : bytes bs -> 0 <= le_val bs < 2 ^ (8 * Z.of_nat (length bs)).
Proof.
  induction 1 as [|b bs Hb _ IH]; cbn [le_val length]; [done|].
  unfold in_u in Hb.
  replace (8 * Z.of_nat (S (length bs))) with (8 + 8 * Z.of_nat (length bs)) by lia.
  rewrite Z.pow_add_r by lia. change (2 ^ 8) with 256 in *. lia.
Qed.

Lemma le_val_to_le_bytes n v : le_val (to_le_bytes n v) = v mod 2 ^ (8 * Z.of_nat n).
Proof.
  revert v. induction n as [|n IH]; intros v; cbn [to_le_bytes le_val].
  - by rewrite Z.mod_1_r.
  - rewrite IH. replace (8 * Z.of_nat (S n)) with (8 + 8 * Z.of_nat n) by lia.
    rewrite Z.pow_add_r by lia. change (2 ^ 8) with 256.
    rewrite Z.rem_mul_r by lia. done.
Qed.

Lemma length_to_le_bytes n v : length (to_le_bytes n v) = n.
Proof. revert v. induction n as [|n IH]; intros v; cbn; [done|]. by rewrite IH. Qed.

Lemma to_le_bytes_bytes n v : bytes (to_le_bytes n v).
Proof.
  revert v. induction n as [|n IH]; intros v; cbn; constructor; [|apply IH].
  unfold in_u. apply Z.mod_pos_bound. lia.
Qed.

Lemma to_le_bytes_le_val bs : bytes bs -> to_le_bytes (length bs) (le_val bs) = bs.
Proof.
  induction 1 as [|b bs Hb _ IH]; cbn [le_val length to_le_bytes]; [done|].
  unfold in_u in Hb. change (2 ^ 8) with 256 in Hb. f_equal.
  - rewrite Z.mul_comm, Z.mod_add by lia. by apply Z.mod_small.
  - rewrite Z.mul_comm, Z.div_add by lia. by rewrite Z.div_small, Z.add_0_l.
Qed.

Lemma le_val_app bs1 bs2 :
  le_val (bs1 ++ bs2) = le_val bs1 + 2 ^ (8 * Z.of_nat (length bs1)) * le_val bs2.
Proof.
  induction bs1 as [|b bs1 IH]; cbn [app le_val length]; [lia|].
  rewrite IH. replace (8 * Z.of_nat (S (length bs1))) with (8 + 8 * Z.of_nat (length bs1)) by lia.
  rewrite Z.pow_add_r by lia. change (2 ^ 8) with 256. lia.
Qed.

#[export] Hint Resolve to_le_bytes_bytes length_to_le_bytes : lobster.

(** ** Fields of packed structs *)

(** [n] bytes at the offset [off] as a little-endian number. *)
Definition field (b : list Z) (off n : nat) : Z := le_val (take n (drop off b)).

Lemma field_range b off n : bytes b -> (off + n <= length b)%nat -> in_u (8 * Z.of_nat n) (field b off n).
Proof.
  intros Hb Hl. unfold field, in_u. pose proof (le_val_range (take n (drop off b))) as H.
  rewrite length_take, length_drop, Nat.min_l in H by lia. by apply H, Forall_take, Forall_drop.
Qed.

Lemma field_bytes b off n :
  bytes b -> (off + n <= length b)%nat -> to_le_bytes n (field b off n) = take n (drop off b).
Proof.
  intros Hb Hl. unfold field.
  rewrite <- (to_le_bytes_le_val (take n (drop off b))) at 2 by by apply Forall_take, Forall_drop.
  by rewrite length_take, length_drop, Nat.min_l by lia.
Qed.

(** A field in front of the rest of the bytes. *)
Lemma field_glue (b : list Z) off n rest :
  rest = drop (off + n) b -> take n (drop off b) ++ rest = drop off b.
Proof. intros ->. rewrite <- drop_drop. apply take_drop. Qed.

(** ** Bits *)

Lemma testbit_high b n i : 0 <= b < 2 ^ n -> n <= i -> Z.testbit b i = false.
Proof.
  intros Hb Hi. destruct (decide (b = 0)) as [->|]; [apply Z.bits_0|].
  apply Z.bits_above_log2; [lia|]. apply Z.log2_lt_pow2; [lia|].
  eapply Z.lt_le_trans; [apply Hb|]. apply Z.pow_le_mono_r; lia.
Qed.

(** Putting a number in front of [n] low bits. *)
Lemma lor_shiftl a b n : 0 <= n -> 0 <= b < 2 ^ n -> Z.lor (Z.shiftl a n) b = a * 2 ^ n + b.
Proof.
  intros Hn Hb. rewrite <- (Z.shiftl_mul_pow2 a n) by done. rewrite <- Z.add_lor_land.
  assert (Z.land (Z.shiftl a n) b = 0) as ->; [|lia].
  apply Z.bits_inj'. intros i Hi. rewrite Z.land_spec, Z.bits_0.
  destruct (decide (i < n)).
  - by rewrite Z.shiftl_spec_low.
  - by rewrite (testbit_high b n i), andb_false_r by lia.
Qed.
