(* ===== verification/Asm.v ===== *)
(** * The part of x86-64 the kernel's inline assembly uses

    [src/src/process.rs] and [src/src/syscall.rs] switch contexts with inline
    assembly.  This file gives the instructions they use: register moves,
    pushes and pops, calls of Rust functions, [ret], [iretq], [sysretq], [sti]
    and [cli].  The stack is a store of 64-bit words; every access the code
    makes is to an aligned word, so words never overlap. *)
From S2P Require Import Prelude.

Inductive reg :=
| RAX | RBX | RCX | RDX | RSI | RDI | RBP | RSP
| R8 | R9 | R10 | R11 | R12 | R13 | R14 | R15.

#[global] Instance reg_eq_dec : EqDecision reg.
Proof. solve_decision. Defined.

Record machine := mkMachine {
  rf : reg -> Z;          (** general purpose registers *)
  mem : Z -> Z;           (** 64-bit words, by address *)
  rip : Z;
  int_flag : bool;        (** RFLAGS.IF *)
  cs : Z;
  ss : Z;
  cr3 : Z;                (** physical address of the active level 4 table *)
  cr3_flags : Z;
}.

Definition rset (r : reg) (v : Z) (f : reg -> Z) : reg -> Z :=
  fun r' => if decide (r = r') then v else f r'.
Definition mset (a v : Z) (f : Z -> Z) : Z -> Z :=
  fun a' => if decide (a = a') then v else f a'.

Definition set_rf (f : reg -> Z) (m : machine) : machine :=
  mkMachine f (mem m) (rip m) (int_flag m) (cs m) (ss m) (cr3 m) (cr3_flags m).
Definition set_mem (f : Z -> Z) (m : machine) : machine :=
  mkMachine (rf m) f (rip m) (int_flag m) (cs m) (ss m) (cr3 m) (cr3_flags m).
Definition set_rip (a : Z) (m : machine) : machine :=
  mkMachine (rf m) (mem m) a (int_flag m) (cs m) (ss m) (cr3 m) (cr3_flags m).
Definition set_int_flag (b : bool) (m : machine) : machine :=
  mkMachine (rf m) (mem m) (rip m) b (cs m) (ss m) (cr3 m) (cr3_flags m).
Definition set_segments (c s : Z) (m : machine) : machine :=
  mkMachine (rf m) (mem m) (rip m) (int_flag m) c s (cr3 m) (cr3_flags m).
Definition set_cr3 (a : Z) (m : machine) : machine :=
  mkMachine (rf m) (mem m) (rip m) (int_flag m) (cs m) (ss m) a (cr3_flags m).

Inductive instr :=
| Push (r : reg)
| PushImm (v : Z)
| Pop (r : reg)
| Mov (dst src : reg)
| MovImm (dst : reg) (v : Z)
| AddImm (dst : reg) (v : Z)
| Call (callee : machine -> machine) (** a Rust function, see [call] *)
| Retq
| Iretq
| Sysretq
| Sti
| Cli.

Definition push_word (v : Z) (m : machine) : machine :=
  let sp := wrap 64 (rf m RSP - 8) in
  set_rf (rset RSP sp (rf m)) (set_mem (mset sp v (mem m)) m).
Definition top_word (m : machine) : Z := mem m (rf m RSP).
Definition drop_word (m : machine) : machine :=
  set_rf (rset RSP (wrap 64 (rf m RSP + 8)) (rf m)) m.
Definition pop_to (r : reg) (m : machine) : machine :=
  let v := top_word m in
  let m := drop_word m in
  set_rf (rset r v (rf m)) m.

(** RFLAGS bit 9 is the interrupt flag. *)
Definition IF_BIT : Z := 9.

Definition iretq (m : machine) : machine :=
  let sp := rf m RSP in
  set_rf (rset RSP (mem m (wrap 64 (sp + 24))) (rf m))
    (set_segments (mem m (wrap 64 (sp + 8)) mod 2 ^ 16) (mem m (wrap 64 (sp + 32)) mod 2 ^ 16)
      (set_int_flag (Z.testbit (mem m (wrap 64 (sp + 16))) IF_BIT)
        (set_rip (mem m sp) m))).

(** [sysretq] returns to RCX with RFLAGS taken from R11.  The segments come
    from the STAR register, which [src/src/syscall.rs] writes once. *)
Definition sysretq (star : Z) (m : machine) : machine :=
  let base := Z.shiftr star 48 in
  set_segments (Z.lor (base + 16) 3) (Z.lor (base + 8) 3)
    (set_int_flag (Z.testbit (rf m R11) IF_BIT) (set_rip (rf m RCX) m)).

Definition step (star : Z) (i : instr) (m : machine) : machine :=
  match i with
  | Push r => push_word (rf m r) m
  | PushImm v => push_word v m
  | Pop r => pop_to r m
  | Mov d s => set_rf (rset d (rf m s) (rf m)) m
  | MovImm d v => set_rf (rset d v (rf m)) m
  | AddImm d v => set_rf (rset d (wrap 64 (rf m d + v)) (rf m)) m
  | Call callee => callee m
  | Retq => let v := top_word m in set_rip v (drop_word m)
  | Iretq => iretq m
  | Sysretq => sysretq star m
  | Sti => set_int_flag true m
  | Cli => set_int_flag false m
  end.

Definition exec (star : Z) (code : list instr) (m : machine) : machine :=
  foldl (fun m i => step star i m) m code.

(** The registers the System V calling convention makes a callee preserve. *)
Definition callee_saved : list reg := [RBX; RBP; RSP; R12; R13; R14; R15].
(** The registers that carry the first six integer arguments. *)
Definition argument_regs : list reg := [RDI; RSI; RDX; RCX; R8; R9].

(** What a caller may assume of a [call] of a C function: it comes back with
    the callee-saved registers as they were and without having written the
    words at or above the caller's stack pointer that are listed in [keep]. *)
Record abi_preserving (keep : list Z) (m m' : machine) : Prop := {
  abi_regs : forall r, r ∈ callee_saved -> rf m' r = rf m r;
  abi_mem : forall a, a ∈ keep -> mem m' a = mem m a;
}.

Lemma rset_eq r v f : rset r v f r = v.
Proof. unfold rset. by rewrite decide_True. Qed.
Lemma rset_ne r r' v f : r <> r' -> rset r v f r' = f r'.
Proof. intros. unfold rset. by rewrite decide_False. Qed.
Lemma mset_eq a v f : mset a v f a = v.
Proof. unfold mset. by rewrite decide_True. Qed.
Lemma mset_ne a a' v f : a <> a' -> mset a v f a' = f a'.
Proof. intros. unfold mset. by rewrite decide_False. Qed.

(** Rewrites the reads of registers and stack words that were just written. *)
Ltac asm_simpl :=
  repeat first
    [ rewrite rset_eq
    | rewrite rset_ne by discriminate
    | rewrite mset_eq
    | rewrite mset_ne by (unfold wrap in *; lia)
    | progress cbn [rf mem rip int_flag cs ss cr3 cr3_flags set_rf set_mem set_rip set_int_flag
        set_segments set_cr3] ].

(** The effect of the moves on the registers; all else is unchanged. *)
Lemma exec_cons star i code m : exec star (i :: code) m = exec star code (step star i m).
Proof. done. Qed.
Lemma exec_nil star m : exec star [] m = m.
Proof. done. Qed.

(** Splits a membership in a list of registers. *)
Ltac reg_cases H := repeat (apply elem_of_cons in H as [->|H]); [..|by apply elem_of_nil in H].

(** Decides a closed statement about lists of registers. *)
Ltac reg_decide := match goal with |- ?Q => apply (bool_decide_unpack Q); vm_compute; exact I end.

(** Pushes and pops at a known stack pointer. *)
Definition push_at (sp v : Z) (m : machine) : machine :=
  set_rf (rset RSP (sp - 8) (rf m)) (set_mem (mset (sp - 8) v (mem m)) m).
Definition pop_at (sp : Z) (r : reg) (m : machine) : machine :=
  set_rf (rset r (mem m sp) (rset RSP (sp + 8) (rf m))) m.

Lemma push_word_at sp v m :
  rf m RSP = sp -> 8 <= sp < 2 ^ 64 -> push_word v m = push_at sp v m.
Proof.
  intros <- H. unfold push_word, push_at.
  by rewrite wrap_small by range.
Qed.
Lemma pop_to_at sp r m :
  rf m RSP = sp -> 0 <= sp < 2 ^ 64 - 8 -> pop_to r m = pop_at sp r m.
Proof.
  intros <- H. unfold pop_to, pop_at, drop_word, top_word. cbn.
  by rewrite wrap_small by range.
Qed.

Lemma rf_push_at sp v m : rf (push_at sp v m) = rset RSP (sp - 8) (rf m).
Proof. done. Qed.
Lemma mem_push_at sp v m : mem (push_at sp v m) = mset (sp - 8) v (mem m).
Proof. done. Qed.
Lemma rf_pop_at sp r m : rf (pop_at sp r m) = rset r (mem m sp) (rset RSP (sp + 8) (rf m)).
Proof. done. Qed.
Lemma mem_pop_at sp r m : mem (pop_at sp r m) = mem m.
Proof. done. Qed.
Lemma rf_set_rf f m : rf (set_rf f m) = f.
Proof. done. Qed.
Lemma mem_set_rf f m : mem (set_rf f m) = mem m.
Proof. done. Qed.
Lemma rf_set_int_flag b m : rf (set_int_flag b m) = rf m.
Proof. done. Qed.
Lemma mem_set_int_flag b m : mem (set_int_flag b m) = mem m.
Proof. done. Qed.
Create Rewrite HintDb asm.
#[export] Hint Rewrite rf_push_at mem_push_at rf_pop_at mem_pop_at rf_set_rf mem_set_rf
  rf_set_int_flag mem_set_int_flag : asm.

(** Reads of a machine built by [push_at], [pop_at] and [set_rf]. *)
Ltac asm_read :=
  repeat first
    [ progress autorewrite with asm
    | rewrite rset_eq
    | rewrite rset_ne by discriminate
    | rewrite mset_eq
    | rewrite mset_ne by lia ].

(** Executes the next instruction, a push or a pop at the stack pointer [sp]. *)
Ltac asm_push sp :=
  rewrite exec_cons; cbn [step];
  rewrite (push_word_at sp) by first [asm_read; lia | asm_read; done | lia].
Ltac asm_pop sp :=
  rewrite exec_cons; cbn [step];
  rewrite (pop_to_at sp) by first [asm_read; lia | asm_read; done | lia].

(** ** Sequences of pushes and pops *)

Lemma exec_app star c1 c2 m : exec star (c1 ++ c2) m = exec star c2 (exec star c1 m).
Proof. apply foldl_app. Qed.

(** Everything but registers and memory. *)
Definition same_control (m m' : machine) : Prop :=
  rip m' = rip m /\ int_flag m' = int_flag m /\ cs m' = cs m /\ ss m' = ss m /\ cr3 m' = cr3 m.

Record pushed (rs : list reg) (m m' : machine) : Prop := {
  pushed_rsp : rf m' RSP = rf m RSP - 8 * Z.of_nat (length rs);
  pushed_regs : forall r, r <> RSP -> rf m' r = rf m r;
  pushed_words : forall i r, rs !! i = Some r -> mem m' (rf m RSP - 8 * (Z.of_nat i + 1)) = rf m r;
  pushed_above : forall a, rf m RSP <= a -> mem m' a = mem m a;
  pushed_control : same_control m m';
}.

Lemma exec_pushes star rs m :
  8 * Z.of_nat (length rs) <= rf m RSP < 2 ^ 64 -> RSP ∉ rs ->
  pushed rs m (exec star (Push <$> rs) m).
Proof.
  revert m. induction rs as [|r rs IH]; intros m Hsp Hr.
  { split; [cbn; lia|done..]. }
  apply not_elem_of_cons in Hr as [Hr Hrs]. cbn [length] in Hsp. cbn [fmap list_fmap].
  rewrite exec_cons. cbn [step]. rewrite (push_word_at (rf m RSP)) by (done || lia).
  set (m1 := push_at (rf m RSP) (rf m r) m).
  assert (H1 : rf m1 RSP = rf m RSP - 8) by (unfold m1; by asm_read).
  destruct (IH m1) as [Hp1 Hp2 Hp3 Hp4 Hp5]; [rewrite H1; lia|done|]. rewrite H1 in *. split.
  - rewrite Hp1. cbn [length]. lia.
  - intros r' Hr'. rewrite Hp2 by done. unfold m1. autorewrite with asm. by rewrite rset_ne.
  - intros [|i] r' Hi; cbn in Hi.
    + injection Hi as <-. rewrite Hp4 by lia. unfold m1. autorewrite with asm.
      replace (_ - 8 * _) with (rf m RSP - 8) by lia. by rewrite mset_eq.
    + replace (rf m RSP - _) with (rf m RSP - 8 - 8 * (Z.of_nat i + 1)) by lia.
      rewrite (Hp3 i r') by done. unfold m1. autorewrite with asm. rewrite rset_ne; [done|].
      intros <-. apply Hrs. by eapply list_elem_of_lookup_2.
  - intros a Ha. rewrite Hp4 by lia. unfold m1. autorewrite with asm. by rewrite mset_ne by lia.
  - exact Hp5.
Qed.

Lemma exec_pushes_below star rs m a :
  8 * Z.of_nat (length rs) <= rf m RSP < 2 ^ 64 -> a < rf m RSP - 8 * Z.of_nat (length rs) ->
  mem (exec star (Push <$> rs) m) a = mem m a.
Proof.
  revert m. induction rs as [|r rs IH]; intros m Hsp Ha; [done|]. cbn [length] in *. cbn [fmap list_fmap].
  rewrite exec_cons. cbn [step]. rewrite (push_word_at (rf m RSP)) by (done || lia).
  rewrite IH; autorewrite with asm; rewrite ?rset_eq; [by rewrite mset_ne by lia|lia..].
Qed.

Record popped (rs : list reg) (m m' : machine) : Prop := {
  popped_rsp : rf m' RSP = rf m RSP + 8 * Z.of_nat (length rs);
  popped_regs : forall i r, rs !! i = Some r -> rf m' r = mem m (rf m RSP + 8 * Z.of_nat i);
  popped_others : forall r, r ∉ rs -> r <> RSP -> rf m' r = rf m r;
  popped_mem : mem m' = mem m;
  popped_control : same_control m m';
}.

Lemma exec_pops star rs m :
  0 <= rf m RSP -> rf m RSP + 8 * Z.of_nat (length rs) < 2 ^ 64 -> NoDup rs -> RSP ∉ rs ->
  popped rs m (exec star (Pop <$> rs) m).
Proof.
  revert m. induction rs as [|r rs IH]; intros m H0 Hsp Hnd Hr.
  { split; [cbn; lia|done..]. }
  apply not_elem_of_cons in Hr as [Hr Hrs]. apply NoDup_cons in Hnd as [Hnr Hnd].
  cbn [length] in Hsp. cbn [fmap list_fmap]. rewrite exec_cons. cbn [step].
  rewrite (pop_to_at (rf m RSP)) by (done || lia).
  set (m1 := pop_at (rf m RSP) r m).
  assert (H1 : rf m1 RSP = rf m RSP + 8).
  { unfold m1. autorewrite with asm. by rewrite rset_ne, rset_eq by congruence. }
  assert (H2 : mem m1 = mem m) by done.
  destruct (IH m1) as [Hp1 Hp2 Hp3 Hp4 Hp5]; [lia|lia|done|done|]. rewrite H1, H2 in *. split.
  - rewrite Hp1. cbn [length]. lia.
  - intros [|i] r' Hi; cbn in Hi.
    + injection Hi as <-. rewrite Hp3 by done. unfold m1. autorewrite with asm.
      rewrite rset_eq. f_equal. lia.
    + rewrite (Hp2 i) by done. f_equal. lia.
  - intros r' Hr'%not_elem_of_cons Hne. destruct Hr' as [Hn1 Hn2]. rewrite Hp3 by done.
    unfold m1. autorewrite with asm. by rewrite !rset_ne by congruence.
  - done.
  - exact Hp5.
Qed.
