(* ===== verification/Context.v ===== *)
(** * Context switches of a process

    The state of a process ([struct Process], [struct ProcessState]) and the
    three routines of [src/src/process.rs] that save and restore a CPU
    context: [deactivate], [activate] and [switch_to_usermode].  Together
    they work like [setjmp] and [longjmp]: [deactivate] returns [false] when
    it saves the context, and [true] when [activate] jumps back into it. *)
From S2P Require Import Prelude Asm.

Definition USERSPACE_VIRT_BASE : Z := 0x400000.
Definition USERSPACE_STACK : Z := 0x810000.
Definition USERSPACE_STACK_BASE : Z := 0x800000.

Record ProcessState := mkProcessState {
  st_rbx : Z; st_rbp : Z; st_r12 : Z; st_r13 : Z; st_r14 : Z; st_r15 : Z; st_rsp : Z;
}.

(** The level 4 table is its 512 raw entries. *)
Record Process := mkProcess {
  page_table : list Z;
  process_state : option ProcessState;
  page_table_addr : Z;
  entry_offset : Z;
  regions : list Z;
}.

(** [PhysFrame::containing_address] for 4 KiB frames. *)
Definition containing_frame (a : Z) : Z := a - a mod 4096.

(** [asm!("mov rcx, r", out("rcx") v)]: reads [r], leaving it in RCX. *)
Definition read_via_rcx (r : reg) (m : machine) : Z * machine :=
  let m := set_rf (rset RCX (rf m r) (rf m)) m in
  (rf m RCX, m).

(** [asm!("mov r, rcx", in("rcx") v)]: writes [v] to [r] through RCX. *)
Definition write_via_rcx (r : reg) (v : Z) (m : machine) : machine :=
  exec 0 [MovImm RCX v; Mov r RCX] m.

Definition set_process_state (st : option ProcessState) (p : Process) : Process :=
  mkProcess (page_table p) st (page_table_addr p) (entry_offset p) (regions p).

Definition deactivate (p : Process) (m : machine) : Process * machine * bool :=
  let '(rbx, m) := read_via_rcx RBX m in
  let '(rbp, m) := read_via_rcx RBP m in
  let '(r12, m) := read_via_rcx R12 m in
  let '(r13, m) := read_via_rcx R13 m in
  let '(r14, m) := read_via_rcx R14 m in
  let '(r15, m) := read_via_rcx R15 m in
  let '(rsp, m) := read_via_rcx RSP m in
  (set_process_state (Some (mkProcessState rbx rbp r12 r13 r14 r15 rsp)) p, m, false).

(** The stack offset that [activate] hard-codes for the frame of [deactivate]. *)
Definition DEACTIVATE_FRAME : Z := 0xc8.

(** Writing a register through RCX changes these two registers only. *)
Lemma write_via_rcx_set r v m : write_via_rcx r v m = set_rf (rset r v (rset RCX v (rf m))) m.
Proof. unfold write_via_rcx. cbn. by rewrite rset_eq. Qed.
Lemma set_rf_set_rf f g m : set_rf f (set_rf g m) = set_rf f m.
Proof. done. Qed.

Section usermode.
(** [gdt::set_usermode_segments]: the code and data selectors it returns. *)
Context (user_segments : Z * Z).

Definition switch_to_usermode (p : Process) (m : machine) : machine :=
  let '(cs_index, ds_index) := user_segments in
  let m := exec 0 [MovImm RDI (entry_offset p); MovImm RSI USERSPACE_STACK;
                   MovImm RDX cs_index; MovImm RAX ds_index] m in
  exec 0 [Push RAX; Push RSI; PushImm 0x200; Push RDX; Push RDI; Iretq] m.

(** The result is the machine after the jump: into the resumed context, or
    into user mode for a process that has not run yet. *)
Definition activate (p : Process) (m : machine) : machine :=
  let m := set_cr3 (containing_frame (page_table_addr p)) m in
  let m := set_int_flag true m in
  match process_state p with
  | Some st =>
      let m := write_via_rcx RBX (st_rbx st) m in
      let m := write_via_rcx RBP (st_rbp st) m in
      let m := write_via_rcx R12 (st_r12 st) m in
      let m := write_via_rcx R13 (st_r13 st) m in
      let m := write_via_rcx R14 (st_r14 st) m in
      let m := write_via_rcx R15 (st_r15 st) m in
      let m := write_via_rcx RSP (st_rsp st) m in
      exec 0 [MovImm RAX 1; AddImm RSP DEACTIVATE_FRAME; Retq] m
  | None => switch_to_usermode p m
  end.

Lemma activate_cr3 p m : cr3 (activate p m) = containing_frame (page_table_addr p).
Proof.
  unfold activate, switch_to_usermode. destruct user_segments as [c d].
  by destruct (process_state p).
Qed.

Lemma deactivate_false p m : (deactivate p m).2 = false.
Proof. done. Qed.

Lemma deactivate_process p m :
  (deactivate p m).1.1 =
  set_process_state (Some (mkProcessState (rf m RBX) (rf m RBP) (rf m R12) (rf m R13)
    (rf m R14) (rf m R15) (rf m RSP))) p.
Proof. done. Qed.

(** A saved context is entered at the return of its call of [deactivate]. *)
Lemma activate_saved p m m' ret_addr :
  0 <= rf m RSP -> rf m RSP + DEACTIVATE_FRAME + 8 < 2 ^ 64 ->
  mem m' (rf m RSP + DEACTIVATE_FRAME) = ret_addr ->
  let m2 := activate (deactivate p m).1.1 m' in
  rip m2 = ret_addr /\
  rf m2 RAX = 1 /\
  rf m2 RSP = rf m RSP + DEACTIVATE_FRAME + 8 /\
  (forall r, r ∈ [RBX; RBP; R12; R13; R14; R15] -> rf m2 r = rf m r) /\
  cr3 m2 = containing_frame (page_table_addr p) /\
  int_flag m2 = true /\
  mem m2 = mem m' /\ cs m2 = cs m' /\ ss m2 = ss m'.
Proof.
  intros H0 H1 Hret m2. subst m2. rewrite deactivate_process. unfold activate.
  cbn [process_state set_process_state st_rbx st_rbp st_r12 st_r13 st_r14 st_r15 st_rsp
    page_table_addr].
  rewrite !write_via_rcx_set, !rf_set_rf, !set_rf_set_rf.
  match goal with |- context [set_rf ?f _] => set (g := f) end.
  assert (Hg : forall r, r ∈ [RBX; RBP; R12; R13; R14; R15; RSP] -> g r = rf m r).
  { intros r Hr. unfold g. reg_cases Hr; by asm_simpl. }
  clearbody g. unfold exec, step, top_word, drop_word, DEACTIVATE_FRAME in *. cbn [foldl].
  asm_simpl. rewrite (Hg RSP) by set_solver.
  rewrite !wrap_small by range.
  split_and!; try done.
  intros r Hr. reg_cases Hr; asm_simpl; apply Hg; set_solver.
Qed.

(** C15: [activate] after [deactivate] comes back from that call of
    [deactivate] with the result [true]. *)
Theorem deactivate_activate_roundtrip p m m' ret_addr :
  0 <= rf m RSP -> rf m RSP + DEACTIVATE_FRAME + 8 < 2 ^ 64 ->
  mem m' (rf m RSP + DEACTIVATE_FRAME) = ret_addr ->
  let m2 := activate (deactivate p m).1.1 m' in
  rip m2 = ret_addr /\
  rf m2 RAX = 1 /\
  rf m2 RSP = rf m RSP + DEACTIVATE_FRAME + 8 /\
  (forall r, r ∈ [RBX; RBP; R12; R13; R14; R15] -> rf m2 r = rf m r) /\
  cr3 m2 = containing_frame (page_table_addr p) /\
  int_flag m2 = true /\
  mem m2 = mem m'.
Proof.
  intros H0 H1 Hret. destruct (activate_saved p m m' ret_addr H0 H1 Hret) as (?&?&?&?&?&?&?&_). by split_and!.
Qed.

(** A process that has not run yet starts at its entry point, in
    user mode, on the user stack, with interrupts enabled. *)
Lemma activate_first_run p m cs_index ds_index :
  user_segments = (cs_index, ds_index) ->
  in_u 16 cs_index -> in_u 16 ds_index ->
  process_state p = None -> 40 <= rf m RSP < 2 ^ 64 ->
  let m2 := activate p m in
  rip m2 = entry_offset p /\ rf m2 RSP = USERSPACE_STACK /\ int_flag m2 = true /\
  cs m2 = cs_index /\ ss m2 = ds_index /\ cr3 m2 = containing_frame (page_table_addr p).
Proof.
  intros Hu Hc Hd Hp Hsp m2. subst m2. unfold activate. rewrite Hp.
  match goal with |- context [switch_to_usermode p ?x] => set (n := x) end.
  assert (Hn : rf n RSP = rf m RSP) by done.
  assert (Hcr : cr3 n = containing_frame (page_table_addr p)) by done.
  clearbody n. unfold switch_to_usermode. rewrite Hu.
  set (code := [Push RAX; _; _; _; _; _]).
  rewrite !exec_cons, !exec_nil. cbn [step]. rewrite !rf_set_rf, !set_rf_set_rf.
  set (sp := rf m RSP) in *. subst code.
  asm_push sp. asm_push (sp - 8). asm_push (sp - 8 - 8). asm_push (sp - 8 - 8 - 8).
  asm_push (sp - 8 - 8 - 8 - 8). rewrite exec_cons, exec_nil. cbn [step].
  unfold iretq. cbn [rip int_flag cs ss cr3 set_rf set_segments set_int_flag set_rip rf].
  asm_read. rewrite !wrap_small by range.
  replace (sp - 8 - 8 - 8 - 8 - 8 + 8) with (sp - 8 - 8 - 8 - 8) by lia.
  replace (sp - 8 - 8 - 8 - 8 - 8 + 16) with (sp - 8 - 8 - 8) by lia.
  replace (sp - 8 - 8 - 8 - 8 - 8 + 24) with (sp - 8 - 8) by lia.
  replace (sp - 8 - 8 - 8 - 8 - 8 + 32) with (sp - 8) by lia.
  asm_read. rewrite !Z.mod_small by range. done.
Qed.
End usermode.

(** A machine with the stack pointer [sp] and the word [v] at the address [a]. *)
Definition example_machine (sp a v : Z) : machine :=
  mkMachine (rset RSP sp (fun _ => 7)) (mset a v (fun _ => 0)) 0 false 8 16 0x1000 0.
Definition example_process : Process := mkProcess [] None 0x5123 0x400000 [].

Lemma deactivate_activate_roundtrip_witness :
  let m := example_machine 0x1000 0 0 in
  let m' := example_machine 0x8000 0x10c8 0xabc in
  let m2 := activate (0x33, 0x2b) (deactivate example_process m).1.1 m' in
  rip m2 = 0xabc /\ rf m2 RAX = 1 /\ rf m2 RSP = 0x10d0.
Proof.
  intros m m' m2.
  destruct (deactivate_activate_roundtrip (0x33, 0x2b) example_process m m' 0xabc)
    as (H1 & H2 & H3 & _); [done|done|done|]. split_and!; [exact H1|exact H2|exact H3].
Defined.
