(* ===== verification/Scheduler.v ===== *)
(** * The round-robin scheduler

    [src/src/threading/scheduler.rs]: the task queue, the timer tick, the
    operations that block, end and add tasks, and the search for the next
    task.  The scheduler is shared behind a spin lock and switches CPU
    contexts, so the operations that switch also take the lock bit and the
    machine. *)
From S2P Require Import Prelude Asm Context.

Definition QUANTUM : Z := 20.
Definition USIZE_MAX : Z := 2 ^ 64 - 1.

Inductive TaskState := READY | RUNNING | WAITING | DONE.
#[global] Instance TaskState_eq_dec : EqDecision TaskState.
Proof. solve_decision. Defined.

Record Task := mkTask { state : TaskState; process : Process; pid : Z }.

Record Scheduler := mkScheduler {
  tasks : list Task;
  current_task_ticks : Z;
  next_task_id : Z;
  current_task : Z;
  is_enabled : bool;
}.

Inductive TaskKillError := DoesNotExist.

(** The value the static [SCHEDULER] starts with. *)
Definition SCHEDULER : Scheduler := mkScheduler [] 0 0 (USIZE_MAX - 1) false.

(** What the scheduler acts on beside its own state: the CPU and the lock of
    [SCHEDULER]. *)
Record World := mkWorld { cpu : machine; sched_locked : bool }.

Definition set_state (st : TaskState) (t : Task) : Task := mkTask st (process t) (pid t).
Definition set_process (p : Process) (t : Task) : Task := mkTask (state t) p (pid t).
Definition set_tasks (l : list Task) (s : Scheduler) : Scheduler :=
  mkScheduler l (current_task_ticks s) (next_task_id s) (current_task s) (is_enabled s).
Definition set_ticks (n : Z) (s : Scheduler) : Scheduler :=
  mkScheduler (tasks s) n (next_task_id s) (current_task s) (is_enabled s).
Definition set_next_task_id (n : Z) (s : Scheduler) : Scheduler :=
  mkScheduler (tasks s) (current_task_ticks s) n (current_task s) (is_enabled s).
Definition set_current (c : Z) (s : Scheduler) : Scheduler :=
  mkScheduler (tasks s) (current_task_ticks s) (next_task_id s) c (is_enabled s).

(** [if let Some(task) = self.tasks.get_mut(i) { f(task) }] *)
Definition with_task (i : Z) (f : Task -> Task) (s : Scheduler) : Scheduler :=
  match get (tasks s) i with
  | Some t => set_tasks (<[Z.to_nat i := f t]> (tasks s)) s
  | None => s
  end.

Definition running_msg : string := "Process falsely claims to be running".

Section scheduler.
Context {P : Profile}.
Context (user_segments : Z * Z).

Definition enable (s : Scheduler) : Scheduler :=
  mkScheduler (tasks s) (current_task_ticks s) (next_task_id s) (current_task s) true.

(** The [loop] of [get_next_task]. *)
Fixpoint get_next_task_loop (fuel : nat) (s : Scheduler) : outcome (Z * Scheduler) :=
  match fuel with
  | O => NoFuel
  | S fuel =>
      c ← add_u 64 (current_task s) 1;
      let c := if Z.of_nat (length (tasks s)) <=? c then 0 else c in
      let s := set_current c s in
      match get (tasks s) c with
      | Some task =>
          match state task with
          | DONE =>
              let s := set_tasks (delete (Z.to_nat c) (tasks s)) s in
              c' ← sub_u 64 (current_task s) 1;
              get_next_task_loop fuel (set_current c' s)
          | WAITING => get_next_task_loop fuel s
          | RUNNING => Panic running_msg
          | READY => Ret (current_task s, s)
          end
      | None => get_next_task_loop fuel s
      end
  end.

Definition get_next_task (fuel : nat) (s : Scheduler) : outcome (Z * Scheduler) :=
  match tasks s with
  | [] => Ret (USIZE_MAX, s)
  | _ => get_next_task_loop fuel s
  end.

(** The boolean says whether control was handed to a process: then nothing
    after the call of [activate] runs. *)
Definition swap_tasks (fuel : nat) (s : Scheduler) (w : World)
    : outcome (Scheduler * World * bool) :=
  let '(s, w, is_resumed) :=
    match get (tasks s) (current_task s) with
    | Some t =>
        let '(p, m, is_resumed) := deactivate (process t) (cpu w) in
        (with_task (current_task s) (set_process p) s, mkWorld m (sched_locked w), is_resumed)
    | None => (s, w, false)
    end in
  if (is_resumed : bool) then Ret (s, w, false) else
  let s := set_ticks 0 s in
  '(_, s) ← get_next_task fuel s;
  match get (tasks s) (current_task s) with
  | Some next_task =>
      let s := with_task (current_task s) (set_state RUNNING) s in
      Ret (s, mkWorld (activate user_segments (process next_task) (cpu w)) false, true)
  | None => Ret (s, w, false)
  end.

Definition tick (fuel : nat) (s : Scheduler) (w : World)
    : outcome (Scheduler * World * bool) :=
  if negb (is_enabled s) then Ret (s, w, false) else
  t ← add_u 32 (current_task_ticks s) 1;
  let s := set_ticks t s in
  if QUANTUM <=? current_task_ticks s then
    let s := with_task (current_task s) (set_state READY) s in
    swap_tasks fuel s w
  else Ret (s, w, false).

Definition block_current (fuel : nat) (s : Scheduler) (w : World)
    : outcome (Scheduler * World * bool) :=
  let s := with_task (current_task s) (set_state WAITING) s in
  swap_tasks fuel s w.

Definition push_task (p : Process) (s : Scheduler) : outcome (Z * Scheduler) :=
  n ← add_u 64 (next_task_id s) 1;
  let s := set_next_task_id n s in
  let id := next_task_id s in
  let s := set_tasks (tasks s ++ [mkTask READY p id]) s in
  n ← add_u 64 (next_task_id s) 1;
  Ret (id, set_next_task_id n s).

(** [iter_mut().find(..)] and the assignment to the task found. *)
Fixpoint mark_done (id : Z) (l : list Task) : option (list Task) :=
  match l with
  | [] => None
  | t :: l =>
      if pid t =? id then Some (set_state DONE t :: l)
      else (fun l' => t :: l') <$> mark_done id l
  end.

Definition end_task (id : Z) (s : Scheduler) : result unit TaskKillError * Scheduler :=
  match mark_done id (tasks s) with
  | Some l => (Ok tt, set_tasks l s)
  | None => (Err DoesNotExist, s)
  end.

(** When no task takes over, the code halts in [hlt_loop]: the result is
    then the state it halts in. *)
Definition end_current_task (fuel : nat) (s : Scheduler) (w : World)
    : outcome (Scheduler * World * bool) :=
  _ ← expect "failed to get current task" (get (tasks s) (current_task s));
  let s := with_task (current_task s) (set_state DONE) s in
  swap_tasks fuel s w.
End scheduler.
