(* ===== verification/SchedulerInv.v ===== *)
(** * The invariant of the scheduler

    Process ids are unique, the current index is valid, and no task but the
    current one is marked running.  Every operation keeps the invariant, and
    from it the panic of [get_next_task] about a task that falsely claims to
    be running cannot happen. *)
From S2P Require Import Prelude Asm Context Scheduler SchedulerSpec.

(** What holds of the identifiers and of the current index at all times. *)
Record shape (s : Scheduler) : Prop := {
  shape_ids : 2 * Z.of_nat (length (tasks s)) <= next_task_id s < 2 ^ 64;
  shape_range : Forall (fun t => 0 < pid t < next_task_id s) (tasks s);
  shape_nodup : NoDup (pid <$> tasks s);
  shape_cur : current_task s = USIZE_MAX - 1 \/
    0 <= current_task s < Z.of_nat (length (tasks s));
}.

Definition only_current_runs (s : Scheduler) : Prop :=
  forall i t, tasks s !! i = Some t -> state t = RUNNING -> Z.of_nat i = current_task s.
Definition nothing_runs (s : Scheduler) : Prop := Forall (fun t => state t <> RUNNING) (tasks s).

Record wf (s : Scheduler) : Prop := {
  wf_shape : shape s;
  wf_ticks : 0 <= current_task_ticks s < QUANTUM;
  wf_running : only_current_runs s;
}.

(** What a list of tasks may become while its identities stay the same. *)
Lemma shape_same_pids s s' :
  shape s -> pid <$> tasks s' = pid <$> tasks s -> next_task_id s' = next_task_id s ->
  current_task s' = current_task s -> shape s'.
Proof.
  intros [Hi Hr Hn Hc] Hp Hid Hcur.
  assert (Hlen : length (tasks s') = length (tasks s)).
  { by rewrite <- (length_fmap pid (tasks s')), Hp, length_fmap. }
  split; rewrite ?Hlen, ?Hid, ?Hcur, ?Hp; try done.
  apply (Forall_fmap pid (fun i => 0 < i < next_task_id s)). rewrite Hp.
  by apply Forall_fmap.
Qed.

Section with_task.
Context (i : Z) (f : Task -> Task) (Hf : forall t, pid (f t) = pid t).

Lemma with_task_pids s : pid <$> tasks (with_task i f s) = pid <$> tasks s.
Proof using Hf.
  unfold with_task. destruct (get (tasks s) i) as [t|] eqn:Ht; [|done].
  apply get_Some in Ht as [_ Ht]. cbn. rewrite list_fmap_insert, Hf.
  apply list_insert_id. by rewrite list_lookup_fmap, Ht.
Qed.

Lemma with_task_shape s : shape s -> shape (with_task i f s).
Proof using Hf.
  intros Hs. apply (shape_same_pids s); [done|apply with_task_pids|..];
    unfold with_task; by destruct (get _ _).
Qed.
End with_task.

Lemma with_task_fields i f s :
  current_task (with_task i f s) = current_task s /\
  current_task_ticks (with_task i f s) = current_task_ticks s /\
  next_task_id (with_task i f s) = next_task_id s /\
  is_enabled (with_task i f s) = is_enabled s.
Proof. unfold with_task. by destruct (get _ _). Qed.

Lemma with_task_length i f s : length (tasks (with_task i f s)) = length (tasks s).
Proof. unfold with_task. destruct (get _ _); cbn; by rewrite ?length_insert. Qed.

Lemma with_task_current i f s : current_task (with_task i f s) = current_task s.
Proof. apply with_task_fields. Qed.

(** Where the tasks of the new list come from. *)
Lemma with_task_lookup i f s j t :
  tasks (with_task i f s) !! j = Some t ->
  (Z.of_nat j = i /\ exists t0, tasks s !! j = Some t0 /\ t = f t0) \/
  (Z.of_nat j <> i \/ get (tasks s) i = None) /\ tasks s !! j = Some t.
Proof.
  unfold with_task. destruct (get (tasks s) i) as [t0|] eqn:Ht0; [|by auto].
  apply get_Some in Ht0 as [Hi Ht0]. cbn. rewrite list_lookup_insert_Some.
  intros [(<- & <- & _)|[Hne Ht]].
  - left. rewrite Z2Nat.id by lia. eauto.
  - right. split; [|done]. left. lia.
Qed.

(** Taking the running mark from the current task leaves none running. *)
Lemma stop_current s st :
  only_current_runs s -> st <> RUNNING ->
  nothing_runs (with_task (current_task s) (set_state st) s).
Proof.
  intros Hr Hst. apply Forall_lookup. intros j t Hj Ht.
  apply with_task_lookup in Hj as [(_ & t0 & _ & ->)|[Hne Hj]]; [done|].
  pose proof (Hr _ _ Hj Ht) as Hcur. pose proof (lookup_lt_Some _ _ _ Hj).
  destruct Hne as [?|Hn]; [done|]. rewrite <- Hcur, get_nat in Hn. congruence.
Qed.

Lemma shape_index_ok s : shape s -> index_ok s.
Proof.
  intros [Hi _ _ Hc]. unfold index_ok, small, USIZE_MAX in *. lia.
Qed.

Section search.
Context {P : Profile}.

(** What the search does, whatever its result. *)
Lemma loop_result fuel s :
  nothing_runs s ->
  match get_next_task_loop fuel s with
  | Ret (c, s') =>
      tasks s' `sublist_of` tasks s /\ same_rest s s' /\ current_task s' = c /\
      exists r, get (tasks s') c = Some r /\ state r = READY
  | Panic why => why <> running_msg
  | NoFuel => True
  end.
Proof.
  revert s. induction fuel as [|fuel IH]; intros s Hs; cbn [get_next_task_loop]; [done|].
  destruct (add_u 64 (current_task s) 1) as [c0|w|] eqn:Hadd; cbn [mbind outcome_bind]; [|..].
  2: { unfold add_u, arith in Hadd. destruct (fits _ _), overflow_checks; by simplify_eq. }
  2: done.
  cbn [tasks set_current]. set (c := if _ <=? c0 then 0 else c0).
  destruct (get (tasks s) c) as [t|] eqn:Ht; [|by apply (IH (set_current c s))].
  destruct (state t) eqn:Hst.
  - split_and!; [done..|]. exists t. done.
  - apply get_Some in Ht as [_ Ht]. by destruct (Forall_lookup_1 _ _ _ _ Hs Ht).
  - by apply (IH (set_current c s)).
  - cbn [current_task set_tasks set_current].
    destruct (sub_u 64 c 1) as [c'|w|] eqn:Hsub; cbn [mbind outcome_bind]; [|..].
    2: { unfold sub_u, arith in Hsub. destruct (fits _ _), overflow_checks; by simplify_eq. }
    2: done.
    set (s1 := set_current c' _). specialize (IH s1).
    destruct (get_next_task_loop fuel s1) as [[c1 s']|w|]; [|by apply IH, Forall_delete|done].
    destruct IH as (Hsub' & Hrest & Hc1 & Hr1); [by apply Forall_delete|].
    split_and!; [|done..]. etrans; [done|]. apply sublist_delete.
Qed.
End search.

Lemma shape_sublist s s' :
  shape s -> tasks s' `sublist_of` tasks s -> same_rest s s' ->
  0 <= current_task s' < Z.of_nat (length (tasks s')) -> shape s'.
Proof.
  intros [Hi Hr Hn Hc] Hsub (_ & Hid & _) Hcur.
  pose proof (sublist_length _ _ Hsub). split; rewrite ?Hid.
  - lia.
  - by eapply Forall_sublist.
  - eapply sublist_NoDup; [done|]. by apply fmap_sublist.
  - by right.
Qed.

Lemma nothing_runs_sublist s s' :
  nothing_runs s -> tasks s' `sublist_of` tasks s -> nothing_runs s'.
Proof. intros. by eapply Forall_sublist. Qed.

(** Marking the task at the current index leaves only that one running. *)
Lemma start_current s :
  nothing_runs s -> only_current_runs (with_task (current_task s) (set_state RUNNING) s).
Proof.
  intros Hs j t Hj Ht. rewrite with_task_current.
  apply with_task_lookup in Hj as [[? _]|[_ Hj]]; [done|].
  by destruct (Forall_lookup_1 _ _ _ _ Hs Hj).
Qed.

Lemma nothing_runs_set_process s i p :
  nothing_runs s -> nothing_runs (with_task i (set_process p) s).
Proof.
  intros Hs. apply Forall_lookup. intros j t Hj.
  apply with_task_lookup in Hj as [(_ & t0 & Hj & ->)|[_ Hj]];
    apply (Forall_lookup_1 _ _ _ _ Hs Hj).
Qed.

Section invariant.
Context {P : Profile} (user_segments : Z * Z).

Lemma get_next_task_result fuel s :
  nothing_runs s -> shape s ->
  match get_next_task fuel s with
  | Ret (c, s') => nothing_runs s' /\ shape s' /\ same_rest s s'
  | Panic why => why <> running_msg
  | NoFuel => True
  end.
Proof.
  intros Hn Hs. destruct (tasks s) as [|t0 l] eqn:Ht; [unfold get_next_task; by rewrite Ht|].
  rewrite get_next_task_nonempty by (by rewrite Ht).
  clear Ht. pose proof (loop_result fuel s Hn) as H.
  destruct (get_next_task_loop fuel s) as [[c s']|w|]; [|done..].
  destruct H as (Hsub & Hrest & Hc & r & Hr & _). apply get_Some in Hr as [Hr _].
  split; [by eapply nothing_runs_sublist|]. split; [|done].
  apply (shape_sublist s); [done..|lia].
Qed.

Lemma swap_tasks_result fuel s w :
  nothing_runs s -> shape s ->
  match swap_tasks user_segments fuel s w with
  | Ret (s', _, _) => wf s'
  | Panic why => why <> running_msg
  | NoFuel => True
  end.
Proof.
  intros Hn Hs. unfold swap_tasks.
  set (pre := match get (tasks s) (current_task s) with Some _ => _ | None => _ end).
  assert (Hpre : exists s1 w1, pre = (s1, w1, false) /\ nothing_runs s1 /\ shape s1).
  { unfold pre. destruct (get (tasks s) (current_task s)) as [t|]; [|by eauto].
    cbn [deactivate read_via_rcx]. eexists _, _. split; [done|].
    split; [by apply nothing_runs_set_process|by apply with_task_shape]. }
  destruct Hpre as (s1 & w1 & -> & Hn1 & Hs1).
  pose proof (get_next_task_result fuel (set_ticks 0 s1)) as H.
  destruct (get_next_task fuel (set_ticks 0 s1)) as [[c s2]|why|]; cbn [mbind outcome_bind];
    [|by apply H; [|destruct Hs1]|done].
  destruct H as (Hn2 & Hs2 & Ht2 & _); [done|by destruct Hs1|]. cbn in Ht2.
  destruct (get (tasks s2) (current_task s2)) as [t|] eqn:Ht.
  - split.
    + by apply with_task_shape.
    + destruct (with_task_fields (current_task s2) (set_state RUNNING) s2) as (_ & -> & _).
      rewrite Ht2. done.
    + by apply start_current.
  - split; [done|by rewrite Ht2|]. intros j t' Hj Hrun.
    by destruct (Forall_lookup_1 _ _ _ _ Hn2 Hj).
Qed.

(** The steps that change the scheduler.  Fewer than [2^63] tasks are ever
    pushed, so the counter of process ids does not wrap around. *)
Inductive sched_step : Scheduler -> Scheduler -> Prop :=
| step_enable s : sched_step s (enable s)
| step_tick fuel s w s' w' b :
    tick user_segments fuel s w = Ret (s', w', b) -> sched_step s s'
| step_block fuel s w s' w' b :
    block_current user_segments fuel s w = Ret (s', w', b) -> sched_step s s'
| step_push p s id s' :
    next_task_id s + 2 < 2 ^ 64 -> push_task p s = Ret (id, s') -> sched_step s s'
| step_end_task id s : sched_step s (end_task id s).2
| step_end_current fuel s w s' w' b :
    end_current_task user_segments fuel s w = Ret (s', w', b) -> sched_step s s'.

Definition reachable : Scheduler -> Prop := rtc sched_step SCHEDULER.

Lemma initial_wf : wf SCHEDULER.
Proof.
  split; [split|done|].
  - done.
  - constructor.
  - constructor.
  - by left.
  - intros i t Ht. by apply list_elem_of_lookup_2, elem_of_nil in Ht.
Qed.

Lemma mark_done_spec id l l' :
  mark_done id l = Some l' ->
  pid <$> l' = pid <$> l /\
  (forall i t, l' !! i = Some t -> state t = RUNNING -> l !! i = Some t).
Proof.
  revert l'. induction l as [|t l IH]; intros l' H; cbn in H; [done|].
  destruct (pid t =? id).
  - injection H as <-. split; [done|]. by intros [|i] t'; cbn; [intros [= <-]|].
  - destruct (mark_done id l) as [l1|]; [|done]. injection H as <-.
    destruct (IH l1 eq_refl) as [Hp Hl]. split; [by cbn; f_equal|].
    intros [|i] t'; cbn; [done|apply Hl].
Qed.

Lemma push_task_ok p s :
  next_task_id s + 2 < 2 ^ 64 -> 0 <= next_task_id s ->
  push_task p s = Ret (next_task_id s + 1,
    mkScheduler (tasks s ++ [mkTask READY p (next_task_id s + 1)]) (current_task_ticks s)
      (next_task_id s + 2) (current_task s) (is_enabled s)).
Proof.
  intros H1 H2. unfold push_task. run_arith. cbn [next_task_id set_next_task_id set_tasks].
  rewrite add_u_ok by range. cbn.
  by replace (next_task_id s + 1 + 1) with (next_task_id s + 2) by lia.
Qed.

Lemma push_task_wf p s id s' :
  wf s -> next_task_id s + 2 < 2 ^ 64 -> push_task p s = Ret (id, s') -> wf s'.
Proof.
  intros [[Hi Hr Hn Hc] Ht Hrun] Hid. rewrite push_task_ok by lia. intros [= <- <-].
  split; [split|done|]; cbn.
  - rewrite length_app. cbn. lia.
  - apply Forall_app. split; [eapply Forall_impl; [done|cbn; lia]|]. repeat constructor; cbn; lia.
  - rewrite fmap_app. cbn. apply NoDup_app. split_and!; [done| |apply NoDup_singleton].
    intros x Hx. apply list_elem_of_fmap in Hx as (t & -> & Ht').
    rewrite Forall_forall in Hr. specialize (Hr _ Ht').
    rewrite list_elem_of_singleton. lia.
  - rewrite length_app. lia.
  - intros i t Hl Hst. cbn in *. apply lookup_app_Some in Hl as [Hl|[_ Hl]]; [by eapply Hrun|].
    apply list_lookup_singleton_Some in Hl as [_ <-]. done.
Qed.

(** The operations stop the current task in some state and swap. *)
Lemma stop_and_swap fuel s w st :
  shape s -> only_current_runs s -> st <> RUNNING ->
  match swap_tasks user_segments fuel (with_task (current_task s) (set_state st) s) w with
  | Ret (s', _, _) => wf s'
  | Panic why => why <> running_msg
  | NoFuel => True
  end.
Proof.
  intros Hs Hr Hst. apply swap_tasks_result; [by apply stop_current|by apply with_task_shape].
Qed.

Lemma tick_result fuel s w :
  wf s ->
  match tick user_segments fuel s w with
  | Ret (s', _, _) => wf s'
  | Panic why => why <> running_msg
  | NoFuel => True
  end.
Proof.
  intros Hwf. pose proof Hwf as [[Hi Hr Hn Hc] Ht Hrun]. unfold tick.
  destruct (negb _); [done|]. unfold QUANTUM in *. rewrite add_u_ok by range.
  cbn [mbind outcome_bind current_task_ticks set_ticks]. case_bool.
  - by apply (stop_and_swap fuel (set_ticks (current_task_ticks s + 1) s)).
  - split; [done| |done]. unfold QUANTUM. cbn. lia.
Qed.

Lemma block_current_result fuel s w :
  wf s ->
  match block_current user_segments fuel s w with
  | Ret (s', _, _) => wf s'
  | Panic why => why <> running_msg
  | NoFuel => True
  end.
Proof. intros [Hs _ Hr]. by apply stop_and_swap. Qed.

Lemma end_current_task_result fuel s w :
  wf s ->
  match end_current_task user_segments fuel s w with
  | Ret (s', _, _) => wf s'
  | Panic why => why <> running_msg
  | NoFuel => True
  end.
Proof.
  intros [Hs _ Hr]. unfold end_current_task.
  destruct (get _ _); cbn [mbind outcome_bind expect]; [|done]. by apply stop_and_swap.
Qed.

Lemma end_task_wf id s : wf s -> wf (end_task id s).2.
Proof.
  intros [Hs Ht Hr]. unfold end_task. destruct (mark_done id (tasks s)) as [l|] eqn:Hm; [|done].
  apply mark_done_spec in Hm as [Hp Hl]. split; [by apply (shape_same_pids s)|done|].
  intros i t Hi Hst. by eapply Hr; [apply Hl|].
Qed.

Lemma sched_step_wf s s' : wf s -> sched_step s s' -> wf s'.
Proof.
  intros Hwf Hst. destruct Hst as
    [s|fuel s w s' w' b H|fuel s w s' w' b H|p s id s' Hid H|id s|fuel s w s' w' b H].
  - by destruct Hwf as [[] ? ?].
  - pose proof (tick_result fuel s w Hwf) as Hr. by rewrite H in Hr.
  - pose proof (block_current_result fuel s w Hwf) as Hr. by rewrite H in Hr.
  - by eapply push_task_wf.
  - by apply end_task_wf.
  - pose proof (end_current_task_result fuel s w Hwf) as Hr. by rewrite H in Hr.
Qed.

Lemma rtc_wf s s' : rtc sched_step s s' -> wf s -> wf s'.
Proof. induction 1 as [|s1 s2 s3 Hst _ IH]; [done|]. intros Hwf. by eapply IH, sched_step_wf. Qed.


(** C16: no reachable state makes an operation panic because a task falsely
    claims to be running. *)
Theorem never_falsely_running s fuel w :
  reachable s ->
  tick user_segments fuel s w <> Panic running_msg /\
  block_current user_segments fuel s w <> Panic running_msg /\
  end_current_task user_segments fuel s w <> Panic running_msg.
Proof.
  intros Hs. assert (Hwf : wf s) by (eapply rtc_wf; [done|apply initial_wf]).
  pose proof (tick_result fuel s w Hwf). pose proof (block_current_result fuel s w Hwf).
  pose proof (end_current_task_result fuel s w Hwf).
  split_and!; intros E; by rewrite E in *.
Qed.
End invariant.

(** A system of two tasks, enabled. *)
Definition example_scheduler : Scheduler :=
  mkScheduler [example_task READY 1; example_task READY 3] 0 4 (USIZE_MAX - 1) true.

Lemma example_reachable : @reachable dev_profile (0x33, 0x2b) example_scheduler.
Proof.
  eapply rtc_l; [apply (step_push _ example_process _ 1 (mkScheduler [example_task READY 1] 0 2
    (USIZE_MAX - 1) false)); [done|vm_compute; reflexivity]|].
  eapply rtc_l; [apply (step_push _ example_process _ 3 (mkScheduler [example_task READY 1;
    example_task READY 3] 0 4 (USIZE_MAX - 1) false)); [done|vm_compute; reflexivity]|].
  apply rtc_once. apply (step_enable _ (mkScheduler [example_task READY 1;
    example_task READY 3] 0 4 (USIZE_MAX - 1) false)).
Qed.


Lemma never_falsely_running_witness :
  let w := mkWorld (example_machine 0x1000 0 0) true in
  @tick dev_profile (0x33, 0x2b) 5 example_scheduler w <> Panic running_msg.
Proof.
  intros w. apply (@never_falsely_running dev_profile (0x33, 0x2b) example_scheduler 5 w).
  apply example_reachable.
Defined.
