(* ===== verification/SchedulerRun.v ===== *)
(** * Runs of the scheduler

    What the operations do to the system as a whole: a timer tick at the end
    of a quantum hands the CPU to the next ready task; a system whose last
    task ends never comes back to the idle loop; killing the current task is
    undone by the tick that follows. *)
From S2P Require Import Prelude Asm Context Scheduler SchedulerSpec SchedulerInv.

Lemma cycle_Permutation s : cycle s ≡ₚ tasks s.
Proof.
  unfold cycle. rewrite (Permutation_app_comm (drop _ _)). by rewrite take_drop.
Qed.

(** In a queue without running tasks, a ready task has a first one before it. *)
Lemma first_ready l t :
  Forall (fun t => state t <> RUNNING) l -> t ∈ l -> state t = READY ->
  exists pre r post, l = pre ++ r :: post /\ Forall skipped pre /\ state r = READY.
Proof.
  intros Hn Ht Hr. induction l as [|a l IH]; [by apply elem_of_nil in Ht|].
  apply Forall_cons in Hn as [Ha Hn]. destruct (state a) eqn:Hst; [|done|..].
  - exists [], a, l. by split_and!.
  - destruct IH as (pre & r & post & -> & Hp & Hr'); [done| |].
    { apply elem_of_cons in Ht as [->|?]; [congruence|done]. }
    exists (a :: pre), r, post. split_and!; try done. constructor; [by left|done].
  - destruct IH as (pre & r & post & -> & Hp & Hr'); [done| |].
    { apply elem_of_cons in Ht as [->|?]; [congruence|done]. }
    exists (a :: pre), r, post. split_and!; try done. constructor; [by right|done].
Qed.

Lemma get_with_task i f s t :
  get (tasks s) i = Some t -> get (tasks (with_task i f s)) i = Some (f t).
Proof.
  intros Ht. unfold with_task. rewrite Ht. apply get_Some in Ht as [Hi Ht]. cbn.
  rewrite get_lookup by lia. apply list_lookup_insert_eq. lia.
Qed.

Section runs.
Context {P : Profile} (user_segments : Z * Z).

(** The state in which the search starts when the current task [t] is
    stopped in the state [st]: its context has been saved. *)
Definition stopped (st : TaskState) (s : Scheduler) (w : World) : Scheduler :=
  set_ticks 0
    (match get (tasks s) (current_task s) with
     | Some t => with_task (current_task s) (set_process (deactivate (process t) (cpu w)).1.1)
                   (with_task (current_task s) (set_state st) s)
     | None => s
     end).

Lemma swap_stopped fuel s w st :
  swap_tasks user_segments fuel (with_task (current_task s) (set_state st) s) w =
  '(_, s') ← get_next_task fuel (stopped st s w);
  let m := match get (tasks s) (current_task s) with
           | Some t => (deactivate (process t) (cpu w)).1.2 | None => cpu w end in
  match get (tasks s') (current_task s') with
  | Some next_task =>
      Ret (with_task (current_task s') (set_state RUNNING) s',
           mkWorld (activate user_segments (process next_task) m) false, true)
  | None => Ret (s', mkWorld m (sched_locked w), false)
  end.
Proof.
  unfold swap_tasks, stopped. rewrite with_task_current.
  destruct (get (tasks s) (current_task s)) as [t|] eqn:Ht.
  - rewrite (get_with_task _ _ _ _ Ht). done.
  - assert (Hw : with_task (current_task s) (set_state st) s = s)
      by (unfold with_task; by rewrite Ht).
    rewrite Hw, Ht. by destruct w.
Qed.

Lemma stopped_facts s w st :
  wf s -> st <> RUNNING ->
  nothing_runs (stopped st s w) /\ shape (stopped st s w).
Proof.
  intros [Hs _ Hr] Hst. unfold stopped. pose proof (stop_current s st Hr Hst) as Hn.
  destruct (get (tasks s) (current_task s)) as [t|] eqn:Ht.
  - split; [by apply (nothing_runs_set_process _ _ _ Hn)|].
    enough (shape (with_task (current_task s) (set_process (deactivate (process t) (cpu w)).1.1)
      (with_task (current_task s) (set_state st) s))) as [] by done.
    by apply with_task_shape, with_task_shape.
  - unfold with_task in Hn. rewrite Ht in Hn. by destruct Hs.
Qed.

Lemma stopped_length st s w : length (tasks (stopped st s w)) = length (tasks s).
Proof.
  unfold stopped. destruct (get (tasks s) (current_task s)); [|done]. cbn [tasks set_ticks].
  by rewrite !with_task_length.
Qed.

Lemma stopped_set_ticks st n s w : stopped st (set_ticks n s) w = stopped st s w.
Proof.
  unfold stopped, with_task. cbn. destruct (get (tasks s) (current_task s)) as [t|]; [|done].
  cbn. by destruct (get _ _).
Qed.

Lemma tick_expired fuel s w :
  is_enabled s = true -> current_task_ticks s = QUANTUM - 1 ->
  tick user_segments fuel s w =
  let s1 := set_ticks QUANTUM s in
  swap_tasks user_segments fuel (with_task (current_task s1) (set_state READY) s1) w.
Proof. intros Hen Hti. unfold tick. rewrite Hen, Hti. done. Qed.


Lemma search_head_done s t fuel :
  overflow_checks = true -> index_ok s ->
  head (tasks s) = Some t -> state t = DONE ->
  Forall skipped (drop (start_index s) (tasks s)) ->
  (length (drop (start_index s) (tasks s)) < fuel)%nat ->
  get_next_task fuel s = Panic sub_msg.
Proof.
  intros Ho Hok Hh Hd Hsk Hf.
  assert (Hne : tasks s <> []) by (by intros E; rewrite E in Hh).
  rewrite get_next_task_nonempty by done. set (d := drop _ _) in *.
  destruct (loop_wrap s (fuel - length d)) as (s1 & Ht1 & Hs1 & Hb1 & _ & Hl1); [done..|].
  fold d in Hl1. replace (length d + (fuel - length d))%nat with fuel in Hl1 by lia. rewrite Hl1.
  destruct (fuel - length d)%nat as [|f] eqn:Hfu; [lia|].
  rewrite (loop_step f s1 0 t); [|done..|].
  - rewrite Hd. unfold sub_u. by rewrite arith_panic by (done || range).
  - rewrite Ht1. destruct (tasks s) as [|t0 l] eqn:Htl; [done|]. injection Hh as ->.
    assert (0 < start_index s)%nat.
    { unfold start_index. destruct Hok as [? _]. rewrite Htl. cbn. lia. }
    destruct (start_index s); [lia|done].
Qed.

(** In a build with overflow checks the search panics when it reaches a
    finished task at index 0, because it decrements the index below zero. *)
Theorem get_next_task_head_done_panics s t fuel :
  overflow_checks = true -> index_ok s ->
  head (tasks s) = Some t -> state t = DONE ->
  Forall skipped (drop (start_index s) (tasks s)) ->
  (length (drop (start_index s) (tasks s)) < fuel)%nat ->
  get_next_task fuel s = Panic sub_msg.
Proof. apply search_head_done. Qed.


(** The only task ending takes the kernel down: with overflow checks it
    panics, without them it spins forever with the scheduler locked. *)
Theorem end_last_task s w t fuel :
  tasks s = [t] -> current_task s = 0 ->
  end_current_task user_segments (S fuel) s w =
  if overflow_checks then Panic sub_msg else NoFuel.
Proof.
  intros Ht Hc. assert (Hg : get (tasks s) (current_task s) = Some t) by (by rewrite Ht, Hc).
  unfold end_current_task. rewrite Hg. cbn [expect mbind outcome_bind]. rewrite swap_stopped.
  assert (Hst : tasks (stopped DONE s w) =
    [set_process (deactivate (process t) (cpu w)).1.1 (set_state DONE t)]).
  { unfold stopped, with_task. by rewrite Ht, Hc. }
  assert (Hcs : current_task (stopped DONE s w) = 0).
  { unfold stopped, with_task. by rewrite Ht, Hc. }
  assert (Hok : index_ok (stopped DONE s w)).
  { unfold index_ok, small. by rewrite Hst, Hcs. }
  destruct overflow_checks eqn:Ho.
  - assert (Hsi : start_index (stopped DONE s w) = 1%nat)
      by (unfold start_index; by rewrite Hst, Hcs).
    erewrite search_head_done; rewrite ?Hst, ?Hsi; try done. cbn. lia.
  - destruct Hok as [Hc1 Hs1]. rewrite get_next_task_nonempty by (by rewrite Hst).
    rewrite loop_no_ready; [done| |lia|done|by left].
    rewrite Hst. constructor; [by right|constructor].
Qed.

(** Killing the current task marks it at its own place in the list. *)
Lemma mark_done_current l i t :
  NoDup (pid <$> l) -> l !! i = Some t ->
  mark_done (pid t) l = Some (<[i := set_state DONE t]> l).
Proof.
  revert i. induction l as [|a l IH]; intros i Hnd Hi; [done|].
  cbn [fmap list_fmap] in Hnd. apply NoDup_cons in Hnd as [Ha Hnd]. cbn [mark_done].
  destruct i as [|i]; cbn in Hi.
  - injection Hi as ->. by rewrite Z.eqb_refl.
  - destruct (pid a =? pid t) eqn:E; prop_of_bool.
    + destruct Ha. rewrite E. apply list_elem_of_fmap_2. by eapply list_elem_of_lookup_2.
    + by rewrite (IH i).
Qed.

(** C34: killing the current task is lost: the tick that ends its quantum
    behaves as if the task had not been killed. *)
Theorem kill_current_is_lost s w t fuel :
  wf s -> is_enabled s = true -> current_task_ticks s = QUANTUM - 1 ->
  get (tasks s) (current_task s) = Some t ->
  (end_task (pid t) s).1 = Ok tt /\
  tick user_segments fuel (end_task (pid t) s).2 w = tick user_segments fuel s w.
Proof.
  intros [[_ _ Hnd _] _ _] Hen Hti Hg. pose proof Hg as Ht. apply get_Some in Ht as [Hi Ht].
  unfold end_task. rewrite (mark_done_current _ _ _ Hnd Ht). split; [done|].
  set (s1 := set_tasks _ s). cbn [snd].
  rewrite (tick_expired fuel s1) by done. rewrite (tick_expired fuel s) by done.
  assert (Hg1 : get (tasks s1) (current_task s1) = Some (set_state DONE t)).
  { cbn. rewrite get_lookup by lia. apply list_lookup_insert_eq. lia. }
  f_equal. unfold with_task. cbn [tasks current_task set_ticks]. rewrite Hg, Hg1.
  unfold s1. cbn. by rewrite list_insert_insert_eq.
Qed.
End runs.

(** Two tasks, the second one running at the end of its quantum. *)
Definition expiring_scheduler : Scheduler :=
  mkScheduler [example_task READY 1; example_task RUNNING 3] 19 4 1 true.
Definition example_world : World := mkWorld (example_machine 0x1000 0 0) true.

Lemma expiring_wf : wf expiring_scheduler.
Proof.
  split; [split|done|].
  - done.
  - repeat constructor; done.
  - cbn. apply NoDup_cons. split; [|apply NoDup_singleton].
    intros H%list_elem_of_singleton. done.
  - right. done.
  - intros [|[|i]] t; cbn; intros [= <-]; done.
Qed.


Lemma get_next_task_head_done_panics_witness :
  let s := mkScheduler [example_task DONE 1; example_task READY 3] 0 4 1 true in
  @get_next_task dev_profile 1 s = Panic sub_msg.
Proof.
  intros s. apply (@get_next_task_head_done_panics dev_profile s (example_task DONE 1) 1).
  - done.
  - split; done.
  - done.
  - done.
  - constructor.
  - vm_compute. lia.
Defined.


Lemma end_last_task_witness :
  let s := mkScheduler [example_task RUNNING 1] 0 2 0 true in
  @end_current_task dev_profile (0x33, 0x2b) 9 s example_world = Panic sub_msg /\
  @end_current_task release_profile (0x33, 0x2b) 9 s example_world = NoFuel.
Proof.
  intros s. split.
  - apply (@end_last_task dev_profile (0x33, 0x2b) s example_world (example_task RUNNING 1) 8); done.
  - apply (@end_last_task release_profile (0x33, 0x2b) s example_world (example_task RUNNING 1) 8);
      done.
Defined.

Lemma kill_current_is_lost_witness :
  @tick dev_profile (0x33, 0x2b) 3 (end_task 3 expiring_scheduler).2 example_world =
  @tick dev_profile (0x33, 0x2b) 3 expiring_scheduler example_world.
Proof.
  apply (@kill_current_is_lost dev_profile (0x33, 0x2b) expiring_scheduler example_world
    (example_task RUNNING 3) 3); [apply expiring_wf|done|done|done].
Defined.
