(* ===== verification/Vga.v ===== *)
(** * The VGA text writer

    [src/src/display/vga_text.rs]: the color byte, the 80 by 25 text buffer
    and the [Writer] that puts bytes into it, wraps lines and scrolls.  The
    specification is a terminal with unlimited scroll-back: the buffer always
    shows its last 25 rows. *)
From S2P Require Import Prelude.

Definition BUFFER_WIDTH : Z := 80.
Definition BUFFER_HEIGHT : Z := 25.

Inductive Color :=
| Black | Blue | Green | Cyan | Red | Magenta | Brown | LightGray
| DarkGray | LightBlue | LightGreen | LightCyan | LightRed | Pink | Yellow | White.

(** [color as u8] *)
Definition color_u8 (c : Color) : Z :=
  match c with
  | Black => 0 | Blue => 1 | Green => 2 | Cyan => 3 | Red => 4 | Magenta => 5
  | Brown => 6 | LightGray => 7 | DarkGray => 8 | LightBlue => 9 | LightGreen => 10
  | LightCyan => 11 | LightRed => 12 | Pink => 13 | Yellow => 14 | White => 15
  end.

(** [ColorCode::new]; a [ColorCode] is its byte. *)
Definition ColorCode_new (foreground background : Color) (blink : bool) : Z :=
  Z.lor (Z.lor (wrap 8 (Z.shiftl (color_u8 background) 4)) (color_u8 foreground))
        (wrap 8 (Z.shiftl (Z.b2z blink) 7)).

Record ScreenChar := mkScreenChar { char : Z; color : Z }.

Record Writer := mkWriter {
  row : Z;
  col : Z;
  default_color : Z;
  buffer : list (list ScreenChar);
}.

(** [Writer::new]; the buffer is whatever the video memory holds. *)
Definition new (video_memory : list (list ScreenChar)) : Writer :=
  mkWriter 0 0 (ColorCode_new White Black false) video_memory.

Definition set_row (r : Z) (w : Writer) : Writer := mkWriter r (col w) (default_color w) (buffer w).
Definition set_col (c : Z) (w : Writer) : Writer := mkWriter (row w) c (default_color w) (buffer w).
Definition set_buffer (b : list (list ScreenChar)) (w : Writer) : Writer :=
  mkWriter (row w) (col w) (default_color w) b.
Definition set_color (c : Z) (w : Writer) : Writer := mkWriter (row w) (col w) c (buffer w).

(** [chars[r][c].read()] and [chars[r][c].write(ch)] *)
Definition read_char (b : list (list ScreenChar)) (r c : Z) : outcome ScreenChar :=
  line ← index b r; index line c.
Definition write_char (r c : Z) (ch : ScreenChar) (b : list (list ScreenChar))
    : outcome (list (list ScreenChar)) :=
  line ← index b r; line' ← index_set line c ch; index_set b r line'.

Definition NEWLINE : Z := 10.
Definition SPACE : Z := 32.
Definition QUESTION : Z := 63.

Section writer.
Context {P : Profile}.

Definition clear_row (r : Z) (w : Writer) : outcome Writer :=
  let empty := mkScreenChar SPACE (default_color w) in
  b ← for_each (seqZ 0 BUFFER_WIDTH) (fun c b => write_char r c empty b) (buffer w);
  Ret (set_buffer b w).

(** The two nested loops that move every row up by one. *)
Definition scroll_up (b : list (list ScreenChar)) : outcome (list (list ScreenChar)) :=
  for_each (seqZ 1 (BUFFER_HEIGHT - 1)) (fun r b =>
    for_each (seqZ 0 BUFFER_WIDTH) (fun c b =>
      character ← read_char b r c;
      r' ← sub_u 64 r 1;
      write_char r' c character b) b) b.

Definition new_line (w : Writer) : outcome Writer :=
  r ← add_u 64 (row w) 1;
  let w := set_col 0 (set_row r w) in
  if BUFFER_HEIGHT <=? row w then
    let w := set_row (BUFFER_HEIGHT - 1) w in
    b ← scroll_up (buffer w);
    clear_row (BUFFER_HEIGHT - 1) (set_buffer b w)
  else Ret w.

Definition write_byte (byte : Z) (w : Writer) : outcome Writer :=
  if byte =? NEWLINE then new_line w
  else
    let character := mkScreenChar byte (default_color w) in
    b ← write_char (row w) (col w) character (buffer w);
    let w := set_buffer b w in
    c ← add_u 64 (col w) 1;
    let w := set_col c w in
    if BUFFER_WIDTH <=? col w then new_line w else Ret w.

Definition write_string (string : list Z) (w : Writer) : outcome Writer :=
  for_each string (fun byte w =>
    if ((0x20 <=? byte) && (byte <=? 0x7e)) || (byte =? NEWLINE) then write_byte byte w
    else write_byte QUESTION w) w.

Definition clear_screen (w : Writer) : outcome Writer :=
  for_each (seqZ 0 BUFFER_HEIGHT) clear_row w.

(** The shared writer: the static [WRITER] behind its spin lock, and the
    interrupt flag. *)
Record Console := mkConsole { writer : Writer; writer_locked : bool; interrupts : bool }.

(** [_print]: the formatting machinery hands the text over in pieces.  A lock
    that is already taken is waited for with interrupts off, forever. *)
Definition _print (pieces : list (list Z)) (c : Console) : outcome Console :=
  let saved := interrupts c in
  if writer_locked c then NoFuel
  else
    let c := mkConsole (writer c) true false in
    w ← for_each pieces write_string (writer c);
    Ret (mkConsole w false saved).
End writer.

(** ** The specification: a terminal with scroll-back *)

Record Terminal := mkTerminal {
  t_rows : list (list ScreenChar);  (** all rows, the oldest first *)
  t_row : nat;                      (** the row of the cursor *)
  t_col : nat;
  t_color : Z;
}.

Definition blank_row (c : Z) : list ScreenChar := replicate 80 (mkScreenChar SPACE c).

Definition term_newline (t : Terminal) : Terminal :=
  let r := S (t_row t) in
  mkTerminal (if decide (r < length (t_rows t))%nat then t_rows t
              else t_rows t ++ [blank_row (t_color t)])
    r 0 (t_color t).

Definition term_put (t : Terminal) (byte : Z) : Terminal :=
  if byte =? NEWLINE then term_newline t
  else
    let rows := alter (fun line => <[t_col t := mkScreenChar byte (t_color t)]> line)
                  (t_row t) (t_rows t) in
    let t := mkTerminal rows (t_row t) (S (t_col t)) (t_color t) in
    if decide (t_col t < 80)%nat then t else term_newline t.

(** Bytes that are not printable ASCII show as question marks. *)
Definition printable (byte : Z) : Z :=
  if decide (0x20 <= byte <= 0x7e \/ byte = NEWLINE) then byte else QUESTION.

Definition term_write (t : Terminal) (string : list Z) : Terminal :=
  foldl term_put t (printable <$> string).

(** The writer shows the last 25 rows of the terminal. *)
Record displays (t : Terminal) (w : Writer) : Prop := {
  shows_height : (25 <= length (t_rows t))%nat;
  shows_width : Forall (fun line => length line = 80%nat) (t_rows t);
  shows_cursor : (length (t_rows t) - 25 <= t_row t < length (t_rows t))%nat;
  shows_buffer : buffer w = drop (length (t_rows t) - 25) (t_rows t);
  shows_row : row w = Z.of_nat (t_row t - (length (t_rows t) - 25));
  shows_col : col w = Z.of_nat (t_col t);
  shows_color : default_color w = t_color t;
}.

(** Between two operations the cursor is inside its row. *)
Definition shows (t : Terminal) (w : Writer) : Prop := displays t w /\ (t_col t < 80)%nat.

(** ** Correctness *)

Lemma read_char_ok b (r c : nat) line ch :
  b !! r = Some line -> line !! c = Some ch -> read_char b (Z.of_nat r) (Z.of_nat c) = Ret ch.
Proof. intros Hl Hc. unfold read_char, index. rewrite get_nat, Hl. cbn. by rewrite get_nat, Hc. Qed.

Lemma write_char_ok b (r c : nat) line ch :
  b !! r = Some line -> (c < length line)%nat ->
  write_char (Z.of_nat r) (Z.of_nat c) ch b = Ret (<[r := <[c := ch]> line]> b).
Proof.
  intros Hl Hc. pose proof (lookup_lt_Some _ _ _ Hl). unfold write_char, index. rewrite get_nat, Hl.
  cbn. rewrite index_set_ok by lia. cbn. rewrite index_set_ok by lia. by rewrite !Nat2Z.id.
Qed.

(** A loop that writes the characters [src] over the line [r]. *)
Lemma write_row_loop b (r : nat) line src (body : Z -> list (list ScreenChar) -> outcome _) :
  b !! r = Some line -> length line = 80%nat -> length src = 80%nat ->
  (forall (c : nat) ch cur, src !! c = Some ch -> length cur = 80%nat ->
    body (Z.of_nat c) (<[r := cur]> b) =
    write_char (Z.of_nat r) (Z.of_nat c) ch (<[r := cur]> b)) ->
  for_each (seqZ 0 BUFFER_WIDTH) body b = Ret (<[r := src]> b).
Proof.
  intros Hl Hlen Hs Hbody. rewrite <- (list_insert_id b r line Hl) at 1.
  pose proof (lookup_lt_Some _ _ _ Hl).
  change BUFFER_WIDTH with (Z.of_nat 80).
  rewrite (for_each_update (fun cur => <[r := cur]> b) line src 0 80); [|lia|lia|].
  - rewrite <- Hs at 1. rewrite firstn_all. rewrite <- Hlen, drop_all, app_nil_r. done.
  - intros c ch Hc Hch. rewrite Z.add_0_l.
    assert (Hcl : length (take c src ++ drop c line) = 80%nat).
    { rewrite length_app, length_take, length_drop. lia. }
    rewrite (Hbody c ch) by done.
    rewrite (write_char_ok _ _ _ (take c src ++ drop c line)).
    + by rewrite list_insert_insert_eq.
    + apply list_lookup_insert_eq. lia.
    + lia.
Qed.

Section writer_facts.
Context {P : Profile}.

Lemma clear_row_ok (r : nat) w line :
  buffer w !! r = Some line -> length line = 80%nat ->
  clear_row (Z.of_nat r) w = Ret (set_buffer (<[r := blank_row (default_color w)]> (buffer w)) w).
Proof.
  intros Hl Hlen. unfold clear_row.
  rewrite (write_row_loop _ r line (blank_row (default_color w))); [done..|].
  intros c ch cur Hch Hcur. by apply lookup_replicate in Hch as [-> _].
Qed.

(** The scroll loops are a shift by one row. *)
Lemma scroll_up_ok b :
  length b = 25%nat -> Forall (fun line => length line = 80%nat) b ->
  scroll_up b = Ret (take 24 (drop 1 b) ++ drop 24 b).
Proof.
  intros Hlen Hw. unfold scroll_up. change (BUFFER_HEIGHT - 1) with (Z.of_nat 24).
  apply (for_each_update id b (drop 1 b) 1 24); [lia|rewrite length_drop; lia|].
  intros k line Hk Hline. unfold id. rewrite lookup_drop in Hline.
  set (cur := take k (drop 1 b) ++ drop k b).
  assert (Hsrc : cur !! (1 + k)%nat = Some line).
  { unfold cur. rewrite lookup_app_r; rewrite length_take, length_drop; [|lia].
    rewrite lookup_drop, <- Hline. f_equal. lia. }
  destruct (lookup_lt_is_Some_2 b k ltac:(lia)) as [old Hold].
  assert (Hdst : cur !! k = Some old).
  { unfold cur. rewrite lookup_app_r; rewrite length_take, length_drop; [|lia].
    rewrite lookup_drop, <- Hold. f_equal. lia. }
  assert (Hll : length line = 80%nat) by (by eapply (Forall_lookup_1 _ _ _ _ Hw)).
  assert (Hol : length old = 80%nat) by (by eapply (Forall_lookup_1 _ _ _ _ Hw)).
  apply (write_row_loop cur k old line); [done..|].
  intros c ch row Hch _. replace (1 + Z.of_nat k) with (Z.of_nat (1 + k)) by lia.
  rewrite (read_char_ok _ _ _ line ch); [|by rewrite list_lookup_insert_ne by lia|done].
  cbn [mbind outcome_bind]. rewrite sub_u_ok by range. cbn [mbind outcome_bind].
  f_equal. lia.
Qed.

(** The buffer of a writer that shows a terminal. *)
Lemma displays_buffer t w :
  displays t w ->
  length (buffer w) = 25%nat /\ Forall (fun line => length line = 80%nat) (buffer w).
Proof.
  intros []. rewrite shows_buffer0, length_drop. split; [lia|by apply Forall_drop].
Qed.

(** Starting a new row at the bottom shifts the window by one. *)
Lemma new_line_scroll w :
  length (buffer w) = 25%nat -> Forall (fun line => length line = 80%nat) (buffer w) ->
  row w = 24 ->
  new_line w = Ret (mkWriter 24 0 (default_color w)
                      (drop 1 (buffer w) ++ [blank_row (default_color w)])).
Proof.
  intros Hlen Hw Hr. unfold new_line. rewrite Hr, add_u_ok by range.
  cbn [mbind outcome_bind row set_row set_col buffer default_color]. cbn [Z.leb Z.compare].
  rewrite scroll_up_ok by done. cbn [mbind outcome_bind].
  destruct (lookup_lt_is_Some_2 (buffer w) 24 ltac:(lia)) as [last Hlast].
  assert (Hd : drop 24 (buffer w) = [last]).
  { rewrite (drop_S _ _ _ Hlast), drop_ge by lia. done. }
  assert (Ht : take 24 (drop 1 (buffer w)) = drop 1 (buffer w)).
  { apply take_ge. rewrite length_drop. lia. }
  rewrite Hd, Ht. change (BUFFER_HEIGHT - 1) with (Z.of_nat 24).
  assert (Hl1 : length (drop 1 (buffer w)) = 24%nat) by (rewrite length_drop; lia).
  rewrite (clear_row_ok 24 _ last); cbn [buffer set_buffer default_color].
  - by rewrite insert_app_r_alt, Hl1 by lia.
  - rewrite <- Hl1. by apply list_lookup_middle.
  - by eapply (Forall_lookup_1 _ _ _ _ Hw).
Qed.

Lemma new_line_displays t w :
  displays t w -> exists w', new_line w = Ret w' /\ shows (term_newline t) w'.
Proof.
  intros Hd. destruct (displays_buffer _ _ Hd) as [Hlen Hw]. destruct Hd as [Hh Hwd Hcu Hb Hr Hc Hco].
  unfold term_newline. destruct (decide _) as [Hlt|Hge].
  - eexists. split.
    + unfold new_line. rewrite add_u_ok by range. cbn [mbind outcome_bind row set_row set_col].
      unfold BUFFER_HEIGHT. case_bool; [lia|done].
    + split; [|cbn; lia]. split; cbn; try done; lia.
  - rewrite new_line_scroll by (done || lia). eexists. split; [done|]. split; [|cbn; lia].
    assert (Hlr : length (t_rows t ++ [blank_row (t_color t)]) = S (length (t_rows t)))
      by (rewrite length_app; cbn; lia).
    split; cbn [t_rows t_row t_col t_color buffer row col default_color]; rewrite ?Hlr; try done; try lia.
    + apply Forall_app. split; [done|]. constructor; [|constructor]. apply length_replicate.
    + rewrite Hb, Hco, drop_drop, drop_app_le by lia. f_equal. f_equal. lia.
Qed.

Lemma write_byte_shows t w byte :
  shows t w -> exists w', write_byte byte w = Ret w' /\ shows (term_put t byte) w'.
Proof.
  intros [Hd Hcol]. unfold write_byte, term_put. destruct (byte =? NEWLINE).
  { by apply new_line_displays. }
  pose proof Hd as [Hh Hwd Hcu Hb Hr Hc Hco].
  set (n := (length (t_rows t) - 25)%nat) in *.
  destruct (lookup_lt_is_Some_2 (t_rows t) (t_row t) ltac:(lia)) as [line Hline].
  assert (Hll : length line = 80%nat) by (by eapply (Forall_lookup_1 _ _ _ _ Hwd)).
  assert (Hbl : buffer w !! (t_row t - n)%nat = Some line).
  { rewrite Hb, lookup_drop, <- Hline. f_equal. lia. }
  rewrite Hr, Hc, (write_char_ok _ _ _ line) by (done || lia).
  cbn [mbind outcome_bind col set_buffer]. rewrite Hc, add_u_ok by range.
  cbn [mbind outcome_bind col set_col t_col].
  set (ch := mkScreenChar byte (default_color w)).
  set (w1 := set_col _ _). set (t1 := mkTerminal _ _ _ _).
  assert (Hd1 : displays t1 w1).
  { unfold t1, w1, ch. rewrite Hco. split; cbn; rewrite ?length_alter; fold n; try done; try lia.
    - apply Forall_alter; [done|]. intros x _ Hx. by rewrite length_insert.
    - rewrite Hb, drop_alter_ge, list_insert_alter by lia. apply list_alter_ext; [|done].
      intros x. rewrite lookup_drop. replace (n + (t_row t - n))%nat with (t_row t) by lia.
      rewrite Hline. by intros [= ->]. }
  destruct (decide _) as [Hlt|Hge].
  - exists w1. unfold BUFFER_WIDTH. case_bool; [lia|]. done.
  - unfold BUFFER_WIDTH. case_bool; [|lia]. by apply new_line_displays.
Qed.

(** One character of [write_string]. *)
Lemma write_string_cons byte string w :
  write_string (byte :: string) w = (write_byte (printable byte) w ≫= write_string string).
Proof.
  unfold write_string at 1, printable. cbn [for_each]. destruct (decide _) as [H|H].
  - replace (((0x20 <=? byte) && (byte <=? 0x7e)) || (byte =? NEWLINE)) with true by lia. done.
  - replace (((0x20 <=? byte) && (byte <=? 0x7e)) || (byte =? NEWLINE)) with false by lia. done.
Qed.

Lemma write_string_shows string t w :
  shows t w -> exists w', write_string string w = Ret w' /\ shows (term_write t string) w'.
Proof.
  revert t w. induction string as [|byte string IH]; intros t w Hs; [by exists w|].
  rewrite write_string_cons. unfold term_write. cbn [fmap list_fmap foldl].
  destruct (write_byte_shows t w (printable byte) Hs) as (w1 & -> & Hs1). by apply IH.
Qed.
End writer_facts.

(** Rows above the cursor are history. *)
Definition extends (t t' : Terminal) : Prop :=
  (t_row t <= t_row t')%nat /\ take (t_row t) (t_rows t') = take (t_row t) (t_rows t).

Lemma extends_trans t1 t2 t3 : extends t1 t2 -> extends t2 t3 -> extends t1 t3.
Proof.
  intros [Hr1 Ht1] [Hr2 Ht2]. split; [lia|]. rewrite <- Ht1.
  apply (f_equal (take (t_row t1))) in Ht2. by rewrite !take_take, Nat.min_l in Ht2 by lia.
Qed.

Lemma term_newline_extends t : (t_row t < length (t_rows t))%nat -> extends t (term_newline t).
Proof.
  intros H. unfold term_newline, extends. cbn. split; [lia|].
  destruct (decide _); [done|]. by rewrite take_app_le by lia.
Qed.

Lemma term_put_extends t byte : (t_row t < length (t_rows t))%nat -> extends t (term_put t byte).
Proof.
  intros H. unfold term_put. destruct (byte =? NEWLINE); [by apply term_newline_extends|].
  set (t1 := mkTerminal _ _ _ _).
  assert (H1 : extends t t1) by (split; [done|by apply take_alter_ge]).
  destruct (decide _); [done|]. apply (extends_trans _ t1); [done|].
  apply term_newline_extends. cbn. by rewrite length_alter.
Qed.

Lemma term_write_app t l1 l2 : term_write t (l1 ++ l2) = term_write (term_write t l1) l2.
Proof. unfold term_write. by rewrite fmap_app, foldl_app. Qed.

Section writer_theorems.
Context {P : Profile}.

Lemma term_write_extends string t w : shows t w -> extends t (term_write t string).
Proof.
  revert t w. induction string as [|byte string IH]; intros t w Hs; [done|].
  unfold term_write. cbn [fmap list_fmap foldl].
  destruct (write_byte_shows t w (printable byte) Hs) as (w1 & _ & Hs1).
  eapply extends_trans; [|by apply (IH _ w1)]. apply term_put_extends. apply Hs.
Qed.

(** C5: writing a string never panics and does what the terminal with
    scroll-back does: the buffer shows the last 25 rows of everything that
    was written, and the rows above the cursor stay as they were. *)
Theorem write_string_refines_terminal string t w :
  shows t w ->
  exists w', write_string string w = Ret w' /\ shows (term_write t string) w' /\
    extends t (term_write t string).
Proof.
  intros Hs. destruct (write_string_shows string t w Hs) as (w' & Hw & Hs').
  exists w'. split_and!; [done..|]. by eapply term_write_extends.
Qed.

Lemma write_string_app s1 s2 w :
  write_string (s1 ++ s2) w = (write_string s1 w ≫= write_string s2).
Proof. apply for_each_app. Qed.

Lemma write_pieces pieces w : for_each pieces write_string w = write_string (concat pieces) w.
Proof.
  revert w. induction pieces as [|s pieces IH]; intros w; cbn [for_each concat]; [done|].
  rewrite write_string_app. destruct (write_string s w); cbn; auto.
Qed.

(** Printing a text in pieces, as the formatting machinery does, shows
    the whole text, frees the lock and restores the interrupt flag. *)
Lemma print_ok pieces c t :
  writer_locked c = false -> shows t (writer c) ->
  exists w', _print pieces c = Ret (mkConsole w' false (interrupts c)) /\
    shows (term_write t (concat pieces)) w'.
Proof.
  intros Hl Hs. unfold _print. rewrite Hl. cbn [writer]. rewrite write_pieces.
  destruct (write_string_shows (concat pieces) t (writer c) Hs) as (w' & -> & Hs'). by exists w'.
Qed.

(** Clearing the screen blanks all 25 rows in the current color. *)
Theorem clear_screen_blanks w :
  length (buffer w) = 25%nat -> Forall (fun line => length line = 80%nat) (buffer w) ->
  clear_screen w = Ret (set_buffer (replicate 25 (blank_row (default_color w))) w).
Proof.
  intros Hlen Hw. unfold clear_screen. change BUFFER_HEIGHT with (Z.of_nat 25).
  assert (Hb : w = set_buffer (buffer w) w) by (by destruct w). rewrite Hb at 1.
  rewrite (for_each_update (fun b => set_buffer b w) (buffer w)
    (replicate 25 (blank_row (default_color w))) 0 25); [|lia|by rewrite length_replicate|].
  - by rewrite drop_ge, app_nil_r by lia.
  - intros k line Hk Hline. apply lookup_replicate in Hline as [-> _]. rewrite Z.add_0_l.
    destruct (lookup_lt_is_Some_2 (buffer w) k ltac:(lia)) as [old Hold].
    rewrite (clear_row_ok k _ old); [done| |by eapply (Forall_lookup_1 _ _ _ _ Hw)].
    cbn [buffer set_buffer]. rewrite lookup_app_r; rewrite length_take, length_replicate; [|lia].
    rewrite lookup_drop, <- Hold. f_equal. lia.
Qed.
End writer_theorems.

(** The color byte holds the foreground in its low nibble and the
    background in bits 4 to 6; bit 7 is the blink flag, but it is also set by
    the eight bright backgrounds. *)
Theorem ColorCode_new_fields foreground background blink :
  let code := ColorCode_new foreground background blink in
  in_u 8 code /\ Z.land code 15 = color_u8 foreground /\
  Z.land (Z.shiftr code 4) 7 = color_u8 background mod 8 /\
  Z.testbit code 7 = blink || (8 <=? color_u8 background).
Proof. destruct foreground, background, blink; vm_compute; split_and!; done. Qed.

(** A fresh writer shows the terminal whose history is the video memory. *)
Lemma new_shows video_memory :
  length video_memory = 25%nat -> Forall (fun line => length line = 80%nat) video_memory ->
  shows (mkTerminal video_memory 0 0 (ColorCode_new White Black false)) (new video_memory).
Proof. intros Hl Hw. split; [|cbn; lia]. split; cbn; rewrite ?Hl; done || lia. Qed.

Definition example_video : list (list ScreenChar) := replicate 25 (blank_row 7).

Lemma example_video_shows :
  shows (mkTerminal example_video 0 0 (ColorCode_new White Black false)) (new example_video).
Proof. apply new_shows; [done|]. apply Forall_replicate. done. Qed.

Lemma write_string_refines_terminal_witness :
  exists w', @write_string dev_profile [104; 105; 7; 10] (new example_video) = Ret w' /\
    row w' = 1 /\ col w' = 0.
Proof.
  destruct (@write_string_refines_terminal dev_profile [104; 105; 7; 10] _ _ example_video_shows)
    as (w' & H & [H1 H2] & _).
  exists w'. split; [exact H|]. split; [exact (shows_row _ _ H1)|exact (shows_col _ _ H1)].
Defined.

Lemma clear_screen_blanks_witness :
  clear_screen (mkWriter 24 3 15 example_video) =
  Ret (mkWriter 24 3 15 (replicate 25 (blank_row 15))).
Proof.
  apply (clear_screen_blanks (mkWriter 24 3 15 example_video));
    [done|apply Forall_replicate; done].
Defined.
