(* ===== verification/FixedBlock.v ===== *)
(** * The fixed-size block allocator

    [src/src/allocator/fixed_block.rs]: one free list per block size, kept as
    linked lists inside the free blocks themselves, and a fallback heap from
    the [linked_list_allocator] crate.  The memory that holds the list nodes
    is a store of words; a null word is [None].  The fallback heap is an
    interface: the class [FallbackHeap] has its operations and
    [FallbackLaws] what its documentation promises. *)
From S2P Require Import Prelude.

Record Layout := mkLayout { size : Z; align : Z }.

Definition BLOCK_SIZES : list Z := [8; 16; 32; 64; 128; 256; 512; 1024; 2048].

(** [size_of::<ListNode>()] and [align_of::<ListNode>()]: one pointer. *)
Definition LIST_NODE_SIZE : Z := 8.

(** [Iterator::position] *)
Fixpoint position {A} (f : A -> bool) (l : list A) : option nat :=
  match l with
  | [] => None
  | a :: l => if f a then Some O else S <$> position f l
  end.

Definition block_index (layout : Layout) : option nat :=
  let required_block_size := Z.max (size layout) (align layout) in
  position (fun block_size => required_block_size <=? block_size) BLOCK_SIZES.

(** [Layout::from_size_align]: the alignment is a power of two and the size
    rounded up to it does not exceed [isize::MAX]. *)
Definition from_size_align (s a : Z) : option Layout :=
  if (0 <? a) && (Z.land a (a - 1) =? 0) && (s <=? 2 ^ 63 - 1 - (a - 1))
  then Some (mkLayout s a) else None.

(** The interface of [linked_list_allocator::Heap]. *)
Class FallbackHeap := {
  Heap : Type;
  Heap_empty : Heap;
  Heap_init : Z -> Z -> Heap -> Heap;
  allocate_first_fit : Layout -> Heap -> option (Z * Heap);
  deallocate : Z -> Layout -> Heap -> Heap;
}.

Section allocator.
Context `{H : FallbackHeap}.

(** The allocator and the memory words in which the free lists live. *)
Record FixedBlockAlloc := mkFixedBlockAlloc {
  list_heads : list Z;
  fallback : Heap;
  node_mem : Z -> Z;
}.

Definition set_heads (l : list Z) (s : FixedBlockAlloc) : FixedBlockAlloc :=
  mkFixedBlockAlloc l (fallback s) (node_mem s).
Definition set_fallback (h : Heap) (s : FixedBlockAlloc) : FixedBlockAlloc :=
  mkFixedBlockAlloc (list_heads s) h (node_mem s).
Definition write_word (a v : Z) (s : FixedBlockAlloc) : FixedBlockAlloc :=
  mkFixedBlockAlloc (list_heads s) (fallback s)
    (fun a' => if decide (a = a') then v else node_mem s a').

Definition new (mem : Z -> Z) : FixedBlockAlloc :=
  mkFixedBlockAlloc (replicate (length BLOCK_SIZES) 0) Heap_empty mem.

Definition init (heap_start heap_size : Z) (s : FixedBlockAlloc) : FixedBlockAlloc :=
  set_fallback (Heap_init heap_start heap_size (fallback s)) s.

Definition fallback_alloc (layout : Layout) (s : FixedBlockAlloc) : Z * FixedBlockAlloc :=
  match allocate_first_fit layout (fallback s) with
  | Some (ptr, h) => (ptr, set_fallback h s)
  | None => (0, s)
  end.

Definition alloc (layout : Layout) (s : FixedBlockAlloc) : outcome (Z * FixedBlockAlloc) :=
  match block_index layout with
  | Some i =>
      head ← index (list_heads s) (Z.of_nat i);
      if decide (head = 0) then
        block_size ← index BLOCK_SIZES (Z.of_nat i);
        let block_align := block_size in
        layout' ← unwrap (from_size_align block_size block_align);
        Ret (fallback_alloc layout' s)
      else
        let next := node_mem s head in
        let s := write_word head 0 s in
        l ← index_set (list_heads s) (Z.of_nat i) next;
        Ret (head, set_heads l s)
  | None => Ret (fallback_alloc layout s)
  end.

Definition dealloc (ptr : Z) (layout : Layout) (s : FixedBlockAlloc) : outcome FixedBlockAlloc :=
  match block_index layout with
  | Some i =>
      head ← index (list_heads s) (Z.of_nat i);
      block_size ← index BLOCK_SIZES (Z.of_nat i);
      _ ← assert_ (LIST_NODE_SIZE <=? block_size) "assertion failed: size";
      _ ← assert_ (LIST_NODE_SIZE <=? block_size) "assertion failed: align";
      let s := write_word ptr head s in
      l ← index_set (list_heads s) (Z.of_nat i) ptr;
      Ret (set_heads l s)
  | None =>
      if decide (ptr = 0) then Panic unwrap_msg
      else Ret (set_fallback (deallocate ptr layout (fallback s)) s)
  end.
End allocator.

(** Two address ranges do not meet. *)
Definition disjoint_ranges (p n q m : Z) : Prop := p + n <= q \/ q + m <= p.

(** What [linked_list_allocator] promises: [heap_owns h O] says that [O] are
    the blocks handed out by [h] and not given back. *)
Class FallbackLaws `(H : FallbackHeap) := {
  heap_owns : Heap -> gmap Z Z -> Prop;
  allocate_fresh : forall h O l p h',
    heap_owns h O -> 0 < size l -> allocate_first_fit l h = Some (p, h') ->
    heap_owns h' (<[p := size l]> O) /\ 0 < p /\ p mod align l = 0 /\ O !! p = None /\
    (forall q n, O !! q = Some n -> disjoint_ranges p (size l) q n);
  deallocate_owned : forall h O l p,
    heap_owns h O -> O !! p = Some (size l) -> heap_owns (deallocate p l h) (delete p O);
}.
