(* ===== verification/FixedBlockSpec.v ===== *)
(** * Correctness of the fixed-size block allocator

    The invariant relates the linked lists in memory to lists of addresses,
    and these and the live allocations to the blocks the fallback heap has
    handed out.  From it: every allocation is large enough, aligned, and
    disjoint from all live allocations; freeing and writing to live memory
    keep the invariant. *)
From S2P Require Import Prelude FixedBlock.

Lemma position_Some {A} (f : A -> bool) l i :
  position f l = Some i <->
  (exists a, l !! i = Some a /\ f a = true) /\
  (forall j b, (j < i)%nat -> l !! j = Some b -> f b = false).
Proof.
  revert i. induction l as [|a l IH]; intros i; cbn.
  { split; [done|]. by intros [(? & ? & _) _]. }
  destruct (f a) eqn:Ha.
  - split.
    + intros [= <-]. split; [by exists a|]. intros; lia.
    + intros [(b & Hb & Hfb) Hlt]. destruct i as [|i]; [done|].
      specialize (Hlt 0%nat a ltac:(lia) eq_refl). congruence.
  - destruct i as [|i].
    + split; [by destruct (position f l)|]. intros [(b & [= <-] & Hfb) _]. congruence.
    + destruct (position f l) as [k|] eqn:Hk; cbn.
      * split.
        -- intros [= <-]. destruct (proj1 (IH k) eq_refl) as [He Hlt]. split; [done|].
           intros [|j] b Hj; cbn; [by intros [= <-]|]. apply Hlt. lia.
        -- intros [He Hlt]. enough (Some k = Some i) by congruence. apply IH. split; [done|].
           intros j b Hj. apply (Hlt (S j)). lia.
      * split; [done|]. intros [He Hlt]. enough (None = Some i) by congruence. apply IH.
        split; [done|]. intros j b Hj. apply (Hlt (S j)). lia.
Qed.

Lemma position_None {A} (f : A -> bool) l :
  position f l = None <-> Forall (fun a => f a = false) l.
Proof.
  induction l as [|a l IH]; cbn; [by split|]. rewrite Forall_cons.
  destruct (f a) eqn:Ha; [by split; [|intros [? _]]|].
  destruct (position f l); cbn; [|tauto]. split; [done|]. intros [_ H]. by apply IH in H.
Qed.

(** The block index of a layout names the smallest block size that holds
    both its size and its alignment, and there is none exactly for layouts
    above the largest block. *)
Theorem block_index_smallest layout :
  (forall i, block_index layout = Some i <->
    exists bs, BLOCK_SIZES !! i = Some bs /\ Z.max (size layout) (align layout) <= bs /\
      forall j bs', (j < i)%nat -> BLOCK_SIZES !! j = Some bs' ->
        bs' < Z.max (size layout) (align layout)) /\
  (block_index layout = None <-> 2048 < Z.max (size layout) (align layout)).
Proof.
  unfold block_index. set (m := Z.max _ _). split.
  - intros i. rewrite position_Some. split.
    + intros [(bs & Hbs & Hm) Hlt]. exists bs. prop_of_bool. split_and!; [done..|].
      intros j bs' Hj Hbs'. specialize (Hlt j bs' Hj Hbs'). blia.
    + intros (bs & Hbs & Hm & Hlt). split; [exists bs; split; [done|lia]|].
      intros j bs' Hj Hbs'. specialize (Hlt j bs' Hj Hbs'). lia.
  - rewrite position_None. unfold BLOCK_SIZES. rewrite !Forall_cons, Forall_nil, !Z.leb_gt. lia.
Qed.

(** What the code uses of it. *)
Lemma block_index_size layout i :
  block_index layout = Some i ->
  exists bs, BLOCK_SIZES !! i = Some bs /\ size layout <= bs /\ align layout <= bs.
Proof.
  unfold block_index. intros [(bs & Hbs & Hm) _]%position_Some. exists bs. prop_of_bool.
  split; [done|lia].
Qed.

Lemma BLOCK_SIZES_pow i bs : BLOCK_SIZES !! i = Some bs -> bs = 2 ^ (Z.of_nat i + 3) /\ 8 <= bs.
Proof. intros H. do 9 (destruct i as [|i]; [by injection H as <-|]). by destruct i. Qed.

Definition valid_layout (l : Layout) : Prop := 0 < size l /\ exists k, 0 <= k /\ align l = 2 ^ k.

(** The size and alignment of the block that serves a layout. *)
Definition block_size_of (l : Layout) : Z :=
  match block_index l with Some i => BLOCK_SIZES !!! i | None => size l end.
Definition block_align_of (l : Layout) : Z :=
  match block_index l with Some i => BLOCK_SIZES !!! i | None => align l end.

Lemma block_size_of_ge l : size l <= block_size_of l.
Proof.
  unfold block_size_of. destruct (block_index l) as [i|] eqn:Hi; [|lia].
  apply block_index_size in Hi as (bs & Hbs & Hs & _). by rewrite (list_lookup_total_correct _ _ _ Hbs).
Qed.

Lemma block_align_of_mod l p : valid_layout l -> p mod block_align_of l = 0 -> p mod align l = 0.
Proof.
  intros [_ (k & Hk & Ha)] Hp. unfold block_align_of in Hp.
  destruct (block_index l) as [i|] eqn:Hi; [|done].
  apply block_index_size in Hi as (bs & Hbs & _ & Hle).
  rewrite (list_lookup_total_correct _ _ _ Hbs) in Hp.
  apply BLOCK_SIZES_pow in Hbs as [-> _]. rewrite Ha in *.
  apply Z.mod_divide in Hp; [|lia]. apply Z.mod_divide; [lia|].
  etrans; [|exact Hp]. exists (2 ^ (Z.of_nat i + 3 - k)).
  apply Z.pow_le_mono_r_iff in Hle; [|lia..]. rewrite <- Z.pow_add_r by lia. f_equal. lia.
Qed.

(** The list of nodes that starts at [p] holds the addresses [l]. *)
Fixpoint chain (mem : Z -> Z) (p : Z) (l : list Z) : Prop :=
  match l with
  | [] => p = 0
  | a :: l => p = a /\ a <> 0 /\ chain mem (mem a) l
  end.

Definition upd (a v : Z) (mem : Z -> Z) : Z -> Z := fun a' => if decide (a = a') then v else mem a'.

Lemma chain_upd a v mem p l : a ∉ l -> chain mem p l -> chain (upd a v mem) p l.
Proof.
  revert p. induction l as [|b l IH]; intros p Ha; cbn; [done|].
  apply not_elem_of_cons in Ha as [Hb Ha]. intros (-> & Hb0 & Hc). split_and!; [done..|].
  unfold upd at 2. rewrite decide_False by done. by apply IH.
Qed.

Section correctness.
Context `{L : FallbackLaws}.

(** [free] are the free lists, [O] the blocks owned by the fallback heap. *)
Record alloc_inv (s : FixedBlockAlloc) (live : gmap Z Layout)
    (free : list (list Z)) (O : gmap Z Z) : Prop := {
  inv_owns : heap_owns (fallback s) O;
  inv_heads : length (list_heads s) = length BLOCK_SIZES;
  inv_chain : Forall2 (chain (node_mem s)) (list_heads s) free;
  inv_free : forall i l bs p, free !! i = Some l -> BLOCK_SIZES !! i = Some bs -> p ∈ l ->
    O !! p = Some bs /\ 0 < p /\ p mod bs = 0 /\ live !! p = None;
  inv_nodup : Forall (@NoDup Z) free;
  inv_live : forall p l, live !! p = Some l ->
    valid_layout l /\ O !! p = Some (block_size_of l) /\ 0 < p /\ p mod block_align_of l = 0;
  inv_disjoint : forall p q n m, O !! p = Some n -> O !! q = Some m -> p <> q ->
    disjoint_ranges p n q m;
}.

Definition allocator_ok (s : FixedBlockAlloc) (live : gmap Z Layout) : Prop :=
  exists free O, alloc_inv s live free O.

(** A free list that does not contain [a] is not touched by a write to [a]. *)
Lemma chains_upd a v mem heads free :
  Forall2 (chain mem) heads free -> Forall (fun l => a ∉ l) free ->
  Forall2 (chain (upd a v mem)) heads free.
Proof.
  induction 1 as [|h l heads free Hc _ IH]; intros Ha; [constructor|].
  apply Forall_cons in Ha as [Ha1 Ha2]. constructor; [by apply chain_upd|by apply IH].
Qed.

(** An address lies in at most one free list. *)
Lemma free_once s live free O i l a :
  alloc_inv s live free O -> free !! i = Some (a :: l) ->
  Forall (fun l => a ∉ l) (<[i := l]> free).
Proof.
  intros [_ Hlen Hch Hfr Hnd _ _] Hi. apply Forall_lookup. intros j lj Hj Ha.
  apply Forall2_length in Hch. pose proof (lookup_lt_Some _ _ _ Hi).
  destruct (lookup_lt_is_Some_2 BLOCK_SIZES i ltac:(lia)) as [bi Hbi].
  apply list_lookup_insert_Some in Hj as [(<- & <- & _)|[Hne Hj]].
  - apply (Forall_lookup_1 _ _ _ _ Hnd) in Hi. by apply NoDup_cons in Hi as [? _].
  - pose proof (lookup_lt_Some _ _ _ Hj).
    destruct (lookup_lt_is_Some_2 BLOCK_SIZES j ltac:(lia)) as [bj Hbj].
    destruct (Hfr _ _ _ a Hi Hbi ltac:(left)) as [Hoi _].
    destruct (Hfr _ _ _ a Hj Hbj Ha) as [Hoj _].
    apply BLOCK_SIZES_pow in Hbi as [Hbi _], Hbj as [Hbj _].
    assert (2 ^ (Z.of_nat i + 3) = 2 ^ (Z.of_nat j + 3)) as E by congruence.
    apply Z.pow_inj_r in E; lia.
Qed.

(** Taking the first block of a free list. *)
Lemma pop_inv s live free O i a l layout :
  alloc_inv s live free O -> block_index layout = Some i -> valid_layout layout ->
  free !! i = Some (a :: l) ->
  alloc_inv (set_heads (<[i := node_mem s a]> (list_heads s)) (write_word a 0 s))
    (<[a := layout]> live) (<[i := l]> free) O.
Proof.
  intros Hinv Hi Hv Hfi. pose proof (free_once _ _ _ _ _ _ _ Hinv Hfi) as Honce.
  pose proof Hinv as [Hown Hlen Hch Hfr Hnd Hlv Hdj].
  apply block_index_size in Hi as Hbs. destruct Hbs as (bs & Hbs & _).
  destruct (Hfr _ _ _ a Hfi Hbs ltac:(left)) as (Hoa & Ha0 & Ham & _).
  split; cbn [fallback list_heads node_mem set_heads write_word]; try done.
  - by rewrite length_insert.
  - apply (chains_upd a 0); [|done]. apply Forall2_insert; [done|].
    destruct (Forall2_lookup_r _ _ _ _ _ Hch Hfi) as (h & _ & (_ & _ & Hc)). done.
  - intros j lj bj p Hj Hbj Hp. pose proof (Forall_lookup_1 _ _ _ _ Honce Hj) as Hna.
    assert (Hpa : p <> a) by (by intros ->). rewrite lookup_insert_ne by done.
    apply list_lookup_insert_Some in Hj as [(<- & <- & _)|[_ Hj]]; [|by eapply Hfr].
    eapply Hfr; [done..|by right].
  - apply Forall_insert; [done|]. apply (Forall_lookup_1 _ _ _ _ Hnd) in Hfi.
    by apply NoDup_cons in Hfi as [_ ?].
  - intros p l0 Hp. apply lookup_insert_Some in Hp as [[<- <-]|[_ Hp]]; [|by apply Hlv].
    unfold block_size_of, block_align_of. rewrite Hi, (list_lookup_total_correct _ _ _ Hbs). done.
Qed.

(** Putting a live block back on its free list. *)
Lemma push_inv s live free O i p layout head :
  alloc_inv s live free O -> block_index layout = Some i -> live !! p = Some layout ->
  list_heads s !! i = Some head ->
  exists free', alloc_inv (set_heads (<[i := p]> (list_heads s)) (write_word p head s))
    (delete p live) free' O.
Proof.
  intros Hinv Hi Hp Hhd. pose proof Hinv as [Hown Hlen Hch Hfr Hnd Hlv Hdj].
  apply block_index_size in Hi as Hbs. destruct Hbs as (bs & Hbs & _).
  destruct (Forall2_lookup_l _ _ _ _ _ Hch Hhd) as (l & Hl & Hc).
  destruct (Hlv _ _ Hp) as (Hv & Hop & Hp0 & Hpm).
  unfold block_size_of, block_align_of in Hop, Hpm.
  rewrite Hi, (list_lookup_total_correct _ _ _ Hbs) in Hop, Hpm.
  assert (Hna : Forall (fun l => p ∉ l) free).
  { apply Forall_lookup. intros j lj Hj Hin. apply Forall2_length in Hch as Hln.
    pose proof (lookup_lt_Some _ _ _ Hj).
    destruct (lookup_lt_is_Some_2 BLOCK_SIZES j ltac:(lia)) as [bj Hbj].
    destruct (Hfr _ _ _ p Hj Hbj Hin) as (_ & _ & _ & Hn). congruence. }
  exists (<[i := p :: l]> free).
  split; cbn [fallback list_heads node_mem set_heads write_word]; try done.
  - by rewrite length_insert.
  - apply Forall2_insert; [by apply (chains_upd p head)|]. cbn. rewrite decide_True by done.
    split_and!; [done|lia|]. apply (chain_upd p head); [|done].
    by apply (Forall_lookup_1 _ _ _ _ Hna) in Hl.
  - intros j lj bj q Hj Hbj Hq. rewrite lookup_delete_None.
    apply list_lookup_insert_Some in Hj as [(<- & <- & _)|[_ Hj]].
    + apply elem_of_cons in Hq as [->|Hq].
      * assert (bj = bs) as -> by congruence. auto.
      * destruct (Hfr _ _ _ q Hl Hbj Hq) as (? & ? & ? & ?). auto.
    + destruct (Hfr _ _ _ q Hj Hbj Hq) as (? & ? & ? & ?). auto.
  - apply Forall_insert; [done|]. apply NoDup_cons. split.
    + by apply (Forall_lookup_1 _ _ _ _ Hna) in Hl.
    + by apply (Forall_lookup_1 _ _ _ _ Hnd) in Hl.
  - intros q l0 Hq. apply lookup_delete_Some in Hq as [_ Hq]. by apply Hlv.
Qed.

(** A fresh block from the fallback heap. *)
Lemma fresh_inv s live free O layout layout' ptr h :
  alloc_inv s live free O -> valid_layout layout ->
  size layout' = block_size_of layout -> align layout' = block_align_of layout ->
  allocate_first_fit layout' (fallback s) = Some (ptr, h) ->
  0 < ptr /\ O !! ptr = None /\
  alloc_inv (set_fallback h s) (<[ptr := layout]> live) free (<[ptr := size layout']> O).
Proof.
  intros [Hown Hlen Hch Hfr Hnd Hlv Hdj] Hv Hsz Hal Hf.
  pose proof (block_size_of_ge layout). destruct Hv as [Hv0 Hv1].
  destruct (allocate_fresh _ _ layout' ptr h Hown ltac:(lia) Hf) as (Hown' & Hp0 & Hpm & Hnone & Hd).
  split_and!; [done..|]. split; cbn [fallback list_heads node_mem set_fallback]; try done.
  - intros i l bs p Hi Hbs Hp. destruct (Hfr _ _ _ _ Hi Hbs Hp) as (Ho & Hq0 & Hm & Hl).
    assert (p <> ptr) by congruence. by rewrite !lookup_insert_ne by done.
  - intros p l Hp. apply lookup_insert_Some in Hp as [[<- <-]|[Hne Hp]].
    + rewrite lookup_insert_eq, <- Hsz, <- Hal. by split_and!.
    + rewrite lookup_insert_ne by done. by apply Hlv.
  - intros p q n m Hp Hq Hne.
    apply lookup_insert_Some in Hp as [[<- <-]|[Hpn Hp]];
      apply lookup_insert_Some in Hq as [[<- <-]|[Hqn Hq]].
    + done.
    + by apply Hd.
    + destruct (Hd _ _ Hp); [by right|by left].
    + by eapply Hdj.
Qed.

(** A large block goes back to the fallback heap. *)
Lemma release_inv s live free O p layout :
  alloc_inv s live free O -> block_index layout = None -> live !! p = Some layout ->
  alloc_inv (set_fallback (deallocate p layout (fallback s)) s) (delete p live) free (delete p O).
Proof.
  intros [Hown Hlen Hch Hfr Hnd Hlv Hdj] Hi Hp. destruct (Hlv _ _ Hp) as (Hv & Hop & Hp0 & Hpm).
  unfold block_size_of in Hop. rewrite Hi in Hop.
  split; cbn [fallback list_heads node_mem set_fallback]; try done.
  - by apply deallocate_owned.
  - intros i l bs q Hl Hbs Hq. destruct (Hfr _ _ _ _ Hl Hbs Hq) as (Ho & Hq0 & Hm & Hn).
    assert (q <> p) by congruence. by rewrite !lookup_delete_ne by done.
  - intros q l Hq. apply lookup_delete_Some in Hq as [Hne Hq]. rewrite lookup_delete_ne by done.
    by apply Hlv.
  - intros q r n m Hq Hr. apply lookup_delete_Some in Hq as [_ Hq], Hr as [_ Hr]. by apply Hdj.
Qed.

(** The block served to [layout] does not meet any live allocation. *)
Definition fresh_block (live : gmap Z Layout) (layout : Layout) (ptr : Z) : Prop :=
  0 < ptr /\ ptr mod align layout = 0 /\ live !! ptr = None /\
  (forall q l, live !! q = Some l -> disjoint_ranges ptr (size layout) q (size l)).

Lemma fresh_block_of_inv s live free O layout ptr :
  live !! ptr = None -> alloc_inv s (<[ptr := layout]> live) free O -> fresh_block live layout ptr.
Proof.
  intros Hnone [_ _ _ _ _ Hlv Hdj].
  destruct (Hlv ptr layout ltac:(apply lookup_insert_eq)) as (Hv & Ho & Hp & Hm).
  split_and!; [done|by apply block_align_of_mod|done|]. intros q l Hq.
  assert (q <> ptr) by congruence.
  destruct (Hlv q l ltac:(by rewrite lookup_insert_ne)) as (_ & Hoq & _ & _).
  pose proof (block_size_of_ge layout). pose proof (block_size_of_ge l).
  destruct (Hdj _ _ _ _ Ho Hoq ltac:(done)); [left|right]; lia.
Qed.

(** What [fallback_alloc] does for a layout. *)
Lemma fallback_alloc_ok s live free O layout layout' :
  alloc_inv s live free O -> valid_layout layout ->
  size layout' = block_size_of layout -> align layout' = block_align_of layout ->
  exists ptr s', fallback_alloc layout' s = (ptr, s') /\
    (ptr = 0 /\ s' = s \/ fresh_block live layout ptr /\ allocator_ok s' (<[ptr := layout]> live)).
Proof.
  intros Hinv Hv Hs Ha. unfold fallback_alloc.
  destruct (allocate_first_fit layout' (fallback s)) as [[ptr h]|] eqn:Hf.
  - eexists _, _. split; [done|]. right.
    destruct (fresh_inv _ _ _ _ _ _ _ _ Hinv Hv Hs Ha Hf) as (Hp & Hnone & Hinv').
    assert (live !! ptr = None).
    { destruct (live !! ptr) as [l|] eqn:Hl; [|done].
      apply (inv_live _ _ _ _ Hinv) in Hl as (_ & Ho & _). congruence. }
    split; [by eapply fresh_block_of_inv|by eexists _, _].
  - eexists _, _. split; [done|]. by left.
Qed.

(** C4: [alloc] never panics.  It returns null and changes nothing, or it
    returns an aligned block that is disjoint from all live allocations and
    keeps the allocator consistent. *)
Theorem alloc_correct s live layout :
  allocator_ok s live -> valid_layout layout ->
  exists ptr s', alloc layout s = Ret (ptr, s') /\
    (ptr = 0 /\ s' = s \/ fresh_block live layout ptr /\ allocator_ok s' (<[ptr := layout]> live)).
Proof.
  intros (free & O & Hinv) Hv. unfold alloc. destruct (block_index layout) as [i|] eqn:Hi.
  - apply block_index_size in Hi as Hbs. destruct Hbs as (bs & Hbs & _).
    pose proof (lookup_lt_Some _ _ _ Hbs) as Hlt.
    pose proof (inv_heads _ _ _ _ Hinv) as Hlen.
    destruct (lookup_lt_is_Some_2 (list_heads s) i ltac:(lia)) as [hd Hhd].
    unfold index. rewrite !get_nat, Hhd. cbn [expect mbind outcome_bind].
    destruct (Forall2_lookup_l _ _ _ _ _ (inv_chain _ _ _ _ Hinv) Hhd) as (l & Hl & Hc).
    destruct (decide (hd = 0)) as [->|Hne].
    + rewrite Hbs. cbn [expect mbind outcome_bind].
      assert (Hfs : from_size_align bs bs = Some (mkLayout bs bs)).
      { clear -Hbs. do 9 (destruct i as [|i]; [by injection Hbs as <-|]). by destruct i. }
      rewrite Hfs. cbn [unwrap expect mbind outcome_bind].
      destruct (fallback_alloc_ok s live free O layout (mkLayout bs bs)) as (p & s' & E & Hr);
        [done..| | |].
      * unfold block_size_of. by rewrite Hi, (list_lookup_total_correct _ _ _ Hbs).
      * unfold block_align_of. by rewrite Hi, (list_lookup_total_correct _ _ _ Hbs).
      * rewrite E. by exists p, s'.
    + destruct l as [|a l]; [done|]. destruct Hc as (<- & _ & Hc).
      rewrite index_set_ok by (cbn; lia). cbn [mbind outcome_bind]. rewrite Nat2Z.id.
      eexists _, _. split; [done|]. right.
      pose proof (pop_inv _ _ _ _ _ _ _ _ Hinv Hi Hv Hl) as Hinv'.
      destruct (inv_free _ _ _ _ Hinv _ _ _ hd Hl Hbs ltac:(left)) as (_ & _ & _ & Hnone).
      split; [by eapply fresh_block_of_inv|by eexists _, _].
  - destruct (fallback_alloc_ok s live free O layout layout) as (p & s' & E & Hr); [done..| | |].
    + unfold block_size_of. by rewrite Hi.
    + unfold block_align_of. by rewrite Hi.
    + rewrite E. by exists p, s'.
Qed.


(** Writes of a client inside its own live allocation do not disturb the
    allocator. *)
Theorem client_write_ok s live ptr layout a v :
  allocator_ok s live -> live !! ptr = Some layout ->
  ptr <= a -> a + LIST_NODE_SIZE <= ptr + size layout ->
  allocator_ok (write_word a v s) live.
Proof.
  intros (free & O & Hinv) Hp Hlo Hhi. exists free, O.
  pose proof Hinv as [Hown Hlen Hch Hfr Hnd Hlv Hdj]. split; try done.
  apply (chains_upd a v); [done|]. apply Forall_lookup. intros i l Hi Ha.
  apply Forall2_length in Hch. pose proof (lookup_lt_Some _ _ _ Hi).
  destruct (lookup_lt_is_Some_2 BLOCK_SIZES i ltac:(lia)) as [bs Hbs].
  destruct (Hfr _ _ _ a Hi Hbs Ha) as (Hoa & _ & _ & Hna).
  destruct (Hlv _ _ Hp) as (_ & Hop & _ & _).
  apply BLOCK_SIZES_pow in Hbs as [_ Hge]. pose proof (block_size_of_ge layout).
  assert (Hne : ptr <> a) by congruence. unfold LIST_NODE_SIZE in *.
  destruct (Hdj _ _ _ _ Hop Hoa Hne); lia.
Qed.

(** A freed block is the next one handed out for its size class. *)
Theorem dealloc_alloc_reuses s s' ptr layout layout' i :
  block_index layout = Some i -> block_index layout' = Some i -> ptr <> 0 ->
  dealloc ptr layout s = Ret s' ->
  exists s'', alloc layout' s' = Ret (ptr, s'') /\ list_heads s'' = list_heads s /\
    fallback s'' = fallback s.
Proof.
  intros Hi Hi' Hp Hd. unfold dealloc in Hd. rewrite Hi in Hd.
  inv_bind Hd. inv_bind Hd. inv_bind Hd. inv_bind Hd. inv_bind Hd. injection Hd as <-.
  unfold index in Ha. rewrite get_nat in Ha.
  destruct (list_heads s !! i) as [hd|] eqn:Hhd; [|done]. injection Ha as <-.
  pose proof (lookup_lt_Some _ _ _ Hhd). cbn [list_heads write_word] in *.
  rewrite index_set_ok, Nat2Z.id in Ha3 by lia. injection Ha3 as <-.
  unfold alloc. rewrite Hi'. unfold index. cbn [list_heads set_heads].
  rewrite !get_nat, list_lookup_insert_eq by lia. cbn [expect mbind outcome_bind].
  rewrite decide_False by done. cbn. rewrite decide_True by done.
  rewrite index_set_ok by (rewrite length_insert; lia). cbn. eexists. split; [done|].
  cbn. split; [|done]. rewrite Nat2Z.id, list_insert_insert_eq. by apply list_insert_id.
Qed.
End correctness.

(** ** A bump heap satisfies the laws of the fallback heap *)

(** Blocks are cut off at increasing addresses and never reused. *)
Definition bump_alloc (l : Layout) (h : Z) : option (Z * Z) :=
  let p := (h / align l + 1) * align l in
  if decide (0 < align l /\ 0 <= h) then Some (p, p + size l) else None.

#[local] Instance bump_heap : FallbackHeap := {|
  Heap := Z;
  Heap_empty := 0;
  Heap_init := fun start _ _ => start;
  allocate_first_fit := bump_alloc;
  deallocate := fun _ _ h => h;
|}.

Definition bump_owns (h : Z) (O : gmap Z Z) : Prop :=
  0 <= h /\ forall p n, O !! p = Some n -> 0 < n /\ p + n <= h.

Lemma bump_fresh h O l p h' :
  bump_owns h O -> 0 < size l -> bump_alloc l h = Some (p, h') ->
  bump_owns h' (<[p := size l]> O) /\ 0 < p /\ p mod align l = 0 /\ O !! p = None /\
  (forall q n, O !! q = Some n -> disjoint_ranges p (size l) q n).
Proof.
  intros [Hh HO] Hs Hf. unfold bump_alloc in Hf.
  destruct (decide _) as [[Ha _]|]; [|done]. injection Hf as <- <-.
  set (p := (h / align l + 1) * align l).
  assert (Hp : h < p) by (unfold p; pose proof (Z.div_mod h (align l)); 
    pose proof (Z.mod_pos_bound h (align l)); lia).
  split_and!.
  - split; [lia|]. intros q n [[<- <-]|[_ Hq]]%lookup_insert_Some; [lia|].
    apply HO in Hq. lia.
  - lia.
  - apply Z.mod_mul. lia.
  - destruct (O !! p) as [n|] eqn:E; [|done]. apply HO in E. lia.
  - intros q n Hq. apply HO in Hq. right. lia.
Qed.

Lemma bump_release h O (l : Layout) p :
  bump_owns h O -> O !! p = Some (size l) -> bump_owns h (delete p O).
Proof. intros [Hh HO] _. split; [done|]. intros q n [_ Hq]%lookup_delete_Some. by apply HO. Qed.

#[local] Instance bump_laws : FallbackLaws bump_heap := {|
  heap_owns := (bump_owns : Heap -> gmap Z Z -> Prop);
  allocate_fresh := bump_fresh;
  deallocate_owned := bump_release;
|}.

(** The allocator after its initialization, with nothing allocated. *)
Definition example_alloc : FixedBlockAlloc := init 0x4000 0x1000 (new (fun _ => 0)).
Definition example_layout : Layout := mkLayout 40 8.

Lemma example_alloc_ok : allocator_ok example_alloc ∅.
Proof.
  exists (replicate 9 []), ∅. split; try done.
  - repeat constructor.
  - intros i l bs p Hi _ Hp. apply lookup_replicate in Hi as [-> _]. by apply elem_of_nil in Hp.
  - apply Forall_replicate. constructor.
Qed.

Lemma example_valid : valid_layout example_layout.
Proof. split; [done|]. by exists 3. Qed.

Lemma alloc_correct_witness :
  exists ptr s', alloc example_layout example_alloc = Ret (ptr, s') /\
    fresh_block ∅ example_layout ptr.
Proof.
  destruct (alloc_correct example_alloc ∅ example_layout example_alloc_ok example_valid)
    as (ptr & s' & H1 & [[H2 _]|[H2 _]]).
  - subst ptr. vm_compute in H1. discriminate H1.
  - exists ptr, s'. split; [exact H1|exact H2].
Defined.

(** One live block of 40 bytes, served from a 64-byte block. *)
Definition example_alloc1 : FixedBlockAlloc := set_fallback (0x4080 : Heap) example_alloc.

Lemma example_alloc1_ok : allocator_ok example_alloc1 {[0x4040 := example_layout]}.
Proof.
  exists (replicate 9 []), {[0x4040 := 64]}. split; try done.
  - split; [done|]. intros p n [<- <-]%lookup_singleton_Some. done.
  - repeat constructor.
  - intros i l bs p Hi _ Hp. apply lookup_replicate in Hi as [-> _]. by apply elem_of_nil in Hp.
  - apply Forall_replicate. constructor.
  - intros p l [<- <-]%lookup_singleton_Some. split; [apply example_valid|].
    rewrite lookup_singleton_eq. done.
  - intros p q n m [<- <-]%lookup_singleton_Some [<- <-]%lookup_singleton_Some. done.
Qed.


Lemma client_write_ok_witness :
  allocator_ok (write_word 0x4048 77 example_alloc1) {[0x4040 := example_layout]}.
Proof.
  apply (client_write_ok example_alloc1 _ 0x4040 example_layout 0x4048 77 example_alloc1_ok eq_refl);
    cbn; unfold LIST_NODE_SIZE; lia.
Defined.

Lemma dealloc_alloc_reuses_witness :
  exists s' s'', dealloc 0x4040 example_layout example_alloc1 = Ret s' /\
    alloc (mkLayout 64 16) s' = Ret (0x4040, s'').
Proof.
  destruct (dealloc 0x4040 example_layout example_alloc1) as [s'| |] eqn:H1; [|discriminate H1..].
  destruct (dealloc_alloc_reuses example_alloc1 s' 0x4040 example_layout (mkLayout 64 16) 3)
    as (s'' & H2 & _); [done|done|done|exact H1|].
  exists s', s''. split; [reflexivity|exact H2].
Defined.
