(* ===== verification/Frames.v ===== *)
(** * Physical frames and the kernel heap

    [src/src/memory.rs]: the two frame allocators over the memory map that the
    boot loader passes, and [src/src/allocator.rs]: the mapping of the kernel
    heap.  Frame allocators are a class, as the [FrameAllocator] trait is;
    the page table mapper of the [x86_64] crate is a class with the laws its
    documentation states. *)
From S2P Require Import Prelude FixedBlock.

Definition PAGE_SIZE : Z := 4096.

(** A region of the memory map: [range.start_addr()], [range.end_addr()] and
    whether its type is [MemoryRegionType::Usable].  The addresses are those of
    frames, below the 52-bit limit of physical addresses. *)
Record MemoryRegion := mkRegion { start_addr : Z; end_addr : Z; is_usable : bool }.
#[global] Instance MemoryRegion_eq_dec : EqDecision MemoryRegion.
Proof. solve_decision. Defined.
Abbreviation MemoryMap := (list MemoryRegion).

(** [(a..b).step_by(n)] *)
Definition step_range (a b n : Z) : list Z :=
  (fun i => a + i * n) <$> seqZ 0 ((b - a + n - 1) / n).

(** [PhysFrame::containing_address] and [Page::containing_address] *)
Definition containing_address (a : Z) : Z := a - a mod PAGE_SIZE.

Definition usable_frames (memory_map : MemoryMap) : list Z :=
  let usable_regions := filter (fun r => is_usable r = true) memory_map in
  let addr_ranges := (fun r => (start_addr r, end_addr r)) <$> usable_regions in
  let frame_addresses := addr_ranges ≫= fun r => step_range r.1 r.2 4096 in
  containing_address <$> frame_addresses.

(** The trait [FrameAllocator<Size4KiB>]. *)
Class FrameAllocator (S : Type) := allocate_frame : S -> outcome (option Z * S).

(** [BuddyAllocator]: an iterator is the list of the items it will yield. *)
Record BuddyAllocator := mkBuddy { buddy_map : MemoryMap; frame_iter : list Z }.

Definition Buddy_init (memory_map : MemoryMap) (used : Z) : BuddyAllocator :=
  mkBuddy memory_map (drop (Z.to_nat used) (usable_frames memory_map)).

Definition Buddy_allocate_frame (b : BuddyAllocator) : outcome (option Z * BuddyAllocator) :=
  match frame_iter b with
  | [] => Ret (None, b)
  | f :: rest => Ret (Some f, mkBuddy (buddy_map b) rest)
  end.
#[export] Instance Buddy_frames : FrameAllocator BuddyAllocator := Buddy_allocate_frame.

Definition Buddy_deallocate_frame (b : BuddyAllocator) (frame : Z) : outcome BuddyAllocator :=
  Panic "not yet implemented".

(** [LinearFrameAllocator] *)
Record LinearFrameAllocator := mkLinear { linear_map : MemoryMap; next : Z }.

Definition Linear_init (memory_map : MemoryMap) : LinearFrameAllocator := mkLinear memory_map 0.
Definition Linear_usable_frames (l : LinearFrameAllocator) : list Z :=
  let usable_regions := filter (fun r => is_usable r = true) (linear_map l) in
  let addr_ranges := (fun r => (start_addr r, end_addr r)) <$> usable_regions in
  let frame_addresses := addr_ranges ≫= fun r => step_range r.1 r.2 4096 in
  containing_address <$> frame_addresses.
Definition get_used (l : LinearFrameAllocator) : Z := next l.

Definition Linear_allocate_frame {P : Profile} (l : LinearFrameAllocator)
    : outcome (option Z * LinearFrameAllocator) :=
  n ← add_u 64 (next l) 1;
  let l := mkLinear (linear_map l) n in
  Ret (get (Linear_usable_frames l) (next l), l).
#[export] Instance Linear_frames {P : Profile} : FrameAllocator LinearFrameAllocator :=
  Linear_allocate_frame.

(** [n] allocations in a row; the frames come in the order of the calls. *)
Fixpoint allocate_many {S} `{FrameAllocator S} (n : nat) (s : S) : outcome (list (option Z) * S) :=
  match n with
  | O => Ret ([], s)
  | S n =>
      '(f, s) ← allocate_frame s;
      '(fs, s) ← allocate_many n s;
      Ret (f :: fs, s)
  end.

(** ** The kernel heap *)

Definition HEAP_START : Z := 0x444444440000.
Definition HEAP_SIZE : Z := 0x100 * 0x1000.

Inductive PageTableFlag := PRESENT | WRITABLE | USER_ACCESSIBLE.
#[export] Instance PageTableFlag_eq_dec : EqDecision PageTableFlag.
Proof. solve_decision. Defined.
Inductive MapToError := FrameAllocationFailed | ParentEntryHugePage | PageAlreadyMapped (frame : Z).

(** The trait [Mapper<Size4KiB>]: [map_to] may itself take frames for page
    tables from the frame allocator. *)
Class Mapper (M : Type) := map_to :
  forall {S} `{FrameAllocator S}, Z -> Z -> list PageTableFlag -> M -> S ->
    outcome (result unit MapToError * M * S).

(** [Page::range_inclusive] *)
Definition range_inclusive (first last : Z) : list Z :=
  (fun i => first + i * PAGE_SIZE) <$> seqZ 0 ((last - first) / PAGE_SIZE + 1).

Definition heap_pages : list Z :=
  let heap_start_addr := HEAP_START in
  let heap_end_addr := heap_start_addr + HEAP_SIZE - 1 in
  range_inclusive (containing_address heap_start_addr) (containing_address heap_end_addr).

Section heap.
Context {M S : Type} `{Mapper M} `{FrameAllocator S} `{FallbackHeap}.

(** The loop over the pages; [?] leaves it with the first error. *)
Fixpoint map_heap_pages (pages : list Z) (m : M) (s : S) : outcome (result unit MapToError * M * S) :=
  match pages with
  | [] => Ret (Ok tt, m, s)
  | page :: pages =>
      '(frame, s) ← allocate_frame s;
      match frame with
      | None => Ret (Err FrameAllocationFailed, m, s)
      | Some frame =>
          let flags := [PRESENT; WRITABLE] in
          '(r, m, s) ← map_to page frame flags m s;
          match r with
          | Err e => Ret (Err e, m, s)
          | Ok _ => map_heap_pages pages m s
          end
      end
  end.

Definition init_heap (m : M) (s : S) (allocator : FixedBlockAlloc)
    : outcome (result unit MapToError * M * S * FixedBlockAlloc) :=
  '(r, m, s) ← map_heap_pages heap_pages m s;
  match r with
  | Err e => Ret (Err e, m, s, allocator)
  | Ok _ => Ret (Ok tt, m, s, FixedBlock.init HEAP_START HEAP_SIZE allocator)
  end.
End heap.

(** ** What the frame allocators hand out *)

(** A memory map as the boot loader makes it. *)
Record wf_map (mm : MemoryMap) : Prop := {
  wf_nodup : NoDup mm;
  wf_aligned : forall r, r ∈ mm -> 0 <= start_addr r < end_addr r /\
    start_addr r mod PAGE_SIZE = 0 /\ end_addr r mod PAGE_SIZE = 0;
  wf_disjoint : forall r1 r2, r1 ∈ mm -> r2 ∈ mm -> r1 <> r2 ->
    end_addr r1 <= start_addr r2 \/ end_addr r2 <= start_addr r1;
}.

(** The frame at [f] lies in a usable region. *)
Definition usable_frame (mm : MemoryMap) (f : Z) : Prop :=
  f mod PAGE_SIZE = 0 /\
  exists r, r ∈ mm /\ is_usable r = true /\ start_addr r <= f /\ f + PAGE_SIZE <= end_addr r.

Lemma elem_of_step_range a b n x :
  0 < n -> x ∈ step_range a b n <-> exists i, 0 <= i /\ x = a + i * n /\ x < b.
Proof.
  intros Hn. unfold step_range. rewrite list_elem_of_fmap. split.
  - intros (i & -> & Hi%elem_of_seqZ). exists i. split; [lia|]. split; [done|].
    assert (i + 1 <= (b - a + n - 1) / n) by lia.
    assert ((i + 1) * n <= b - a + n - 1); [|lia].
    etrans; [apply Z.mul_le_mono_nonneg_r; [lia|exact H]|]. rewrite Z.mul_comm. apply Z.mul_div_le. lia.
  - intros (i & Hi & -> & Hb). exists i. split; [done|]. apply elem_of_seqZ. split; [done|].
    assert (i + 1 <= (b - a + n - 1) / n); [|lia]. apply Z.div_le_lower_bound; lia.
Qed.

Lemma NoDup_step_range a b n : 0 < n -> NoDup (step_range a b n).
Proof.
  intros Hn. unfold step_range. apply NoDup_fmap_2_strong; [|apply NoDup_seqZ].
  intros i j _ _ E. nia.
Qed.

Lemma containing_aligned a : a mod PAGE_SIZE = 0 -> containing_address a = a.
Proof. unfold containing_address. lia. Qed.

(** The frames of one region. *)
Definition region_frames (r : MemoryRegion) : list Z := step_range (start_addr r) (end_addr r) 4096.

Lemma region_frames_spec mm r f :
  wf_map mm -> r ∈ mm ->
  f ∈ region_frames r <->
  f mod PAGE_SIZE = 0 /\ start_addr r <= f /\ f + PAGE_SIZE <= end_addr r.
Proof.
  intros [_ Hal _] Hr. destruct (Hal r Hr) as (Hse & Hs & He). unfold region_frames, PAGE_SIZE in *.
  rewrite elem_of_step_range by lia. split.
  - intros (i & Hi & -> & Hlt). split; [rewrite Z.mod_add; lia|]. split; [lia|].
    apply Z.mod_divide in Hs as [x Hx], He as [y Hy]; lia.
  - intros (Hm & Hlo & Hhi). exists ((f - start_addr r) / 4096). split_and!; [|..|lia].
    + apply Z.div_pos; lia.
    + apply Z.mod_divide in Hs as [x Hx], Hm as [y Hy]; try lia. rewrite Hx, Hy.
      replace (y * 4096 - x * 4096) with ((y - x) * 4096) by lia. rewrite Z.div_mul; lia.
Qed.

(** In a region whose start is aligned, the addresses are frame starts. *)
Lemma usable_frames_alt mm :
  wf_map mm ->
  usable_frames mm = (filter (fun r => is_usable r = true) mm ≫= region_frames).
Proof.
  intros Hwf. unfold usable_frames. rewrite list_fmap_bind.
  match goal with |- _ <$> ?l' = _ => set (l := l') end.
  trans (id <$> l); [|apply list_fmap_id]. apply list_fmap_ext. intros i f Hf.
  apply list_elem_of_lookup_2, list_elem_of_bind in Hf as (r & Hf & Hr).
  apply list_elem_of_filter in Hr as [_ Hr]. apply containing_aligned.
  by apply (region_frames_spec mm r f Hwf Hr) in Hf as [? _].
Qed.

Lemma elem_of_usable_frames mm f : wf_map mm -> f ∈ usable_frames mm <-> usable_frame mm f.
Proof.
  intros Hwf. rewrite usable_frames_alt, list_elem_of_bind by done. split.
  - intros (r & Hf & [Hu Hr]%list_elem_of_filter).
    apply (region_frames_spec mm r f Hwf Hr) in Hf as (Hm & Hlo & Hhi). split; [done|]. by exists r.
  - intros (Hm & r & Hr & Hu & Hlo & Hhi). exists r. split.
    + by apply (region_frames_spec mm r f Hwf Hr).
    + by apply list_elem_of_filter.
Qed.

Lemma NoDup_usable_frames mm : wf_map mm -> NoDup (usable_frames mm).
Proof.
  intros Hwf. rewrite usable_frames_alt by done. apply NoDup_bind.
  - intros r1 r2 f [_ Hr1]%list_elem_of_filter [_ Hr2]%list_elem_of_filter Hf1 Hf2.
    apply (region_frames_spec mm r1 f Hwf Hr1) in Hf1 as (_ & ? & ?).
    apply (region_frames_spec mm r2 f Hwf Hr2) in Hf2 as (_ & ? & ?).
    destruct (decide (r1 = r2)) as [|Hne]; [done|]. unfold PAGE_SIZE in *.
    destruct (wf_disjoint _ Hwf r1 r2 Hr1 Hr2 Hne); lia.
  - intros r _. by apply NoDup_step_range.
  - apply NoDup_filter, Hwf.
Qed.

Lemma buddy_many mm n l :
  (n <= length l)%nat ->
  allocate_many n (mkBuddy mm l) = Ret (Some <$> take n l, mkBuddy mm (drop n l)).
Proof.
  revert l. induction n as [|n IH]; intros l Hn; [done|]. destruct l as [|f l]; [cbn in Hn; lia|].
  cbn [allocate_many]. unfold allocate_frame, Buddy_frames, Buddy_allocate_frame.
  cbn [frame_iter buddy_map mbind outcome_bind]. rewrite IH by (cbn in Hn; lia). done.
Qed.

Section linear.
Context {P : Profile}.

Lemma linear_step mm n :
  0 <= n -> n + 1 < 2 ^ 64 ->
  Linear_allocate_frame (mkLinear mm n) =
  Ret (usable_frames mm !! Z.to_nat (n + 1), mkLinear mm (n + 1)).
Proof.
  intros H0 H1. unfold Linear_allocate_frame. cbn [next linear_map]. rewrite add_u_ok by range.
  cbn [mbind outcome_bind]. rewrite get_lookup by (cbn; lia). done.
Qed.

Lemma linear_many mm k n :
  Z.of_nat (k + n) < 2 ^ 64 -> (k + n < length (usable_frames mm))%nat ->
  allocate_many n (mkLinear mm (Z.of_nat k)) =
  Ret (Some <$> take n (drop (S k) (usable_frames mm)), mkLinear mm (Z.of_nat (k + n))).
Proof.
  revert k. induction n as [|n IH]; intros k Hb Hl.
  { rewrite Nat.add_0_r. done. }
  cbn [allocate_many]. unfold allocate_frame, Linear_frames. rewrite linear_step by lia.
  cbn [mbind outcome_bind]. replace (Z.of_nat k + 1) with (Z.of_nat (S k)) by lia.
  rewrite Nat2Z.id, IH by lia. cbn [mbind outcome_bind].
  destruct (lookup_lt_is_Some_2 (usable_frames mm) (S k) ltac:(lia)) as [f Hf].
  rewrite (drop_S _ _ _ Hf), Hf. cbn. replace (S (k + n)) with (k + S n)%nat by lia. done.
Qed.

(** C26: a frame allocator over a proper memory map hands out pairwise
    distinct frames that are aligned and lie in usable regions: the linear
    one from the second usable frame on, the other from the frame at index
    [used] on. *)
Theorem frames_distinct_and_usable mm n used :
  wf_map mm -> (n < length (usable_frames mm))%nat -> Z.of_nat n < 2 ^ 64 ->
  (used + n <= length (usable_frames mm))%nat ->
  exists fs fs' l b,
    allocate_many n (Linear_init mm) = Ret (Some <$> fs, l) /\
    allocate_many n (Buddy_init mm (Z.of_nat used)) = Ret (Some <$> fs', b) /\
    get_used l = Z.of_nat n /\ length fs = n /\ length fs' = n /\
    NoDup fs /\ NoDup fs' /\ Forall (usable_frame mm) fs /\ Forall (usable_frame mm) fs'.
Proof.
  intros Hwf Hn Hb Hu.
  assert (Hall : forall k, NoDup (take n (drop k (usable_frames mm))) /\
    Forall (usable_frame mm) (take n (drop k (usable_frames mm)))).
  { intros k. pose proof (NoDup_usable_frames mm Hwf) as Hnd. split.
    - eapply sublist_NoDup; [exact Hnd|]. etrans; [apply sublist_take|apply sublist_drop].
    - apply Forall_take, Forall_drop, Forall_forall. intros f. by apply elem_of_usable_frames. }
  eexists _, _, _, _. split; [apply (linear_many mm 0); lia|].
  split; [apply buddy_many; rewrite length_drop, Nat2Z.id; lia|].
  split; [done|]. rewrite !length_take, !length_drop, Nat2Z.id.
  split; [lia|]. split; [lia|]. split_and!; apply Hall.
Qed.

(** C35: the last frame that the linear allocator handed out is the first one
    the second allocator hands out when it skips the count that the linear
    allocator reports: the frame is used twice. *)
Theorem last_frame_handed_out_twice mm n :
  (0 < n < length (usable_frames mm))%nat -> Z.of_nat n < 2 ^ 64 ->
  exists fs l f b,
    allocate_many n (Linear_init mm) = Ret (fs, l) /\
    last fs = Some (Some f) /\
    allocate_frame (Buddy_init mm (get_used l)) = Ret (Some f, b).
Proof.
  intros Hn Hb.
  destruct (lookup_lt_is_Some_2 (usable_frames mm) n ltac:(lia)) as [f Hf].
  eexists _, _, f, _. split; [apply (linear_many mm 0); lia|]. cbn [Nat.add get_used next].
  split.
  - rewrite fmap_last, last_lookup, length_take, length_drop.
    rewrite lookup_take_lt, lookup_drop by lia.
    replace (1 + Init.Nat.pred (n `min` (length (usable_frames mm) - 1)))%nat with n by lia.
    by rewrite Hf.
  - unfold allocate_frame, Buddy_frames, Buddy_allocate_frame, Buddy_init. cbn [frame_iter].
    rewrite Nat2Z.id, (drop_S _ _ _ Hf). done.
Qed.
End linear.

(** ** The heap mapping *)

(** At least [n] more frames can be allocated. *)
Fixpoint can_allocate {S} `{FrameAllocator S} (n : nat) (s : S) : Prop :=
  match n with
  | O => True
  | Datatypes.S n => exists f s', allocate_frame s = Ret (Some f, s') /\ can_allocate n s'
  end.

Lemma can_allocate_buddy n mm l : (n <= length l)%nat -> can_allocate n (mkBuddy mm l).
Proof.
  revert l. induction n as [|n IH]; intros [|f l] Hn; cbn in Hn; try (done || lia).
  exists f, (mkBuddy mm l). split; [done|]. apply IH. lia.
Qed.

(** What the [x86_64] crate documents of [map_to].  [mapping m] gives the
    frame and flags of every 4KiB page that [m] translates, also of those
    inside a huge page.  [map_to] maps a page that is not mapped to the frame
    with the flags and leaves all other pages alone; it takes at most three
    frames for new page tables and fails on such a page only when there are
    none; on a page that is mapped it returns an error and maps nothing. *)
Class MapperLaws (M : Type) `{Mapper M} := {
  mapping : M -> gmap Z (Z * list PageTableFlag);
  map_to_Ok : forall S (F : FrameAllocator S) page frame flags m s m' s',
    map_to page frame flags m s = Ret (Ok tt, m', s') ->
    mapping m !! page = None /\ mapping m' = <[page := (frame, flags)]> (mapping m);
  map_to_total : forall S (F : FrameAllocator S) page frame flags m s n,
    can_allocate (3 + n) s -> mapping m !! page = None ->
    exists m' s', map_to page frame flags m s = Ret (Ok tt, m', s') /\ can_allocate n s';
  map_to_mapped : forall S (F : FrameAllocator S) page frame flags m s,
    is_Some (mapping m !! page) ->
    exists e m', map_to page frame flags m s = Ret (Err e, m', s) /\ mapping m' = mapping m;
}.

Lemma elem_of_heap_pages p :
  p ∈ heap_pages <-> exists i, 0 <= i < 256 /\ p = HEAP_START + i * PAGE_SIZE.
Proof.
  change heap_pages with ((fun i => HEAP_START + i * PAGE_SIZE) <$> seqZ 0 256).
  rewrite list_elem_of_fmap. split.
  - intros (i & -> & Hi%elem_of_seqZ). exists i. split; [lia|done].
  - intros (i & Hi & ->). exists i. split; [done|]. apply elem_of_seqZ. lia.
Qed.

Lemma NoDup_heap_pages : NoDup heap_pages.
Proof.
  change heap_pages with ((fun i => HEAP_START + i * PAGE_SIZE) <$> seqZ 0 256).
  apply NoDup_fmap_2_strong; [|apply NoDup_seqZ]. unfold PAGE_SIZE. lia.
Qed.

Section heap_facts.
Context {M S : Type} `{L : MapperLaws M} {F : FrameAllocator S} `{FallbackHeap}.
Lemma map_heap_pages_ok pages (m : M) (s : S) :
  can_allocate (length pages * 4) s -> NoDup pages -> (forall p, p ∈ pages -> mapping m !! p = None) ->
  exists m' s', map_heap_pages pages m s = Ret (Ok tt, m', s') /\
    (forall p, p ∈ pages -> exists f, mapping m' !! p = Some (f, [PRESENT; WRITABLE])) /\
    (forall p, p ∉ pages -> mapping m' !! p = mapping m !! p).
Proof using L.
  revert m s. induction pages as [|p pages IH]; intros m s Hcan Hnd Hun.
  { exists m, s. split; [done|]. split; [|done]. intros p Hp. by apply elem_of_nil in Hp. }
  apply NoDup_cons in Hnd as [Hp Hnd]. cbn [map_heap_pages].
  destruct Hcan as (f & s1 & -> & Hcan). cbn [mbind outcome_bind].
  destruct (map_to_total _ _ p f [PRESENT; WRITABLE] m s1 _ Hcan (Hun p ltac:(left)))
    as (m2 & s2 & Hm & Hcan2). rewrite Hm. cbn [mbind outcome_bind].
  apply map_to_Ok in Hm as [_ Hm].
  destruct (IH m2 s2 Hcan2 Hnd) as (m' & s' & -> & Hin & Hout).
  { intros q Hq. rewrite Hm, lookup_insert_ne by (intros <-; contradiction). apply Hun. by right. }
  exists m', s'. split; [done|]. split.
  - intros q [->|Hq]%elem_of_cons; [|by apply Hin]. exists f. rewrite Hout by done.
    rewrite Hm. apply lookup_insert_eq.
  - intros q Hq. apply not_elem_of_cons in Hq as [Hqp Hq].
    rewrite Hout by done. rewrite Hm. by apply lookup_insert_ne.
Qed.

(** C25: with four frames per heap page and no heap page mapped yet,
    [init_heap] succeeds: every address of the heap is then on a present and writable page, no other
    page changes, and the allocator is set up for exactly that range. *)
Theorem init_heap_maps_heap (m : M) (s : S) a :
  can_allocate 1024 s -> (forall p, p ∈ heap_pages -> mapping m !! p = None) ->
  exists m' s', init_heap m s a = Ret (Ok tt, m', s', FixedBlock.init HEAP_START HEAP_SIZE a) /\
    (forall addr, HEAP_START <= addr < HEAP_START + HEAP_SIZE ->
      exists f, mapping m' !! containing_address addr = Some (f, [PRESENT; WRITABLE])) /\
    (forall p, p ∉ heap_pages -> mapping m' !! p = mapping m !! p).
Proof using L.
  intros Hcan Hun. destruct (map_heap_pages_ok heap_pages m s Hcan NoDup_heap_pages Hun)
    as (m' & s' & Hm & Hin & Hout).
  exists m', s'. unfold init_heap. rewrite Hm. split; [done|]. split; [|done].
  intros addr Ha. apply Hin, elem_of_heap_pages. unfold containing_address, HEAP_START, HEAP_SIZE,
    PAGE_SIZE in *. exists ((addr - 0x444444440000) / 4096).
  Z.div_mod_to_equations. lia.
Qed.
End heap_facts.

(** ** Examples *)

Definition example_map : MemoryMap :=
  [mkRegion 0 0x1000 false; mkRegion 0x1000 0x5000 true; mkRegion 0x8000 0xA000 true].

Lemma example_map_wf : wf_map example_map.
Proof.
  split.
  - apply (bool_decide_unpack (NoDup example_map)). vm_compute. done.
  - apply Forall_forall. repeat constructor; done.
  - intros r1 r2 H1 H2. unfold example_map in *.
    rewrite !elem_of_cons, elem_of_nil in H1, H2. destruct_or! H1; destruct_or! H2; subst; cbn; try done; lia.
Qed.

Lemma frames_distinct_and_usable_witness :
  exists fs l, @allocate_many _ (@Linear_frames dev_profile) 3 (Linear_init example_map) =
    Ret (Some <$> fs, l) /\ NoDup fs.
Proof.
  destruct (@frames_distinct_and_usable dev_profile example_map 3 1 example_map_wf)
    as (fs & fs' & l & b & H1 & _ & _ & _ & _ & H2 & _); [vm_compute; lia|done|vm_compute; lia|].
  exists fs, l. split; [exact H1|exact H2].
Defined.

Lemma last_frame_handed_out_twice_witness :
  exists fs l f b,
    @allocate_many _ (@Linear_frames dev_profile) 3 (Linear_init example_map) = Ret (fs, l) /\
    last fs = Some (Some f) /\ f = 0x4000 /\
    allocate_frame (Buddy_init example_map (get_used l)) = Ret (Some f, b).
Proof.
  destruct (@last_frame_handed_out_twice dev_profile example_map 3) as (fs & l & f & b & H1 & H2 & H3);
    [vm_compute; lia|done|].
  exists fs, l, f, b. split; [exact H1|]. split; [exact H2|]. split; [|exact H3].
  vm_compute in H1. injection H1 as <- <-. vm_compute in H2. congruence.
Defined.

(** A mapper that keeps a map of pages. *)
#[local] Instance map_mapper : Mapper (gmap Z (Z * list PageTableFlag)) :=
  fun S F page frame flags m s =>
    match m !! page with
    | Some (f, _) => Ret (Err (PageAlreadyMapped f), m, s)
    | None => Ret (Ok tt, <[page := (frame, flags)]> m, s)
    end.

Lemma can_allocate_le {S} `{FrameAllocator S} n k (s : S) :
  (k <= n)%nat -> can_allocate n s -> can_allocate k s.
Proof.
  revert k s. induction n as [|n IH]; intros [|k] s Hk; try (done || lia).
  intros (f & s' & Hf & Hn). exists f, s'. split; [done|]. apply IH; [lia|done].
Qed.

#[local] Instance map_mapper_laws : MapperLaws (gmap Z (Z * list PageTableFlag)).
Proof.
  refine {| mapping := fun m => m |}; unfold map_to, map_mapper.
  - intros S F page frame flags m s m' s' H. destruct (m !! page) as [[f fl]|] eqn:E; [done|].
    by injection H as <- <-.
  - intros S F page frame flags m s n Hn ->. eexists _, _. split; [done|].
    by apply (can_allocate_le (3 + n)); [lia|].
  - intros S F page frame flags m s [[f fl] ->]. eauto.
Defined.

(** A fallback heap that never has memory. *)
#[local] Instance empty_heap : FallbackHeap := {|
  Heap := unit;
  Heap_empty := tt;
  Heap_init := fun _ _ _ => tt;
  allocate_first_fit := fun _ _ => None;
  deallocate := fun _ _ _ => tt;
|}.

Lemma init_heap_maps_heap_witness :
  exists m' s', init_heap (∅ : gmap Z (Z * list PageTableFlag))
      (Buddy_init [mkRegion 0 0x1000000 true] 7) (FixedBlock.new (fun _ => 0)) =
    Ret (Ok tt, m', s', FixedBlock.init HEAP_START HEAP_SIZE (FixedBlock.new (fun _ => 0))).
Proof.
  destruct (init_heap_maps_heap (M := gmap Z (Z * list PageTableFlag)) ∅
    (Buddy_init [mkRegion 0 0x1000000 true] 7) (FixedBlock.new (fun _ => 0)))
    as (m' & s' & H1 & _).
  - apply can_allocate_buddy. apply Nat.leb_le. vm_compute. reflexivity.
  - intros p _. reflexivity.
  - exists m', s'. exact H1.
Defined.
