(* ===== verification/Elf.v ===== *)
(** * The ELF loader

    [src/src/elf.rs]: the check of the ELF header, the program headers, and
    [map_elf_file_to_process], which maps the pages of every loadable segment
    and copies its bytes.  The user memory is addressed by virtual address
    under the page table of the new process; touching a page that is not
    mapped runs the page fault handler, which prints and halts as the panic
    handler does. *)
From S2P Require Import Prelude FixedBlock Frames.

Definition MAGIC_NUM : list Z := [0x7F; 0x45; 0x4C; 0x46].

Record ElfHeader := mkElfHeader {
  magic_num : list Z;
  bits : Z;
  endianness : Z;
  elf_header_version : Z;
  os_abi : Z;
  elf_type : Z;
  instruction_set : Z;
  elf_version : Z;
  program_entry : Z;
  program_header_table : Z;
  section_header_table : Z;
  elf_flags : Z;
  header_size : Z;
  program_entry_size : Z;
  program_entry_count : Z;
  section_entry_size : Z;
  section_entry_count : Z;
  section_names_idx : Z;
}.
Definition ELF_HEADER_SIZE : nat := 64.

(** The bytes of a [#[repr(C, packed)]] struct read in place. *)
Definition ElfHeader_of_bytes (b : list Z) : ElfHeader :=
  mkElfHeader (take 4 b) (field b 4 1) (field b 5 1) (field b 6 1) (field b 7 1)
    (field b 16 2) (field b 18 2) (field b 20 4) (field b 24 8) (field b 32 8) (field b 40 8)
    (field b 48 4) (field b 52 2) (field b 54 2) (field b 56 2) (field b 58 2) (field b 60 2)
    (field b 62 2).

Inductive ProgramHeaderType :=
| Null | Load | Dynamic | Interp | Note | SHLib | PHDR | LoProc | HiProc.
#[global] Instance ProgramHeaderType_eq_dec : EqDecision ProgramHeaderType.
Proof. solve_decision. Defined.

(** The variant with a given discriminant; a value without one is no [Load]. *)
Definition ProgramHeaderType_of (v : Z) : option ProgramHeaderType :=
  if v =? 0x0 then Some Null else if v =? 0x1 then Some Load else if v =? 0x2 then Some Dynamic
  else if v =? 0x3 then Some Interp else if v =? 0x4 then Some Note else if v =? 0x5 then Some SHLib
  else if v =? 0x6 then Some PHDR else if v =? 0x70000000 then Some LoProc
  else if v =? 0x7FFFFFFF then Some HiProc else None.

Record ProgramHeader := mkProgramHeader {
  header_type : option ProgramHeaderType;
  ph_flags : Z;
  offset : Z;
  virt_addr : Z;
  file_size : Z;
  mem_size : Z;
  ph_align : Z;
}.
Definition PROGRAM_HEADER_SIZE : nat := 56.

Definition ProgramHeader_of_bytes (b : list Z) : ProgramHeader :=
  mkProgramHeader (ProgramHeaderType_of (field b 0 4)) (field b 4 4) (field b 8 8) (field b 16 8)
    (field b 32 8) (field b 40 8) (field b 48 8).

Inductive ElfVerifyError :=
| BadSliceSize (n : Z)
| BadMagicNum
| Elf32Bit
| BadEndianness
| BadArch.

Definition from_slice (b : list Z) : result ElfHeader ElfVerifyError :=
  if negb (length b =? ELF_HEADER_SIZE)%nat then Err (BadSliceSize (Z.of_nat (length b)))
  else
    let header := ElfHeader_of_bytes b in
    if negb (bool_decide (magic_num header = MAGIC_NUM)) then Err BadMagicNum
    else if negb (bits header =? 2) then Err Elf32Bit
    else if negb (endianness header =? 1) then Err BadEndianness
    else if negb (instruction_set header =? 0x3E) then Err BadArch
    else Ok header.

(** [VirtAddr::new] of the [x86_64] crate: addresses of the lower half are
    kept, others may be refused with a panic. *)
Class VirtAddrNew := {
  VirtAddr_new : Z -> outcome Z;
  VirtAddr_new_lower : forall a, 0 <= a < 2 ^ 47 -> VirtAddr_new a = Ret a;
}.

(** [x86_64::align_down] to a page *)
Definition align_down (a : Z) : Z := containing_address a.

Section loader.
Context {P : Profile} {M S : Type} `{L : MapperLaws M} {F : FrameAllocator S} {V : VirtAddrNew}.

(** What the memory holds after the end of the file, should the program
    headers reach that far. *)
Context (beyond : Z -> Z).

Record LoadState := mkLoadState {
  ld_mapper : M;
  ld_frames : S;
  ld_regions : gset Z;
  ld_out : list Z;
  ld_mem : Z -> Z;
}.
Definition set_ld_mem (f : Z -> Z) (st : LoadState) : LoadState :=
  mkLoadState (ld_mapper st) (ld_frames st) (ld_regions st) (ld_out st) f.

Definition unwrap_err_msg : string := "called `Result::unwrap()` on an `Err` value".
Definition page_fault_msg : string := "PAGE FAULT EXCEPTION".

Definition program_headers (file : list Z) (table count : Z) : list ProgramHeader :=
  (fun i =>
    ProgramHeader_of_bytes
      ((fun j => default (beyond (table + j)) (get file (table + j)))
       <$> seqZ (i * Z.of_nat PROGRAM_HEADER_SIZE) (Z.of_nat PROGRAM_HEADER_SIZE)))
  <$> seqZ 0 count.

(** The body of the loop that maps the pages of a segment. *)
Definition map_segment_page (ph : ProgramHeader) (i : Z) (st : LoadState) : outcome LoadState :=
  off ← mul_u 64 i 0x1000;
  page_addr ← add_u 64 off (align_down (virt_addr ph));
  if bool_decide (page_addr ∈ ld_regions st) then Ret st
  else
    '(frame, s) ← allocate_frame (ld_frames st);
    frame ← expect "failed to allocate frame" frame;
    v ← VirtAddr_new (virt_addr ph);
    '(r, m, s) ← map_to (containing_address v) frame
                   [PRESENT; WRITABLE; USER_ACCESSIBLE] (ld_mapper st) s;
    match r with
    | Err _ => Panic unwrap_err_msg
    | Ok _ => Ret (mkLoadState m s ({[page_addr]} ∪ ld_regions st) (ld_out st ++ [frame]) (ld_mem st))
    end.

(** [page[lo..].copy_from_slice(data)] for the page at [page_addr]. *)
Definition write_page (page_addr lo : Z) (data : list Z) (st : LoadState) : outcome LoadState :=
  if bool_decide (data = []) then Ret st
  else if mapping (ld_mapper st) !! page_addr is Some _ then
    Ret (set_ld_mem (fun a => default (ld_mem st a) (get data (a - (page_addr + lo)))) st)
  else Panic page_fault_msg.

(** The body of the loop that copies the bytes of a segment. *)
Definition copy_segment_page (file : list Z) (ph : ProgramHeader) (st : Z * LoadState)
    : outcome (Z * LoadState) :=
  let '(working_offset, st) := st in
  lower_bound ← add_u 64 (offset ph) working_offset;
  v ← add_u 64 (virt_addr ph) working_offset;
  let page_addr := align_down v in
  page_end ← add_u 64 page_addr 0x1000;
  left ← sub_u 64 (file_size ph) working_offset;
  left ← add_u 64 left 1;
  let write_size := Z.min page_end left in
  let lower_bound_offset := lower_bound mod 0x1000 in
  upper ← add_u 64 lower_bound_offset write_size;
  _ ← (if (lower_bound_offset <=? upper) && (upper <=? 0x1000) then Ret tt else Panic oob_msg);
  lower_end ← add_u 64 lower_bound write_size;
  data ← slice file lower_bound lower_end;
  st ← write_page page_addr lower_bound_offset data st;
  working_offset ← add_u 64 working_offset write_size;
  Ret (working_offset, st).

(** One iteration of the loop over the program headers. *)
Definition load_segment (file : list Z) (ph : ProgramHeader) (st : LoadState) : outcome LoadState :=
  if negb (bool_decide (header_type ph = Some Load)) then Ret st
  else
    let page_count := mem_size ph / 0x1000 + 1 in
    st ← for_each (seqZ 0 page_count) (map_segment_page ph) st;
    let file_data_page_count := file_size ph / 0x1000 + 1 in
    '(_, st) ← for_each (seqZ 0 file_data_page_count) (fun _ => copy_segment_page file ph) (0, st);
    Ret st.

Definition map_elf_file_to_process (file : list Z) (m : M) (s : S) (mem : Z -> Z)
    : outcome (list Z * Z * LoadState) :=
  header ← slice file 0 (Z.of_nat ELF_HEADER_SIZE);
  match from_slice header with
  | Err _ => Panic "invalid elf header"
  | Ok elf_header =>
      _ ← index file (program_header_table elf_header);
      let phs := program_headers file (program_header_table elf_header)
                   (program_entry_count elf_header) in
      st ← for_each phs (load_segment file) (mkLoadState m s ∅ [] mem);
      Ret (ld_out st, program_entry elf_header, st)
  end.
End loader.

(** ** Loading small segments *)

(** A segment that fits, with the byte after it, on the one page its address
    lies on, at the same place in the page as in the file. *)
Record small (file : list Z) (ph : ProgramHeader) : Prop := {
  small_load : header_type ph = Some Load;
  small_virt : 0 <= virt_addr ph < 2 ^ 47;
  small_mem : 0 <= mem_size ph < 0x1000;
  small_offset : 0 <= offset ph < 2 ^ 63;
  small_file : 0 <= file_size ph;
  small_page : virt_addr ph mod 0x1000 + file_size ph < 0x1000;
  small_aligned : offset ph mod 0x1000 = virt_addr ph mod 0x1000;
  small_in_file : offset ph + file_size ph < Z.of_nat (length file);
}.

Definition seg_page (ph : ProgramHeader) : Z := containing_address (virt_addr ph).
Definition user_flags : list PageTableFlag := [PRESENT; WRITABLE; USER_ACCESSIBLE].

(** The segment is in memory. *)
Definition loaded (file : list Z) (ph : ProgramHeader) (mem : Z -> Z) : Prop :=
  forall k, 0 <= k < file_size ph -> Some (mem (virt_addr ph + k)) = get file (offset ph + k).

(** [ph] is not touched when [ph'] is loaded. *)
Definition apart (ph ph' : ProgramHeader) : Prop :=
  virt_addr ph' + file_size ph' < virt_addr ph \/ virt_addr ph + file_size ph <= virt_addr ph'.

Abbreviation is_load ph := (header_type ph = Some Load).

Section small_facts.
Context {P : Profile} {M S : Type} `{L : MapperLaws M} {F : FrameAllocator S} {V : VirtAddrNew}.
Abbreviation state := (@LoadState M S).
Implicit Types st : state.

(** The pages recorded in [ld_regions] are mapped for the user, to frames that
    are in [ld_out]. *)
Definition recorded st : Prop :=
  forall p, p ∈ ld_regions st -> exists f, f ∈ ld_out st /\ mapping (ld_mapper st) !! p = Some (f, user_flags).

Lemma map_page_fresh ph st n :
  0 <= virt_addr ph < 2 ^ 47 -> seg_page ph ∉ ld_regions st ->
  mapping (ld_mapper st) !! seg_page ph = None -> can_allocate (4 + n) (ld_frames st) ->
  exists f m s, map_segment_page ph 0 st =
      Ret (mkLoadState m s ({[seg_page ph]} ∪ ld_regions st) (ld_out st ++ [f]) (ld_mem st)) /\
    mapping m = <[seg_page ph := (f, user_flags)]> (mapping (ld_mapper st)) /\ can_allocate n s.
Proof.
  intros Hv Hr Hm (f & s1 & Hf & Hcan). unfold map_segment_page.
  assert (0 <= seg_page ph <= virt_addr ph).
  { unfold seg_page, containing_address, PAGE_SIZE in *. Z.div_mod_to_equations. lia. }
  run_arith. unfold align_down. fold (seg_page ph).
  rewrite add_u_ok by range. cbn [mbind outcome_bind Z.mul Z.add].
  rewrite bool_decide_eq_false_2 by done. rewrite Hf. cbn [mbind outcome_bind expect].
  rewrite VirtAddr_new_lower by done. cbn [mbind outcome_bind]. fold (seg_page ph).
  destruct (map_to_total S F (seg_page ph) f user_flags (ld_mapper st) s1 n Hcan Hm)
    as (m & s & Hmap & Hn).
  exists f, m, s. unfold user_flags in Hmap. rewrite Hmap. split; [done|]. split; [|done].
  by apply map_to_Ok in Hmap as [_ ?].
Qed.

Lemma map_page_known ph i st :
  in_u 64 (i * 0x1000) -> in_u 64 (i * 0x1000 + seg_page ph) ->
  i * 0x1000 + seg_page ph ∈ ld_regions st -> map_segment_page ph i st = Ret st.
Proof.
  intros Hi Ha Hr. unfold map_segment_page. rewrite mul_u_ok by done. cbn [mbind outcome_bind].
  unfold align_down. fold (seg_page ph). rewrite add_u_ok by done. cbn [mbind outcome_bind].
  by rewrite bool_decide_eq_true_2.
Qed.

(** What mapping the one page of a small segment leaves. *)
Definition mapped_state ph n st st' : Prop :=
  ld_mem st' = ld_mem st /\ ld_regions st' = {[seg_page ph]} ∪ ld_regions st /\ recorded st' /\
  (forall p, p <> seg_page ph -> mapping (ld_mapper st') !! p = mapping (ld_mapper st) !! p) /\
  can_allocate n (ld_frames st').

Lemma map_page_small ph st n :
  0 <= virt_addr ph < 2 ^ 47 -> recorded st ->
  (seg_page ph ∉ ld_regions st -> mapping (ld_mapper st) !! seg_page ph = None) ->
  can_allocate (4 + n) (ld_frames st) ->
  exists st', map_segment_page ph 0 st = Ret st' /\ mapped_state ph n st st'.
Proof.
  intros Hv Hrec Hfree Hcan.
  destruct (decide (seg_page ph ∈ ld_regions st)) as [Hin|Hout].
  - exists st. split.
    + apply map_page_known; [range| |done].
      unfold seg_page, containing_address, PAGE_SIZE. Z.div_mod_to_equations. range.
    + split; [done|]. split; [symmetry; apply subseteq_union_1_L, singleton_subseteq_l, Hin|].
      split; [done|]. split; [done|].
      apply (can_allocate_le (4 + n)); [lia|done].
  - destruct (map_page_fresh ph st n Hv Hout (Hfree Hout) Hcan) as (f & m & s & -> & Hm & Hn).
    eexists. split; [done|]. split; [done|]. split; [done|]. cbn. split; [|split; [|done]].
    + intros p Hp. cbn in Hp. apply elem_of_union in Hp as [->%elem_of_singleton|Hp]; cbn; rewrite Hm.
      * exists f. split; [apply elem_of_app; right; by left|apply lookup_insert_eq].
      * destruct (Hrec p Hp) as (f' & Hin & Hf'). exists f'.
        split; [by apply elem_of_app; left|].
        by rewrite lookup_insert_ne by (intros <-; contradiction).
    + intros p Hp. rewrite Hm. by apply lookup_insert_ne.
Qed.

(** The memory after the segment and the byte behind it are copied. *)
Definition copied file ph (mem : Z -> Z) : Z -> Z :=
  fun a => default (mem a)
    (get (take (Z.to_nat (file_size ph + 1)) (drop (Z.to_nat (offset ph)) file)) (a - virt_addr ph)).

Lemma copy_small file ph st :
  small file ph -> is_Some (mapping (ld_mapper st) !! seg_page ph) ->
  copy_segment_page file ph (0, st) =
  Ret (file_size ph + 1, set_ld_mem (copied file ph (ld_mem st)) st).
Proof.
  intros [Hl Hv Hms Ho Hfs Hpg Hal Hin] [x Hx]. unfold copy_segment_page.
  assert (Hsp : seg_page ph = virt_addr ph - virt_addr ph mod 4096) by done.
  pose proof (Z.mod_pos_bound (virt_addr ph) 4096 ltac:(lia)).
  assert (virt_addr ph mod 4096 <= virt_addr ph) by (apply Z.mod_le; lia).
  run_arith. rewrite !Z.add_0_r.
  unfold align_down. fold (seg_page ph).
  run_arith.
  run_arith. rewrite Z.sub_0_r.
  rewrite Z.min_r by lia. rewrite Hal.
  run_arith.
  replace (_ <=? _) with true by blia. replace (_ <=? 0x1000) with true by blia.
  cbn [andb mbind outcome_bind]. run_arith.
  rewrite slice_ok by lia. cbn [mbind outcome_bind].
  replace (Z.to_nat (offset ph + (file_size ph + 1) - offset ph)) with (Z.to_nat (file_size ph + 1)) by lia.
  unfold write_page. rewrite bool_decide_eq_false_2.
  2:{ intros E%(f_equal length). rewrite length_take, length_drop in E. cbn in E. lia. }
  rewrite Hx. cbn [mbind outcome_bind].
  run_arith. do 3 f_equal.
  unfold copied. replace (seg_page ph + virt_addr ph mod 4096) with (virt_addr ph) by lia. done.
Qed.

Lemma copied_loads file ph mem : small file ph -> loaded file ph (copied file ph mem).
Proof.
  intros Hs k Hk. destruct Hs. unfold copied.
  replace (virt_addr ph + k - virt_addr ph) with k by lia.
  rewrite !get_lookup, lookup_take_lt, lookup_drop by lia.
  replace (Z.to_nat (offset ph) + Z.to_nat k)%nat with (Z.to_nat (offset ph + k)) by lia.
  destruct (lookup_lt_is_Some_2 file (Z.to_nat (offset ph + k)) ltac:(lia)) as [b ->]. done.
Qed.

Lemma copied_outside file ph mem a :
  0 <= file_size ph -> a < virt_addr ph \/ virt_addr ph + file_size ph < a ->
  copied file ph mem a = mem a.
Proof.
  intros Hf Ha. unfold copied. rewrite (proj2 (eq_None_not_Some _)); [done|].
  intros [b Hb%get_Some]. destruct Hb as [? Hb%lookup_lt_Some]. rewrite length_take in Hb. lia.
Qed.

Lemma load_segment_small_eq file ph st n :
  small file ph -> recorded st ->
  (seg_page ph ∉ ld_regions st -> mapping (ld_mapper st) !! seg_page ph = None) ->
  can_allocate (4 + n) (ld_frames st) ->
  exists st1, load_segment file ph st = Ret (set_ld_mem (copied file ph (ld_mem st)) st1) /\
    mapped_state ph n st st1.
Proof.
  intros Hs Hrec Hfree Hcan. pose proof Hs as [Hl Hv Hms Ho Hfs Hpg Hal Hin].
  destruct (map_page_small ph st n Hv Hrec Hfree Hcan) as (st1 & Hmap & Hst1).
  pose proof Hst1 as (Hmem & Hreg & Hrec1 & _). exists st1. split; [|done].
  unfold load_segment. rewrite bool_decide_eq_true_2 by done. cbn [negb].
  rewrite !Z.div_small by (pose proof (Z.mod_pos_bound (virt_addr ph) 4096); lia).
  change (seqZ 0 (0 + 1)) with [0]. cbn [for_each]. rewrite Hmap. cbn [mbind outcome_bind].
  rewrite copy_small, Hmem; [done|done|].
  destruct (Hrec1 (seg_page ph)) as (f & _ & ->); [|done]. rewrite Hreg.
  by apply elem_of_union_l, elem_of_singleton.
Qed.

(** A small segment is loaded: its bytes are at its address, the page is
    mapped present, writable and accessible to the user, no byte but the
    segment's and the one behind it changes, and no other page is remapped.
    In particular the rest of the segment's memory is not cleared. *)
Theorem load_segment_small file ph st n :
  small file ph -> recorded st ->
  (seg_page ph ∉ ld_regions st -> mapping (ld_mapper st) !! seg_page ph = None) ->
  can_allocate (4 + n) (ld_frames st) ->
  exists st', load_segment file ph st = Ret st' /\ loaded file ph (ld_mem st') /\
    (exists f, mapping (ld_mapper st') !! seg_page ph = Some (f, user_flags)) /\
    (forall a, a < virt_addr ph \/ virt_addr ph + file_size ph < a -> ld_mem st' a = ld_mem st a) /\
    (forall p, p <> seg_page ph -> mapping (ld_mapper st') !! p = mapping (ld_mapper st) !! p) /\
    can_allocate n (ld_frames st').
Proof.
  intros Hs Hrec Hfree Hcan.
  destruct (load_segment_small_eq file ph st n Hs Hrec Hfree Hcan)
    as (st1 & -> & Hmem & Hreg & Hrec1 & Hother & Hn).
  eexists. split; [done|]. split; [by apply copied_loads|]. split; [|split; [|done]].
  - destruct (Hrec1 (seg_page ph)) as (f & _ & Hf); [|by exists f].
    rewrite Hreg. by apply elem_of_union_l, elem_of_singleton.
  - intros a Ha. apply copied_outside; [apply Hs|done].
Qed.


Lemma load_segment_skip file ph st : header_type ph <> Some Load -> load_segment file ph st = Ret st.
Proof. intros Hl. unfold load_segment. by rewrite bool_decide_eq_false_2. Qed.

(** Loading a list of small segments that do not overwrite earlier ones. *)
Lemma load_segments file phs st :
  Forall (fun ph => is_load ph -> small file ph) phs ->
  ForallOrdPairs (fun ph ph' => is_load ph -> is_load ph' -> apart ph ph') phs ->
  recorded st ->
  (forall ph, ph ∈ phs -> is_load ph -> seg_page ph ∉ ld_regions st ->
    mapping (ld_mapper st) !! seg_page ph = None) ->
  can_allocate (length phs * 4) (ld_frames st) ->
  exists st', for_each phs (load_segment file) st = Ret st' /\ recorded st' /\
    ld_regions st ⊆ ld_regions st' /\
    (forall ph, ph ∈ phs -> is_load ph ->
      loaded file ph (ld_mem st') /\ seg_page ph ∈ ld_regions st') /\
    (forall a, (forall ph, ph ∈ phs -> is_load ph ->
       a < virt_addr ph \/ virt_addr ph + file_size ph < a) -> ld_mem st' a = ld_mem st a) /\
    (forall p, (forall ph, ph ∈ phs -> is_load ph -> seg_page ph <> p) ->
       mapping (ld_mapper st') !! p = mapping (ld_mapper st) !! p).
Proof.
  revert st. induction phs as [|ph phs IH]; intros st Hsm Hap Hrec Hfree Hcan.
  { exists st. split; [done|]. split; [done|]. split; [done|]. split; [|done].
    intros ph Hph. by apply elem_of_nil in Hph. }
  apply Forall_cons in Hsm as [Hs Hsm]. inversion Hap as [|? ? Hap1 Hap2]; subst.
  destruct (decide (is_load ph)) as [Hl|Hl].
  - destruct (load_segment_small_eq file ph st (length phs * 4) (Hs Hl) Hrec
      (Hfree ph ltac:(left) Hl) Hcan) as (st1 & Hld & Hmem & Hreg & Hrec1 & Hother & Hcan1).
    destruct (IH (set_ld_mem (copied file ph (ld_mem st)) st1) Hsm Hap2)
      as (st' & Hrun & Hrec' & Hsub & Hin & Hout & Hkeep); [done| |done|].
    { intros ph' Hph' Hl' Hn. cbn in Hn |- *. rewrite Hreg in Hn.
      apply not_elem_of_union in Hn as [Hne%not_elem_of_singleton Hn].
      rewrite Hother by done. apply Hfree; [by right|done|done]. }
    exists st'. cbn [for_each]. rewrite Hld. cbn [mbind outcome_bind]. split; [exact Hrun|].
    cbn in Hsub, Hkeep. rewrite Hreg in Hsub. split; [done|]. split_and!.
    + etrans; [|exact Hsub]. apply union_subseteq_r.
    + intros ph' [->|Hph']%elem_of_cons Hl'; [|by apply Hin]. split.
      * intros k Hk. rewrite Hout; [by apply copied_loads; [apply Hs|]|].
        intros ph' Hph' Hl''. rewrite List.Forall_forall in Hap1.
        apply list_elem_of_In in Hph'. destruct (Hap1 _ Hph' Hl' Hl''); lia.
      * apply Hsub. by apply elem_of_union_l, elem_of_singleton.
    + intros a Ha. rewrite Hout by (intros ph' Hph'; apply Ha; by right).
      apply copied_outside; [apply Hs, Hl|]. apply Ha; [by left|done].
    + intros p Hp. rewrite Hkeep by (intros ph' Hph'; apply Hp; by right).
      apply Hother. apply not_eq_sym, Hp; [by left|done].
  - destruct (IH st Hsm Hap2 Hrec) as (st' & Hrun & Hrec' & Hsub & Hin & Hout & Hkeep).
    { intros ph' Hph'. apply Hfree. by right. }
    { apply (can_allocate_le (length (ph :: phs) * 4)); [cbn; lia|done]. }
    exists st'. cbn [for_each]. rewrite load_segment_skip by done. cbn [mbind outcome_bind]. split; [exact Hrun|]. split_and!; try done.
    + intros ph' [->|Hph']%elem_of_cons Hl'; [done|by apply Hin].
    + intros a Ha. apply Hout. intros ph' Hph'. apply Ha. by right.
    + intros p Hp. apply Hkeep. intros ph' Hph'. apply Hp. by right.
Qed.

(** An executable whose loadable segments are small and do not overwrite one
    another is loaded completely: the call returns the entry point of the
    header, every loadable segment is in memory on a page mapped for the user
    to one of the returned frames, nothing else in memory changes, and no other
    page. *)
Lemma map_elf_file_loads beyond file h m s mem :
  let phs := program_headers beyond file (program_header_table h) (program_entry_count h) in
  (64 <= length file)%nat -> from_slice (take 64 file) = Ok h ->
  0 <= program_header_table h < Z.of_nat (length file) ->
  Forall (fun ph => is_load ph -> small file ph) phs ->
  ForallOrdPairs (fun ph ph' => is_load ph -> is_load ph' -> apart ph ph') phs ->
  (forall ph, ph ∈ phs -> is_load ph -> mapping m !! seg_page ph = None) ->
  can_allocate (length phs * 4) s ->
  exists frames st',
    map_elf_file_to_process beyond file m s mem = Ret (frames, program_entry h, st') /\
    (forall ph, ph ∈ phs -> is_load ph -> loaded file ph (ld_mem st') /\
      exists f, f ∈ frames /\ mapping (ld_mapper st') !! seg_page ph = Some (f, user_flags)) /\
    (forall a, (forall ph, ph ∈ phs -> is_load ph ->
       a < virt_addr ph \/ virt_addr ph + file_size ph < a) -> ld_mem st' a = mem a) /\
    (forall p, (forall ph, ph ∈ phs -> is_load ph -> seg_page ph <> p) ->
       mapping (ld_mapper st') !! p = mapping m !! p).
Proof.
  intros phs Hlen Hh Htab Hsm Hap Hfree Hcan. unfold map_elf_file_to_process.
  rewrite slice_ok by (unfold ELF_HEADER_SIZE; lia). cbn [mbind outcome_bind]. rewrite drop_0.
  change (Z.to_nat (Z.of_nat ELF_HEADER_SIZE - 0)) with 64%nat. rewrite Hh.
  unfold index. destruct (get_is_Some file _ Htab) as [b ->]. cbn [expect mbind outcome_bind].
  fold phs. destruct (load_segments file phs (mkLoadState m s ∅ [] mem) Hsm Hap)
    as (st' & -> & Hrec & _ & Hin & Hout & Hkeep); [|by intros ph Hph Hl _; apply Hfree|done|].
  { intros p Hp. by apply elem_of_empty in Hp. }
  eexists _, st'. cbn [mbind outcome_bind]. split; [done|]. split; [|done].
  intros ph Hph Hl. destruct (Hin ph Hph Hl) as [Hld Hr]. split; [done|]. by apply Hrec.
Qed.

(** Every page of a segment is mapped at the address of its first page. *)
Lemma map_page_again ph i st :
  0 <= virt_addr ph < 2 ^ 47 -> in_u 64 (i * 0x1000) -> in_u 64 (i * 0x1000 + seg_page ph) ->
  i * 0x1000 + seg_page ph ∉ ld_regions st -> is_Some (mapping (ld_mapper st) !! seg_page ph) ->
  can_allocate 1 (ld_frames st) -> map_segment_page ph i st = Panic unwrap_err_msg.
Proof.
  intros Hv Hi Ha Hr Hm (f & s & Hf & _). unfold map_segment_page, align_down. fold (seg_page ph).
  rewrite mul_u_ok by done. cbn [mbind outcome_bind]. rewrite add_u_ok by done.
  cbn [mbind outcome_bind]. rewrite bool_decide_eq_false_2, Hf by done.
  cbn [mbind outcome_bind expect]. rewrite VirtAddr_new_lower by done.
  cbn [mbind outcome_bind]. fold (seg_page ph).
  destruct (map_to_mapped S F (seg_page ph) f user_flags (ld_mapper st) s Hm) as (e & m & Hm' & _).
  unfold user_flags in Hm'. by rewrite Hm'.
Qed.

(** C36: a segment of a page or more cannot be loaded: for the second page the
    loader maps the first page again, and the error makes it panic. *)
Theorem load_segment_large_panics file ph st :
  is_load ph -> 0x1000 <= mem_size ph -> 0 <= virt_addr ph < 2 ^ 47 -> recorded st ->
  seg_page ph + 0x1000 ∉ ld_regions st ->
  (seg_page ph ∉ ld_regions st -> mapping (ld_mapper st) !! seg_page ph = None) ->
  can_allocate 5 (ld_frames st) ->
  load_segment file ph st = Panic unwrap_err_msg.
Proof.
  intros Hl Hms Hv Hrec Hnext Hfree Hcan. unfold load_segment.
  rewrite bool_decide_eq_true_2 by done. cbn [negb].
  assert (1 <= mem_size ph / 4096) by (Z.div_mod_to_equations; lia).
  rewrite (seqZ_cons 0 (mem_size ph / _ + 1)), (seqZ_cons (Z.succ 0)) by lia. cbn [for_each].
  destruct (map_page_small ph st 1 Hv Hrec Hfree Hcan) as (st1 & -> & _ & Hreg & Hrec1 & _ & Hcan1).
  assert (0 <= seg_page ph < 2 ^ 47).
  { unfold seg_page, containing_address, PAGE_SIZE. Z.div_mod_to_equations. lia. }
  change (Z.succ 0) with 1. cbn [mbind outcome_bind]. rewrite map_page_again; try range; [done| | |done].
  - rewrite Hreg, elem_of_union, elem_of_singleton.
    replace (1 * 4096 + seg_page ph) with (seg_page ph + 4096) by lia. intros [?|?]; [lia|done].
  - destruct (Hrec1 (seg_page ph)) as (f & _ & ->); [|done].
    rewrite Hreg. by apply elem_of_union_l, elem_of_singleton.
Qed.
End small_facts.

(** ** The header format *)

(** The layout of the header in a file. *)
Definition ElfHeader_bytes (h : ElfHeader) (reserved : list Z) : list Z :=
  magic_num h ++ to_le_bytes 1 (bits h) ++ to_le_bytes 1 (endianness h) ++
  to_le_bytes 1 (elf_header_version h) ++ to_le_bytes 1 (os_abi h) ++ reserved ++
  to_le_bytes 2 (elf_type h) ++ to_le_bytes 2 (instruction_set h) ++
  to_le_bytes 4 (elf_version h) ++ to_le_bytes 8 (program_entry h) ++
  to_le_bytes 8 (program_header_table h) ++ to_le_bytes 8 (section_header_table h) ++
  to_le_bytes 4 (elf_flags h) ++ to_le_bytes 2 (header_size h) ++
  to_le_bytes 2 (program_entry_size h) ++ to_le_bytes 2 (program_entry_count h) ++
  to_le_bytes 2 (section_entry_size h) ++ to_le_bytes 2 (section_entry_count h) ++
  to_le_bytes 2 (section_names_idx h).

(** The headers the loader takes: 64-bit, little-endian, x86-64. *)
Record valid_header (h : ElfHeader) : Prop := {
  vh_magic : magic_num h = MAGIC_NUM;
  vh_bits : bits h = 2;
  vh_endianness : endianness h = 1;
  vh_arch : instruction_set h = 0x3E;
  vh_u8 : in_u 8 (elf_header_version h) /\ in_u 8 (os_abi h);
  vh_u16 : Forall (in_u 16) [elf_type h; header_size h; program_entry_size h;
    program_entry_count h; section_entry_size h; section_entry_count h; section_names_idx h];
  vh_u32 : Forall (in_u 32) [elf_version h; elf_flags h];
  vh_u64 : Forall (in_u 64) [program_entry h; program_header_table h; section_header_table h];
}.

Lemma ElfHeader_bytes_of_bytes b :
  bytes b -> length b = 64%nat ->
  ElfHeader_bytes (ElfHeader_of_bytes b) (take 8 (drop 8 b)) = b.
Proof.
  intros Hb Hl. unfold ElfHeader_bytes, ElfHeader_of_bytes. cbn [magic_num bits endianness
    elf_header_version os_abi elf_type instruction_set elf_version program_entry
    program_header_table section_header_table elf_flags header_size program_entry_size
    program_entry_count section_entry_size section_entry_count section_names_idx].
  rewrite !field_bytes by (done || lia). change (take 4 b) with (take 4 (drop 0 b)).
  trans (drop 0 b); [|done].
  do 18 (apply field_glue; cbn [Nat.add]). rewrite take_ge; [done|]. rewrite length_drop. lia.
Qed.

Lemma ElfHeader_of_bytes_bytes h reserved :
  valid_header h -> length reserved = 8%nat ->
  ElfHeader_of_bytes (ElfHeader_bytes h reserved) = h.
Proof.
  intros [Hm Hb He Ha [H8 H8'] H16 H32 H64] Hl.
  do 8 (destruct reserved as [|? reserved]; [done|]). destruct reserved; [|done].
  repeat match goal with H : Forall _ (_ :: _) |- _ => apply Forall_cons in H as [? H] end.
  destruct h. cbn in *. subst. unfold ElfHeader_of_bytes, ElfHeader_bytes, MAGIC_NUM. f_equal;
    match goal with
    | |- field _ _ ?n = ?v => etrans; [exact (le_val_to_le_bytes n v)|apply Z.mod_small; done]
    end.
Qed.

(** C24: [from_slice] accepts exactly the 64 bytes that are the layout of a
    valid header, and returns that header. *)
Theorem from_slice_spec b h :
  bytes b ->
  from_slice b = Ok h <->
  valid_header h /\ exists reserved, length reserved = 8%nat /\ b = ElfHeader_bytes h reserved.
Proof.
  intros Hb. split.
  - unfold from_slice. destruct (length b =? ELF_HEADER_SIZE)%nat eqn:El; [|done].
    apply Nat.eqb_eq in El. unfold ELF_HEADER_SIZE in El. cbn [negb].
    destruct (bool_decide (_ = MAGIC_NUM)) eqn:Em; [apply bool_decide_eq_true in Em|done]. cbn [negb].
    destruct (bits _ =? 2) eqn:Eb; [|done]. cbn [negb].
    destruct (endianness _ =? 1) eqn:Ee; [|done]. cbn [negb].
    destruct (instruction_set _ =? 0x3E) eqn:Ea; [|done]. cbn [negb]. prop_of_bool.
    intros [= <-]. split.
    + split; [done..| | | |]; [split|..]; repeat (apply Forall_cons; split); try by apply Forall_nil.
      all: cbn -[field in_u]; match goal with
        |- in_u _ (field _ ?o ?n) => exact (field_range b o n Hb ltac:(lia)) end.
    + exists (take 8 (drop 8 b)). split; [rewrite length_take, length_drop; lia|].
      symmetry. by apply ElfHeader_bytes_of_bytes.
  - intros (Hv & reserved & Hr & ->). unfold from_slice.
    rewrite ElfHeader_of_bytes_bytes by done. destruct Hv as [Hm Hbi He Ha _ _ _ _].
    rewrite bool_decide_eq_true_2 by done. rewrite Hbi, He, Ha.
    unfold ElfHeader_bytes. rewrite !length_app, !length_to_le_bytes, Hr, Hm. done.
Qed.

(** ** Examples *)

#[local] Existing Instance map_mapper.
#[local] Existing Instance map_mapper_laws.
#[local] Instance lower_half : VirtAddrNew.
Proof.
  refine {| VirtAddr_new a := if a <? 2 ^ 47 then Ret a else Panic "invalid virtual address" |}.
  intros a Ha. case_bool; [done|lia].
Defined.

Definition example_header : ElfHeader :=
  mkElfHeader MAGIC_NUM 2 1 1 0 2 0x3E 1 0x400078 64 0 0 64 56 2 64 0 0.

Definition ph_bytes (ty flags off virt fsz msz : Z) : list Z :=
  to_le_bytes 4 ty ++ to_le_bytes 4 flags ++ to_le_bytes 8 off ++ to_le_bytes 8 virt ++
  to_le_bytes 8 virt ++ to_le_bytes 8 fsz ++ to_le_bytes 8 msz ++ to_le_bytes 8 0x1000.

(** A header, a note and a segment of two instructions at [0x4000b0]. *)
Definition example_file : list Z :=
  ElfHeader_bytes example_header (replicate 8 0) ++
  ph_bytes 4 4 0 0 0 0 ++ ph_bytes 1 5 176 0x4000b0 4 4 ++ [0xF3; 0x90; 0xEB; 0xFC; 0].

Definition example_segment : ProgramHeader :=
  mkProgramHeader (Some Load) 5 176 0x4000b0 4 4 0x1000.
Definition example_frames : BuddyAllocator := Buddy_init [mkRegion 0 0x20000 true] 1.
Abbreviation page_map := (gmap Z (Z * list PageTableFlag)).
Definition example_load : @LoadState page_map BuddyAllocator :=
  mkLoadState ∅ example_frames ∅ [] (fun _ => 0).

Lemma example_small : small example_file example_segment.
Proof. by split; vm_compute. Qed.
Lemma example_can_allocate : can_allocate 12 example_frames.
Proof. apply can_allocate_buddy, Nat.leb_le. vm_compute. done. Qed.
Lemma example_recorded : recorded example_load.
Proof. intros p Hp. by apply elem_of_empty in Hp. Qed.

Lemma load_segment_small_witness :
  exists st', @load_segment dev_profile _ _ _ _ _ _ example_file example_segment example_load = Ret st' /\
    loaded example_file example_segment (ld_mem st').
Proof.
  destruct (@load_segment_small dev_profile _ _ _ _ _ _ example_file example_segment example_load 8
    example_small example_recorded) as (st' & H1 & H2 & _).
  - intros _. reflexivity.
  - apply example_can_allocate.
  - exists st'. split; [exact H1|exact H2].
Defined.

Lemma example_program_headers beyond :
  program_headers beyond example_file 64 2 =
  [mkProgramHeader (Some Note) 4 0 0 0 0 0x1000; example_segment].
Proof. reflexivity. Qed.

Definition large_segment : ProgramHeader :=
  mkProgramHeader (Some Load) 5 0 0x400000 0x800 0x1000 0x1000.

Lemma load_segment_large_panics_witness :
  @load_segment release_profile _ _ _ _ _ _ (replicate 4096 0) large_segment example_load =
  Panic unwrap_err_msg.
Proof.
  apply (@load_segment_large_panics release_profile); [done|done|done|apply example_recorded| | |].
  - apply not_elem_of_empty.
  - intros _. reflexivity.
  - apply (can_allocate_le 12); [lia|apply example_can_allocate].
Defined.

Lemma from_slice_spec_witness :
  bytes (take 64 example_file) /\ from_slice (take 64 example_file) = Ok example_header.
Proof.
  assert (Hb : bytes (take 64 example_file)).
  { apply (bool_decide_unpack (Forall (fun b => 0 <= b < 2 ^ 8) _)). vm_compute. done. }
  split; [exact Hb|]. apply (from_slice_spec _ example_header Hb). split.
  - split; try done; repeat (constructor || done).
  - exists (replicate 8 0). split; reflexivity.
Defined.
