(* ===== verification/Spawn.v ===== *)
(** * Spawning a process

    The constructor of a process in [src/src/process.rs] ([new_page_table],
    [map_stack], [spawn_from_file]) and the access to the active page table of
    [src/src/memory.rs].  Page tables in memory are lists of raw entries by the
    virtual address they have in the mapping of all physical memory; what the
    [x86_64] crate does with an entry and with [OffsetPageTable] is in the
    classes [PageTableEntry] and [OffsetPageTable]. *)
From S2P Require Import Prelude Asm Context FixedBlock Frames Elf.

(** [PageTableEntry]: the address of the frame it points to, and the value
    that [set_addr] stores. *)
Class PageTableEntry := {
  addr : Z -> Z;
  set_addr : Z -> list PageTableFlag -> Z;
  addr_set_addr : forall a flags, 0 <= a < 2 ^ 52 -> a mod PAGE_SIZE = 0 -> addr (set_addr a flags) = a;
}.

(** The page tables in memory. *)
Abbreviation Tables := (Z -> list Z).
Definition put_table (a : Z) (t : list Z) (tables : Tables) : Tables :=
  fun a' => if a' =? a then t else tables a'.

(** [OffsetPageTable]: the mapper that starts at a level 4 table, and the table
    it has after its changes. *)
Class OffsetPageTable (M : Type) := {
  mapper_new : list Z -> Z -> Tables -> M;
  level_4_table : M -> list Z;
}.

Inductive ProcessSpawnError := MapFail.

(** [PageTable::new] and [zero] *)
Definition zero_table : list Z := replicate 512 0.

Section spawn.
Context {P : Profile} {M S : Type} `{L : MapperLaws M} {F : FrameAllocator S} {V : VirtAddrNew}
  {E : PageTableEntry} {O : OffsetPageTable M}.

(** [active_level_4_table] *)
Definition active_level_4_table (physical_memory_offset : Z) (tables : Tables) (m : machine) : outcome (list Z) :=
  virt ← add_u 64 physical_memory_offset (cr3 m);
  Ret (tables virt).

(** [memory::init]; the boot information is set. *)
Definition memory_init (boot_info : option Z) (tables : Tables) (m : machine) : outcome M :=
  phys_offset ← expect "boot info not initialized" boot_info;
  level_4_table ← active_level_4_table phys_offset tables m;
  Ret (mapper_new level_4_table phys_offset tables).

(** [for i in 1..512 { new[i] = current[i].clone(); }] *)
Definition copy_entries (current new : list Z) : outcome (list Z) :=
  for_each (seqZ 1 511) (fun i new => e ← index current i; index_set new i e) new.

(** [new_page_table]; [None] when there is no frame left. *)
Definition new_page_table (current_page_table : list Z) (phys_offset : Z) (s : S) (tables : Tables)
    : outcome (option (list Z) * S * Tables) :=
  let page_table := zero_table in
  '(frame, s) ← allocate_frame s;
  match frame with
  | None => Ret (None, s, tables)
  | Some frame =>
      page_table ← index_set page_table 0 (set_addr frame [PRESENT; WRITABLE; USER_ACCESSIBLE]);
      e ← index page_table 0;
      page_table_0 ← add_u 64 (addr e) phys_offset;
      e ← index current_page_table 0;
      current_table_0 ← add_u 64 (addr e) phys_offset;
      page_table ← copy_entries current_page_table page_table;
      let tables := put_table page_table_0 zero_table tables in
      t ← copy_entries (tables current_table_0) (tables page_table_0);
      let tables := put_table page_table_0 t tables in
      '(frame, s) ← allocate_frame s;
      match frame with
      | None => Ret (None, s, tables)
      | Some frame =>
          t ← index_set (tables page_table_0) 0 (set_addr frame [PRESENT; WRITABLE]);
          let tables := put_table page_table_0 t tables in
          e ← index (tables page_table_0) 0;
          page_table_0_0 ← add_u 64 (addr e) phys_offset;
          e ← index (tables current_table_0) 0;
          current_table_0_0 ← add_u 64 (addr e) phys_offset;
          e ← index (tables current_table_0_0) 0;
          t ← index_set (tables page_table_0_0) 0 e;
          Ret (Some page_table, s, put_table page_table_0_0 t tables)
      end
  end.

(** The pages of the stack, the one at its upper end included. *)
Definition stack_range : list Z :=
  range_inclusive (containing_address USERSPACE_STACK_BASE) (containing_address USERSPACE_STACK).

Definition map_stack (m : M) (s : S) : outcome (M * S) :=
  for_each stack_range
    (fun page '(m, s) =>
       '(frame, s) ← allocate_frame s;
       frame ← unwrap frame;
       '(r, m, s) ← map_to page frame [PRESENT; WRITABLE; USER_ACCESSIBLE] m s;
       match r with
       | Ok _ => Ret (m, s)
       | Err _ => Panic unwrap_err_msg
       end)
    (m, s).

(** What [spawn_from_file] leaves beside the process: the frame allocator, the
    mapper of the new page table, the memory it maps and the CPU. *)
Record Spawned := mkSpawned {
  sp_frames : S;
  sp_mapper : M;
  sp_mem : Z -> Z;
  sp_cpu : machine;
}.

(** [spawn_from_file].  [mapper] is the offset of [MAPPER] and its
    translation, [box_addr] the address at which the new level 4 table is
    allocated. *)
Definition spawn_from_file (beyond : Z -> Z) (file : list Z) (mapper : option (Z * (Z -> option Z)))
    (box_addr : Z) (s : S) (tables : Tables) (user_mem : Z -> Z) (m : machine)
    : outcome (result Process ProcessSpawnError * Spawned) :=
  '(phys_offset, translate_addr) ← expect "mapper not initialized" mapper;
  current_page_table ← active_level_4_table phys_offset tables m;
  '(page_table, s, tables) ← new_page_table current_page_table phys_offset s tables;
  page_table ← expect "failed to create page table" page_table;
  page_table_virt_addr ← VirtAddr_new box_addr;
  page_table_addr ← unwrap (translate_addr page_table_virt_addr);
  let new_mapper := mapper_new page_table phys_offset tables in
  '(new_mapper, s) ← map_stack new_mapper s;
  let m := set_int_flag false m in
  let current_table_frame := cr3 m in
  let m := set_cr3 (containing_frame page_table_addr) m in
  '(regions, entry_point, st) ← map_elf_file_to_process beyond file new_mapper s user_mem;
  let m := set_cr3 current_table_frame m in
  let m := set_int_flag true m in
  Ret (Ok (mkProcess (level_4_table (ld_mapper st)) None page_table_addr entry_point regions),
       mkSpawned (ld_frames st) (ld_mapper st) (ld_mem st) m).
End spawn.

(** ** The new page table *)

Lemma copy_entries_eq current new :
  length current = 512%nat -> length new = 512%nat ->
  copy_entries current new = Ret (take 1 new ++ drop 1 current).
Proof.
  destruct current as [|c0 current], new as [|n0 new]; try done. cbn [length take drop app].
  intros [= Hc] [= Hn]. unfold copy_entries. change 511 with (Z.of_nat 511).
  rewrite (for_each_update (cons n0) new current) by
    (lia || (intros k x Hk Hx; rewrite (index_get _ _ x); [rewrite ret_bind|];
     [rewrite index_set_ok by (cbn [length]; rewrite length_app, length_take, length_drop; lia);
      by replace (Z.to_nat (1 + Z.of_nat k)) with (Datatypes.S k) by lia
     |rewrite get_lookup by lia; by replace (Z.to_nat (1 + Z.of_nat k)) with (Datatypes.S k) by lia])).
  by rewrite take_ge, drop_ge, app_nil_r by lia.
Qed.

Lemma put_table_eq a t tables : put_table a t tables a = t.
Proof. unfold put_table. by rewrite Z.eqb_refl. Qed.
Lemma put_table_ne a a' t tables : a' <> a -> put_table a t tables a' = tables a'.
Proof. unfold put_table. intros H. case_bool; [done|done]. Qed.

Section page_table.
Context {P : Profile} {S : Type} {F : FrameAllocator S} {E : PageTableEntry}.

(** A frame as an allocator hands it out, with its place in the mapping of
    physical memory. *)
Definition frame_ok (off f : Z) : Prop := 0 <= f < 2 ^ 52 /\ f mod PAGE_SIZE = 0 /\ f + off < 2 ^ 64.

(** The tables on the way to the first 2 MiB of the current address space. *)
Record current_ok (off : Z) (current : list Z) (tables : Tables) (t0 t00 : Z) : Prop := {
  cur_offset : 0 <= off;
  cur_length : length current = 512%nat;
  cur_t0 : exists e, get current 0 = Some e /\ addr e + off = t0;
  cur_t0_length : length (tables t0) = 512%nat;
  cur_t00 : exists e, get (tables t0) 0 = Some e /\ addr e + off = t00;
  cur_t00_length : length (tables t00) = 512%nat;
  cur_range : in_u 64 t0 /\ in_u 64 t00;
}.

(** The tables of a process with the kernel and the first 2 MiB of the current
    address space; the other entries of the level 2 table are those that were
    in its frame. *)
Record shares_kernel (off f0 f1 t0 t00 : Z) (current : list Z) (tables : Tables)
    (page_table : list Z) (tables' : Tables) : Prop := {
  pt_level_4 : page_table = set_addr f0 [PRESENT; WRITABLE; USER_ACCESSIBLE] :: drop 1 current;
  pt_level_3 : tables' (f0 + off) = set_addr f1 [PRESENT; WRITABLE] :: drop 1 (tables t0);
  pt_level_2 : tables' (f1 + off) = take 1 (tables t00) ++ drop 1 (tables (f1 + off));
  pt_others : forall a, a <> f0 + off -> a <> f1 + off -> tables' a = tables a;
}.

Lemma new_page_table_eq current off s tables f0 s1 f1 s2 t0 t00 :
  current_ok off current tables t0 t00 -> frame_ok off f0 -> frame_ok off f1 ->
  allocate_frame s = Ret (Some f0, s1) -> allocate_frame s1 = Ret (Some f1, s2) ->
  NoDup [f0 + off; f1 + off; t0; t00] -> length (tables (f1 + off)) = 512%nat ->
  exists page_table tables', new_page_table current off s tables = Ret (Some page_table, s2, tables') /\
    shares_kernel off f0 f1 t0 t00 current tables page_table tables'.
Proof.
  intros [Hoff Hlen (e0 & He0 & Ht0) Hl0 (e1 & He1 & Ht00) Hl00 [Hr0 Hr00]] (Hf0 & Ha0 & Hr0') (Hf1 & Ha1 & Hr1') E0 E1 Hnd Hl1.
  apply NoDup_cons in Hnd as [Hn1 Hnd]. apply NoDup_cons in Hnd as [Hn2 Hnd].
  apply NoDup_cons in Hnd as [Hn3 _]. rewrite !not_elem_of_cons in Hn1. rewrite !not_elem_of_cons in Hn2. rewrite not_elem_of_cons in Hn3.
  destruct Hn1 as (? & ? & ? & _), Hn2 as (? & ? & _), Hn3 as [? _].
  unfold new_page_table. rewrite E0, ret_bind. cbv beta iota zeta.
  rewrite index_set_ok by (unfold zero_table; rewrite length_replicate; lia). rewrite ret_bind.
  change (index (<[Z.to_nat 0 := set_addr f0 [PRESENT; WRITABLE; USER_ACCESSIBLE]]> zero_table) 0)
    with (Ret (set_addr f0 [PRESENT; WRITABLE; USER_ACCESSIBLE])).
  rewrite ret_bind, addr_set_addr by done. rewrite add_u_ok by range. rewrite ret_bind.
  rewrite (index_get _ _ _ He0), ret_bind, add_u_ok by (rewrite Ht0; done). rewrite ret_bind, Ht0.
  rewrite (copy_entries_eq current) by done. rewrite ret_bind. cbv zeta.
  rewrite put_table_eq, (put_table_ne _ t0) by done. rewrite (copy_entries_eq (tables t0)) by done. rewrite ret_bind.
  rewrite E1, ret_bind. cbv beta iota zeta. rewrite put_table_eq.
  rewrite index_set_ok by (rewrite length_app, length_take, length_drop, Hl0; done). rewrite ret_bind.
  set (l3 := <[Z.to_nat 0 := set_addr f1 _]> _).
  assert (Hl3 : l3 = set_addr f1 [PRESENT; WRITABLE] :: drop 1 (tables t0)) by done. clearbody l3. subst l3.
  rewrite put_table_eq. rewrite (index_get (_ :: drop 1 (tables t0)) 0 (set_addr f1 [PRESENT; WRITABLE])) by done.
  rewrite ret_bind, addr_set_addr by done. rewrite add_u_ok by range. rewrite ret_bind.
  rewrite !(put_table_ne (f0 + off) t0) by done. rewrite (index_get _ _ _ He1), ret_bind.
  rewrite add_u_ok by (rewrite Ht00; done). rewrite ret_bind, Ht00.
  rewrite !(put_table_ne (f0 + off)) by done.
  destruct (tables t00) as [|x xs] eqn:Et00; [done|]. change (index (x :: xs) 0) with (Ret x). rewrite ret_bind.
  rewrite index_set_ok by lia. rewrite ret_bind. eexists _, _. split; [done|]. split.
  - done.
  - rewrite put_table_ne by done. by rewrite put_table_eq.
  - rewrite put_table_eq, Et00. by destruct (tables (f1 + off)).
  - intros a Hx Hy. by rewrite !put_table_ne by done.
Qed.
End page_table.

(** ** The stack *)

Lemma stack_range_eq : stack_range = (fun i => 0x800000 + i * PAGE_SIZE) <$> seqZ 0 17.
Proof. reflexivity. Qed.

Lemma elem_of_stack_range p : p ∈ stack_range <-> exists i, 0 <= i < 17 /\ p = 0x800000 + i * PAGE_SIZE.
Proof.
  rewrite stack_range_eq, list_elem_of_fmap. split.
  - intros (i & -> & Hi%elem_of_seqZ). exists i. split; [lia|done].
  - intros (i & Hi & ->). exists i. split; [done|]. apply elem_of_seqZ. lia.
Qed.

Section stack.
Context {P : Profile} {M S : Type} `{L : MapperLaws M} {F : FrameAllocator S}.

Lemma map_user_pages pages (m : M) (s : S) n :
  can_allocate (length pages * 4 + n) s -> NoDup pages -> (forall p, p ∈ pages -> mapping m !! p = None) ->
  exists m' s', for_each pages
    (fun page '(m, s) =>
       '(frame, s) ← allocate_frame s;
       frame ← unwrap frame;
       '(r, m, s) ← map_to page frame [PRESENT; WRITABLE; USER_ACCESSIBLE] m s;
       match r with Ok _ => Ret (m, s) | Err _ => Panic unwrap_err_msg end) (m, s) = Ret (m', s') /\
    can_allocate n s' /\
    (forall p, p ∈ pages -> exists f, mapping m' !! p = Some (f, user_flags)) /\
    (forall p, p ∉ pages -> mapping m' !! p = mapping m !! p).
Proof using L.
  revert m s. induction pages as [|p pages IH]; intros m s Hcan Hnd Hun.
  { exists m, s. split_and!; try done. intros p Hp. by apply elem_of_nil in Hp. }
  apply NoDup_cons in Hnd as [Hp Hnd]. cbn [for_each].
  destruct Hcan as (f & s1 & -> & Hcan). rewrite ret_bind. cbv beta iota. cbn [unwrap expect mbind outcome_bind].
  destruct (map_to_total _ _ p f user_flags m s1 _ Hcan (Hun p ltac:(left))) as (m2 & s2 & Hm & Hcan2).
  unfold user_flags in Hm. rewrite Hm. cbn [mbind outcome_bind]. apply map_to_Ok in Hm as [_ Hm].
  destruct (IH m2 s2 Hcan2 Hnd) as (m' & s' & -> & Hcan' & Hin & Hout).
  { intros q Hq. rewrite Hm, lookup_insert_ne by (intros <-; contradiction). apply Hun. by right. }
  exists m', s'. split_and!; [done..| |].
  - intros q [->|Hq]%elem_of_cons; [|by apply Hin]. exists f. rewrite Hout by done.
    rewrite Hm. apply lookup_insert_eq.
  - intros q Hq. apply not_elem_of_cons in Hq as [Hqp Hq].
    rewrite Hout by done. rewrite Hm. by apply lookup_insert_ne.
Qed.

Lemma map_stack_ok (m : M) (s : S) n :
  can_allocate (68 + n) s -> (forall p, p ∈ stack_range -> mapping m !! p = None) ->
  exists m' s', map_stack m s = Ret (m', s') /\ can_allocate n s' /\
    (forall p, p ∈ stack_range -> exists f, mapping m' !! p = Some (f, user_flags)) /\
    (forall p, p ∉ stack_range -> mapping m' !! p = mapping m !! p).
Proof using L.
  intros Hcan Hun. apply map_user_pages; [done| |done]. rewrite stack_range_eq.
  apply NoDup_fmap_2_strong; [|apply NoDup_seqZ]. unfold PAGE_SIZE. lia.
Qed.
End stack.

(** ** A process from a file *)

(** What the mapper of a level 4 table says of a page below 1 GiB, whose entry
    is in the first level 2 table: nothing is mapped by an entry that is not
    used, and a present entry with the bit of a huge page (bit 7) maps it. *)
Class OffsetPageTableLaws (M : Type) `{MapperLaws M} {E : PageTableEntry} {O : OffsetPageTable M} := {
  low_unused : forall pt off tables p e0 e1, 0 <= p < 2 ^ 30 ->
    get pt 0 = Some e0 -> get (tables (addr e0 + off)) 0 = Some e1 ->
    get (tables (addr e1 + off)) (p / 2 ^ 21) = Some 0 -> mapping (mapper_new pt off tables) !! p = None;
  low_huge : forall pt off tables p e0 e1 e2, 0 <= p < 2 ^ 30 -> p mod PAGE_SIZE = 0 ->
    get pt 0 = Some e0 -> get (tables (addr e0 + off)) 0 = Some e1 ->
    get (tables (addr e1 + off)) (p / 2 ^ 21) = Some e2 -> Z.testbit e2 0 = true -> Z.testbit e2 7 = true ->
    is_Some (mapping (mapper_new pt off tables) !! p);
}.

(** The program headers of a file with the header [h]. *)
Abbreviation headers beyond file h :=
  (program_headers beyond file (program_header_table h) (program_entry_count h)).

Section process.
Context {P : Profile} {M S : Type} `{OL : OffsetPageTableLaws M} {F : FrameAllocator S} {V : VirtAddrNew}.

(** A call of [spawn_from_file] in a kernel that is set up: the current tables,
    the two frames for the new tables and the place of the level 4 table. *)
Record spawn_ok (off : Z) (translate : Z -> option Z) (box_addr phys : Z) (s s2 : S) (tables : Tables)
    (m : machine) (f0 f1 t0 t00 : Z) : Prop := {
  so_cr3 : in_u 64 (off + cr3 m);
  so_current : current_ok off (tables (off + cr3 m)) tables t0 t00;
  so_f0 : frame_ok off f0;
  so_f1 : frame_ok off f1;
  so_alloc : exists s1, allocate_frame s = Ret (Some f0, s1) /\ allocate_frame s1 = Ret (Some f1, s2);
  so_apart : NoDup [f0 + off; f1 + off; t0; t00];
  so_frame : length (tables (f1 + off)) = 512%nat;
  so_box : 0 <= box_addr < 2 ^ 47 /\ translate box_addr = Some phys;
}.

(** The part of [spawn_from_file] before the stack. *)
Lemma spawn_tables beyond file off translate box_addr phys s s2 tables mem m f0 f1 t0 t00 :
  spawn_ok off translate box_addr phys s s2 tables m f0 f1 t0 t00 ->
  exists pt tables', shares_kernel off f0 f1 t0 t00 (tables (off + cr3 m)) tables pt tables' /\
    spawn_from_file beyond file (Some (off, translate)) box_addr s tables mem m =
      ('(new_mapper, s) ← map_stack (mapper_new pt off tables') s2;
       '(regions, entry_point, st) ← map_elf_file_to_process beyond file new_mapper s mem;
       Ret (Ok (mkProcess (level_4_table (ld_mapper st)) None phys entry_point regions),
            mkSpawned (ld_frames st) (ld_mapper st) (ld_mem st)
              (set_int_flag true (set_cr3 (cr3 m) (set_cr3 (containing_frame phys) (set_int_flag false m)))))).
Proof.
  intros [Hcr Hcur Hf0 Hf1 (s1 & E0 & E1) Hnd Hl1 [Hbox Htr]].
  destruct (new_page_table_eq _ off s tables f0 s1 f1 s2 t0 t00 Hcur Hf0 Hf1 E0 E1 Hnd Hl1) as (pt & tables' & Hpt & Hsh).
  exists pt, tables'. split; [done|]. unfold spawn_from_file. cbn [expect mbind outcome_bind].
  unfold active_level_4_table. rewrite add_u_ok, !ret_bind by done. rewrite Hpt, ret_bind.
  cbn [expect mbind outcome_bind]. rewrite VirtAddr_new_lower, ret_bind by done.
  unfold unwrap. by rewrite Htr.
Qed.

(** The entry of a user page is one of the frame of the level 2 table. *)
Lemma shares_low off f0 f1 t0 t00 current tables pt tables' p :
  frame_ok off f0 -> frame_ok off f1 -> length (tables t00) = 512%nat ->
  shares_kernel off f0 f1 t0 t00 current tables pt tables' -> 2 ^ 21 <= p < 2 ^ 30 ->
  exists e0 e1, get pt 0 = Some e0 /\ get (tables' (addr e0 + off)) 0 = Some e1 /\
    get (tables' (addr e1 + off)) (p / 2 ^ 21) = get (tables (f1 + off)) (p / 2 ^ 21).
Proof.
  intros (Hr0 & Ha0 & _) (Hr1 & Ha1 & _) Hl [-> H3 H2 _] Hp. eexists _, _. split; [done|].
  rewrite addr_set_addr by done. rewrite H3. split; [done|]. rewrite addr_set_addr by done. rewrite H2.
  destruct (tables t00) as [|x xs]; [done|]. cbn [take app].
  assert (Hq : 1 <= p / 2 ^ 21) by (Z.div_mod_to_equations; lia). rewrite !get_lookup by lia.
  destruct (tables (f1 + off)) as [|y ys]; destruct (Z.to_nat (p / 2 ^ 21)) eqn:Ez; try lia; done.
Qed.
(** An executable the loader can load: small segments that do not overwrite
    one another, above the first 2 MiB and below 1 GiB, away from the stack. *)
Record executable (beyond : Z -> Z) (file : list Z) (h : ElfHeader) : Prop := {
  ex_length : (64 <= length file)%nat;
  ex_header : from_slice (take 64 file) = Ok h;
  ex_table : 0 <= program_header_table h < Z.of_nat (length file);
  ex_small : Forall (fun ph => is_load ph -> small file ph) (headers beyond file h);
  ex_apart : ForallOrdPairs (fun ph ph' => is_load ph -> is_load ph' -> apart ph ph') (headers beyond file h);
  ex_user : forall ph, ph ∈ headers beyond file h -> is_load ph ->
    2 ^ 21 <= seg_page ph < 2 ^ 30 /\ seg_page ph ∉ stack_range;
}.

(** The process is ready to run: it starts at the entry point, its segments are
    in memory on pages mapped for the user to frames it owns, and its stack is
    mapped for the user. *)
Record process_loaded (beyond : Z -> Z) (file : list Z) (h : ElfHeader) (p : Process) (sp : @Spawned M S) : Prop := {
  pl_new : process_state p = None;
  pl_entry : entry_offset p = program_entry h;
  pl_segments : forall ph, ph ∈ headers beyond file h -> is_load ph ->
    loaded file ph (sp_mem sp) /\
    exists f, f ∈ regions p /\ mapping (sp_mapper sp) !! seg_page ph = Some (f, user_flags);
  pl_stack : forall a, USERSPACE_STACK_BASE <= a < USERSPACE_STACK ->
    exists f, mapping (sp_mapper sp) !! containing_address a = Some (f, user_flags);
}.

Lemma stack_page a : USERSPACE_STACK_BASE <= a < USERSPACE_STACK -> containing_address a ∈ stack_range.
Proof.
  intros Ha. apply elem_of_stack_range. unfold USERSPACE_STACK_BASE, USERSPACE_STACK, containing_address, PAGE_SIZE in *.
  exists ((a - 0x800000) / 4096). Z.div_mod_to_equations. lia.
Qed.

(** With a clear frame for the level 2 table the user pages are free. *)
Lemma spawn_pages_free off translate box_addr phys s s2 tables m f0 f1 t0 t00 pt tables' p :
  spawn_ok off translate box_addr phys s s2 tables m f0 f1 t0 t00 ->
  shares_kernel off f0 f1 t0 t00 (tables (off + cr3 m)) tables pt tables' ->
  (forall i, 1 <= i < 512 -> get (tables (f1 + off)) i = Some 0) -> 2 ^ 21 <= p < 2 ^ 30 ->
  mapping (mapper_new pt off tables') !! p = None.
Proof using OL.
  intros Hso Hsh Hclear Hp.
  destruct (shares_low off f0 f1 t0 t00 _ tables pt tables' p (so_f0 _ _ _ _ _ _ _ _ _ _ _ _ Hso)
    (so_f1 _ _ _ _ _ _ _ _ _ _ _ _ Hso) (cur_t00_length _ _ _ _ _ (so_current _ _ _ _ _ _ _ _ _ _ _ _ Hso)) Hsh Hp)
    as (e0 & e1 & G0 & G1 & G2).
  apply (low_unused _ _ _ p e0 e1); [lia|done|done|]. rewrite G2. apply Hclear. Z.div_mod_to_equations. lia.
Qed.

Lemma spawn_loads beyond file h off translate box_addr phys s s2 tables mem m f0 f1 t0 t00 :
  spawn_ok off translate box_addr phys s s2 tables m f0 f1 t0 t00 ->
  (forall i, 1 <= i < 512 -> get (tables (f1 + off)) i = Some 0) -> executable beyond file h ->
  can_allocate (68 + length (headers beyond file h) * 4) s2 ->
  exists p sp, spawn_from_file beyond file (Some (off, translate)) box_addr s tables mem m = Ret (Ok p, sp) /\
    process_loaded beyond file h p sp /\ page_table_addr p = phys /\
    sp_cpu sp = set_int_flag true m.
Proof using OL.
  intros Hso Hclear [Hlen Hh Htab Hsm Hap Huser] Hcan.
  destruct (spawn_tables beyond file _ _ _ _ _ _ _ mem _ _ _ _ _ Hso) as (pt & tables' & Hsh & ->).
  assert (Hfree : forall p, 2 ^ 21 <= p < 2 ^ 30 -> mapping (mapper_new pt off tables') !! p = None)
    by (intros; by eapply spawn_pages_free).
  destruct (map_stack_ok (mapper_new pt off tables') s2 _ Hcan) as (m1 & s1 & -> & Hcan1 & Hst & Hrest).
  { intros p (i & Hi & ->)%elem_of_stack_range. apply Hfree. unfold PAGE_SIZE. lia. }
  rewrite ret_bind. cbv beta iota.
  destruct (map_elf_file_loads beyond file h m1 s1 mem Hlen Hh Htab Hsm Hap) as (frames & st & -> & Hin & _ & Hkeep).
  { intros ph Hph Hl. destruct (Huser ph Hph Hl). by rewrite Hrest, Hfree by done. }
  { done. }
  rewrite ret_bind. cbv beta iota. eexists _, _. split; [done|]. split; [|split; [done|by destruct m]].
  split; [done|done|exact Hin|]. intros a Ha. apply stack_page in Ha. cbn [sp_mapper]. rewrite Hkeep; [by apply Hst|].
  intros ph Hph Hl Heq. destruct (Huser ph Hph Hl) as [_ Hn]. by rewrite Heq in Hn.
Qed.

(** C37: when the frame of the level 2 table still holds a present huge page
    entry for the pages of the stack, spawning panics: [new_page_table] writes
    its first entry and leaves the others as they are. *)
Theorem spawn_stale_frame_panics beyond file off translate box_addr phys s s2 tables mem m f0 f1 t0 t00 e :
  spawn_ok off translate box_addr phys s s2 tables m f0 f1 t0 t00 ->
  get (tables (f1 + off)) 4 = Some e -> Z.testbit e 0 = true -> Z.testbit e 7 = true -> can_allocate 1 s2 ->
  spawn_from_file beyond file (Some (off, translate)) box_addr s tables mem m = Panic unwrap_err_msg.
Proof using OL.
  intros Hso He Hb0 Hb7 (f & s3 & Hf & _).
  destruct (spawn_tables beyond file _ _ _ _ _ _ _ mem _ _ _ _ _ Hso) as (pt & tables' & Hsh & ->).
  destruct (shares_low off f0 f1 t0 t00 _ tables pt tables' 0x800000 (so_f0 _ _ _ _ _ _ _ _ _ _ _ _ Hso)
    (so_f1 _ _ _ _ _ _ _ _ _ _ _ _ Hso) (cur_t00_length _ _ _ _ _ (so_current _ _ _ _ _ _ _ _ _ _ _ _ Hso)) Hsh)
    as (e0 & e1 & G0 & G1 & G2); [lia|].
  assert (Hm : is_Some (mapping (mapper_new pt off tables') !! 0x800000)).
  { apply (low_huge _ _ _ _ e0 e1 e); try done. by rewrite G2. }
  unfold map_stack. rewrite stack_range_eq, seqZ_cons by lia. cbn [fmap list_fmap for_each].
  rewrite Hf, ret_bind. cbv beta iota. cbn [unwrap expect mbind outcome_bind].
  destruct (map_to_mapped S F (0x800000 + 0 * PAGE_SIZE) f user_flags _ s3 Hm) as (err & m' & Hmap & _).
  unfold user_flags in Hmap. by rewrite Hmap.
Qed.
End process.

(** ** Examples *)

#[local] Existing Instance map_mapper.
#[local] Existing Instance map_mapper_laws.
#[local] Existing Instance lower_half.

Definition flag_bits (flags : list PageTableFlag) : Z :=
  (if bool_decide (PRESENT ∈ flags) then 1 else 0) + (if bool_decide (WRITABLE ∈ flags) then 2 else 0) +
  (if bool_decide (USER_ACCESSIBLE ∈ flags) then 4 else 0).

Lemma flag_bits_range flags : 0 <= flag_bits flags < 8.
Proof. unfold flag_bits. repeat case_match; lia. Qed.

#[local] Instance example_entry : PageTableEntry.
Proof.
  refine {| addr e := e - e mod 4096; set_addr a flags := a + flag_bits flags |}.
  intros a flags Ha Hm. pose proof (flag_bits_range flags). unfold PAGE_SIZE in *.
  rewrite Z.add_mod, Hm, Z.add_0_l, Z.mod_mod, Z.mod_small by lia. lia.
Defined.

(** The mapper maps the pages below 1 GiB that have a huge page entry. *)
Definition low_entry (pt : list Z) (off : Z) (tables : Tables) (i : Z) : Z :=
  default 0 (e0 ← get pt 0; e1 ← get (tables (addr e0 + off)) 0; get (tables (addr e1 + off)) i).
Definition huge (e : Z) : bool := Z.testbit e 0 && Z.testbit e 7.
Definition huge_pages (pt : list Z) (off : Z) (tables : Tables) : list Z :=
  filter (fun i => huge (low_entry pt off tables i) = true) (seqZ 0 512) ≫=
    fun i => (fun j => i * 2 ^ 21 + j * PAGE_SIZE) <$> seqZ 0 512.

Lemma elem_of_huge_pages pt off tables p :
  p ∈ huge_pages pt off tables <->
  0 <= p < 2 ^ 30 /\ p mod PAGE_SIZE = 0 /\ huge (low_entry pt off tables (p / 2 ^ 21)) = true.
Proof.
  unfold huge_pages, PAGE_SIZE. rewrite list_elem_of_bind. split.
  - intros (i & (j & -> & Hj%elem_of_seqZ)%list_elem_of_fmap & [Hh Hi%elem_of_seqZ]%list_elem_of_filter).
    replace ((i * 2 ^ 21 + j * 4096) / 2 ^ 21) with i by (Z.div_mod_to_equations; lia).
    split_and!; try done; Z.div_mod_to_equations; lia.
  - intros (Hp & Hm & Hh). exists (p / 2 ^ 21). split.
    + apply list_elem_of_fmap. exists ((p mod 2 ^ 21) / 4096). rewrite elem_of_seqZ. Z.div_mod_to_equations. lia.
    + apply list_elem_of_filter. rewrite elem_of_seqZ. split; [done|]. Z.div_mod_to_equations. lia.
Qed.

#[local] Instance example_offset_table : OffsetPageTable page_map :=
  {| mapper_new pt off tables := list_to_map ((fun p => (p, (0, []))) <$> huge_pages pt off tables);
     level_4_table _ := [] |}.

Lemma low_entry_eq pt off tables i e0 e1 e2 :
  get pt 0 = Some e0 -> get (tables (addr e0 + off)) 0 = Some e1 -> get (tables (addr e1 + off)) i = Some e2 ->
  low_entry pt off tables i = e2.
Proof. intros H0 H1 H2. unfold low_entry. rewrite H0. cbn [mbind option_bind]. rewrite H1. cbn [mbind option_bind]. by rewrite H2. Qed.

#[local] Instance example_offset_laws : OffsetPageTableLaws page_map.
Proof.
  split.
  - intros pt off tables p e0 e1 Hp H0 H1 H2. apply not_elem_of_list_to_map.
    rewrite <- list_fmap_compose, list_elem_of_fmap. intros (q & -> & Hq).
    apply elem_of_huge_pages in Hq as (_ & _ & Hq). change ((fst ∘ _) q) with q in H2. by rewrite (low_entry_eq _ _ _ _ _ _ _ H0 H1 H2) in Hq.
  - intros pt off tables p e0 e1 e2 Hp Ha H0 H1 H2 Hb0 Hb7. exists (0, []).
    apply elem_of_list_to_map_1'; [by intros y (q & [= _ ->] & _)%list_elem_of_fmap|].
    apply list_elem_of_fmap. exists p. split; [done|]. apply elem_of_huge_pages.
    rewrite (low_entry_eq _ _ _ _ _ _ _ H0 H1 H2). unfold huge. by rewrite Hb0, Hb7.
Qed.

(** The kernel's tables at 0x100000, [l2] in the frame 0x2000 that becomes the
    level 2 table of the process. *)
Definition example_offset : Z := 2 ^ 40.
Definition example_tables (l2 : list Z) : Tables := fun a =>
  if a =? example_offset + 0x100000 then (0x101000 + 3) :: replicate 511 7
  else if a =? example_offset + 0x101000 then (0x102000 + 3) :: replicate 511 9
  else if a =? example_offset + 0x2000 then l2
  else replicate 512 0.
Definition example_cpu : machine := set_cr3 0x100000 (example_machine 0x9000 0 0).
Definition big_frames : BuddyAllocator := Buddy_init [mkRegion 0 0x100000 true] 1.
Definition box_translate (a : Z) : option Z := Some (a mod 2 ^ 32).

Definition frames_after : BuddyAllocator := mkBuddy (buddy_map big_frames) (drop 2 (frame_iter big_frames)).

Lemma frames_after_alloc :
  allocate_frame big_frames = Ret (Some 0x1000, mkBuddy (buddy_map big_frames) (drop 1 (frame_iter big_frames))) /\
  allocate_frame (mkBuddy (buddy_map big_frames) (drop 1 (frame_iter big_frames))) = Ret (Some 0x2000, frames_after).
Proof. by vm_compute. Qed.

Lemma frames_after_many : can_allocate 100 frames_after.
Proof. apply can_allocate_buddy, Nat.leb_le. by vm_compute. Qed.

Lemma example_spawn_ok l2 : length l2 = 512%nat ->
  spawn_ok example_offset box_translate 0x444444440000 0x44440000 big_frames frames_after (example_tables l2)
    example_cpu 0x1000 0x2000 (example_offset + 0x101000) (example_offset + 0x102000).
Proof.
  intros Hl. split.
  - by vm_compute.
  - split; [by vm_compute|by vm_compute| |by vm_compute| |by vm_compute|by vm_compute].
    + exists 0x101003. by vm_compute.
    + exists 0x102003. by vm_compute.
  - by vm_compute.
  - by vm_compute.
  - eexists. exact frames_after_alloc.
  - apply (bool_decide_unpack _). by vm_compute.
  - exact Hl.
  - by vm_compute.
Qed.

(** A frame with a huge page entry in the fifth place. *)
Definition stale_l2 : list Z := <[4%nat := 0x83]> (replicate 512 0).

Lemma spawn_stale_frame_panics_witness :
  spawn_from_file (P := dev_profile) (M := page_map) (fun _ => 0) example_file
    (Some (example_offset, box_translate)) 0x444444440000 big_frames (example_tables stale_l2)
    (fun _ => 0) example_cpu = Panic unwrap_err_msg.
Proof.
  apply (spawn_stale_frame_panics (P := dev_profile) (M := page_map) (fun _ => 0) example_file _ _ _
    0x44440000 _ frames_after _ _ _ 0x1000 0x2000 (example_offset + 0x101000) (example_offset + 0x102000) 0x83).
  - apply example_spawn_ok. reflexivity.
  - reflexivity.
  - reflexivity.
  - reflexivity.
  - apply (can_allocate_le 100); [lia|apply frames_after_many].
Defined.
