(* ===== verification/Fs.v ===== *)
(** * The FAT32 file system

    [src/src/fs.rs]: the boot sector, directory entries, the recursive scan of
    the directories into a tree, and the reading of a file.  The disk is seen
    through the interface [BlockDevice], which [src/src/disk.rs] provides. *)
From S2P Require Import Prelude.

(** ** The interface of the disk driver *)

Inductive DiskAccessError := NoCommandSlots | TaskFileError.

(** [read_sectors drive_num lba sector_count] on the state of the driver. *)
Class BlockDevice (D : Type) := read_sectors :
  Z -> Z -> Z -> D -> outcome (result (list Z) DiskAccessError * D).

Definition SECTOR : Z := 512.

(** What the file system relies on: in a state the driver keeps, a read of
    sectors that the drive has returns their bytes and does not change the
    drives.  A transfer has at most [max_count] sectors: the byte count of a
    transfer has 22 bits, and the buffer has to fit in the heap. *)
Class BlockDeviceLaws (D : Type) `{BlockDevice D} := {
  device_ok : D -> Prop;
  image : D -> Z -> option (list Z);
  max_count : Z;
  max_count_range : 256 <= max_count <= 8192;
  read_sectors_ok : forall d drive img lba count,
    device_ok d -> image d drive = Some img -> 0 <= lba -> 1 <= count <= max_count ->
    SECTOR * (lba + count) <= Z.of_nat (length img) ->
    exists d', read_sectors drive lba count d =
        Ret (Ok (take (Z.to_nat (SECTOR * count)) (drop (Z.to_nat (SECTOR * lba)) img)), d') /\
      device_ok d' /\ forall drive', image d' drive' = image d drive';
}.

(** ** Data *)

Record FatBootSector := mkBootSector {
  boot_jmp : list Z;
  oem_name : list Z;
  bytes_per_sector : Z;
  sectors_per_cluster : Z;
  reserved_sector_count : Z;
  table_count : Z;
  root_entry_count : Z;
  total_sectors_16 : Z;
  media_type : Z;
  table_size_16 : Z;
  sectors_per_track : Z;
  head_side_count : Z;
  hidden_sector_count : Z;
  total_sectors_32 : Z;
  table_size_32 : Z;
  extended_flags : Z;
  fat_version : Z;
  root_cluster : Z;
  fat_info : Z;
  backup_boot_sector : Z;
  drive_number : Z;
  boot_signature : Z;
  volume_id : Z;
  volume_label : list Z;
  fat_type_label : list Z;
}.
Definition BOOT_SECTOR_SIZE : nat := 90.

Definition FatBootSector_of_bytes (b : list Z) : FatBootSector :=
  mkBootSector (take 3 b) (take 8 (drop 3 b)) (field b 11 2) (field b 13 1) (field b 14 2) (field b 16 1) (field b 17 2)
    (field b 19 2) (field b 21 1) (field b 22 2) (field b 24 2) (field b 26 2) (field b 28 4)
    (field b 32 4) (field b 36 4) (field b 40 2) (field b 42 2) (field b 44 4) (field b 48 2)
    (field b 50 2) (field b 64 1) (field b 66 1) (field b 67 4) (take 11 (drop 71 b))
    (take 8 (drop 82 b)).

(** [FileAttributes]: the accessor of the single bit [directory]. *)
Definition directory (attributes : Z) : Z := Z.b2z (Z.testbit attributes 4).

Record File := mkFile {
  name : list Z;
  attributes : Z;
  creation_duration : Z;
  creation_time : Z;
  creation_date : Z;
  last_accessed : Z;
  cluster_h : Z;
  modified_time : Z;
  modified_date : Z;
  cluster_l : Z;
  file_size : Z;
}.
Definition FILE_SIZE : nat := 32.
Definition File_default : File := mkFile (replicate 11 0) 0 0 0 0 0 0 0 0 0 0.

Definition File_of_bytes (b : list Z) : File :=
  mkFile (take 11 b) (field b 11 1) (field b 13 1) (field b 14 2) (field b 16 2) (field b 18 2)
    (field b 20 2) (field b 22 2) (field b 24 2) (field b 26 2) (field b 28 4).

(** [trees::Tree]: a node and its children in order. *)
#[warnings="-register-all"]
Inductive Tree := Node (data : File) (children : list Tree).

(** ** Names *)

Definition is_cont (b : Z) : bool := (0x80 <=? b) && (b <=? 0xBF).
Definition between (lo hi b : Z) : bool := (lo <=? b) && (b <=? hi).

(** The check of [core::str::from_utf8]. *)
Fixpoint utf8_valid (l : list Z) : bool :=
  match l with
  | [] => true
  | a :: l =>
      if a <? 0x80 then utf8_valid l
      else match l with
      | [] => false
      | b :: l =>
          if between 0xC2 0xDF a then is_cont b && utf8_valid l
          else match l with
          | [] => false
          | c :: l =>
              if a =? 0xE0 then between 0xA0 0xBF b && is_cont c && utf8_valid l
              else if between 0xE1 0xEC a || between 0xEE 0xEF a
                then is_cont b && is_cont c && utf8_valid l
              else if a =? 0xED then between 0x80 0x9F b && is_cont c && utf8_valid l
              else match l with
              | [] => false
              | e :: l =>
                  if a =? 0xF0 then between 0x90 0xBF b && is_cont c && is_cont e && utf8_valid l
                  else if between 0xF1 0xF3 a
                    then is_cont b && is_cont c && is_cont e && utf8_valid l
                  else if a =? 0xF4
                    then between 0x80 0x8F b && is_cont c && is_cont e && utf8_valid l
                  else false
              end
          end
      end
  end.

Definition get_name (f : File) : outcome (list Z) :=
  if default 0 (name f !! 0%nat) =? 0 then Ret [0x2F]
  else if utf8_valid (name f) then Ret (name f)
  else Panic "invalid ascii in filename".

(** The names of a directory itself and of its parent, padded with blanks. *)
Definition DOT : list Z := 0x2E :: replicate 10 0x20.
Definition DOTDOT : list Z := 0x2E :: 0x2E :: replicate 9 0x20.

Definition get_data_addr (f : File) : Z := Z.lor (cluster_l f) (Z.shiftl (cluster_h f) 16).

(** [Iterator::array_chunks]: the whole chunks of [n] items. *)
Definition array_chunks (n : nat) (l : list Z) : list (list Z) :=
  (fun i => take n (drop (i * n) l)) <$> seq 0 (length l / n).

(** ** Operations *)

Section fs.
Context {P : Profile} {D : Type} `{BlockDevice D}.

Definition div_u (a b : Z) : outcome Z :=
  if b =? 0 then Panic "attempt to divide by zero" else Ret (a / b).

(** The first sector of the data area, as both [get_data] and
    [parse_directory] compute it. *)
Definition first_data_sector (boot_sector : FatBootSector) : outcome Z :=
  let fat_size := if table_size_16 boot_sector =? 0 then table_size_32 boot_sector
                  else table_size_16 boot_sector in
  a ← mul_u 16 (root_entry_count boot_sector) 32;
  a ← add_u 16 a (bytes_per_sector boot_sector);
  a ← sub_u 16 a 1;
  root_dir_sectors ← div_u a (bytes_per_sector boot_sector);
  b ← mul_u 32 (table_count boot_sector) fat_size;
  b ← add_u 32 (reserved_sector_count boot_sector) b;
  add_u 32 b root_dir_sectors.

(** The first sector of a cluster. *)
Definition first_sector (boot_sector : FatBootSector) (fds cluster_idx : Z) : outcome Z :=
  c ← sub_u 32 cluster_idx 2;
  c ← mul_u 32 c (sectors_per_cluster boot_sector);
  add_u 32 c fds.

(** [Vec::set_len]: positions the vector did not have hold what [uninit]
    says is in that memory. *)
Definition set_len (uninit : Z -> Z) (n : Z) (l : list Z) : list Z :=
  (fun i => default (uninit i) (get l i)) <$> seqZ 0 n.

Definition get_data (uninit : Z -> Z) (boot : option (Z * FatBootSector)) (f : File) (d : D)
    : outcome (result (list Z) DiskAccessError * D) :=
  '(drive_num, boot_sector) ← expect "no boot sector initialized" boot;
  fds ← first_data_sector boot_sector;
  sector ← first_sector boot_sector fds (get_data_addr f);
  n ← div_u (file_size f) (bytes_per_sector boot_sector);
  sector_count ← add_u 32 n 1;
  '(r, d) ← read_sectors drive_num sector (wrap 16 sector_count) d;
  match r with
  | Err e => Ret (Err e, d)
  | Ok cluster_data => Ret (Ok (set_len uninit (file_size f) cluster_data), d)
  end.

(** The loop over the entries of a cluster.  [parse] is the recursive call for
    a subdirectory, [next] what follows after the last entry. *)
Fixpoint parse_entries (parse : Z -> D -> outcome (list Tree * D))
    (next : list Tree -> D -> outcome (list Tree * D))
    (entries : list (list Z)) (children : list Tree) (d : D) : outcome (list Tree * D) :=
  match entries with
  | [] => next children d
  | entry :: entries =>
      e0 ← index entry 0;
      if e0 =? 0 then Ret (children, d)
      else if e0 =? 0xE5 then parse_entries parse next entries children d
      else
        e11 ← index entry 11;
        if e11 =? 0x0F then Panic "detected long filename"
        else
          let file := File_of_bytes entry in
          n ← get_name file;
          if bool_decide (n = DOT) || bool_decide (n = DOTDOT)
          then parse_entries parse next entries children d
          else if directory (attributes file) =? 1 then
            '(sub, d) ← parse (get_data_addr file) d;
            parse_entries parse next entries (children ++ [Node file sub]) d
          else parse_entries parse next entries (children ++ [Node file []]) d
  end.

(** One unit of fuel is one pass of the [loop], which reads one cluster; the
    pushes go to [children], the children of [parent] so far. *)
Fixpoint parse_directory (fuel : nat) (boot : option (Z * FatBootSector)) (cluster_idx : Z)
    (children : list Tree) (d : D) : outcome (list Tree * D) :=
  match fuel with
  | O => NoFuel
  | S fuel =>
      '(drive_num, boot_sector) ← expect "boot sector not initialized" boot;
      fds ← first_data_sector boot_sector;
      sector ← first_sector boot_sector fds cluster_idx;
      '(r, d) ← read_sectors drive_num sector (sectors_per_cluster boot_sector) d;
      match r with
      | Err _ => Panic "failed to read root cluster"
      | Ok cluster_data =>
          parse_entries
            (fun cluster_addr d => parse_directory fuel boot cluster_addr [] d)
            (fun children d =>
               cluster_idx ← add_u 32 cluster_idx 1;
               parse_directory fuel boot cluster_idx children d)
            (array_chunks FILE_SIZE cluster_data) children d
      end
  end.

(** The statics [BOOT_SECTOR], a [OnceCell], and [FILE_SYSTEM]. *)
Record FsState := mkFs {
  BOOT_SECTOR : option (Z * FatBootSector);
  FILE_SYSTEM : option Tree;
}.

Definition init (fuel : nat) (drive_num : Z) (fs : FsState) (d : D) : outcome (FsState * D) :=
  '(r, d) ← read_sectors drive_num 0 1 d;
  match r with
  | Err _ => Panic "aint no way"
  | Ok sector_0 =>
      boot_sector_bytes ← unwrap (head (array_chunks BOOT_SECTOR_SIZE sector_0));
      let boot_sector := FatBootSector_of_bytes boot_sector_bytes in
      let boot := match BOOT_SECTOR fs with
                  | Some b => Some b
                  | None => Some (drive_num, boot_sector)
                  end in
      '(children, d) ← parse_directory fuel boot (root_cluster boot_sector) [] d;
      Ret (mkFs boot (Some (Node File_default children)), d)
  end.
End fs.
