(* ===== verification/FsSpec.v ===== *)
(** * What the file system reads

    A FAT32 image and the directory tree it holds are described without
    reference to the scan; [parse_directory], [init] and [get_data] of
    [src/src/fs.rs] are shown to read them back.  The descriptions cover the
    images the code can read: directories and files in successive clusters. *)
From S2P Require Import Prelude Fs.

(** The geometry of a FAT32 volume with sectors of 512 bytes. *)
Record geometry (bs : FatBootSector) : Prop := {
  geo_sector : bytes_per_sector bs = SECTOR;
  geo_cluster : 1 <= sectors_per_cluster bs < 256;
  geo_root : root_entry_count bs = 0;
  geo_fat16 : table_size_16 bs = 0;
  geo_reserved : 0 <= reserved_sector_count bs;
  geo_fats : 0 <= table_count bs;
  geo_fat_size : 0 <= table_size_32 bs;
  geo_data : reserved_sector_count bs + table_count bs * table_size_32 bs < 2 ^ 32;
}.

(** First sector of the data area and of a cluster. *)
Definition data_start (bs : FatBootSector) : Z :=
  reserved_sector_count bs + table_count bs * table_size_32 bs.
Definition cluster_start (bs : FatBootSector) (c : Z) : Z :=
  data_start bs + (c - 2) * sectors_per_cluster bs.

(** The cluster lies on the disk, which has fewer than 2^32 sectors. *)
Record cluster_ok (bs : FatBootSector) (img : list Z) (c : Z) : Prop := {
  cluster_num : 2 <= c < 2 ^ 28;
  cluster_32 : cluster_start bs c + sectors_per_cluster bs < 2 ^ 32;
  cluster_in : SECTOR * (cluster_start bs c + sectors_per_cluster bs) <= Z.of_nat (length img);
}.

(** [n] sectors from the sector [s] on. *)
Definition sectors (img : list Z) (s n : Z) : list Z :=
  take (Z.to_nat (SECTOR * n)) (drop (Z.to_nat (SECTOR * s)) img).
Definition cluster_entries (bs : FatBootSector) (img : list Z) (c : Z) : list (list Z) :=
  array_chunks FILE_SIZE (sectors img (cluster_start bs c) (sectors_per_cluster bs)).

Definition byte (e : list Z) (i : nat) : Z := default 0 (e !! i).

(** A used entry is a file, a directory or a deleted file; there is no long
    name. *)
Definition entry_ok (e : list Z) : Prop :=
  byte e 0 <> 0 /\ (byte e 0 = 0xE5 \/ byte e 11 <> 0x0F /\ utf8_valid (take 11 e) = true).

(** Not deleted, and not the directory itself or its parent. *)
Definition live (e : list Z) : Prop :=
  byte e 0 <> 0xE5 /\ take 11 e <> DOT /\ take 11 e <> DOTDOT.

(** The entries [es] in front of the end mark, in clusters from [c] on. *)
Definition dir_entries (bs : FatBootSector) (img : list Z) (c : Z) (es : list (list Z)) : Prop :=
  exists (n : nat) last rest,
    Forall (cluster_ok bs img) (seqZ c (Z.of_nat n)) /\
    (seqZ c (Z.of_nat n) ≫= cluster_entries bs img) = es ++ last :: rest /\
    byte last 0 = 0 /\ Forall entry_ok es.

(** An entry describes the root of a tree; [sub_at] says which subtrees a
    cluster holds. *)
Definition entry_tree (sub_at : Z -> list Tree -> Prop) (e : list Z) (t : Tree) : Prop :=
  match t with
  | Node f sub =>
      f = File_of_bytes e /\
      if directory (attributes f) =? 1 then sub_at (get_data_addr f) sub else sub = []
  end.

(** The directory at the cluster [c] holds the trees [ts], which are at most
    [depth] deep. *)
Fixpoint dir_at (bs : FatBootSector) (img : list Z) (depth : nat) (c : Z) (ts : list Tree) : Prop :=
  match depth with
  | O => False
  | S depth => exists es, dir_entries bs img c es /\
      Forall2 (entry_tree (dir_at bs img depth)) (filter live es) ts
  end.

(** ** Chunks and sectors *)

Lemma elem_of_array_chunks n l e : (0 < n)%nat -> e ∈ array_chunks n l -> length e = n.
Proof.
  intros Hn. unfold array_chunks. rewrite list_elem_of_fmap. intros (i & -> & Hi%elem_of_seq).
  rewrite length_take, length_drop.
  assert ((i + 1) * n <= length l)%nat; [|lia].
  etrans; [apply Nat.mul_le_mono_r; instantiate (1 := (length l / n)%nat); lia|].
  rewrite Nat.mul_comm. by apply Nat.Div0.mul_div_le.
Qed.

Section facts.
Context {P : Profile} {D : Type} `{L : BlockDeviceLaws D}.
Context (bs : FatBootSector) (img : list Z) (drive : Z).
Context (Hgeo : geometry bs).

(** The drive holds the image. *)
Abbreviation holds d := (device_ok d /\ image d drive = Some img).
Abbreviation boot := (Some (drive, bs)).

Lemma first_data_sector_ok : first_data_sector bs = Ret (data_start bs).
Proof using Hgeo.
  destruct Hgeo as [Hb Hc Hr Ht Hres Hf Hs Hd]. unfold first_data_sector, SECTOR in *.
  assert (0 <= table_count bs * table_size_32 bs) by (apply Z.mul_nonneg_nonneg; done).
  rewrite Hr, Hb, Ht. run_all. change (div_u _ _) with (Ret (A := Z) 0).
  cbn [mbind outcome_bind Z.eqb]. run_all. f_equal. unfold data_start. lia.
Qed.

Lemma first_sector_ok c :
  2 <= c < 2 ^ 32 -> cluster_start bs c < 2 ^ 32 ->
  first_sector bs (data_start bs) c = Ret (cluster_start bs c).
Proof using Hgeo.
  intros Hc Hs. destruct Hgeo as [_ Hcl _ _ Hres Hf Hsz _]. unfold cluster_start, data_start in *.
  assert (0 <= table_count bs * table_size_32 bs) by (apply Z.mul_nonneg_nonneg; done).
  assert (0 <= (c - 2) * sectors_per_cluster bs) by (apply Z.mul_nonneg_nonneg; lia).
  unfold first_sector. run_all. f_equal. lia.
Qed.

Lemma cluster_start_nonneg c : 2 <= c < 2 ^ 28 -> 0 <= cluster_start bs c.
Proof using Hgeo.
  destruct Hgeo as [_ Hcl _ _ Hres Hf Hsz _]. intros Hc. unfold cluster_start, data_start.
  apply Z.add_nonneg_nonneg; [apply Z.add_nonneg_nonneg|]; try apply Z.mul_nonneg_nonneg; lia.
Qed.

Lemma parse_entries_ext (p p' : Z -> D -> outcome (list Tree * D)) nx nx' es ch d :
  (forall a d, p a d = p' a d) -> (forall ch d, nx ch d = nx' ch d) ->
  parse_entries p nx es ch d = parse_entries p' nx' es ch d.
Proof.
  intros Hp Hn. revert ch d. induction es as [|e es IH]; intros ch d; cbn [parse_entries]; [done|].
  destruct (index e 0) as [e0| |]; [|done..]. cbn [mbind outcome_bind].
  do 2 (case_match; [done || by apply IH|]).
  destruct (index e 11) as [e11| |]; [|done..]. cbn [mbind outcome_bind]. case_match; [done|].
  destruct (get_name _) as [n| |]; [|done..]. cbn [mbind outcome_bind].
  case_match; [by apply IH|]. case_match; [|by apply IH]. rewrite Hp.
  destruct (p' _ _) as [[sub d']| |]; [|done..]. by apply IH.
Qed.

(** One pass of the loop reads one cluster. *)
Lemma parse_directory_step fuel c ch d :
  holds d -> cluster_ok bs img c ->
  exists d', holds d' /\ parse_directory (S fuel) boot c ch d =
    parse_entries (fun a d => parse_directory fuel boot a [] d)
      (fun ch d => parse_directory fuel boot (c + 1) ch d) (cluster_entries bs img c) ch d'.
Proof using L Hgeo.
  intros Hd [Hc H32 Hin]. cbn [parse_directory expect mbind outcome_bind].
  rewrite first_data_sector_ok. cbn [mbind outcome_bind].
  destruct Hgeo as [_ Hcl _ _ _ _ _ _]. rewrite first_sector_ok by lia. cbn [mbind outcome_bind].
  assert (0 <= cluster_start bs c) by apply cluster_start_nonneg, Hc.
  destruct Hd as [Hdok Hd]. pose proof max_count_range as Hmax.
  destruct (read_sectors_ok d drive img (cluster_start bs c) (sectors_per_cluster bs) Hdok Hd)
    as (d' & -> & Hdok' & Hsame); [lia..|].
  exists d'. split; [by rewrite Hsame|]. cbn [mbind outcome_bind]. fold (sectors img (cluster_start bs c)
    (sectors_per_cluster bs)). fold (cluster_entries bs img c).
  apply parse_entries_ext; [done|]. intros ch' d''. by rewrite add_u_ok by range.
Qed.

(** [parse] reads the trees [ts] from the directory at the cluster [a]. *)
Definition reads (parse : Z -> D -> outcome (list Tree * D)) (a : Z) (ts : list Tree) : Prop :=
  forall d, holds d -> exists d', parse a d = Ret (ts, d') /\ holds d'.

Lemma index_entry e :
  length e = FILE_SIZE -> index e 0 = Ret (byte e 0) /\ index e 11 = Ret (byte e 11).
Proof.
  intros Hl. unfold index, byte. rewrite !get_lookup by lia.
  destruct (lookup_lt_is_Some_2 e 0) as [b Hb]; [rewrite Hl; unfold FILE_SIZE; lia|].
  destruct (lookup_lt_is_Some_2 e 11) as [b' Hb']; [rewrite Hl; unfold FILE_SIZE; lia|].
  change (Z.to_nat 0) with 0%nat. change (Z.to_nat 11) with 11%nat. by rewrite Hb, Hb'.
Qed.

Lemma get_name_entry e :
  length e = FILE_SIZE -> byte e 0 <> 0 -> utf8_valid (take 11 e) = true ->
  get_name (File_of_bytes e) = Ret (take 11 e).
Proof.
  intros Hl H0 Hv. unfold get_name. cbn [name File_of_bytes]. rewrite Hv, lookup_take_lt by lia.
  change (default 0 (e !! 0%nat)) with (byte e 0). case_bool; [done|done].
Qed.

(** One step of the loop over the entries. *)
Lemma parse_entry_skip parse nx e es ch (d : D) :
  length e = FILE_SIZE -> entry_ok e -> ~ live e ->
  parse_entries parse nx (e :: es) ch d = parse_entries parse nx es ch d.
Proof.
  intros Hl [H0 Hok] Hnl. cbn [parse_entries].
  destruct (index_entry e Hl) as [-> ->]. cbn [mbind outcome_bind].
  case_bool; [done|]. case_bool; [done|]. destruct Hok as [?|[H11 Hv]]; [done|].
  case_bool; [done|]. rewrite get_name_entry by done. cbn [mbind outcome_bind].
  rewrite (proj2 (orb_true_iff _ _)); [done|]. rewrite !bool_decide_eq_true.
  destruct (decide (take 11 e = DOT)), (decide (take 11 e = DOTDOT)); auto.
  by destruct Hnl.
Qed.

Lemma parse_entry_head parse nx e es ch (d : D) :
  length e = FILE_SIZE -> entry_ok e -> live e ->
  parse_entries parse nx (e :: es) ch d =
  let file := File_of_bytes e in
  if directory (attributes file) =? 1 then
    '(sub, d) ← parse (get_data_addr file) d;
    parse_entries parse nx es (ch ++ [Node file sub]) d
  else parse_entries parse nx es (ch ++ [Node file []]) d.
Proof.
  intros Hl [H0 Hok] (Hn1 & Hn2 & Hn3). cbn [parse_entries].
  destruct (index_entry e Hl) as [-> ->]. cbn [mbind outcome_bind].
  case_bool; [done|]. case_bool; [done|]. destruct Hok as [?|[H11 Hv]]; [done|].
  case_bool; [done|]. rewrite get_name_entry by done. cbn [mbind outcome_bind].
  by rewrite !bool_decide_eq_false_2 by done.
Qed.

Lemma parse_entry_live parse nx e es ch d t :
  length e = FILE_SIZE -> entry_ok e -> live e -> entry_tree (reads parse) e t -> holds d ->
  exists d', holds d' /\
    parse_entries parse nx (e :: es) ch d = parse_entries parse nx es (ch ++ [t]) d'.
Proof.
  intros Hl He Hlive Ht Hd. rewrite parse_entry_head by done. cbv zeta.
  destruct t as [f sub]. destruct Ht as [-> Ht]. case_bool.
  - destruct (Ht d Hd) as (d' & -> & Hd'). cbn [mbind outcome_bind]. eauto.
  - subst sub. eauto.
Qed.

Lemma parse_entries_run parse nx es tail ts ch d :
  Forall entry_ok es -> Forall (fun e => length e = FILE_SIZE) es ->
  Forall2 (entry_tree (reads parse)) (filter live es) ts -> holds d ->
  exists d', holds d' /\
    parse_entries parse nx (es ++ tail) ch d = parse_entries parse nx tail (ch ++ ts) d'.
Proof.
  revert ts ch d. induction es as [|e es IH]; intros ts ch d Hok Hlen Hts Hd.
  { inversion Hts; subst. rewrite app_nil_r. eauto. }
  apply Forall_cons in Hok as [He Hok], Hlen as [Hle Hlen]. rewrite filter_cons in Hts.
  destruct (decide (live e)) as [Hl|Hl].
  - apply Forall2_cons_inv_l in Hts as (t & ts' & Ht & Hts & ->).
    destruct (parse_entry_live parse nx e (es ++ tail) ch d t Hle He Hl Ht Hd) as (d1 & Hd1 & Heq).
    destruct (IH ts' (ch ++ [t]) d1 Hok Hlen Hts Hd1) as (d' & Hd' & Heq').
    exists d'. split; [done|]. cbn [app]. by rewrite Heq, Heq', <- app_assoc.
  - cbn [app]. rewrite parse_entry_skip by done. by apply IH.
Qed.

Lemma parse_entries_end parse nx e es ch (d : D) :
  length e = FILE_SIZE -> byte e 0 = 0 -> parse_entries parse nx (e :: es) ch d = Ret (ch, d).
Proof. intros Hl H0. cbn [parse_entries]. destruct (index_entry e Hl) as [-> _]. by rewrite H0. Qed.

Lemma entries_tree_mono (R R' : Z -> list Tree -> Prop) es ts :
  (forall a ts, R a ts -> R' a ts) ->
  Forall2 (entry_tree R) es ts -> Forall2 (entry_tree R') es ts.
Proof.
  intros HR Hts. eapply Forall2_impl; [exact Hts|]. intros e [g sub] [Hg Ht]. split; [done|].
  destruct (_ =? 1); [by apply HR|done].
Qed.

(** The trees [ts] are read with any fuel from [fuel] on. *)
Definition reads_from (fuel : nat) (a : Z) (ts : list Tree) : Prop :=
  forall f, (fuel <= f)%nat -> reads (fun a d => parse_directory f boot a [] d) a ts.

(** The scan over the clusters of one directory. *)
Lemma parse_clusters fuel n c es last rest ts ch d :
  Forall (cluster_ok bs img) (seqZ c (Z.of_nat n)) ->
  (seqZ c (Z.of_nat n) ≫= cluster_entries bs img) = es ++ last :: rest ->
  byte last 0 = 0 -> Forall entry_ok es ->
  Forall2 (entry_tree (reads_from fuel)) (filter live es) ts ->
  holds d -> forall f, (n + fuel <= f)%nat ->
  exists d', parse_directory f boot c ch d = Ret (ch ++ ts, d') /\ holds d'.
Proof using L Hgeo.
  revert c es ts ch d. induction n as [|n IH]; intros c es ts ch d Hok Heq Hlast Hes Hts Hd f Hf.
  { by destruct es. }
  destruct f as [|f]; [lia|]. rewrite seqZ_cons in Hok, Heq by lia.
  replace (Z.pred (Z.of_nat (S n))) with (Z.of_nat n) in Hok, Heq by lia.
  apply Forall_cons in Hok as [Hc Hok].
  destruct (parse_directory_step f c ch d Hd Hc) as (d1 & Hd1 & ->).
  cbn [mbind list_bind] in Heq.
  assert (Hlen : Forall (fun e => length e = FILE_SIZE) (cluster_entries bs img c)).
  { apply Forall_forall. intros e. apply elem_of_array_chunks. unfold FILE_SIZE. lia. }
  assert (Hsub : forall a ts, reads_from fuel a ts -> reads (fun a d => parse_directory f boot a [] d) a ts).
  { intros a ts' Ht. apply Ht. lia. }
  assert (Hcase : (exists k, cluster_entries bs img c = es ++ last :: k) \/
    exists k, es = cluster_entries bs img c ++ k /\
      seqZ (Z.succ c) (Z.of_nat n) ≫= cluster_entries bs img = k ++ last :: rest).
  { apply app_eq_inv in Heq as [(k & Hk & Heq)|(k & Hk & Heq)]; [|right; eauto].
    destruct k as [|x k]; [right; exists []; rewrite app_nil_r in Hk |- *; by split|].
    left. injection Heq as <- ->. eauto. }
  destruct Hcase as [(k & Hk)|(k & Hk & Heq')].
  - rewrite Hk in Hlen |- *. apply Forall_app in Hlen as [Hlen Hlen'].
    destruct (parse_entries_run _ (fun ch d => parse_directory f boot (c + 1) ch d) es (last :: k) ts ch d1
      Hes Hlen (entries_tree_mono _ _ _ _ Hsub Hts) Hd1) as (d' & Hd' & ->).
    exists d'. split; [|done]. apply parse_entries_end; [|done]. by apply Forall_cons in Hlen' as [? _].
  - subst es. apply Forall_app in Hes as [Hes Hes']. rewrite filter_app in Hts.
    apply Forall2_app_inv_l in Hts as (ts1 & ts2 & Hts1 & Hts2 & ->).
    destruct (parse_entries_run _ (fun ch d => parse_directory f boot (c + 1) ch d) _ [] ts1 ch d1
      Hes Hlen (entries_tree_mono _ _ _ _ Hsub Hts1) Hd1) as (d' & Hd' & Hrun).
    rewrite app_nil_r in Hrun. rewrite Hrun, app_assoc. cbn [parse_entries].
    apply (IH (c + 1) k); try done. lia.
Qed.

(** A bound on the fuel for each of finitely many subdirectories gives one for
    all. *)
Lemma entries_fuel (R : Z -> list Tree -> Prop) es ts :
  (forall a ts, R a ts -> exists fuel, reads_from fuel a ts) ->
  Forall2 (entry_tree R) es ts -> exists fuel, Forall2 (entry_tree (reads_from fuel)) es ts.
Proof.
  intros HR Hts. induction Hts as [|e [f sub] es ts [Hf Ht] Hts [n IH]]; [by exists 0%nat|].
  assert (Hmono : forall k, (n <= k)%nat -> Forall2 (entry_tree (reads_from k)) es ts).
  { intros k Hk. revert IH. apply entries_tree_mono. intros a ts' Hr g Hg. apply Hr. lia. }
  destruct (directory (attributes f) =? 1) eqn:Ed.
  - destruct (HR _ _ Ht) as [m Hm]. exists (n `max` m)%nat.
    constructor; [|apply Hmono; lia]. split; [done|]. rewrite Ed. intros g Hg. apply Hm. lia.
  - exists n. constructor; [|done]. split; [done|]. by rewrite Ed.
Qed.

Lemma dir_at_reads depth c ts :
  dir_at bs img depth c ts -> exists fuel, reads_from fuel c ts.
Proof using L Hgeo.
  revert c ts. induction depth as [|depth IH]; intros c ts; [done|].
  intros (es & (n & last & rest & Hok & Heq & Hlast & Hes) & Hts).
  destruct (entries_fuel _ _ _ IH Hts) as [fuel Hfuel]. exists (n + fuel)%nat.
  intros f Hf d Hd. by apply (parse_clusters fuel n c es last rest ts [] d).
Qed.

(** The first chunk of a long enough list. *)
Lemma head_array_chunks n l :
  (0 < n <= length l)%nat -> head (array_chunks n l) = Some (take n l).
Proof.
  intros Hn. unfold array_chunks. destruct (length l / n)%nat as [|k] eqn:E.
  - apply Nat.div_small_iff in E; lia.
  - done.
Qed.

(** On a drive with a FAT32 image, [init] stores the boot sector and a
    tree whose root has exactly the files and directories of the image below
    it, given enough fuel for the clusters it reads. *)
Lemma init_reads_tree fs depth ts d :
  holds d -> BOOT_SECTOR fs = None -> SECTOR <= Z.of_nat (length img) ->
  FatBootSector_of_bytes (take BOOT_SECTOR_SIZE img) = bs ->
  dir_at bs img depth (root_cluster bs) ts ->
  exists fuel, forall f, (fuel <= f)%nat ->
    exists d', init f drive fs d = Ret (mkFs boot (Some (Node File_default ts)), d') /\ holds d'.
Proof using L Hgeo.
  intros Hd Hfs Hlen Hbs Hdir. destruct (dir_at_reads depth _ ts Hdir) as [fuel Hfuel].
  exists fuel. intros f Hf. unfold init.
  destruct Hd as [Hdok Hd]. pose proof max_count_range as Hmax.
  destruct (read_sectors_ok d drive img 0 1 Hdok Hd) as (d1 & -> & Hdok1 & Hsame); [lia..|].
  assert (Hd1 : holds d1) by by rewrite Hsame.
  cbn [mbind outcome_bind]. rewrite head_array_chunks.
  2:{ rewrite length_take, length_drop. unfold SECTOR, BOOT_SECTOR_SIZE in *. lia. }
  cbn [unwrap expect mbind outcome_bind]. rewrite Hfs, drop_0, take_take.
  change (_ `min` _)%nat with BOOT_SECTOR_SIZE. rewrite Hbs.
  destruct (Hfuel f Hf d1 Hd1) as (d' & -> & Hd'). by exists d'.
Qed.

Lemma set_len_take uninit n l :
  0 <= n <= Z.of_nat (length l) -> set_len uninit n l = take (Z.to_nat n) l.
Proof.
  intros Hn. unfold set_len. apply list_eq. intros i. rewrite list_lookup_fmap.
  destruct (decide (i < Z.to_nat n)%nat) as [Hi|Hi].
  - rewrite lookup_seqZ_lt by lia. cbn [fmap option_fmap option_map].
    rewrite lookup_take_lt, get_lookup by lia. replace (Z.to_nat (0 + Z.of_nat i)) with i by lia.
    destruct (lookup_lt_is_Some_2 l i) as [b ->]; [lia|done].
  - rewrite lookup_seqZ_ge by lia. rewrite lookup_take_ge by lia. done.
Qed.

Lemma length_sectors s n :
  0 <= s -> 0 <= n -> SECTOR * (s + n) <= Z.of_nat (length img) ->
  length (sectors img s n) = Z.to_nat (SECTOR * n).
Proof. intros. unfold sectors, SECTOR in *. rewrite length_take, length_drop. lia. Qed.

(** What [get_data] reads: the sector count is cut to 16 bits. *)
Lemma get_data_eq uninit f d n :
  holds d -> 0 <= file_size f < 2 ^ 32 -> cluster_ok bs img (get_data_addr f) ->
  n = wrap 16 (file_size f / SECTOR + 1) -> 1 <= n <= max_count ->
  SECTOR * (cluster_start bs (get_data_addr f) + n) <= Z.of_nat (length img) ->
  exists d', get_data uninit boot f d =
      Ret (Ok (set_len uninit (file_size f) (sectors img (cluster_start bs (get_data_addr f)) n)), d') /\
    holds d'.
Proof using L Hgeo.
  intros Hd Hsz Hok Hn Hn' Hin. unfold get_data. cbn [expect mbind outcome_bind].
  rewrite first_data_sector_ok. cbn [mbind outcome_bind].
  destruct Hok as [Hc H32 _]. pose proof (cluster_start_nonneg _ Hc).
  destruct Hgeo as [Hb Hcl _ _ _ _ _ _]. rewrite first_sector_ok by lia. cbn [mbind outcome_bind].
  rewrite Hb. change (div_u (file_size f) SECTOR) with (Ret (file_size f / SECTOR)).
  cbn [mbind outcome_bind]. rewrite add_u_ok; [|unfold SECTOR, in_u; Z.div_mod_to_equations; lia].
  cbn [mbind outcome_bind]. rewrite <- Hn.
  destruct Hd as [Hdok Hd]. pose proof max_count_range as Hmax.
  destruct (read_sectors_ok d drive img _ n Hdok Hd ltac:(eassumption) Hn' Hin)
    as (d' & -> & Hdok' & Hsame).
  exists d'. split; [done|]. by rewrite Hsame.
Qed.

(** A file no larger than a transfer in successive clusters is read back: the
    result is the [file_size] bytes from the start of its first cluster on. *)
Lemma get_data_contiguous uninit f d :
  holds d -> 0 <= file_size f < SECTOR * max_count -> cluster_ok bs img (get_data_addr f) ->
  SECTOR * (cluster_start bs (get_data_addr f) + file_size f / SECTOR + 1) <= Z.of_nat (length img) ->
  exists d', get_data uninit boot f d =
      Ret (Ok (take (Z.to_nat (file_size f))
        (drop (Z.to_nat (SECTOR * cluster_start bs (get_data_addr f))) img)), d') /\ holds d'.
Proof using L Hgeo.
  intros Hd Hsz Hok Hin. pose proof max_count_range as Hmax. pose proof (cluster_start_nonneg _ (cluster_num _ _ _ Hok)) as H0.
  assert (Hq : file_size f < SECTOR * (file_size f / SECTOR + 1) /\ 0 <= file_size f / SECTOR < max_count).
  { unfold SECTOR in *. Z.div_mod_to_equations. lia. }
  destruct (get_data_eq uninit f d (file_size f / SECTOR + 1) Hd) as (d' & Hg & Hd');
    [unfold SECTOR in *; lia|done|by rewrite wrap_small by range|lia|by rewrite Z.add_assoc|].
  exists d'. split; [|done]. rewrite Hg, set_len_take.
  - unfold sectors. rewrite take_take, Nat.min_l by lia. done.
  - rewrite length_sectors; [lia|done|lia|by rewrite Z.add_assoc].
Qed.

(** A file in the tree, somewhere below the root. *)
Inductive in_tree (f : File) : list Tree -> Prop :=
| in_here cs ts : Node f cs ∈ ts -> in_tree f ts
| in_below g cs ts : Node g cs ∈ ts -> in_tree f cs -> in_tree f ts.

(** The file lies on the disk in successive clusters and fits in a transfer. *)
Record stored (f : File) : Prop := {
  stored_size : 0 <= file_size f < SECTOR * max_count;
  stored_cluster : cluster_ok bs img (get_data_addr f);
  stored_in : SECTOR * (cluster_start bs (get_data_addr f) + file_size f / SECTOR + 1) <= Z.of_nat (length img);
}.
Definition file_bytes (f : File) : list Z :=
  take (Z.to_nat (file_size f)) (drop (Z.to_nat (SECTOR * cluster_start bs (get_data_addr f))) img).

(** C6: on a drive with a FAT32 image, [init] stores the boot sector and a
    tree with exactly the files and directories of the image, given enough fuel
    for the clusters it reads; and after that [get_data] returns the bytes of
    every file of the tree that is stored in successive clusters. *)
Theorem init_then_get_data fs depth ts d :
  holds d -> BOOT_SECTOR fs = None -> SECTOR <= Z.of_nat (length img) ->
  FatBootSector_of_bytes (take BOOT_SECTOR_SIZE img) = bs ->
  dir_at bs img depth (root_cluster bs) ts ->
  exists fuel, forall n, (fuel <= n)%nat ->
    exists fs' d', init n drive fs d = Ret (fs', d') /\ FILE_SYSTEM fs' = Some (Node File_default ts) /\
      forall uninit f, in_tree f ts -> stored f ->
        exists d'', get_data uninit (BOOT_SECTOR fs') f d' = Ret (Ok (file_bytes f), d'').
Proof using L Hgeo.
  intros Hd Hfs Hlen Hbs Hdir. destruct (init_reads_tree fs depth ts d Hd Hfs Hlen Hbs Hdir) as [fuel Hrun].
  exists fuel. intros n Hn. destruct (Hrun n Hn) as (d' & -> & Hd'). eexists _, d'. split; [done|]. split; [done|].
  intros uninit f _ [Hsz Hc Hin]. destruct (get_data_contiguous uninit f d' Hd' Hsz Hc Hin) as (d'' & H1 & _). eauto.
Qed.


End facts.

(** ** Examples *)

(** One drive, an image in memory. *)
#[local] Instance ram_disk : BlockDevice (list Z) :=
  fun drive lba count img =>
    if (drive =? 0) && (SECTOR * (lba + count) <=? Z.of_nat (length img))
    then Ret (Ok (sectors img lba count), img) else Ret (Err TaskFileError, img).

#[local] Instance ram_disk_laws : BlockDeviceLaws (list Z).
Proof.
  refine {| max_count := 8192; device_ok _ := True; image := fun img drive => if drive =? 0 then Some img else None |}.
  { done. }
  intros d drive img lba count _ Hd Hlba Hcount Hlen. unfold read_sectors, ram_disk.
  destruct (drive =? 0); [|done]. injection Hd as ->. exists img.
  cbn [andb]. case_bool; [done|lia].
Defined.

(** A volume with one reserved sector, one FAT of one sector and clusters of
    one sector: the root directory, a directory and a file of 3 bytes. *)
Definition pad (n : nat) (l : list Z) : list Z := take n (l ++ replicate n 0).
Definition example_entry (nm : list Z) (attr cluster size : Z) : list Z :=
  take 11 (nm ++ replicate 11 0x20) ++ [attr] ++ replicate 8 0 ++ to_le_bytes 2 0 ++
  replicate 4 0 ++ to_le_bytes 2 cluster ++ to_le_bytes 4 size.
Definition example_boot : list Z :=
  pad 11 [] ++ to_le_bytes 2 512 ++ [1] ++ to_le_bytes 2 1 ++ [1] ++ pad 19 [] ++
  to_le_bytes 4 1 ++ pad 4 [] ++ to_le_bytes 4 2.
Definition dir_entry : list Z := example_entry [0x42; 0x49; 0x4E] 0x10 3 0.
Definition file_entry : list Z := example_entry [0x42; 0x41; 0x53; 0x48] 0x20 4 3.
Definition deleted_entry : list Z := example_entry [0xE5; 0x41] 0x20 9 1.
Definition example_image : list Z :=
  pad 512 example_boot ++ pad 512 [] ++ pad 512 (deleted_entry ++ dir_entry) ++
  pad 512 (example_entry [0x2E] 0x10 3 0 ++ file_entry) ++ pad 512 [1; 2; 3].
Definition example_bs : FatBootSector := FatBootSector_of_bytes (take BOOT_SECTOR_SIZE example_image).
Definition example_tree : list Tree :=
  [Node (File_of_bytes dir_entry) [Node (File_of_bytes file_entry) []]].

Lemma example_geometry : geometry example_bs.
Proof. by split; vm_compute. Qed.
Lemma example_cluster c : 2 <= c <= 4 -> cluster_ok example_bs example_image c.
Proof.
  intros Hc. assert (c = 2 \/ c = 3 \/ c = 4) as [->|[->| ->]] by lia; by split; vm_compute.
Qed.

Lemma example_entries c es rest :
  2 <= c <= 4 -> cluster_entries example_bs example_image c = es ++ replicate 32 0 :: rest ->
  Forall entry_ok es -> dir_entries example_bs example_image c es.
Proof.
  intros Hc Heq Hes. exists 1%nat, (replicate 32 0), rest. split; [|split; [|done]].
  - apply Forall_cons. split; [by apply example_cluster|by apply Forall_nil].
  - change (seqZ c (Z.of_nat 1)) with [0 + c]. cbn. by rewrite app_nil_r.
Qed.

Lemma example_dir : dir_at example_bs example_image 2 2 example_tree.
Proof.
  exists [deleted_entry; dir_entry]. split.
  - apply (example_entries _ _ (replicate 13 (replicate 32 0))); [lia|by vm_compute|].
    repeat (apply Forall_cons; split); [split; [done|by left]|split; [done|by right]|by apply Forall_nil].
  - vm_compute filter. apply Forall2_cons. split; [|by apply Forall2_nil]. split; [done|].
    exists [example_entry [0x2E] 0x10 3 0; file_entry]. split.
    + apply (example_entries _ _ (replicate 13 (replicate 32 0))); [by vm_compute|by vm_compute|].
      repeat (apply Forall_cons; split); [split; [done|by right]|split; [done|by right]|by apply Forall_nil].
    + vm_compute filter. apply Forall2_cons. split; [|by apply Forall2_nil]. done.
Qed.

Lemma init_then_get_data_witness :
  exists n fs' d' d'', @init dev_profile _ ram_disk n 0 (mkFs None None) example_image = Ret (fs', d') /\
    FILE_SYSTEM fs' = Some (Node File_default example_tree) /\
    @get_data dev_profile _ ram_disk (fun _ => 0) (BOOT_SECTOR fs') (File_of_bytes file_entry) d' =
      Ret (Ok [1; 2; 3], d'').
Proof.
  destruct (@init_then_get_data dev_profile _ _ _ example_bs example_image 0 example_geometry
    (mkFs None None) 2 example_tree example_image) as [n Hn].
  - by split.
  - reflexivity.
  - vm_compute. discriminate.
  - reflexivity.
  - apply example_dir.
  - destruct (Hn n (le_n n)) as (fs' & d' & H1 & H2 & H3).
    destruct (H3 (fun _ => 0) (File_of_bytes file_entry)) as (d'' & H4).
    + eapply in_below; [left|]. eapply in_here. left.
    + split; [vm_compute; split; [discriminate|reflexivity]|apply example_cluster; vm_compute; split; discriminate|].
      vm_compute. discriminate.
    + exists n, fs', d', d''. split; [exact H1|]. split; [exact H2|]. exact H4.
Defined.

Definition large_file : File := File_of_bytes (example_entry [0x42] 0x20 4 (2 ^ 16 * 512 + 5)).


(** A root directory with an entry for itself. *)
Definition cyclic_entry : list Z := example_entry [0x43] 0x10 2 0.
Definition cyclic_image : list Z :=
  pad 512 example_boot ++ pad 512 [] ++ pad 512 cyclic_entry.

