(* ===== verification/Acpi.v ===== *)
(** * Finding the ACPI tables

    [src/src/acpi.rs].  A reference to a table in firmware memory is its
    address; the memory is a function from virtual addresses to bytes, with
    physical memory mapped at [physical_offset]. *)
From S2P Require Import Prelude Fs.

(** [n] bytes and an [n]-byte number at an address. *)
Definition read (mem : Z -> Z) (a : Z) (n : Z) : list Z := (fun i => mem (a + i)) <$> seqZ 0 n.
Definition read_num (mem : Z -> Z) (a : Z) (n : Z) : Z := le_val (read mem a n).

(** [RSDP_REGION.step_by(0x10)] *)
Definition RSDP_ADDRS : list Z := step_from 0x80000 0x10 (Z.to_nat ((0xFFFFF - 0x80000) / 0x10 + 1)).

Record RSDPDescriptor := mkRSDP {
  rsdp_signature : list Z;
  rsdp_checksum : Z;
  rsdp_oem_id : list Z;
  rsdp_revision : Z;
  rsdp_rsdt_address : Z;
}.
Definition RSDP_SIZE : Z := 20.
Definition RSDPDescriptor_at (mem : Z -> Z) (a : Z) : RSDPDescriptor :=
  mkRSDP (read mem a 8) (read_num mem (a + 8) 1) (read mem (a + 9) 6) (read_num mem (a + 15) 1)
    (read_num mem (a + 16) 4).
Definition revision (mem : Z -> Z) (rsdp : Z) : Z := rsdp_revision (RSDPDescriptor_at mem rsdp).
Definition rsdt_address (mem : Z -> Z) (rsdp : Z) : Z := rsdp_rsdt_address (RSDPDescriptor_at mem rsdp).

Record SDTHeader := mkSDT {
  sdt_signature : list Z;
  sdt_length : Z;
  sdt_revision : Z;
  sdt_checksum : Z;
  sdt_oem_id : list Z;
  sdt_oem_table_id : list Z;
  sdt_oem_revision : Z;
  sdt_creator_id : Z;
  sdt_creator_revision : Z;
}.
Definition SDT_SIZE : Z := 36.
Definition SDTHeader_at (mem : Z -> Z) (a : Z) : SDTHeader :=
  mkSDT (read mem a 4) (read_num mem (a + 4) 4) (read_num mem (a + 8) 1) (read_num mem (a + 9) 1)
    (read mem (a + 10) 6) (read mem (a + 16) 8) (read_num mem (a + 24) 4) (read_num mem (a + 28) 4)
    (read_num mem (a + 32) 4).
Definition signature (mem : Z -> Z) (sdt : Z) : list Z := sdt_signature (SDTHeader_at mem sdt).
Definition get_length (mem : Z -> Z) (sdt : Z) : Z := sdt_length (SDTHeader_at mem sdt).

Definition get_signature_str (mem : Z -> Z) (sdt : Z) : outcome (list Z) :=
  if utf8_valid (signature mem sdt) then Ret (signature mem sdt)
  else Panic "SDT has invalid signature".

Record RSDT := mkRSDT { rsdt_header : Z; tables : list Z }.
Definition get_tables (t : RSDT) : list Z := tables t.

(** ["RSD PTR "] *)
Definition RSD_PTR : list Z := [0x52; 0x53; 0x44; 0x20; 0x50; 0x54; 0x52; 0x20].

Section acpi.
Context {P : Profile} (mem : Z -> Z).

Definition verify_checksum (rsdp : Z) : outcome bool :=
  checksum ← for_each (read mem rsdp RSDP_SIZE) (fun byte checksum => add_u 32 checksum byte) 0;
  Ret (Z.land checksum 0xFF =? 0).

Fixpoint find_rsdp_from (phys_addrs : list Z) (physical_offset : Z) : outcome (option Z) :=
  match phys_addrs with
  | [] => Ret None
  | phys_addr :: phys_addrs =>
      addr ← add_u 64 physical_offset phys_addr;
      if bool_decide (read mem addr 8 = RSD_PTR) then
        ok ← verify_checksum addr;
        if ok : bool then
          _ ← assert_ (revision mem addr =? 0) "assertion failed: `(left == right)`";
          Ret (Some addr)
        else find_rsdp_from phys_addrs physical_offset
      else find_rsdp_from phys_addrs physical_offset
  end.
Definition find_rsdp (physical_offset : Z) : outcome (option Z) :=
  find_rsdp_from RSDP_ADDRS physical_offset.

Definition from_header (header physical_offset : Z) : outcome RSDT :=
  header_end_addr ← add_u 64 header SDT_SIZE;
  n ← sub_u 32 (get_length mem header) SDT_SIZE;
  let tables_count := n / 4 in
  tables ← for_each (seqZ 0 tables_count)
    (fun i tables =>
       t ← add_u 64 (read_num mem (header_end_addr + 4 * i) 4) physical_offset;
       Ret (tables ++ [t])) [];
  Ret (mkRSDT header tables).

(** The statics [RSDP] and [RSDT], two [OnceCell]s. *)
Record AcpiState := mkAcpi { RSDP : option Z; RSDT_cell : option RSDT }.

Definition get_rsdt (physical_offset : Z) (st : AcpiState) : outcome RSDT :=
  rsdp ← expect "No RSDP obtained yet" (RSDP st);
  header ← add_u 64 (rsdt_address mem rsdp) physical_offset;
  from_header header physical_offset.

Definition init (phys_offset : Z) (st : AcpiState) : outcome AcpiState :=
  r ← find_rsdp phys_offset;
  rsdp ← expect "Failed to find RSDP signature in specified memory region" r;
  let st := mkAcpi (Some (default rsdp (RSDP st))) (RSDT_cell st) in
  rsdt ← get_rsdt phys_offset st;
  Ret (mkAcpi (RSDP st) (Some (default rsdt (RSDT_cell st)))).
End acpi.

(** ** What is found *)

Section facts.
Context {P : Profile} (mem : Z -> Z) (Hmem : forall a, in_u 8 (mem a)).

(** A root pointer: the signature, and bytes that sum to zero modulo 256. *)
Definition is_rsdp (a : Z) : Prop :=
  read mem a 8 = RSD_PTR /\ foldr Z.add 0 (read mem a RSDP_SIZE) mod 256 = 0.
#[local] Instance is_rsdp_dec a : Decision (is_rsdp a).
Proof. unfold is_rsdp. apply _. Defined.

Lemma sum_bytes l c :
  bytes l -> 0 <= c -> c + 256 * Z.of_nat (length l) < 2 ^ 32 ->
  for_each l (fun byte checksum => add_u 32 checksum byte) c = Ret (c + foldr Z.add 0 l).
Proof.
  revert c. induction l as [|b l IH]; intros c Hb Hc Hl; cbn [for_each foldr]; [f_equal; lia|].
  apply Forall_cons in Hb as [Hb Hbs]. cbn [length] in Hl. unfold in_u in Hb.
  rewrite add_u_ok by range. cbn [mbind outcome_bind]. rewrite IH by (done || lia). f_equal. lia.
Qed.

Lemma bytes_read a n : bytes (read mem a n).
Proof using Hmem. apply Forall_fmap, Forall_forall. intros i _. apply Hmem. Qed.

Lemma read_num_range a n : 0 <= n -> in_u (8 * n) (read_num mem a n).
Proof using Hmem.
  intros Hn. pose proof (le_val_range _ (bytes_read a n)) as H. unfold read in H.
  rewrite length_fmap, length_seqZ, Z2Nat.id in H by done. exact H.
Qed.

Lemma verify_checksum_eq a :
  verify_checksum mem a = Ret (bool_decide (foldr Z.add 0 (read mem a RSDP_SIZE) mod 256 = 0)).
Proof using Hmem.
  unfold verify_checksum. rewrite sum_bytes; [|apply bytes_read|lia|vm_compute; done].
  cbn [mbind outcome_bind]. change 0xFF with (Z.ones 8). rewrite Z.land_ones by lia.
  f_equal. rewrite Z.add_0_l. change (2 ^ 8) with 256. by destruct (Z.eqb_spec (foldr Z.add 0 (read mem a RSDP_SIZE) mod 256) 0);
    [rewrite bool_decide_eq_true_2|rewrite bool_decide_eq_false_2].
Qed.

Lemma find_rsdp_cons off a l :
  in_u 64 (off + a) ->
  find_rsdp_from mem (a :: l) off =
  if decide (is_rsdp (off + a)) then
    if revision mem (off + a) =? 0 then Ret (Some (off + a))
    else Panic "assertion failed: `(left == right)`"
  else find_rsdp_from mem l off.
Proof using Hmem.
  intros Ha. cbn [find_rsdp_from]. rewrite add_u_ok by done. cbn [mbind outcome_bind].
  rewrite verify_checksum_eq. unfold is_rsdp. destruct (decide _) as [[H1 H2]|Hn].
  - rewrite !bool_decide_eq_true_2 by done. cbn [mbind outcome_bind]. unfold assert_.
    by destruct (revision mem (off + a) =? 0).
  - case_bool_decide as H1; [|done]. rewrite bool_decide_eq_false_2 by tauto. done.
Qed.

Lemma find_rsdp_skip off l l' :
  Forall (fun a => in_u 64 (off + a) /\ ~ is_rsdp (off + a)) l ->
  find_rsdp_from mem (l ++ l') off = find_rsdp_from mem l' off.
Proof using Hmem.
  induction 1 as [|a l [Ha Hn] _ IH]; [done|]. cbn [app]. rewrite find_rsdp_cons by done.
  by rewrite decide_False.
Qed.

(** C23: [find_rsdp] looks at the 16-byte aligned addresses from [0x80000] to
    [0xFFFFF]: without a root pointer it returns [None], else it returns the
    first one, or panics if the revision of that one is not zero. *)
Theorem find_rsdp_first off :
  0 <= off -> off + 0x100000 < 2 ^ 64 ->
  ((forall i, 0 <= i < 0x8000 -> ~ is_rsdp (off + 0x80000 + 16 * i)) ->
   find_rsdp mem off = Ret None) /\
  (forall k, 0 <= k < 0x8000 -> is_rsdp (off + 0x80000 + 16 * k) ->
    (forall i, 0 <= i < k -> ~ is_rsdp (off + 0x80000 + 16 * i)) ->
    find_rsdp mem off =
      if revision mem (off + 0x80000 + 16 * k) =? 0 then Ret (Some (off + 0x80000 + 16 * k))
      else Panic "assertion failed: `(left == right)`").
Proof using Hmem.
  intros H0 Hoff. unfold find_rsdp, RSDP_ADDRS. rewrite step_from_seqZ, Z2Nat.id by done.
  change ((0xFFFFF - 0x80000) / 0x10 + 1) with 0x8000.
  assert (Hskip : forall n, n <= 0x8000 -> (forall i, 0 <= i < n -> ~ is_rsdp (off + 0x80000 + 16 * i)) ->
    Forall (fun a => in_u 64 (off + a) /\ ~ is_rsdp (off + a)) ((fun i => 0x80000 + 0x10 * i) <$> seqZ 0 n)).
  { intros n Hn Hno. apply Forall_fmap, Forall_forall. intros i Hi%elem_of_seqZ. cbn.
    split; [range|]. rewrite Z.add_assoc. apply Hno. lia. }
  split.
  - intros Hno. rewrite <- (app_nil_r (_ <$> _)). rewrite find_rsdp_skip; [done|]. by apply Hskip.
  - intros k Hk Hrs Hno. replace 0x8000 with (k + (0x8000 - k)) at 1 by lia.
    rewrite seqZ_app, fmap_app, find_rsdp_skip by (lia || (apply Hskip; [lia|done])).
    rewrite seqZ_cons by lia. cbn [fmap list_fmap]. rewrite Z.add_0_l, find_rsdp_cons by range.
    rewrite Z.add_assoc. by rewrite decide_True.
Qed.

(** The entries of the RSDT are the 32-bit addresses behind its header,
    as many as its length says. *)
Theorem from_header_tables header off n :
  0 <= header -> header + SDT_SIZE < 2 ^ 64 -> 0 <= off < 2 ^ 63 -> 0 <= n ->
  get_length mem header = SDT_SIZE + 4 * n ->
  from_header mem header off =
  Ret (mkRSDT header ((fun i => read_num mem (header + SDT_SIZE + 4 * i) 4 + off) <$> seqZ 0 n)).
Proof using Hmem.
  intros Hh Hh' Hoff Hn Hlen. unfold from_header. rewrite add_u_ok by (unfold SDT_SIZE in *; range).
  cbn [mbind outcome_bind].
  assert (Hlr : in_u 32 (get_length mem header)).
  { apply (read_num_range (header + 4) 4). lia. }
  rewrite Hlen in *. unfold SDT_SIZE in *. rewrite sub_u_ok by range. cbn [mbind outcome_bind].
  replace (36 + 4 * n - 36) with (n * 4) by lia. rewrite Z.div_mul by lia.
  rewrite (for_each_collect _ _ (fun i => [read_num mem (header + 36 + 4 * i) 4 + off])).
  - cbn [mbind outcome_bind app]. by rewrite bind_singleton.
  - intros i acc _. pose proof (read_num_range (header + 36 + 4 * i) 4 ltac:(lia)).
    rewrite add_u_ok by range. done.
Qed.
End facts.

(** ** Examples *)

(** A root pointer at [0xF0010], its table at [0x1000] with two entries. *)
Definition at_addr (a : Z) (l : list Z) (mem : Z -> Z) : Z -> Z :=
  fun x => default (mem x) (get l (x - a)).
Lemma at_addr_outside a l mem x :
  x < a \/ a + Z.of_nat (length l) <= x -> at_addr a l mem x = mem x.
Proof.
  intros Hx. unfold at_addr. destruct (get l (x - a)) eqn:E; [|done].
  apply get_Some in E as [? _]. lia.
Qed.

Definition example_rsdp : list Z := RSD_PTR ++ [0xD1] ++ replicate 6 0 ++ [0] ++ to_le_bytes 4 0x1000.
Definition example_mem : Z -> Z :=
  at_addr 0xF0010 example_rsdp
    (at_addr 0x1000 ([0x52; 0x53; 0x44; 0x54] ++ to_le_bytes 4 44 ++ replicate 28 0 ++
       to_le_bytes 4 0x2000 ++ to_le_bytes 4 0x3000) (fun _ => 0)).

Lemma example_mem_bytes a : in_u 8 (example_mem a).
Proof.
  assert (Hat : forall a l mem, bytes l -> (forall x, in_u 8 (mem x)) -> forall x, in_u 8 (at_addr a l mem x)).
  { intros b l mem Hl Hm x. unfold at_addr. destruct (get l (x - b)) as [v|] eqn:E; [|apply Hm].
    apply get_Some in E as [_ E]. by eapply Forall_lookup_1. }
  apply Hat; [|apply Hat].
  - apply (bool_decide_unpack (Forall (fun b => 0 <= b < 2 ^ 8) _)). vm_compute. done.
  - apply (bool_decide_unpack (Forall (fun b => 0 <= b < 2 ^ 8) _)). vm_compute. done.
  - done.
Qed.

Lemma read_head mem a : head (read mem a 8) = Some (mem (a + 0)).
Proof. done. Qed.

Lemma example_rsdp_found : is_rsdp example_mem (0 + 0x80000 + 16 * 0x7001).
Proof. by split; vm_compute. Qed.

Lemma example_no_rsdp i : 0 <= i < 0x7001 -> ~ is_rsdp example_mem (0 + 0x80000 + 16 * i).
Proof.
  intros Hi [H _]. apply (f_equal head) in H. rewrite read_head in H.
  unfold example_mem in H. rewrite at_addr_outside in H by (left; lia).
  rewrite at_addr_outside in H; [discriminate|]. right. rewrite !length_app, !length_to_le_bytes, length_replicate. cbn [length]. lia.
Qed.

Lemma find_rsdp_first_witness : @find_rsdp dev_profile example_mem 0 = Ret (Some 0xF0010).
Proof.
  rewrite (proj2 (@find_rsdp_first dev_profile example_mem example_mem_bytes 0 ltac:(lia) ltac:(lia)) 0x7001);
    [vm_compute; reflexivity|lia|exact example_rsdp_found|].
  exact example_no_rsdp.
Defined.

Lemma from_header_tables_witness :
  @from_header dev_profile example_mem 0x1000 0 = Ret (mkRSDT 0x1000 [0x2000; 0x3000]).
Proof.
  rewrite (@from_header_tables dev_profile example_mem example_mem_bytes 0x1000 0 2);
    [reflexivity|lia|vm_compute; reflexivity|lia|lia|reflexivity].
Defined.
