(* ===== verification/Pci.v ===== *)
(** * The PCI bus

    [src/src/pci.rs]: the MCFG table and the enumeration of the devices in the
    memory mapped configuration space.  A reference to a configuration space
    is its address in the memory [mem] of [Acpi]. *)
From S2P Require Import Prelude Fs Acpi.

Record MCFGEntry := mkMCFGEntry {
  config_space : Z;
  segment_group : Z;
  start_bus : Z;
  end_bus : Z;
}.
Definition MCFG_ENTRY_SIZE : Z := 16.
Definition MCFGEntry_at (mem : Z -> Z) (a : Z) : MCFGEntry :=
  mkMCFGEntry (read_num mem a 8) (read_num mem (a + 8) 2) (read_num mem (a + 10) 1)
    (read_num mem (a + 11) 1).

Record MCFGTable := mkMCFG { mcfg_header : Z; entries : list MCFGEntry }.

Record DeviceConfigurationSpace := mkConfigSpace {
  cfg_vendor_id : Z;
  cfg_device_id : Z;
  cfg_command : Z;
  cfg_status : Z;
  cfg_revision_id : Z;
  cfg_prog_if : Z;
  cfg_subclass : Z;
  cfg_class_code : Z;
  cfg_cache_line_size : Z;
  cfg_latency_timer : Z;
  cfg_header_type : Z;
  cfg_bist : Z;
  cfg_bar_0 : Z;
  cfg_bar_1 : Z;
  cfg_bar_2 : Z;
  cfg_bar_3 : Z;
  cfg_bar_4 : Z;
  cfg_bar_5 : Z;
  cfg_cis_ptr : Z;
  cfg_subsystem_vendor_id : Z;
  cfg_subsystem_id : Z;
  cfg_expansion_rom_base : Z;
  cfg_capabilities_ptr : Z;
  cfg_interrupt_line : Z;
  cfg_interrupt_pin : Z;
  cfg_min_grant : Z;
  cfg_max_latency : Z;
}.

(** [DeviceConfigurationSpace::from_addr] *)
Definition from_addr (mem : Z -> Z) (a : Z) : DeviceConfigurationSpace :=
  let n off w := read_num mem (a + off) w in
  mkConfigSpace (n 0 2) (n 2 2) (n 4 2) (n 6 2) (n 8 1) (n 9 1) (n 10 1) (n 11 1) (n 12 1) (n 13 1)
    (n 14 1) (n 15 1) (n 16 4) (n 20 4) (n 24 4) (n 28 4) (n 32 4) (n 36 4) (n 40 4) (n 44 2) (n 46 2)
    (n 48 4) (n 52 1) (n 60 1) (n 61 1) (n 62 1) (n 63 1).

(** [BaseConfigurationSpace] has the first 16 bytes of it. *)
Record BaseConfigurationSpace := mkBaseSpace {
  base_vendor_id : Z;
  base_device_id : Z;
  base_command : Z;
  base_status : Z;
  base_revision_id : Z;
  base_prog_if : Z;
  base_subclass : Z;
  base_class_code : Z;
  base_cache_line_size : Z;
  base_latency_timer : Z;
  base_header_type : Z;
  base_bist : Z;
}.
Definition BaseConfigurationSpace_at (mem : Z -> Z) (a : Z) : BaseConfigurationSpace :=
  let n off w := read_num mem (a + off) w in
  mkBaseSpace (n 0 2) (n 2 2) (n 4 2) (n 6 2) (n 8 1) (n 9 1) (n 10 1) (n 11 1) (n 12 1) (n 13 1)
    (n 14 1) (n 15 1).

Definition vendor_id (mem : Z -> Z) (a : Z) : Z := cfg_vendor_id (from_addr mem a).
Definition header_type (mem : Z -> Z) (a : Z) : Z := cfg_header_type (from_addr mem a).

Inductive DeviceType := Device (config_space : Z) | PCIBridge | CardBusBridge.

Record DeviceIdentification := mkIdent { class : Z; ident_subclass : Z; interface : Z }.

(** ["MCFG"] *)
Definition MCFG_SIGNATURE : list Z := [0x4D; 0x43; 0x46; 0x47].

Section pci.
Context {P : Profile} (mem : Z -> Z).

(** [DeviceType::from] *)
Definition DeviceType_from (addr : Z) : outcome (option DeviceType) :=
  let base_space := BaseConfigurationSpace_at mem addr in
  let t := Z.land (base_header_type base_space) 0x7F in
  if t =? 0x0 then Ret (Some (Device addr))
  else if t =? 0x1 then Ret (Some PCIBridge)
  else if t =? 0x2 then Ret (Some CardBusBridge)
  else if t =? 0x7F then Ret None
  else Panic "Invalid header type detected".

Definition as_device (t : DeviceType) : option Z :=
  match t with Device config_space => Some config_space | _ => None end.

Definition as_pci_bridge (t : DeviceType) : option unit :=
  match t with PCIBridge => Some tt | _ => None end.
Definition as_cardbus_bridge (t : DeviceType) : option unit :=
  match t with CardBusBridge => Some tt | _ => None end.
Definition get_entries (t : MCFGTable) : list MCFGEntry := entries t.
(** The address of the register. *)
Definition get_command_reg_mut (a : Z) : Z := a + 4.

Definition get_identification (a : Z) : DeviceIdentification :=
  let c := from_addr mem a in mkIdent (cfg_class_code c) (cfg_subclass c) (cfg_prog_if c).
Definition get_bars (a : Z) : list Z :=
  let c := from_addr mem a in
  [cfg_bar_0 c; cfg_bar_1 c; cfg_bar_2 c; cfg_bar_3 c; cfg_bar_4 c; cfg_bar_5 c].

(** [MCFGTable::from_header] *)
Definition MCFG_from_header (header : Z) : outcome MCFGTable :=
  header_end_addr ← add_u 64 header SDT_SIZE;
  entries_start_addr ← add_u 64 header_end_addr 8;
  n ← sub_u 32 (get_length mem header) SDT_SIZE;
  n ← sub_u 32 n 8;
  let entry_count := n / MCFG_ENTRY_SIZE in
  Ret (mkMCFG header
    ((fun i => MCFGEntry_at mem (entries_start_addr + MCFG_ENTRY_SIZE * i)) <$> seqZ 0 entry_count)).

(** [find] with a predicate that can panic. *)
Fixpoint find_table (tables : list Z) : outcome (option Z) :=
  match tables with
  | [] => Ret None
  | sdt :: tables =>
      s ← get_signature_str mem sdt;
      if bool_decide (s = MCFG_SIGNATURE) then Ret (Some sdt) else find_table tables
  end.

Definition get_mcfg (rsdt : option RSDT) : outcome MCFGTable :=
  rsdt ← unwrap rsdt;
  r ← find_table (tables rsdt);
  mcfg_header ← expect "No MCFG found in RSDT" r;
  MCFG_from_header mcfg_header.

(** The address of the configuration space of a function. *)
Definition config_addr (bridge : MCFGEntry) (phys_offset bus device function : Z) : outcome Z :=
  a ← add_u 64 phys_offset (config_space bridge);
  add_u 64 a (Z.lor (Z.lor (Z.shiftl bus 20) (Z.shiftl device 15)) (Z.shiftl function 12)).

Definition check_function (devices : list Z) (config_space : Z) : list Z := devices ++ [config_space].

Definition check_device (bridge : MCFGEntry) (phys_offset bus device : Z) (devices : list Z)
    : outcome (list Z) :=
  addr ← config_addr bridge phys_offset bus device 0;
  config_device ← DeviceType_from addr;
  match config_device with
  | None => Ret devices
  | Some config_device =>
      match as_device config_device with
      | None => Ret devices
      | Some config_space =>
          if vendor_id mem config_space =? 0xFFFF then Ret devices
          else
            let devices := check_function devices config_space in
            if negb (Z.land (header_type mem config_space) 0x80 =? 0) then
              for_each (seqZ 1 7)
                (fun function devices =>
                   addr ← config_addr bridge phys_offset bus device function;
                   if negb (vendor_id mem addr =? 0xFFFF)
                   then Ret (check_function devices addr) else Ret devices)
                devices
            else Ret devices
      end
  end.

Definition enumerate_bus (phys_offset : Z) (MCFG : option MCFGTable) : outcome (list Z) :=
  mcfg ← unwrap MCFG;
  for_each (entries mcfg)
    (fun bridge devices =>
       for_each (seqZ (start_bus bridge) (end_bus bridge - start_bus bridge))
         (fun bus devices =>
            for_each (seqZ 0 32)
              (fun device devices => check_device bridge phys_offset bus device devices) devices)
         devices)
    [].

(** The statics [MCFG] and [DEVICES], two [OnceCell]s. *)
Record PciState := mkPci { MCFG : option MCFGTable; DEVICES : option (list Z) }.

(** The closure of [init_once] runs only when the cell is empty. *)
Definition init_once {A} (make : outcome A) (cell : option A) : outcome (option A) :=
  match cell with
  | Some a => Ret (Some a)
  | None => a ← make; Ret (Some a)
  end.

Definition init (phys_offset : Z) (rsdt : option RSDT) (st : PciState) : outcome PciState :=
  mcfg ← init_once (get_mcfg rsdt) (MCFG st);
  devices ← init_once (enumerate_bus phys_offset mcfg) (DEVICES st);
  Ret (mkPci mcfg devices).
End pci.

(** ** What is found *)

(** The address of a function, as a sum. *)
Definition function_addr (bridge : MCFGEntry) (off bus device function : Z) : Z :=
  off + config_space bridge + (bus * 2 ^ 20 + device * 2 ^ 15 + function * 2 ^ 12).

Section facts.
Context {P : Profile} (mem : Z -> Z) (off : Z).

(** A device answers at function 0 of a slot: its vendor is not [0xFFFF] and
    it is not a bridge. *)
Definition occupied (bridge : MCFGEntry) (bus device : Z) : Prop :=
  let a := function_addr bridge off bus device 0 in
  Z.land (header_type mem a) 0x7F = 0 /\ vendor_id mem a <> 0xFFFF.

(** A function of a device: the first one, or one of the others of a
    multi-function device. *)
Definition has_function (bridge : MCFGEntry) (bus device function : Z) : Prop :=
  occupied bridge bus device /\
  (function = 0 \/
   Z.land (header_type mem (function_addr bridge off bus device 0)) 0x80 <> 0 /\
   1 <= function < 8 /\ vendor_id mem (function_addr bridge off bus device function) <> 0xFFFF).

(** The configuration space is in the address space, and the slots of the
    scanned buses have a header type the code knows. *)
Record bridge_ok (bridge : MCFGEntry) : Prop := {
  bridge_space : 0 <= off + config_space bridge /\ off + config_space bridge + 2 ^ 28 <= 2 ^ 64;
  bridge_bus : 0 <= start_bus bridge /\ end_bus bridge < 256;
  bridge_types : forall bus device,
    start_bus bridge <= bus < end_bus bridge -> 0 <= device < 32 ->
    Z.land (header_type mem (function_addr bridge off bus device 0)) 0x7F ∈ [0; 1; 2; 0x7F];
}.

Lemma config_addr_eq bridge bus device function :
  bridge_ok bridge -> 0 <= bus < 256 -> 0 <= device < 32 -> 0 <= function < 8 ->
  config_addr bridge off bus device function = Ret (function_addr bridge off bus device function).
Proof.
  intros [Hs _ _] Hb Hd Hf. unfold config_addr, function_addr. rewrite add_u_ok by range.
  cbn [mbind outcome_bind].
  rewrite <- Z.lor_assoc, (Z.shiftl_mul_pow2 function) by lia.
  rewrite (lor_shiftl device) by lia. rewrite (lor_shiftl bus) by lia.
  rewrite add_u_ok by range. f_equal. lia.
Qed.

#[local] Instance occupied_dec bridge bus device : Decision (occupied bridge bus device).
Proof. unfold occupied. apply _. Defined.

(** The functions found at one slot. *)
Definition slot_functions (bridge : MCFGEntry) (bus device : Z) : list Z :=
  let addr := function_addr bridge off bus device in
  if decide (occupied bridge bus device) then
    addr 0 :: (if Z.land (header_type mem (addr 0)) 0x80 =? 0 then []
               else addr <$> filter (fun f => vendor_id mem (addr f) <> 0xFFFF) (seqZ 1 7))
  else [].

Lemma elem_of_slot_functions bridge bus device a :
  a ∈ slot_functions bridge bus device <->
  exists function, has_function bridge bus device function /\
    a = function_addr bridge off bus device function.
Proof.
  unfold slot_functions, has_function. cbv zeta. destruct (decide _) as [Ho|Ho].
  - rewrite elem_of_cons. split.
    + intros [->|Ha]; [exists 0; auto|]. destruct (_ =? 0) eqn:Em; [by apply elem_of_nil in Ha|].
      apply list_elem_of_fmap in Ha as (f & -> & [Hv Hf%elem_of_seqZ]%list_elem_of_filter).
      prop_of_bool. exists f. split; [|done]. split; [done|]. right. split; [done|]. split; [lia|done].
    + intros (f & [_ [->|(Hm & Hf & Hv)]] & ->); [by left|]. right.
      destruct (_ =? 0) eqn:Em; [by prop_of_bool|]. apply list_elem_of_fmap. exists f.
      split; [done|]. apply list_elem_of_filter. split; [done|]. apply elem_of_seqZ. lia.
  - split; [intros Ha; by apply elem_of_nil in Ha|]. intros (f & [? _] & _). done.
Qed.

Lemma bind_filter {A B} (Q : A -> Prop) `{forall x, Decision (Q x)} (f : A -> B) (l : list A) :
  (l ≫= fun x => if decide (Q x) then [f x] else []) = f <$> filter Q l.
Proof.
  induction l as [|x l IH]; [done|]. rewrite filter_cons.
  change ((if decide (Q x) then [f x] else []) ++ (l ≫= fun x => if decide (Q x) then [f x] else []) =
    f <$> (if decide (Q x) then x :: filter Q l else filter Q l)).
  rewrite IH. by destruct (decide (Q x)).
Qed.

Lemma check_device_eq bridge bus device devices :
  bridge_ok bridge -> start_bus bridge <= bus < end_bus bridge -> 0 <= device < 32 ->
  check_device mem bridge off bus device devices = Ret (devices ++ slot_functions bridge bus device).
Proof.
  intros Hok Hbus Hdev. pose proof Hok as [_ Hb Ht]. specialize (Ht bus device Hbus Hdev).
  unfold check_device, slot_functions. rewrite config_addr_eq by (done || lia).
  cbn [mbind outcome_bind]. cbv zeta. unfold DeviceType_from.
  change (base_header_type (BaseConfigurationSpace_at mem ?a)) with (header_type mem a).
  destruct (decide (occupied bridge bus device)) as [[Ho1 Ho2]|Ho].
  2:{ rewrite app_nil_r. rewrite !elem_of_cons, elem_of_nil in Ht.
      destruct Ht as [Ht|[Ht|[Ht|[Ht|[]]]]]; rewrite Ht; cbn [Z.eqb mbind outcome_bind as_device]; try done.
      case_bool; [done|]. by destruct Ho. }
  rewrite Ho1. cbn [Z.eqb mbind outcome_bind as_device]. case_bool; [done|]. cbv zeta.
  unfold check_function. destruct (Z.land _ 0x80 =? 0); cbn [negb]; [done|].
  rewrite (for_each_collect _ _ (fun f =>
    if decide (vendor_id mem (function_addr bridge off bus device f) <> 0xFFFF)
    then [function_addr bridge off bus device f] else [])).
  - rewrite bind_filter. by rewrite <- app_assoc.
  - intros f acc Hf%elem_of_seqZ. rewrite config_addr_eq by (done || lia). cbn [mbind outcome_bind].
    destruct (_ =? 0xFFFF) eqn:Ev; prop_of_bool; cbn [negb].
    + rewrite decide_False by tauto. by rewrite app_nil_r.
    + by rewrite decide_True.
Qed.

(** All functions of all slots. *)
Definition found (bridges : list MCFGEntry) : list Z :=
  bridges ≫= fun bridge =>
  seqZ (start_bus bridge) (end_bus bridge - start_bus bridge) ≫= fun bus =>
  seqZ 0 32 ≫= slot_functions bridge bus.

Lemma enumerate_bus_found mcfg :
  Forall bridge_ok (entries mcfg) -> enumerate_bus mem off (Some mcfg) = Ret (found (entries mcfg)).
Proof.
  intros Hok. rewrite Forall_forall in Hok.
  unfold enumerate_bus. cbn [unwrap expect mbind outcome_bind].
  apply (for_each_collect (entries mcfg) _ _ []). intros bridge acc Hbr.
  apply for_each_collect. intros bus acc1 Hbus%elem_of_seqZ.
  apply for_each_collect. intros device acc2 Hdev%elem_of_seqZ.
  apply check_device_eq; [by apply Hok|lia|lia].
Qed.

Lemma elem_of_found bridges a :
  a ∈ found bridges <->
  exists bridge bus device function,
    bridge ∈ bridges /\ start_bus bridge <= bus < end_bus bridge /\ 0 <= device < 32 /\
    has_function bridge bus device function /\ a = function_addr bridge off bus device function.
Proof.
  unfold found. rewrite list_elem_of_bind. setoid_rewrite list_elem_of_bind.
  setoid_rewrite list_elem_of_bind. setoid_rewrite elem_of_slot_functions.
  setoid_rewrite elem_of_seqZ. split.
  - intros (br & (bus & (dev & (f & Hf & ->) & Hdev) & Hbus) & Hbr).
    exists br, bus, dev, f. split; [done|]. split; [lia|]. split; [lia|]. done.
  - intros (br & bus & dev & f & Hbr & Hbus & Hdev & Hf & ->).
    exists br. split; [|done]. exists bus. split; [|lia]. exists dev. split; [|lia]. by exists f.
Qed.

(** C22: the enumeration finds exactly the functions of the devices on the
    buses from [start_bus] up to, but without, [end_bus] of each entry of the
    MCFG table. *)
Theorem enumerate_bus_finds mcfg :
  Forall bridge_ok (entries mcfg) ->
  exists devices, enumerate_bus mem off (Some mcfg) = Ret devices /\
    forall a, a ∈ devices <->
      exists bridge bus device function,
        bridge ∈ entries mcfg /\ start_bus bridge <= bus < end_bus bridge /\ 0 <= device < 32 /\
        has_function bridge bus device function /\ a = function_addr bridge off bus device function.
Proof.
  intros Hok. exists (found (entries mcfg)).
  split; [by apply enumerate_bus_found|intros a; apply elem_of_found].
Qed.

(** The last bus of an entry is not scanned: no function on [end_bus] is
    among the devices. *)
Theorem last_bus_missed mcfg bridge device function :
  entries mcfg = [bridge] -> bridge_ok bridge -> 0 <= device < 32 -> 0 <= function < 8 ->
  exists devices, enumerate_bus mem off (Some mcfg) = Ret devices /\
    function_addr bridge off (end_bus bridge) device function ∉ devices.
Proof.
  intros He Hok Hdev Hf. exists (found (entries mcfg)).
  split; [apply enumerate_bus_found; rewrite He; by apply Forall_singleton|].
  rewrite elem_of_found, He. intros (br & bus & dev & f & Hbr & Hbus & Hdev' & [_ Hfun] & Heq).
  apply list_elem_of_singleton in Hbr as ->. unfold function_addr in Heq. lia.
Qed.
End facts.

(** ** Examples *)

(** One entry for the buses 0 to 1 and a device with two functions in slot 3
    of bus 0; elsewhere reads give all ones. *)
Definition example_bridge : MCFGEntry := mkMCFGEntry 0xB0000000 0 0 1.
Definition example_function (a type : Z) (mem : Z -> Z) : Z -> Z :=
  at_addr a ([0x86; 0x80] ++ replicate 12 0 ++ [type; 0]) mem.
Definition example_bus : Z -> Z :=
  example_function 0xB0018000 0x80 (example_function 0xB001A000 0 (fun _ => 0xFF)).

Lemma example_bridge_ok : bridge_ok example_bus 0 example_bridge.
Proof.
  split; [cbn; lia|cbn; lia|]. intros bus device Hbus Hdev. cbn in Hbus.
  assert (bus = 0) as -> by lia. revert device Hdev.
  assert (Hall : Forall (fun device => Z.land (header_type example_bus
    (function_addr example_bridge 0 0 device 0)) 0x7F ∈ [0; 1; 2; 0x7F]) (seqZ 0 32)).
  { apply (bool_decide_unpack (Forall _ _)). vm_compute. done. }
  intros device Hdev. rewrite Forall_forall in Hall. apply Hall, elem_of_seqZ. lia.
Qed.

Lemma enumerate_bus_finds_witness :
  exists devices, @enumerate_bus dev_profile example_bus 0 (Some (mkMCFG 0 [example_bridge])) =
    Ret devices /\ 0xB001A000 ∈ devices.
Proof.
  destruct (@enumerate_bus_finds dev_profile example_bus 0 (mkMCFG 0 [example_bridge]))
    as (devices & H1 & H2).
  - apply Forall_singleton, example_bridge_ok.
  - exists devices. split; [exact H1|]. apply H2. exists example_bridge, 0, 3, 2.
    split; [left|]. split; [cbn; lia|]. split; [lia|]. split; [|reflexivity].
    split; [split; vm_compute; [reflexivity|discriminate]|]. right. vm_compute.
    split; [discriminate|]. split; [split; [discriminate|reflexivity]|discriminate].
Defined.

Lemma last_bus_missed_witness :
  exists devices, @enumerate_bus dev_profile example_bus 0 (Some (mkMCFG 0 [example_bridge])) =
    Ret devices /\ function_addr example_bridge 0 1 0 0 ∉ devices.
Proof.
  apply (@last_bus_missed dev_profile example_bus 0 (mkMCFG 0 [example_bridge]) example_bridge 0 0);
    [reflexivity|apply example_bridge_ok|lia|lia].
Defined.
