(* ===== verification/Gdt.v ===== *)
(** * Segments

    [src/src/gdt.rs]: the task state segment, the selectors of the global
    descriptor table and the ones user mode runs with.  The table itself is the
    [x86_64] crate's. *)
From S2P Require Import Prelude.

Inductive Descriptor :=
| kernel_code_segment | kernel_data_segment | tss_segment | user_data_segment | user_code_segment.

(** What the [x86_64] crate documents of [GlobalDescriptorTable]: an entry is
    put behind the ones that are there and its selector is returned; the
    descriptor of a task state segment takes two slots.  The low bits of a
    selector are a privilege level, ring 0 for the kernel's segments. *)
Class DescriptorTable := {
  Gdt : Type;
  Gdt_new : Gdt;
  add_entry : Descriptor -> Gdt -> Z * Gdt;
  slots : Gdt -> Z;
  slots_new : slots Gdt_new = 1;
  add_entry_slots : forall d g,
    slots (add_entry d g).2 = slots g + match d with tss_segment => 2 | _ => 1 end;
  add_entry_selector : forall d g, exists rpl,
    (add_entry d g).1 = 8 * slots g + rpl /\
    match d with user_data_segment | user_code_segment => rpl = 0 \/ rpl = 3 | _ => rpl = 0 end;
}.

Definition DOUBLE_FAULT_IST_INDEX : Z := 0.

(** The stacks of the task state segment; a new one has none. *)
Record TaskStateSegment := mkTSS { privilege_stack_table : list Z; interrupt_stack_table : list Z }.
Definition TaskStateSegment_new : TaskStateSegment := mkTSS (replicate 3 0) (replicate 7 0).

(** The lazily made static [TSS], for the addresses of its two static stacks. *)
Definition TSS (fault_stack kernel_stack : Z) : outcome TaskStateSegment :=
  let tss := TaskStateSegment_new in
  ist ← index_set (interrupt_stack_table tss) DOUBLE_FAULT_IST_INDEX (fault_stack + 4096 * 5);
  let tss := mkTSS (privilege_stack_table tss) ist in
  pst ← index_set (privilege_stack_table tss) 0 (kernel_stack + 0x10000);
  Ret (mkTSS pst (interrupt_stack_table tss)).

Record Selectors := mkSelectors {
  code_selector : Z;
  data_selector : Z;
  tss_selector : Z;
  user_data_selector : Z;
  user_code_selector : Z;
}.

Section gdt.
Context `{DescriptorTable}.

Definition GDT : Gdt * Selectors :=
  let gdt := Gdt_new in
  let '(code_selector, gdt) := add_entry kernel_code_segment gdt in
  let '(data_selector, gdt) := add_entry kernel_data_segment gdt in
  let '(tss_selector, gdt) := add_entry tss_segment gdt in
  let '(user_data_selector, gdt) := add_entry user_data_segment gdt in
  let '(user_code_selector, gdt) := add_entry user_code_segment gdt in
  (gdt, mkSelectors code_selector data_selector tss_selector user_data_selector user_code_selector).

(** The registers that [init] loads: GDTR, CS and TR. *)
Definition init : Gdt * Z * Z := (GDT.1, code_selector GDT.2, tss_selector GDT.2).

(** The code and data selectors; the data selector is also loaded into DS. *)
Definition set_usermode_segments : Z * Z :=
  let cs := user_code_selector GDT.2 in
  let ds := user_data_selector GDT.2 in
  (Z.lor cs 3, Z.lor ds 3).

Lemma GDT_selectors :
  exists rpl1 rpl2, (rpl1 = 0 \/ rpl1 = 3) /\ (rpl2 = 0 \/ rpl2 = 3) /\
    GDT.2 = mkSelectors 0x08 0x10 0x18 (0x28 + rpl1) (0x30 + rpl2).
Proof.
  pose proof slots_new as H0. unfold GDT.
  destruct (add_entry kernel_code_segment Gdt_new) as [s1 g1] eqn:E1.
  destruct (add_entry kernel_data_segment g1) as [s2 g2] eqn:E2.
  destruct (add_entry tss_segment g2) as [s3 g3] eqn:E3.
  destruct (add_entry user_data_segment g3) as [s4 g4] eqn:E4.
  destruct (add_entry user_code_segment g4) as [s5 g5] eqn:E5.
  repeat match goal with
  | E : add_entry ?d ?g = (?s, ?g') |- _ =>
      pose proof (add_entry_slots d g); destruct (add_entry_selector d g) as (? & ? & ?);
      rewrite E in *; cbn [fst snd] in *; clear E
  end.
  exists (s4 - 0x28), (s5 - 0x30). split; [lia|]. split; [lia|]. cbn. f_equal; lia.
Qed.

(** The selectors of user mode, with privilege level 3. *)
Lemma set_usermode_segments_eq : set_usermode_segments = (0x33, 0x2b).
Proof.
  unfold set_usermode_segments. destruct GDT_selectors as (r1 & r2 & [-> | ->] & [-> | ->] & ->); reflexivity.
Qed.
End gdt.

(** A table that counts its slots. *)
#[export] Instance counting_table : DescriptorTable.
Proof.
  refine {| Gdt := Z; Gdt_new := 1; slots := fun n => n;
    add_entry := fun d n => (8 * n, n + match d with tss_segment => 2 | _ => 1 end) |}.
  - done.
  - done.
  - intros d n. exists 0. split; [cbn; lia|]. by destruct d; auto.
Defined.
