(* ===== verification/Executor.v ===== *)
(** * Cooperative tasks

    [src/src/task.rs] and [src/src/task/executor.rs]: tasks, the executor that
    polls those that were woken, and the wakers that put tasks into its queue.
    The queue is an [ArrayQueue] of the crate [crossbeam_queue]; a future is a
    value of an arbitrary type [Fut] with its [poll].  The queue is shared
    between the executor, the wakers and whatever a future does, so it is in
    the record [Shared] that [poll] takes and returns. *)
From S2P Require Import Prelude.

(** ** The bounded queue *)

Class ArrayQueue (Q : Type -> Type) := {
  queue_new : forall {A}, Z -> Q A;
  queue_push : forall {A}, A -> Q A -> result unit A * Q A;
  queue_pop : forall {A}, Q A -> option A * Q A;
  queue_is_empty : forall {A}, Q A -> bool;
}.

(** What the crate documents: a first-in first-out queue that refuses an
    element when it is full; there are no queues without room for anything. *)
Class ArrayQueueLaws (Q : Type -> Type) `{ArrayQueue Q} := {
  contents : forall {A}, Q A -> list A;
  capacity : forall {A}, Q A -> Z;
  capacity_pos : forall A (q : Q A), 0 < capacity q;
  queue_new_law : forall A n, 0 < n -> contents (queue_new (A := A) n) = [] /\ capacity (queue_new (A := A) n) = n;
  queue_push_law : forall A (a : A) q r q', queue_push a q = (r, q') -> capacity q' = capacity q /\
    if Z.of_nat (length (contents q)) <? capacity q
    then r = Ok tt /\ contents q' = contents q ++ [a]
    else r = Err a /\ contents q' = contents q;
  queue_pop_law : forall A (q : Q A) r q', queue_pop q = (r, q') -> capacity q' = capacity q /\
    match contents q with
    | [] => r = None /\ contents q' = []
    | a :: l => r = Some a /\ contents q' = l
    end;
  queue_is_empty_law : forall A (q : Q A), queue_is_empty q = true <-> contents q = [];
}.

(** ** Tasks *)

Definition TASK_QUEUE_SIZE : Z := 100.

(** [TaskId::new]: the counter [NEXT_ID] wraps around. *)
Definition TaskId_new (NEXT_ID : Z) : Z * Z := (NEXT_ID, wrap 64 (NEXT_ID + 1)).

Inductive Poll := Ready | Pending.

Record TaskWaker := mkWaker { waker_task_id : Z }.

(** The interrupt flag, and whether the CPU waits for an interrupt. *)
Record Cpu := mkCpu { interrupts_enabled : bool; halted : bool }.
Definition interrupts_disable (c : Cpu) : Cpu := mkCpu false (halted c).
Definition interrupts_enable (c : Cpu) : Cpu := mkCpu true (halted c).
Definition enable_and_hlt (c : Cpu) : Cpu := mkCpu true true.

Section executor.
Context {Q : Type -> Type} `{ArrayQueue Q} {Fut W : Type}.

Record Task := mkTask { id : Z; future : Fut }.

(** The queue of the task ids that were woken, and the rest of the kernel. *)
Record Shared := mkShared { task_queue : Q Z; outside : W }.

(** [Future::poll] with a context that has the waker. *)
Context (future_poll : Fut -> TaskWaker -> Shared -> outcome (Poll * Fut * Shared)).

(** [Task::new] and [Task::poll] *)
Definition Task_new (future : Fut) (NEXT_ID : Z) : Task * Z :=
  let (i, n) := TaskId_new NEXT_ID in (mkTask i future, n).
Definition Task_poll (task : Task) (waker : TaskWaker) (sh : Shared) : outcome (Poll * Task * Shared) :=
  '(p, f, sh) ← future_poll (future task) waker sh; Ret (p, mkTask (id task) f, sh).

Record Executor := mkExecutor { tasks : gmap Z Task; waker_cache : gmap Z TaskWaker }.

(** [Executor::new], with the queue it makes. *)
Definition Executor_new (w : W) : Executor * Shared :=
  (mkExecutor ∅ ∅, mkShared (queue_new TASK_QUEUE_SIZE) w).

Definition set_queue (q : Q Z) (sh : Shared) : Shared := mkShared q (outside sh).

(** [TaskWaker::wake_task], the body of [wake] and [wake_by_ref]. *)
Definition wake_task (waker : TaskWaker) (q : Q Z) : outcome (Q Z) :=
  match queue_push (waker_task_id waker) q with
  | (Ok _, q) => Ret q
  | (Err _, _) => Panic "task_queue full"
  end.

Definition spawn (task : Task) (e : Executor) (sh : Shared) : outcome (Executor * Shared) :=
  let task_id := id task in
  match tasks e !! task_id with
  | Some _ => Panic "Task with same ID already in tasks"
  | None =>
      let e := mkExecutor (<[task_id := task]> (tasks e)) (waker_cache e) in
      match queue_push task_id (task_queue sh) with
      | (Ok _, q) => Ret (e, set_queue q sh)
      | (Err _, _) => Panic "Task queue full"
      end
  end.

(** One pass of the loop of [run_ready_tasks] with the popped [task_id]. *)
Definition run_task (task_id : Z) (e : Executor) (sh : Shared) : outcome (Executor * Shared) :=
  match tasks e !! task_id with
  | None => Ret (e, sh)
  | Some task =>
      let waker := default (mkWaker task_id) (waker_cache e !! task_id) in
      let cache := <[task_id := waker]> (waker_cache e) in
      '(p, task, sh) ← Task_poll task waker sh;
      match p with
      | Ready => Ret (mkExecutor (delete task_id (tasks e)) (delete task_id cache), sh)
      | Pending => Ret (mkExecutor (<[task_id := task]> (tasks e)) cache, sh)
      end
  end.

Fixpoint run_ready_tasks (fuel : nat) (e : Executor) (sh : Shared) : outcome (Executor * Shared) :=
  match fuel with
  | O => NoFuel
  | S fuel =>
      match queue_pop (task_queue sh) with
      | (None, q) => Ret (e, set_queue q sh)
      | (Some task_id, q) =>
          '(e, sh) ← run_task task_id e (set_queue q sh);
          run_ready_tasks fuel e sh
      end
  end.

(** [sleep_if_idle] tests the queue with interrupts off; [enable_and_hlt]
    enables them and halts in one step. *)
Definition sleep_if_idle (sh : Shared) (c : Cpu) : Cpu :=
  let c := interrupts_disable c in
  if queue_is_empty (task_queue sh) then enable_and_hlt c else interrupts_enable c.

(** One pass of the endless loop of [run].  [arrive] is what interrupts do to
    the shared state between the two calls. *)
Definition run_pass (fuel : nat) (arrive : Shared -> Shared) (e : Executor) (sh : Shared) (c : Cpu)
    : outcome (Executor * Shared * Cpu) :=
  '(e, sh) ← run_ready_tasks fuel e sh;
  let sh := arrive sh in
  Ret (e, sh, sleep_if_idle sh c).

(** ** Invariant *)

(** Tasks are stored under their id, ids are below the counter, and a waker is
    kept only for a task that is there, under its id. *)
Record executor_ok (NEXT_ID : Z) (e : Executor) : Prop := {
  ok_ids : forall i t, tasks e !! i = Some t -> id t = i /\ 0 <= i < NEXT_ID;
  ok_wakers : forall i w, waker_cache e !! i = Some w -> waker_task_id w = i /\ is_Some (tasks e !! i);
}.

Lemma run_task_ok n i e sh e' sh' : executor_ok n e -> run_task i e sh = Ret (e', sh') -> executor_ok n e'.
Proof.
  intros [Hid Hw] Hr. unfold run_task in Hr. destruct (tasks e !! i) as [t|] eqn:Et; [|by injection Hr as <- <-].
  destruct (Hid i t Et) as [Hi Hn]. unfold Task_poll in Hr.
  set (w := default _ _) in Hr. assert (Hwi : waker_task_id w = i).
  { subst w. destruct (waker_cache e !! i) eqn:Ew; [by destruct (Hw _ _ Ew)|done]. } clearbody w.
  inv_bind Hr. inv_bind Ha. destruct a0 as [[p f] sh1]. injection Ha as <-. destruct p; injection Hr as <- <-.
  - split; intros j x; cbn; rewrite ?lookup_delete_Some; [intros [_ Hx]; by apply Hid|].
    intros [Hj Hx]. rewrite lookup_insert_ne in Hx by done. cbn. rewrite lookup_delete_ne by done. by apply Hw.
  - split; intros j x; cbn.
    + intros [[<- <-]|[Hj Hx]]%lookup_insert_Some; [done|by apply Hid].
    + intros [[<- <-]|[Hj Hx]]%lookup_insert_Some; [by rewrite lookup_insert_eq|].
      rewrite lookup_insert_ne by done. by apply Hw.
Qed.

Lemma run_ready_tasks_ok fuel n e sh e' sh' :
  executor_ok n e -> run_ready_tasks fuel e sh = Ret (e', sh') -> executor_ok n e'.
Proof.
  revert e sh. induction fuel as [|fuel IH]; intros e sh He Hr; [done|]. cbn in Hr.
  destruct (queue_pop _) as [[i|] q]; [|by injection Hr as <- <-].
  inv_bind Hr. destruct a as [e1 sh1]. by eapply (IH e1 sh1), Hr; eapply run_task_ok.
Qed.
End executor.

Section facts.
Context {Q : Type -> Type} `{L : ArrayQueueLaws Q} {Fut W : Type}.
Context (future_poll : Fut -> TaskWaker -> @Shared Q W -> outcome (Poll * Fut * @Shared Q W)).
Abbreviation shared := (@Shared Q W).
Abbreviation queued sh := (contents (task_queue sh)).

(** What the executor and its surroundings do: a task is made and spawned, the
    ready tasks run, and something outside (an interrupt handler) changes what
    is shared. *)
Inductive exec_step : Z * @Executor Fut * shared -> Z * @Executor Fut * shared -> Prop :=
| step_spawn f n e sh t n' e' sh' :
    n < 2 ^ 64 - 1 -> Task_new f n = (t, n') -> spawn t e sh = Ret (e', sh') ->
    exec_step (n, e, sh) (n', e', sh')
| step_run fuel n e sh e' sh' :
    run_ready_tasks future_poll fuel e sh = Ret (e', sh') -> exec_step (n, e, sh) (n, e', sh')
| step_outside n e sh sh' : exec_step (n, e, sh) (n, e, sh').

Lemma exec_step_ok n e sh n' e' sh' : exec_step (n, e, sh) (n', e', sh') ->
  0 <= n -> executor_ok n e -> 0 <= n' /\ executor_ok n' e'.
Proof.
  intros Hs Hn He. inversion Hs as [f ? ? ? t ? ? ? Hlt Hnew Hsp| |]; subst; [|by eauto using run_ready_tasks_ok..].
  unfold Task_new, TaskId_new in Hnew. injection Hnew as <- <-. rewrite wrap_small by range. split; [lia|].
  unfold spawn in Hsp. cbn in Hsp. destruct (tasks e !! n) eqn:Et; [done|].
  destruct (queue_push n (task_queue sh)) as [[ ] q]; [|done]. injection Hsp as <- <-. destruct He as [Hid Hw].
  split; intros i x; cbn.
  - intros [[<- <-]|[Hi Hx]]%lookup_insert_Some; [split; [done|lia]|]. destruct (Hid i x Hx). split; [done|lia].
  - intros Hx. destruct (Hw i x Hx) as [Hi [t Ht]]. split; [done|]. rewrite lookup_insert_ne by congruence. by exists t.
Qed.

(** C27: in every state that an executor gets into, a new task can be spawned
    as long as the queue has room and ids have not run out: its id is not in
    use, so the check for it never fails, and the task is stored and queued
    under it. *)
Theorem spawn_new_task w n e sh f :
  rtc exec_step (0, (Executor_new (Fut := Fut) w).1, (Executor_new (Fut := Fut) w).2) (n, e, sh) ->
  Z.of_nat (length (queued sh)) < capacity (task_queue sh) ->
  exists sh', spawn (Task_new f n).1 e sh =
      Ret (mkExecutor (<[n := mkTask n f]> (tasks e)) (waker_cache e), sh') /\
    queued sh' = queued sh ++ [n].
Proof using L.
  intros Hr Hroom. assert (Hok : 0 <= n /\ executor_ok n e).
  { assert (Hgen : forall s s', rtc exec_step s s' -> 0 <= s.1.1 -> executor_ok s.1.1 s.1.2 ->
      0 <= s'.1.1 /\ executor_ok s'.1.1 s'.1.2).
    { induction 1 as [|[[n1 e1] sh1] [[n2 e2] sh2] s3 Hs _ IH]; [done|]. intros Hn He.
      destruct (exec_step_ok _ _ _ _ _ _ Hs Hn He). by apply IH. }
    apply (Hgen _ _ Hr); [done|]. by split. }
  destruct Hok as [Hn [Hid _]]. unfold spawn. cbn.
  destruct (tasks e !! n) as [t|] eqn:Et; [destruct (Hid n t Et); lia|].
  destruct (queue_push n (task_queue sh)) as [r q] eqn:Ep. apply queue_push_law in Ep as [_ Hq].
  rewrite (proj2 (Z.ltb_lt _ _) Hroom) in Hq. destruct Hq as [-> Hq]. by exists (set_queue q sh).
Qed.

(** The executor never sleeps on work: after a pass the CPU waits exactly if no
    task is queued at that point, also counting those woken by interrupts since
    the tasks ran, and an interrupt can wake it. *)
Lemma run_pass_sleeps fuel arrive e sh c e' sh' c' :
  halted c = false -> run_pass future_poll fuel arrive e sh c = Ret (e', sh', c') ->
  (halted c' = true <-> queued sh' = []) /\ interrupts_enabled c' = true.
Proof using L.
  intros Hc Hr. unfold run_pass in Hr. inv_bind Hr. destruct a as [e1 sh1]. injection Hr as <- <- <-.
  rewrite <-queue_is_empty_law. unfold sleep_if_idle. destruct (queue_is_empty _); cbn; [done|].
  split; [|done]. by rewrite Hc.
Qed.
End facts.

(** ** Examples *)

(** A queue as its capacity and its elements. *)
Definition list_queue (A : Type) : Type := positive * list A.
#[local] Instance list_queue_ops : ArrayQueue list_queue :=
  {| queue_new A n := (Z.to_pos n, []);
     queue_push A a q :=
       if Z.of_nat (length q.2) <? Zpos q.1 then (Ok tt, (q.1, q.2 ++ [a])) else (Err a, q);
     queue_pop A q := match q.2 with [] => (None, q) | a :: l => (Some a, (q.1, l)) end;
     queue_is_empty A q := match q.2 with [] => true | _ => false end |}.

#[local] Instance list_queue_laws : ArrayQueueLaws list_queue.
Proof.
  refine {| contents A q := q.2; capacity A q := Zpos q.1 |}.
  - done.
  - intros A n Hn. split; [done|]. cbn. by rewrite Z2Pos.id.
  - intros A a [c l] r q'. unfold queue_push, list_queue_ops. cbn. case_bool; by intros [= <- <-].
  - intros A [c [|a l]] r q'; cbn; by intros [= <- <-].
  - intros A [c [|a l]]; by cbn.
Defined.

(** A future that is ready when it has been polled as often as it says. *)
Definition countdown (f : nat) (w : TaskWaker) (sh : @Shared list_queue unit)
    : outcome (Poll * nat * @Shared list_queue unit) :=
  match f with O => Ret (Ready, O, sh) | S f => Ret (Pending, f, sh) end.

Lemma spawn_new_task_witness :
  exists sh', spawn (Task_new 3%nat 0).1 (Executor_new tt).1 (Executor_new (Fut := nat) tt).2 =
      Ret (mkExecutor (<[0 := mkTask 0 3%nat]> ∅) ∅, sh') /\
    contents (task_queue sh') = [0].
Proof.
  destruct (spawn_new_task countdown tt 0 _ _ 3%nat (rtc_refl _ _)) as (sh' & H1 & H2).
  - reflexivity.
  - exists sh'. split; [exact H1|exact H2].
Defined.

Definition two_tasks : @Executor nat :=
  mkExecutor (<[0 := mkTask 0 0%nat]> (<[1 := mkTask 1 2%nat]> ∅)) ∅.

Definition two_queued : @Shared list_queue unit := mkShared (100%positive, [0; 1]) tt.

