(* ===== verification/Keyboard.v ===== *)
(** * The keyboard

    [src/src/task/keyboard.rs]: the queue of scancodes between the keyboard
    interrupt and the task that reads them.  [poll_next] is given twice: as the
    code reads, and cut into the steps between which an interrupt can happen.
    The theorem that no wake-up is lost is about the second, with interrupts
    at every point. *)
From S2P Require Import Prelude Executor.

Definition QUEUE_SIZE : Z := 100.

(** [AtomicWaker] of the crate [futures_util]; [wake] takes the waker and wakes
    it. *)
Class AtomicWaker (A : Type) := {
  waker_new : A;
  waker_register : TaskWaker -> A -> A;
  waker_take : A -> option TaskWaker * A;
}.
Class AtomicWakerLaws (A : Type) `{AtomicWaker A} := {
  registered : A -> option TaskWaker;
  waker_new_law : registered waker_new = None;
  waker_register_law : forall w a, registered (waker_register w a) = Some w;
  waker_take_law : forall a r a', waker_take a = (r, a') -> r = registered a /\ registered a' = None;
}.

(** The decoder of the crate [pc_keyboard]; [None] of [add_byte] is an error. *)
Inductive DecodedKey := Unicode (text : list Z) | RawKey (name : list Z).
Class PcKeyboard := {
  Keyboard : Type;
  KeyEvent : Type;
  keyboard_new : Keyboard;
  add_byte : Z -> Keyboard -> option (option KeyEvent) * Keyboard;
  process_keyevent : KeyEvent -> Keyboard -> option DecodedKey * Keyboard;
}.

Definition queue_full_msg : string := "WARNING: scancode queue is full; input dropped".
Definition uninitialized_msg : string := "WARNING: scancode queue is uninitialized".

Section keyboard.
Context {Q : Type -> Type} `{ArrayQueue Q} {A : Type} `{AtomicWaker A}.

(** The statics of the file, the queue of the executor that the waker pushes
    to, and the messages printed. *)
Record KeyboardState := mkKeyboard {
  SCANCODE_QUEUE : option (Q Z);
  WAKER : A;
  executor_queue : Q Z;
  printed : list string;
}.
Definition set_scancodes (q : Q Z) (st : KeyboardState) : KeyboardState :=
  mkKeyboard (Some q) (WAKER st) (executor_queue st) (printed st).
Definition set_waker (a : A) (st : KeyboardState) : KeyboardState :=
  mkKeyboard (SCANCODE_QUEUE st) a (executor_queue st) (printed st).
Definition println (msg : string) (st : KeyboardState) : KeyboardState :=
  mkKeyboard (SCANCODE_QUEUE st) (WAKER st) (executor_queue st) (printed st ++ [msg]).

(** [AtomicWaker::wake] *)
Definition wake (st : KeyboardState) : outcome KeyboardState :=
  match waker_take (WAKER st) with
  | (None, a) => Ret (set_waker a st)
  | (Some w, a) =>
      q ← wake_task w (executor_queue st);
      Ret (mkKeyboard (SCANCODE_QUEUE st) a q (printed st))
  end.

Definition add_scancode (scancode : Z) (st : KeyboardState) : outcome KeyboardState :=
  match SCANCODE_QUEUE st with
  | Some queue =>
      match queue_push scancode queue with
      | (Err _, queue) => Ret (println queue_full_msg (set_scancodes queue st))
      | (Ok _, queue) => wake (set_scancodes queue st)
      end
  | None => Ret (println uninitialized_msg st)
  end.

(** [ScancodeStream::new] *)
Definition ScancodeStream_new (st : KeyboardState) : outcome KeyboardState :=
  match SCANCODE_QUEUE st with
  | None => Ret (set_scancodes (queue_new QUEUE_SIZE) st)
  | Some _ => Panic "Scancode stream already initialized"
  end.

(** [ScancodeStream::poll_next]; the result is [None] for [Poll::Pending]. *)
Definition poll_next (cx : TaskWaker) (st : KeyboardState) : outcome (option Z * KeyboardState) :=
  queue ← expect "Scancode stream not initialized" (SCANCODE_QUEUE st);
  match queue_pop queue with
  | (Some scancode, queue) => Ret (Some scancode, set_scancodes queue st)
  | (None, queue) =>
      let st := set_scancodes queue st in
      let st := set_waker (waker_register cx (WAKER st)) st in
      match queue_pop queue with
      | (Some scancode, queue) =>
          let st := set_scancodes queue st in
          Ret (Some scancode, set_waker (waker_take (WAKER st)).2 st)
      | (None, queue) => Ret (None, set_scancodes queue st)
      end
  end.

(** *** The same in steps *)

Inductive pc := Start | Registering | Checking | Taking (scancode : Z) | Finished (result : option Z).

Definition stream_step (cx : TaskWaker) (p : pc) (st : KeyboardState) : outcome (pc * KeyboardState) :=
  queue ← expect "Scancode stream not initialized" (SCANCODE_QUEUE st);
  match p with
  | Start =>
      match queue_pop queue with
      | (Some scancode, queue) => Ret (Finished (Some scancode), set_scancodes queue st)
      | (None, queue) => Ret (Registering, set_scancodes queue st)
      end
  | Registering => Ret (Checking, set_waker (waker_register cx (WAKER st)) st)
  | Checking =>
      match queue_pop queue with
      | (Some scancode, queue) => Ret (Taking scancode, set_scancodes queue st)
      | (None, queue) => Ret (Finished None, set_scancodes queue st)
      end
  | Taking scancode => Ret (Finished (Some scancode), set_waker (waker_take (WAKER st)).2 st)
  | Finished r => Ret (Finished r, st)
  end.

(** Steps until the end, without an interrupt. *)
Fixpoint stream_run (fuel : nat) (cx : TaskWaker) (p : pc) (st : KeyboardState)
    : outcome (option Z * KeyboardState) :=
  match p, fuel with
  | Finished r, _ => Ret (r, st)
  | _, O => NoFuel
  | _, S fuel => '(p, st) ← stream_step cx p st; stream_run fuel cx p st
  end.

(** [poll_next] as it is written and its steps without an interrupt are
    the same. *)
Theorem poll_next_steps cx st : poll_next cx st = stream_run 4 cx Start st.
Proof.
  unfold poll_next. cbn [stream_run]. unfold stream_step.
  destruct (SCANCODE_QUEUE st) as [q|]; [|done]. cbn.
  destruct (queue_pop q) as [[s|] q1]; cbn; [done|]. by destruct (queue_pop q1) as [[s|] q2].
Qed.

(** What the body of the loop of [print_keypresses] prints for a scancode, if it
    prints. *)
Definition decode_keypress `{PcKeyboard} (scancode : Z) (keyboard : Keyboard) : option (list Z) * Keyboard :=
  match add_byte scancode keyboard with
  | (Some (Some key_event), keyboard) =>
      match process_keyevent key_event keyboard with
      | (Some (Unicode text), keyboard) => (Some text, keyboard)
      | (Some (RawKey name), keyboard) => (Some name, keyboard)
      | (None, keyboard) => (None, keyboard)
      end
  | (_, keyboard) => (None, keyboard)
  end.
End keyboard.

(** ** No wake-up is lost *)

Section wakeups.
Context {Q : Type -> Type} `{LQ : ArrayQueueLaws Q} {A : Type} `{LA : AtomicWakerLaws A}.

(** The task [k] that reads the scancodes, and where it is: suspended, or
    inside [poll_next]. *)
Context (k : Z).
Inductive place := Suspended | Running (p : pc).
Abbreviation system := (@KeyboardState Q A * place)%type.

(** What can happen: a keyboard interrupt at any time; a step of [poll_next];
    the end of [poll_next], after which the task reads on or is suspended; the
    executor taking an id from its queue while the task is suspended; and
    another task being woken at any time. *)
Inductive happens : system -> system -> Prop :=
| interrupt scancode st st' w :
    add_scancode scancode st = Ret st' -> happens (st, w) (st', w)
| steps p st p' st' :
    stream_step (mkWaker k) p st = Ret (p', st') -> happens (st, Running p) (st', Running p')
| reads scancode st : happens (st, Running (Finished (Some scancode))) (st, Running Start)
| suspends st : happens (st, Running (Finished None)) (st, Suspended)
| executes st j q w :
    queue_pop (executor_queue st) = (Some j, q) -> w = (if j =? k then Running Start else Suspended) ->
    happens (st, Suspended) (mkKeyboard (SCANCODE_QUEUE st) (WAKER st) q (printed st), w)
| other_wakes st j q w :
    wake_task (mkWaker j) (executor_queue st) = Ret q ->
    happens (st, w) (mkKeyboard (SCANCODE_QUEUE st) (WAKER st) q (printed st), w).

Definition woken (st : @KeyboardState Q A) : Prop := k ∈ contents (executor_queue st).
Definition scancodes (st : @KeyboardState Q A) : list Z :=
  match SCANCODE_QUEUE st with Some q => contents q | None => [] end.

(** A waker is only ever the one of the task; from the registration on there
    is a waker or the task has been woken; and a scancode that arrives when the
    task is about to be suspended has woken it. *)
Definition inv (s : system) : Prop :=
  (registered (WAKER s.1) = None \/ registered (WAKER s.1) = Some (mkWaker k)) /\
  match s.2 with
  | Running Checking => registered (WAKER s.1) <> None \/ woken s.1
  | Running (Finished None) | Suspended =>
      (registered (WAKER s.1) <> None \/ woken s.1) /\ (scancodes s.1 <> [] -> woken s.1)
  | _ => True
  end.

Lemma wake_task_contents (w : TaskWaker) (q q' : Q Z) :
  wake_task w q = Ret q' -> contents q' = contents q ++ [waker_task_id w].
Proof using LQ.
  unfold wake_task. destruct (queue_push _ q) as [[ ] q1] eqn:E; [|done]. intros [= <-].
  apply queue_push_law in E as [_ E]. case_match; [by destruct E|by destruct E].
Qed.

(** An interrupt that adds a scancode takes the waker and wakes the task. *)
Lemma wake_inv (st st' : @KeyboardState Q A) :
  registered (WAKER st) = None \/ registered (WAKER st) = Some (mkWaker k) -> wake st = Ret st' ->
  registered (WAKER st') = None /\ SCANCODE_QUEUE st' = SCANCODE_QUEUE st /\
  (woken st -> woken st') /\ (registered (WAKER st) <> None -> woken st').
Proof using LQ LA.
  intros Hreg. unfold wake. destruct (waker_take (WAKER st)) as [r a] eqn:E. apply waker_take_law in E as [-> Ha].
  destruct Hreg as [Hreg|Hreg]; rewrite Hreg.
  - intros [= <-]. done.
  - intros Hw. inv_bind Hw. injection Hw as <-. apply wake_task_contents in Ha0. unfold woken. cbn.
    rewrite Ha0, elem_of_app. cbn. split_and!; try done; [by left|]. intros _. right. by apply list_elem_of_singleton.
Qed.

Lemma add_scancode_inv scancode (st st' : @KeyboardState Q A) w :
  inv (st, w) -> add_scancode scancode st = Ret st' -> inv (st', w).
Proof using LQ LA.
  intros [Hreg Hw] Hadd. cbn in Hreg, Hw. unfold add_scancode in Hadd.
  destruct (SCANCODE_QUEUE st) as [q|] eqn:Eq; [|injection Hadd as <-; split; [done|]; destruct w as [|[ | | | |[]]]; cbn;
    try done; unfold scancodes in *; cbn; by rewrite Eq in *].
  destruct (queue_push scancode q) as [[ ] q1] eqn:Ep.
  - destruct (wake_inv (set_scancodes q1 st) st' Hreg Hadd) as (Hr & _ & Hkeep & Hwake). unfold woken in Hkeep at 1. cbn in Hkeep, Hwake.
    fold (woken st) in Hkeep. split; [by left|]. destruct w as [|[ | | | |[]]]; cbn; try done.
    + destruct Hw as [[?|?] _]; auto.
    + destruct Hw; auto.
    + destruct Hw as [[?|?] _]; auto.
  - injection Hadd as <-. split; [done|].
    assert (Hne : scancodes st <> []).
    { apply queue_push_law in Ep as [_ Ep]. unfold scancodes. rewrite Eq. cbn. case_match; [by destruct Ep|].
      prop_of_bool. intros E0. rewrite E0 in *. pose proof (capacity_pos _ q). cbn in *. lia. }
    destruct w as [|[ | | | |[]]]; cbn; try done; destruct Hw as [Hw1 Hw2]; split; auto.
Qed.
Lemma stream_step_inv p (st : @KeyboardState Q A) p' st' :
  inv (st, Running p) -> stream_step (mkWaker k) p st = Ret (p', st') -> inv (st', Running p').
Proof using LQ LA.
  intros [Hreg Hw] Hs. cbn in Hreg, Hw. unfold stream_step in Hs.
  destruct (SCANCODE_QUEUE st) as [q|] eqn:Eq; [|done]. cbn [expect mbind outcome_bind] in Hs.
  destruct p as [| | |sc|r].
  - destruct (queue_pop q) as [[sc|] q1]; injection Hs as <- <-; by split.
  - injection Hs as <- <-. split; cbn; rewrite waker_register_law; [by right|by left].
  - destruct (queue_pop q) as [[sc|] q1] eqn:E; injection Hs as <- <-; [by split|].
    apply queue_pop_law in E as [_ E]. split; [done|]. cbn. split; [done|].
    destruct (contents q); destruct E as [? E]; [|done]. unfold scancodes. cbn. by rewrite E.
  - destruct (waker_take (WAKER st)) as [r a] eqn:E. apply waker_take_law in E as [_ E].
    injection Hs as <- <-. split; [by left|done].
  - by injection Hs as <- <-.
Qed.

Lemma happens_inv s s' : happens s s' -> inv s -> inv s'.
Proof using LQ LA.
  intros Hs Hi. destruct Hs as [sc st st' w Hadd|p st p' st' Hst|sc st|st|st j q w Hpop ->|st j q w Hwake].
  - by eapply add_scancode_inv.
  - by eapply stream_step_inv.
  - by destruct Hi.
  - by destruct Hi.
  - destruct Hi as [Hreg [Hw Hsc]]. cbn in *. split; [done|]. case_bool; cbn; [done|].
    apply queue_pop_law in Hpop as [_ Hpop].
    assert (Hkeep : woken st -> k ∈ contents q).
    { unfold woken. destruct (contents (executor_queue st)) as [|x l]; destruct Hpop as [Hx ->]; [done|].
      injection Hx as ->. intros [->|?]%elem_of_cons; done. }
    unfold woken in *. cbn. split; [destruct Hw; auto|]. intros Hne. by apply Hkeep, Hsc.
  - apply wake_task_contents in Hwake.
    assert (Hkeep : woken st -> k ∈ contents q).
    { unfold woken. rewrite Hwake. intros ?. by apply elem_of_app; left. }
    destruct Hi as [Hreg Hw]. cbn in Hreg, Hw. split; [done|]. unfold woken in *. cbn.
    destruct w as [|[ | | | |[]]]; try done; cbn; [destruct Hw as [[?|?] ?]; auto|destruct Hw; auto|
      destruct Hw as [[?|?] ?]; auto].
Qed.

(** C13: a suspended reader is never left with scancodes to read: from the
    first poll on, however keyboard interrupts, the steps of [poll_next], the
    executor and other wake-ups interleave, whenever the task is suspended and
    there is a scancode, the task is in the queue of the executor. *)
Theorem no_lost_wakeup st st' :
  registered (WAKER st) = None -> rtc happens (st, Running Start) (st', Suspended) ->
  scancodes st' <> [] -> woken st'.
Proof using LQ LA.
  intros Hreg Hr. assert (Hi : inv (st', Suspended)).
  { assert (H0' : inv (st, Running Start)) by (split; [by left|done]).
    revert H0'. induction Hr; eauto using happens_inv. }
  by destruct Hi as [_ [_ Hi]].
Qed.
End wakeups.

(** ** Examples *)

#[local] Existing Instance list_queue_ops.
#[local] Existing Instance list_queue_laws.

#[local] Instance option_waker : AtomicWaker (option TaskWaker) :=
  {| waker_new := None; waker_register w _ := Some w; waker_take a := (a, None) |}.
#[local] Instance option_waker_laws : AtomicWakerLaws (option TaskWaker).
Proof. by refine {| registered a := a |}; [..|intros a r a' [= <- <-]]. Defined.

Definition kb (sc ex : list Z) (w : option TaskWaker) : @KeyboardState list_queue (option TaskWaker) :=
  mkKeyboard (Some (100%positive, sc)) w (100%positive, ex) [].

(** The task finds nothing, is suspended, and then a key is pressed. *)
Lemma no_lost_wakeup_witness : woken 3 (kb [0x1E] [3] None).
Proof.
  apply (no_lost_wakeup 3 (kb [] [] None) (kb [0x1E] [3] None)).
  - reflexivity.
  - eapply rtc_l; [apply (steps 3 Start _ Registering (kb [] [] None)); reflexivity|].
    eapply rtc_l; [apply (steps 3 Registering _ Checking (kb [] [] (Some (mkWaker 3)))); reflexivity|].
    eapply rtc_l; [apply (steps 3 Checking _ (Finished None) (kb [] [] (Some (mkWaker 3)))); reflexivity|].
    eapply rtc_l; [apply suspends|].
    eapply rtc_l; [apply (interrupt 3 0x1E _ (kb [0x1E] [3] None)); reflexivity|].
    apply rtc_refl.
  - discriminate.
Defined.
