(* ===== verification/KeyTask.v ===== *)
(** * The task that prints key presses

    [print_keypresses] of [src/src/task/keyboard.rs] as the future it compiles
    to, run by the executor of [src/src/task/executor.rs], with the screen of
    [src/src/display/vga_text.rs].  The theorem follows key presses from the
    keyboard interrupt through both queues to the screen. *)
From S2P Require Import Prelude Vga Executor Keyboard.

(** What the task shares with the rest of the kernel, beside the queue of the
    executor: the statics of the keyboard and the screen. *)
Record Desk (Q : Type -> Type) (A : Type) := mkDesk {
  desk_scancodes : option (Q Z);
  desk_waker : A;
  desk_warnings : list string;
  desk_screen : Console;
}.
Arguments mkDesk {Q A} _ _ _ _.
Arguments desk_scancodes {Q A} _.
Arguments desk_waker {Q A} _.
Arguments desk_warnings {Q A} _.
Arguments desk_screen {Q A} _.

Section task.
Context {P : Profile} {Q : Type -> Type} `{ArrayQueue Q} {A : Type} `{AtomicWaker A} {PK : PcKeyboard}.
Abbreviation shared := (@Shared Q (Desk Q A)).

(** The keyboard's view of the shared state, and a change of it. *)
Definition keyboard_view (sh : shared) : @KeyboardState Q A :=
  mkKeyboard (desk_scancodes (outside sh)) (desk_waker (outside sh)) (task_queue sh) (desk_warnings (outside sh)).
Definition update_keyboard (k : @KeyboardState Q A) (sh : shared) : shared :=
  mkShared (executor_queue k) (mkDesk (SCANCODE_QUEUE k) (WAKER k) (printed k) (desk_screen (outside sh))).
Definition set_screen (c : Console) (sh : shared) : shared :=
  mkShared (task_queue sh)
    (mkDesk (desk_scancodes (outside sh)) (desk_waker (outside sh)) (desk_warnings (outside sh)) c).

(** The body of the loop: [print!] of a decoded key. *)
Definition print_keypress (scancode : Z) (keyboard : Keyboard) (sh : shared) : outcome (Keyboard * shared) :=
  match decode_keypress scancode keyboard with
  | (Some text, keyboard) => c ← _print [text] (desk_screen (outside sh)); Ret (keyboard, set_screen c sh)
  | (None, keyboard) => Ret (keyboard, sh)
  end.

(** The states of the future: not polled yet, or waiting in [next().await]. *)
Inductive KeypressFuture := Unstarted | AtNext (keyboard : Keyboard).

(** [while let Some(scancode) = scancodes.next().await]; the stream never
    ends. *)
Fixpoint keypress_loop (fuel : nat) (cx : TaskWaker) (keyboard : Keyboard) (sh : shared)
    : outcome (Poll * KeypressFuture * shared) :=
  match fuel with
  | O => NoFuel
  | S fuel =>
      '(r, k) ← poll_next cx (keyboard_view sh);
      let sh := update_keyboard k sh in
      match r with
      | None => Ret (Pending, AtNext keyboard, sh)
      | Some scancode =>
          '(keyboard, sh) ← print_keypress scancode keyboard sh;
          keypress_loop fuel cx keyboard sh
      end
  end.

Definition print_keypresses (fuel : nat) (f : KeypressFuture) (cx : TaskWaker) (sh : shared)
    : outcome (Poll * KeypressFuture * shared) :=
  match f with
  | Unstarted =>
      k ← ScancodeStream_new (keyboard_view sh);
      keypress_loop fuel cx keyboard_new (update_keyboard k sh)
  | AtNext keyboard => keypress_loop fuel cx keyboard sh
  end.

(** Key presses: keyboard interrupts with these scancodes. *)
Definition press_keys (scancodes : list Z) (sh : shared) : outcome shared :=
  for_each scancodes (fun scancode sh =>
    k ← add_scancode scancode (keyboard_view sh); Ret (update_keyboard k sh)) sh.

(** The text that the scancodes stand for. *)
Fixpoint typed (scancodes : list Z) (keyboard : Keyboard) : list Z * Keyboard :=
  match scancodes with
  | [] => ([], keyboard)
  | s :: l =>
      let (text, keyboard) := decode_keypress s keyboard in
      let (rest, keyboard) := typed l keyboard in
      (default [] text ++ rest, keyboard)
  end.
End task.

Section facts.
Context {P : Profile} {Q : Type -> Type} `{LQ : ArrayQueueLaws Q} {A : Type} `{LA : AtomicWakerLaws A} {PK : PcKeyboard}.
Abbreviation shared := (@Shared Q (Desk Q A)).
Abbreviation queued sh := (contents (task_queue sh)).
Abbreviation waiting sh := (registered (desk_waker (outside sh))).

(** The scancodes that have not been read. *)
Definition unread (l : list Z) (sh : shared) : Prop :=
  exists q, desk_scancodes (outside sh) = Some q /\ contents q = l /\ capacity q = QUEUE_SIZE.

(** The screen is not locked and shows the terminal [t]. *)
Definition on_screen (t : Terminal) (sh : shared) : Prop :=
  writer_locked (desk_screen (outside sh)) = false /\ shows t (writer (desk_screen (outside sh))).

Lemma typed_app l1 l2 kb :
  typed (l1 ++ l2) kb = ((typed l1 kb).1 ++ (typed l2 (typed l1 kb).2).1, (typed l2 (typed l1 kb).2).2).
Proof.
  revert kb. induction l1 as [|s l1 IH]; intros kb; cbn; [by destruct (typed l2 kb)|].
  destruct (decode_keypress s kb) as [x kb1]. rewrite IH. destruct (typed l1 kb1) as [y kb2]. cbn. by rewrite app_assoc.
Qed.

(** A key press that is printed. *)
Lemma print_keypress_ok s kb t (sh : shared) : on_screen t sh ->
  exists sh', print_keypress s kb sh = Ret ((decode_keypress s kb).2, sh') /\
    on_screen (term_write t (default [] (decode_keypress s kb).1)) sh' /\
    task_queue sh' = task_queue sh /\ desk_waker (outside sh') = desk_waker (outside sh) /\
    desk_scancodes (outside sh') = desk_scancodes (outside sh).
Proof.
  intros [Hl Hs]. unfold print_keypress. destruct (decode_keypress s kb) as [[text|] kb1]; cbn [fst snd default].
  - destruct (print_ok [text] _ t Hl Hs) as (w & -> & Hw). rewrite ret_bind. eexists. split; [done|]. split; [|done].
    split; [done|]. cbn in *. by rewrite app_nil_r in Hw.
  - by exists sh.
Qed.

(** The loop prints all scancodes of the queue and waits for more. *)
Lemma keypress_loop_prints l fuel cx kb t (sh : shared) :
  unread l sh -> on_screen t sh -> (length l < fuel)%nat ->
  exists sh', keypress_loop fuel cx kb sh = Ret (Pending, AtNext (typed l kb).2, sh') /\
    unread [] sh' /\ waiting sh' = Some cx /\ queued sh' = queued sh /\ on_screen (term_write t (typed l kb).1) sh'.
Proof using LQ LA.
  revert fuel kb t sh. induction l as [|s l IH]; intros fuel kb t sh (q & Eq & Hp & Hcap) Ht Hf;
    (destruct fuel as [|fuel]; [cbn in Hf; lia|]); cbn [keypress_loop]; unfold poll_next;
    cbn [keyboard_view SCANCODE_QUEUE]; rewrite Eq; cbn [expect]; rewrite ret_bind;
    destruct (queue_pop q) as [r q1] eqn:E1; apply queue_pop_law in E1 as [Hc1 H1]; rewrite Hp in H1; destruct H1 as [-> H1].
  - destruct (queue_pop q1) as [r q2] eqn:E2. apply queue_pop_law in E2 as [Hc2 H2]. rewrite H1 in H2. destruct H2 as [-> H2].
    rewrite ret_bind. eexists. split; [done|]. cbn. rewrite waker_register_law. split_and!; [|done..].
    exists q2. split_and!; [done..|]. congruence.
  - rewrite ret_bind. set (sh1 := update_keyboard _ sh).
    destruct (print_keypress_ok s kb t sh1 Ht) as (sh2 & -> & Ht2 & Hq2 & _ & Hs2). rewrite ret_bind. cbn [typed].
    destruct (decode_keypress s kb) as [x kb1]. cbn [fst snd] in *.
    destruct (IH fuel kb1 (term_write t (default [] x)) sh2) as (sh' & -> & Hu & Hw & Hq & Hs');
      [exists q1; split_and!; [by rewrite Hs2|done|congruence]|done|cbn in Hf; lia|].
    exists sh'. destruct (typed l kb1) as [rest kb2]. cbn [fst snd] in *. rewrite term_write_app.
    split_and!; [done..|by rewrite Hq, Hq2|done].
Qed.

(** Key presses while the task waits: the scancodes are queued in order, and
    the first one wakes the task. *)
Lemma press_keys_queued l k (sh : shared) t pre :
  unread pre sh -> on_screen t sh -> Z.of_nat (length (pre ++ l)) <= QUEUE_SIZE ->
  (if decide (pre = []) then waiting sh = Some (mkWaker k) /\ queued sh = [] else queued sh = [k] /\ waiting sh = None) ->
  exists sh', press_keys l sh = Ret sh' /\ unread (pre ++ l) sh' /\ on_screen t sh' /\
    (if decide (pre ++ l = []) then waiting sh' = Some (mkWaker k) /\ queued sh' = [] else queued sh' = [k]).
Proof using LQ LA.
  revert sh pre. induction l as [|s l IH]; intros sh pre Hu Ht Hlen Hw.
  { exists sh. rewrite app_nil_r. split_and!; try done. by destruct (decide (pre = [])), Hw. }
  destruct Hu as (q & Eq & Hp & Hcap). unfold press_keys. cbn [for_each]. unfold add_scancode.
  cbn [keyboard_view SCANCODE_QUEUE]. rewrite Eq.
  destruct (queue_push s q) as [r q1] eqn:E1. apply queue_push_law in E1 as [Hc1 H1].
  rewrite length_app in Hlen. cbn [length] in Hlen.
  rewrite (proj2 (Z.ltb_lt _ _)) in H1 by (rewrite Hp, Hcap; lia). destruct H1 as [-> H1].
  assert (Hwake : exists k1, wake (set_scancodes q1 (keyboard_view sh)) = Ret k1 /\ SCANCODE_QUEUE k1 = Some q1 /\
    registered (WAKER k1) = None /\ contents (executor_queue k1) = [k]).
  { unfold wake. destruct (waker_take (WAKER _)) as [r a] eqn:Et. apply waker_take_law in Et as [Hr Ha].
    cbn [WAKER set_scancodes keyboard_view] in Hr. destruct (decide (pre = [])); destruct Hw as [Hw Hq].
    - rewrite Hr, Hw. unfold wake_task. cbn [executor_queue set_scancodes keyboard_view waker_task_id].
      destruct (queue_push k (task_queue sh)) as [r' q'] eqn:Ek. apply queue_push_law in Ek as [_ Hk].
      rewrite Hq in Hk. cbn [length] in Hk. rewrite (proj2 (Z.ltb_lt _ _)) in Hk by apply capacity_pos.
      destruct Hk as [-> Hk]. by eexists.
    - rewrite Hr, Hq. by eexists. }
  destruct Hwake as (k1 & -> & Hk1 & Hk2 & Hk3). rewrite !ret_bind.
  destruct (IH (update_keyboard k1 sh) (pre ++ [s])) as (sh' & E & Hr).
  - exists q1. cbn. split_and!; [done|by rewrite H1, Hp|congruence].
  - done.
  - rewrite !length_app. cbn [length]. lia.
  - by rewrite decide_False by (by destruct pre).
  - exists sh'. split; [exact E|]. by rewrite <-app_assoc in Hr.
Qed.

(** The task [k] waits for key presses, with the decoder in the state [kb]. *)
Record awaiting (k : Z) (kb : Keyboard) (t : Terminal) (e : @Executor KeypressFuture) (sh : shared) : Prop := {
  aw_task : tasks e !! k = Some (mkTask k (AtNext kb));
  aw_cache : waker_cache e !! k = Some (mkWaker k);
  aw_unread : unread [] sh;
  aw_waker : waiting sh = Some (mkWaker k);
  aw_queue : queued sh = [];
  aw_screen : on_screen t sh;
}.

(** The turns of the poll loop that are enough for a full queue. *)
Definition poll_fuel : nat := 101.

(** The executor runs the task when it is woken. *)
Lemma run_woken k kb t l (e : @Executor KeypressFuture) (sh : shared) f :
  tasks e !! k = Some (mkTask k f) -> default (mkWaker k) (waker_cache e !! k) = mkWaker k -> queued sh = [k] ->
  (forall q, contents q = [] -> exists sh', print_keypresses poll_fuel f (mkWaker k) (set_queue q sh) =
      Ret (Pending, AtNext (typed l kb).2, sh') /\
    unread [] sh' /\ waiting sh' = Some (mkWaker k) /\ queued sh' = [] /\ on_screen (term_write t (typed l kb).1) sh') ->
  exists e' sh', run_ready_tasks (print_keypresses poll_fuel) 2 e sh = Ret (e', sh') /\
    awaiting k (typed l kb).2 (term_write t (typed l kb).1) e' sh'.
Proof using LQ.
  intros Ht Hc Hq Hpoll. cbn [run_ready_tasks]. destruct (queue_pop (task_queue sh)) as [r q] eqn:Ep.
  apply queue_pop_law in Ep as [_ Hp]. rewrite Hq in Hp. destruct Hp as [-> Hp].
  unfold run_task, Task_poll. rewrite Ht, Hc. cbn [future id].
  destruct (Hpoll q Hp) as (sh' & -> & Hu & Hw & Hq' & Hs). rewrite !ret_bind.
  destruct (queue_pop (task_queue sh')) as [r q'] eqn:Ep'. apply queue_pop_law in Ep' as [_ Hp']. rewrite Hq' in Hp'.
  destruct Hp' as [-> Hp']. eexists _, _. split; [done|]. split; cbn; rewrite ?lookup_insert_eq; done.
Qed.

(** A burst of key presses is printed, and the task waits again. *)
Lemma burst_printed k kb t l e (sh : shared) : awaiting k kb t e sh -> Z.of_nat (length l) <= QUEUE_SIZE ->
  exists sh1 e' sh', press_keys l sh = Ret sh1 /\
    run_ready_tasks (print_keypresses poll_fuel) 2 e sh1 = Ret (e', sh') /\
    awaiting k (typed l kb).2 (term_write t (typed l kb).1) e' sh'.
Proof using LQ LA.
  intros [Ht Hc Hu Hw Hq Hs] Hlen.
  destruct (press_keys_queued l k sh t []) as (sh1 & Hpr & Hu1 & Hs1 & Hq1); [done..|]. exists sh1. cbn [app] in *.
  destruct (decide (l = [])) as [->|Hne].
  - destruct Hq1 as [Hw1 Hq1]. cbn [run_ready_tasks].
    destruct (queue_pop (task_queue sh1)) as [r q] eqn:Ep. apply queue_pop_law in Ep as [_ Hp]. rewrite Hq1 in Hp.
    destruct Hp as [-> Hp]. eexists e, _. split; [done|]. split; [done|]. by split.
  - destruct (run_woken k kb t l e sh1 (AtNext kb)) as (e' & sh' & Hr & Ha); [done|by rewrite Hc|done| |by exists e', sh'].
    intros q Hq0. cbn [print_keypresses].
    destruct (keypress_loop_prints l poll_fuel (mkWaker k) kb t (set_queue q sh1)) as (sh' & E & Hr);
      [done|done|unfold poll_fuel, QUEUE_SIZE in *; lia|]. exists sh'. split; [done|]. cbn in Hr. by rewrite Hq0 in Hr.
Qed.

(** A session: the executor is made and the task spawned, then key presses come
    in bursts, after each of which the executor runs. *)
Fixpoint type_bursts (bursts : list (list Z)) (e : @Executor KeypressFuture) (sh : shared)
    : outcome (@Executor KeypressFuture * shared) :=
  match bursts with
  | [] => Ret (e, sh)
  | l :: bursts =>
      sh ← press_keys l sh;
      '(e, sh) ← run_ready_tasks (print_keypresses poll_fuel) 2 e sh;
      type_bursts bursts e sh
  end.
Definition session (bursts : list (list Z)) (desk : Desk Q A) : outcome (@Executor KeypressFuture * shared) :=
  let '(e, sh) := Executor_new desk in
  let '(task, _) := Task_new Unstarted 0 in
  '(e, sh) ← spawn task e sh;
  '(e, sh) ← run_ready_tasks (print_keypresses poll_fuel) 2 e sh;
  type_bursts bursts e sh.

Lemma type_bursts_printed k kb t bursts e (sh : shared) :
  awaiting k kb t e sh -> Forall (fun l => Z.of_nat (length l) <= QUEUE_SIZE) bursts ->
  exists e' sh', type_bursts bursts e sh = Ret (e', sh') /\
    awaiting k (typed (concat bursts) kb).2 (term_write t (typed (concat bursts) kb).1) e' sh'.
Proof using LQ LA.
  intros Ha Hb. revert kb t e sh Ha. induction Hb as [|l bursts Hl _ IH]; intros kb t e sh Ha.
  { by exists e, sh. }
  cbn [type_bursts concat]. destruct (burst_printed k kb t l e sh Ha Hl) as (sh1 & e1 & sh2 & -> & E & Ha2).
  rewrite ret_bind, E, ret_bind. destruct (IH _ _ _ _ Ha2) as (e' & sh' & -> & Ha').
  exists e', sh'. split; [done|]. rewrite typed_app. cbn [fst snd]. by rewrite term_write_app.
Qed.

(** C10: every key that is pressed appears on the screen, once and in order.
    The executor is made, the task that prints key presses is spawned and
    polled, and then keys are pressed in any number of bursts of at most 100
    scancodes, the executor running after each: nothing panics or hangs, and
    the screen shows the text that all the scancodes together stand for. *)
Theorem keys_reach_screen bursts desk t :
  desk_scancodes desk = None -> writer_locked (desk_screen desk) = false -> shows t (writer (desk_screen desk)) ->
  Forall (fun l => Z.of_nat (length l) <= QUEUE_SIZE) bursts ->
  exists e sh, session bursts desk = Ret (e, sh) /\
    on_screen (term_write t (typed (concat bursts) keyboard_new).1) sh /\
    unread [] sh /\ waiting sh = Some (mkWaker 0).
Proof using LQ LA.
  intros Hnone Hl Hs Hb. unfold session. cbn [Executor_new Task_new TaskId_new]. unfold spawn. cbn [id tasks task_queue].
  rewrite lookup_empty. destruct (queue_new_law Z TASK_QUEUE_SIZE ltac:(done)) as [Hn1 Hn2].
  destruct (queue_push 0 (queue_new TASK_QUEUE_SIZE)) as [r q] eqn:Ep. apply queue_push_law in Ep as [_ Hp].
  rewrite Hn1, Hn2 in Hp. cbn in Hp. destruct Hp as [-> Hp]. rewrite ret_bind. unfold set_queue. cbn [outside tasks waker_cache].
  destruct (run_woken 0 keyboard_new t [] (mkExecutor (<[0 := mkTask 0 Unstarted]> ∅) ∅) (mkShared q desk) Unstarted)
    as (e1 & sh1 & E & Ha); [apply lookup_insert_eq|done|done| |].
  - intros q' Hq'. cbn [print_keypresses]. unfold ScancodeStream_new. cbn [keyboard_view SCANCODE_QUEUE outside set_queue].
    rewrite Hnone, ret_bind. destruct (queue_new_law Z QUEUE_SIZE ltac:(done)) as [Hq1 Hq2].
    match goal with |- context [keypress_loop _ _ _ ?s] => set (sh0 := s) end.
    destruct (keypress_loop_prints [] poll_fuel (mkWaker 0) keyboard_new t sh0) as (sh' & E & Hu & Hw & Hq & Ht);
      [by eexists|by split|unfold poll_fuel; cbn; lia|].
    exists sh'. split; [exact E|]. cbn in Hq. by rewrite Hq' in Hq.
  - rewrite E, ret_bind. destruct (type_bursts_printed _ _ _ bursts _ _ Ha Hb) as (e & sh & -> & [? ? ? ? ? ?]).
    by exists e, sh.
Qed.
End facts.

(** ** Examples *)

#[local] Existing Instance list_queue_ops.
#[local] Existing Instance list_queue_laws.
#[local] Existing Instance option_waker.
#[local] Existing Instance option_waker_laws.

(** A keyboard on which every scancode below 0x80 is the letter of that code,
    and the others are releases of keys. *)
#[local] Instance letters : PcKeyboard := {|
  Keyboard := unit;
  KeyEvent := Z;
  keyboard_new := tt;
  add_byte b kb := (Some (if b <? 0x80 then Some b else None), kb);
  process_keyevent ev kb := (Some (Unicode [ev]), kb);
|}.

Lemma keys_reach_screen_witness :
  exists e sh, session (P := dev_profile) [[104]; []; [232; 105]]
      (mkDesk None None [] (mkConsole (Vga.new example_video) false true)) = Ret (e, sh) /\
    row (writer (desk_screen (outside sh))) = 0 /\ col (writer (desk_screen (outside sh))) = 2.
Proof.
  destruct (keys_reach_screen (P := dev_profile) [[104]; []; [232; 105]]
    (mkDesk None None [] (mkConsole (Vga.new example_video) false true)) _ eq_refl eq_refl example_video_shows)
    as (e & sh & E & [_ [Hs _]] & _).
  - repeat constructor; discriminate.
  - exists e, sh. split; [exact E|]. split; [exact (shows_row _ _ Hs)|exact (shows_col _ _ Hs)].
Defined.
