(* ===== verification/Interrupts.v ===== *)
(** * Interrupts

    [src/src/interrupts.rs]: the interrupt descriptor table, the handlers of
    the timer and the keyboard, and those of the exceptions.  A handler runs
    with interrupts off; a spin lock that is taken when it wants it is never
    released, so the handler does not come back: the outcome is then [NoFuel]
    for every amount of fuel. *)
From S2P Require Import Prelude Asm Context Scheduler SchedulerSpec Vga Executor Keyboard Gdt.
From Stdlib Require Ascii String.

Definition PIC_1_OFFSET : Z := 32.
Definition TIMER_FREQUENCY : Z := 1073.
Definition TIMER_FREQUENCY_BASE : Z := 1193182.

Inductive InterruptIndex := Timer | Keyboard_.
Definition as_u8 (i : InterruptIndex) : Z :=
  match i with Timer => PIC_1_OFFSET | Keyboard_ => PIC_1_OFFSET + 1 end.

Inductive Handler :=
| breakpoint | double_fault | page_fault | timer_interrupt | keyboard_interrupt | protection_fault
| stack_segment_fault | invalid_opcode | invalid_tss | alignment | segment_not_present.

(** An entry of the table: the handler and its own stack, if it has one. *)
Record Entry := mkEntry { handler_fn : Handler; stack_index : option Z }.

(** The lazily made static [IDT], by vector. *)
Definition IDT : gmap Z Entry :=
  <[11 := mkEntry segment_not_present None]>
  (<[17 := mkEntry alignment None]>
  (<[10 := mkEntry invalid_tss None]>
  (<[6 := mkEntry invalid_opcode None]>
  (<[12 := mkEntry stack_segment_fault None]>
  (<[13 := mkEntry protection_fault None]>
  (<[as_u8 Keyboard_ := mkEntry keyboard_interrupt None]>
  (<[as_u8 Timer := mkEntry timer_interrupt None]>
  (<[14 := mkEntry page_fault None]>
  (<[8 := mkEntry double_fault (Some DOUBLE_FAULT_IST_INDEX)]>
  (<[3 := mkEntry breakpoint None]> ∅)))))))))).

(** [init_idt]: the bytes that reach the I/O ports, and the table that is
    loaded.  The divisor is a [u32], so the port is written with a 32-bit
    access, whose bytes go to four successive ports. *)
Definition outl (port v : Z) : list (Z * Z) :=
  zip (seqZ port 4) (to_le_bytes 4 v).
Definition init_idt : list (Z * Z) * gmap Z Entry :=
  (outl 0x40 (TIMER_FREQUENCY_BASE / TIMER_FREQUENCY), IDT).

(** The text of a string literal. *)
Definition text (s : string) : list Z := 
  (fun c => Z.of_nat (Ascii.nat_of_ascii c)) <$> String.list_ascii_of_string s.

Section handlers.
Context {P : Profile} (user_segments : Z * Z).
Context {Q : Type -> Type} `{ArrayQueue Q} {A : Type} `{AtomicWaker A}.

(** What handlers act on: the interrupt controllers ([PICS], with the vectors
    whose end was signalled), the scheduler, the CPU, the screen and the
    keyboard. *)
Record IrqState := mkIrq {
  pics_locked : bool;
  ended : list Z;
  scheduler : Scheduler;
  world : World;
  console : Console;
  keyboard : @KeyboardState Q A;
}.
Definition set_sched (s : Scheduler) (w : World) (st : IrqState) : IrqState :=
  mkIrq (pics_locked st) (ended st) s w (console st) (keyboard st).
Definition set_console (c : Console) (st : IrqState) : IrqState :=
  mkIrq (pics_locked st) (ended st) (scheduler st) (world st) c (keyboard st).
Definition set_keyboard (k : KeyboardState) (st : IrqState) : IrqState :=
  mkIrq (pics_locked st) (ended st) (scheduler st) (world st) (console st) k.

(** Control comes back to what was interrupted, or goes to a process. *)
Inductive irq_flow := Iret (st : IrqState) | Switched (st : IrqState).

(** [PICS.lock().notify_end_of_interrupt(i)] *)
Definition notify_end_of_interrupt (i : InterruptIndex) (st : IrqState) : outcome IrqState :=
  if pics_locked st then NoFuel
  else Ret (mkIrq false (ended st ++ [as_u8 i]) (scheduler st) (world st) (console st) (keyboard st)).

(** The guard of the scheduler is dropped when [tick] comes back. *)
Definition timer_interrupt_handler (fuel : nat) (st : IrqState) : outcome irq_flow :=
  st ← notify_end_of_interrupt Timer st;
  if sched_locked (world st) then NoFuel
  else
    '(s, w, switched) ← tick user_segments fuel (scheduler st) (mkWorld (cpu (world st)) true);
    if switched : bool then Ret (Switched (set_sched s w st))
    else Ret (Iret (set_sched s (mkWorld (cpu w) false) st)).

(** [scancode] is what the port 0x60 gives.  The warnings of [add_scancode] go
    to the screen. *)
Definition print_warnings (msgs : list string) (c : Console) : outcome Console :=
  for_each msgs (fun msg => _print [text msg; [NEWLINE]]) c.
Definition keyboard_interrupt_handler (scancode : Z) (st : IrqState) : outcome irq_flow :=
  k ← add_scancode scancode (keyboard st);
  c ← print_warnings (drop (length (printed (keyboard st))) (printed k)) (console st);
  st ← notify_end_of_interrupt Keyboard_ (set_console c (set_keyboard k st));
  Ret (Iret st).

(** The exceptions that print and return; [frame] is the stack frame and
    [code] the error code as they are formatted. *)
Definition print_exception (pieces : list (list Z)) (st : IrqState) : outcome irq_flow :=
  c ← _print (pieces ++ [[NEWLINE]]) (console st);
  Ret (Iret (set_console c st)).
Definition segment_not_present_handler (frame code : list Z) : IrqState -> outcome irq_flow :=
  print_exception [text "SEGMENT NOT PRESENT "; code; [NEWLINE]; frame].
Definition alignment_handler (frame code : list Z) : IrqState -> outcome irq_flow :=
  print_exception [text "ALIGNMENT CHECK "; code; [NEWLINE]; frame].
Definition invalid_tss_handler (frame code : list Z) : IrqState -> outcome irq_flow :=
  print_exception [text "INVALID TSS "; code; [NEWLINE]; frame].
Definition invalid_opcode_handler (frame : list Z) : IrqState -> outcome irq_flow :=
  print_exception [text "INVALID OPCODE"; [NEWLINE]; frame].
Definition breakpoint_handler (frame : list Z) : IrqState -> outcome irq_flow :=
  print_exception [text "BREAKPOINT EXCEPTION"; [NEWLINE]; frame].
Definition stack_segment_fault_handler (frame code : list Z) : IrqState -> outcome irq_flow :=
  print_exception [text "STACK SEGMENT FAULT: code "; code; [NEWLINE]; frame].
Definition protection_fault_handler (frame code : list Z) : IrqState -> outcome irq_flow :=
  print_exception [text "PROTECTION FAULT: code "; code; [NEWLINE]; frame].
Definition double_fault_handler (st : IrqState) : outcome irq_flow := Panic "DOUBLE FAULT EXCEPTION".
(** Prints on the serial port, then [hlt_loop]: it never comes back. *)
Definition page_fault_handler (st : IrqState) : outcome irq_flow := NoFuel.

(** The delivery of an interrupt to the handler in the table; for a vector that
    has none the CPU raises the exception 11 instead. *)
Definition dispatch (fuel : nat) (vector : Z) (scancode : Z) (frame code : list Z) (st : IrqState)
    : outcome irq_flow :=
  match handler_fn <$> IDT !! vector with
  | None => segment_not_present_handler frame code st
  | Some breakpoint => breakpoint_handler frame st
  | Some double_fault => double_fault_handler st
  | Some page_fault => page_fault_handler st
  | Some timer_interrupt => timer_interrupt_handler fuel st
  | Some keyboard_interrupt => keyboard_interrupt_handler scancode st
  | Some protection_fault => protection_fault_handler frame code st
  | Some stack_segment_fault => stack_segment_fault_handler frame code st
  | Some invalid_opcode => invalid_opcode_handler frame st
  | Some invalid_tss => invalid_tss_handler frame code st
  | Some alignment => alignment_handler frame code st
  | Some segment_not_present => segment_not_present_handler frame code st
  end.

Definition irq_state (f : irq_flow) : IrqState := match f with Iret st | Switched st => st end.

(** ** Locks *)

(** Handing control to a process releases the lock of the scheduler. *)
Lemma swap_tasks_unlocks fuel s w s' w' :
  swap_tasks user_segments fuel s w = Ret (s', w', true) -> sched_locked w' = false.
Proof.
  unfold swap_tasks. intros Hs.
  destruct (match get (Scheduler.tasks s) (current_task s) with Some t => _ | None => (s, w, false) end)
    as [[s1 w1] resumed].
  destruct resumed; [done|]. inv_bind Hs. destruct a as [i s2].
  destruct (get (Scheduler.tasks s2) (current_task s2)); [|done]. by injection Hs as <- <-.
Qed.

Lemma tick_unlocks fuel s w s' w' : tick user_segments fuel s w = Ret (s', w', true) -> sched_locked w' = false.
Proof.
  unfold tick. destruct (negb (is_enabled s)); [done|]. intros Ht. inv_bind Ht. cbv zeta in Ht.
  case_match; [by eapply swap_tasks_unlocks|done].
Qed.

(** The locks of the kernel that handlers take. *)
Definition unlocked (st : IrqState) : Prop :=
  pics_locked st = false /\ sched_locked (world st) = false /\ writer_locked (console st) = false.

Lemma _print_unlocks pieces c c' : writer_locked c = false -> _print pieces c = Ret c' -> writer_locked c' = false.
Proof. intros Hc Hp. unfold _print in Hp. rewrite Hc in Hp. inv_bind Hp. by injection Hp as <-. Qed.

Lemma print_exception_unlocks pieces st r : unlocked st -> print_exception pieces st = Ret r ->
  unlocked (irq_state r) /\ ended (irq_state r) = ended st.
Proof.
  intros (Hp & Hs & Hc) Hr. unfold print_exception in Hr. inv_bind Hr. injection Hr as <-.
  by apply _print_unlocks in Ha.
Qed.

Lemma timer_unlocks fuel st r : unlocked st -> timer_interrupt_handler fuel st = Ret r ->
  unlocked (irq_state r) /\ ended (irq_state r) = ended st ++ [32].
Proof.
  intros (Hp & Hs & Hc) Hr. unfold timer_interrupt_handler, notify_end_of_interrupt in Hr. rewrite Hp in Hr.
  cbn [mbind outcome_bind world] in Hr. rewrite Hs in Hr. inv_bind Hr. destruct a as [[s w] [ ]].
  - injection Hr as <-. by apply tick_unlocks in Ha.
  - by injection Hr as <-.
Qed.

Lemma keyboard_unlocks scancode st r : unlocked st -> keyboard_interrupt_handler scancode st = Ret r ->
  unlocked (irq_state r) /\ ended (irq_state r) = ended st ++ [33].
Proof.
  intros (Hp & Hs & Hc) Hr. unfold keyboard_interrupt_handler, notify_end_of_interrupt in Hr. inv_bind Hr.
  inv_bind Hr. rename a0 into c. cbn [pics_locked set_console set_keyboard] in Hr. rewrite Hp in Hr.
  injection Hr as <-. split; [|done]. split; [done|]. split; [done|]. cbn. revert Hc Ha0. clear.
  unfold print_warnings. generalize (console st). induction (drop _ _) as [|msg l IH]; intros c0 Hc; [by intros [= <-]|].
  cbn. intros Hr. inv_bind Hr. apply (IH a0); [|done]. by eapply _print_unlocks.
Qed.

(** C21: the locks of the kernel are free again when an interrupt has been
    handled, whatever the interrupt was and whether control returned or went
    to a process; and an interrupt of the timer or the keyboard has been
    acknowledged, once. *)
Theorem interrupts_release_locks fuel vector scancode frame code st r :
  unlocked st -> dispatch fuel vector scancode frame code st = Ret r ->
  unlocked (irq_state r) /\
  ended (irq_state r) = ended st ++ (if decide (vector = 32 \/ vector = 33) then [vector] else []).
Proof.
  intros Hu Hd. unfold dispatch in Hd. destruct (IDT !! vector) as [[h ist]|] eqn:E.
  - apply elem_of_map_to_list in E. vm_compute in E.
    repeat (apply elem_of_cons in E as [[= -> -> ->]|E]; [cbn in Hd;
      first [by apply timer_unlocks in Hd | by apply keyboard_unlocks in Hd
        | apply print_exception_unlocks in Hd as [? ->]; [|done]; by rewrite app_nil_r | done]|]).
    by apply elem_of_nil in E.
  - cbn in Hd. apply print_exception_unlocks in Hd as [Hd ->]; [|done]. split; [done|].
    rewrite decide_False; [by rewrite app_nil_r|]. intros [-> | ->]; done.
Qed.

(** A timer interrupt that arrives while the lock of the scheduler is taken is
    never finished. *)
Lemma timer_interrupt_deadlock fuel st :
  sched_locked (world st) = true -> timer_interrupt_handler fuel st = NoFuel.
Proof.
  intros Hl. unfold timer_interrupt_handler, notify_end_of_interrupt.
  destruct (pics_locked st); [done|]. cbn [mbind outcome_bind world]. by rewrite Hl.
Qed.
End handlers.

(** ** Examples *)

#[local] Existing Instance list_queue_ops.
#[local] Existing Instance option_waker.

Definition example_irq (s : Scheduler) (locked : bool) : @IrqState list_queue (option TaskWaker) :=
  mkIrq false [] s (mkWorld (example_machine 0x9000 0 0) locked)
    (mkConsole (Vga.new example_video) false false) (mkKeyboard None None (100%positive, []) []).

(** An enabled scheduler, one tick before the end of the time slice. *)
Definition example_ready : Scheduler :=
  mkScheduler [Scheduler.mkTask READY example_process 1] 19 2 (USIZE_MAX - 1) true.

Lemma interrupts_release_locks_witness :
  exists st, dispatch (P := dev_profile) (0x2b, 0x23) 5 32 0 [] [] (example_irq example_ready false) = Ret (Switched st) /\
    unlocked st /\ ended st = [32].
Proof.
  destruct (dispatch (P := dev_profile) (0x2b, 0x23) 5 32 0 [] [] (example_irq example_ready false))
    as [[st|st]| |] eqn:E; try (exfalso; revert E; vm_compute; discriminate).
  exists st. split; [reflexivity|].
  apply (interrupts_release_locks (P := dev_profile) (0x2b, 0x23) 5 32 0 [] [] _ (Switched st)) in E.
  - exact E.
  - split; [reflexivity|]. split; reflexivity.
Defined.
