(* ===== verification/Preempt.v ===== *)
(** * Preemption of a process

    What a timer interrupt does to the program it interrupts.  The CPU saves
    the context of a user program on the kernel stack of the task state segment
    ([TSS] of [src/src/gdt.rs]), [timer_interrupt_handler] of
    [src/src/interrupts.rs] runs the scheduler on that stack, and [deactivate]
    and [activate] of [src/src/process.rs] leave and enter it.  A process that
    is alone is not disturbed; two processes overwrite each other's context,
    because all of them are interrupted on the same stack. *)
From S2P Require Import Prelude Asm Context Scheduler SchedulerSpec Vga Executor Keyboard Gdt Interrupts.

(** ** The delivery of an interrupt *)

(** RFLAGS as it is pushed: bit 1 is always set. *)
Definition rflags (m : machine) : Z := 2 + (if int_flag m then 2 ^ IF_BIT else 0).

(** A selector whose two low bits are 3 is one of user mode. *)
Definition user_mode (m : machine) : bool := Z.land (cs m) 3 =? 3.

(** The stack an interrupt without a stack of its own starts on. *)
Definition interrupt_stack (tss : TaskStateSegment) (m : machine) : Z :=
  let sp := if user_mode m then default 0 (head (privilege_stack_table tss)) else rf m RSP in
  sp - sp mod 16.

(** The CPU saves the context it interrupts and goes on in the kernel, with
    interrupts off; coming from user mode it also clears SS. *)
Definition interrupt_entry (tss : TaskStateSegment) (kernel_cs handler : Z) (m : machine) : machine :=
  let m0 := set_rf (rset RSP (interrupt_stack tss m) (rf m)) m in
  let m1 := push_word (rip m) (push_word (cs m) (push_word (rflags m) (push_word (rf m RSP)
              (push_word (ss m) m0)))) in
  set_rip handler (set_int_flag false (set_segments kernel_cs (if user_mode m then 0 else ss m) m1)).

(** ** The compiled handler *)

(** The code around the Rust functions: from the entry of the handler to the
    point where [deactivate] reads the registers; from the return of [tick] to
    the [iretq]; and from the return of [deactivate] with [true] to the
    [iretq]. *)
Class TimerCode := {
  timer_enter : machine -> machine;
  after_tick : machine -> machine;
  after_resume : machine -> machine;
}.

(** The registers [deactivate] saves, beside RSP. *)
Definition saved_regs : list reg := [RBX; RBP; R12; R13; R14; R15].

(** The segments and the address space are the same. *)
Definition same_context (m m' : machine) : Prop := cs m' = cs m /\ ss m' = ss m /\ cr3 m' = cr3 m.

(** The conventions of the compiler: the handler has [depth] bytes of the stack
    below its frame when [deactivate] reads the registers, and writes at most
    [reach] bytes below it; it restores all registers, given the callee-saved
    ones and its part of the stack.  Where it continues and what it makes of
    RSP depends on that part of the stack only. *)
Class TimerCodeLaws `{TimerCode} := {
  depth : Z;
  reach : Z;
  depth_range : DEACTIVATE_FRAME + 8 <= depth <= reach;
  reach_range : reach <= 0x8000;
  enter_rsp : forall m, reach <= rf m RSP < 2 ^ 64 -> rf (timer_enter m) RSP = rf m RSP - depth;
  enter_mem : forall m a, reach <= rf m RSP < 2 ^ 64 -> a < rf m RSP - reach \/ rf m RSP <= a ->
    mem (timer_enter m) a = mem m a;
  enter_context : forall m, same_context m (timer_enter m);
  tick_law : forall m m', reach <= rf m RSP < 2 ^ 64 ->
    rf m' RSP = rf m RSP - depth -> (forall r, r ∈ saved_regs -> rf m' r = rf (timer_enter m) r) ->
    (forall a, rf m RSP - depth <= a < rf m RSP -> mem m' a = mem (timer_enter m) a) ->
    (forall r, rf (after_tick m') r = rf m r) /\
    (forall a, a < rf m RSP - reach \/ rf m RSP <= a -> mem (after_tick m') a = mem m' a) /\
    same_context m' (after_tick m');
  resume_law : forall m m', let ret := rf m RSP - depth + DEACTIVATE_FRAME in
    reach <= rf m RSP < 2 ^ 64 -> rip m' = mem (timer_enter m) ret -> rf m' RAX = 1 -> rf m' RSP = ret + 8 ->
    (forall a, ret <= a < rf m RSP -> mem m' a = mem (timer_enter m) a) ->
    rf (after_resume m') RSP = rf m RSP /\
    (forall a, a < rf m RSP - reach \/ rf m RSP <= a -> mem (after_resume m') a = mem m' a) /\
    same_context m' (after_resume m') /\
    ((forall r, r ∈ saved_regs -> rf m' r = rf (timer_enter m) r) -> forall r, rf (after_resume m') r = rf m r);
}.

Section preempt.
Context {P : Profile} `{DescriptorTable} {Q : Type -> Type} `{ArrayQueue Q} {A : Type} `{AtomicWaker A}.
Context {C : TimerCode} (tss : TaskStateSegment) (handler : Z).
Abbreviation irq := (@IrqState Q A).

Definition timer_entry (m : machine) : machine := interrupt_entry tss (code_selector GDT.2) handler m.

(** A timer interrupt while [m] runs, up to the next instruction of a program.
    A process that [activate] starts is in user mode at once; one that it
    resumes first returns through the handler that had interrupted it. *)
Definition timer_interrupt (fuel : nat) (m : machine) (st : irq) : outcome (machine * irq) :=
  let w := mkWorld (timer_enter (timer_entry m)) (sched_locked (world st)) in
  f ← timer_interrupt_handler set_usermode_segments fuel (set_sched (scheduler st) w st);
  match f with
  | Iret st => Ret (iretq (after_tick (cpu (world st))), st)
  | Switched st =>
      let m := cpu (world st) in
      Ret (if user_mode m then m else iretq (after_resume m), st)
  end.

(** ** The interrupt frame *)

(** The context of [m] in the five words below [top]. *)
Record frame (top : Z) (m : machine) (f : Z -> Z) : Prop := {
  frame_rip : f (top - 40) = rip m;
  frame_cs : f (top - 32) = cs m;
  frame_flags : f (top - 24) = rflags m;
  frame_rsp : f (top - 16) = rf m RSP;
  frame_ss : f (top - 8) = ss m;
}.

Lemma timer_entry_frame m top :
  user_mode m = true -> interrupt_stack tss m = top -> 40 <= top < 2 ^ 64 -> let m0 := timer_entry m in
  frame top m (mem m0) /\ rf m0 RSP = top - 40 /\ (forall r, r <> RSP -> rf m0 r = rf m r) /\
  (forall a, a < top - 40 \/ top <= a -> mem m0 a = mem m a) /\ cs m0 = 8 /\ cr3 m0 = cr3 m.
Proof.
  intros Hu Hs Htop m0. subst m0. unfold timer_entry, interrupt_entry. rewrite Hs.
  set (mt := set_rf (rset RSP top (rf m)) m). assert (Ht : rf mt RSP = top) by (unfold mt; by asm_read).
  rewrite (push_word_at top (ss m)) by (done || lia). rewrite (push_word_at (top - 8) (rf m RSP)) by (asm_read; done || lia).
  rewrite (push_word_at (top - 8 - 8) (rflags m)) by (asm_read; done || lia).
  rewrite (push_word_at (top - 8 - 8 - 8) (cs m)) by (asm_read; done || lia).
  rewrite (push_word_at (top - 8 - 8 - 8 - 8) (rip m)) by (asm_read; done || lia).
  cbn [rf mem cs cr3 set_rip set_int_flag set_segments].
  destruct GDT_selectors as (r1 & r2 & _ & _ & HG). split_and!.
  - split; asm_read; try done; match goal with |- mset ?x _ _ ?y = _ => replace y with x by lia end; by asm_read.
  - asm_read. lia.
  - intros r Hr. unfold mt. asm_read. by rewrite !rset_ne by congruence.
  - intros a Ha. by asm_read.
  - by rewrite HG.
  - done.
Qed.

Lemma iretq_frame top m m' :
  in_u 16 (cs m) -> in_u 16 (ss m) -> 40 <= top < 2 ^ 64 -> frame top m (mem m') -> rf m' RSP = top - 40 ->
  let m2 := iretq m' in
  rip m2 = rip m /\ cs m2 = cs m /\ ss m2 = ss m /\ int_flag m2 = int_flag m /\ rf m2 RSP = rf m RSP /\
  (forall r, r <> RSP -> rf m2 r = rf m' r) /\ mem m2 = mem m' /\ cr3 m2 = cr3 m'.
Proof.
  intros Hc Hs Htop [F1 F2 F3 F4 F5] Hsp m2. subst m2. unfold iretq. rewrite Hsp.
  cbn [rip cs ss int_flag rf mem cr3 set_rf set_segments set_int_flag set_rip].
  rewrite !wrap_small by range.
  replace (top - 40 + 8) with (top - 32) by lia. replace (top - 40 + 16) with (top - 24) by lia.
  replace (top - 40 + 24) with (top - 16) by lia. replace (top - 40 + 32) with (top - 8) by lia.
  rewrite F1, F2, F3, F4, F5, !Z.mod_small by range. split_and!; try done.
  - unfold rflags, IF_BIT. by destruct (int_flag m).
  - intros r Hr. by rewrite rset_ne by congruence.
Qed.

(** ** One process *)

Context {L : TimerCodeLaws} (fault_stack kernel_stack : Z).
Context (Htss : TSS fault_stack kernel_stack = Ret tss) (Hstack : 0 <= kernel_stack < 2 ^ 64 - 0x10000).

Definition on_kernel_stack (a : Z) : Prop := kernel_stack <= a < kernel_stack + 0x10000.
Definition stack_top : Z := let sp := kernel_stack + 0x10000 in sp - sp mod 16.

Lemma user_stack m : user_mode m = true -> interrupt_stack tss m = stack_top.
Proof using Htss. intros Hu. unfold interrupt_stack. rewrite Hu. cbn in Htss. by injection Htss as <-. Qed.
Lemma stack_top_range : kernel_stack + 0xfff0 < stack_top <= kernel_stack + 0x10000.
Proof. unfold stack_top. cbv zeta. pose proof (Z.mod_pos_bound (kernel_stack + 0x10000) 16). lia. Qed.

(** The machine of a user program. *)
Record in_user (m : machine) : Prop := {
  iu_mode : user_mode m = true;
  iu_cs : in_u 16 (cs m);
  iu_ss : in_u 16 (ss m);
}.

(** What a program can see of the machine is the same: everything but the
    kernel stack. *)
Record same_user (m m' : machine) : Prop := {
  su_regs : forall r, rf m' r = rf m r;
  su_rip : rip m' = rip m;
  su_flag : int_flag m' = int_flag m;
  su_cs : cs m' = cs m;
  su_ss : ss m' = ss m;
  su_cr3 : cr3 m' = cr3 m;
  su_mem : forall a, ~ on_kernel_stack a -> mem m' a = mem m a;
}.

#[export] Instance same_user_equiv : Equivalence same_user.
Proof.
  split.
  - intros m. by split.
  - intros m m' [? ? ? ? ? ? Hm]. split; try by symmetry. intros a Ha. by rewrite Hm.
  - intros m1 m2 m3 [? ? ? ? ? ? H2] [? ? ? ? ? ? H3]. split; try congruence. intros a Ha. by rewrite H3, H2.
Qed.

(** Where the handler is when [deactivate] reads the registers. *)
Lemma enter_user m : in_user m -> let m1 := timer_enter (timer_entry m) in
  rf (timer_entry m) RSP = stack_top - 40 /\ rf m1 RSP = stack_top - 40 - depth /\
  frame stack_top m (mem m1) /\ cs m1 = 8 /\ cr3 m1 = cr3 m /\
  (forall r, r <> RSP -> rf (timer_entry m) r = rf m r) /\
  (forall a, ~ on_kernel_stack a -> mem m1 a = mem m a).
Proof using L Htss Hstack.
  intros Hu m1. pose proof stack_top_range. pose proof depth_range. pose proof reach_range. unfold DEACTIVATE_FRAME in *.
  destruct (timer_entry_frame m stack_top) as ([F1 F2 F3 F4 F5] & Hsp & Hr & Hm & Hcs & Hcr);
    [apply Hu|by apply user_stack, Hu|lia|].
  destruct (enter_context (timer_entry m)) as (Ec & _ & Ecr).
  assert (Hmem : forall a, stack_top - 40 <= a -> mem m1 a = mem (timer_entry m) a).
  { intros a Ha. apply enter_mem; rewrite Hsp; lia. }
  split_and!; [done|unfold m1; rewrite enter_rsp; lia| |unfold m1; congruence|unfold m1; congruence|done|].
  - split; rewrite Hmem by lia; done.
  - intros a Ha. unfold on_kernel_stack in Ha. unfold m1. rewrite enter_mem by (rewrite Hsp; lia). apply Hm. lia.
Qed.

(** A process that was saved in the interrupt of [m] returns through the
    handler over the stack that the interrupt of [m'] left.  RIP, RSP, the
    segments and the flags are those of [m'], whatever [m] was. *)
Lemma resume_over p m m' mk :
  in_user m -> in_user m' -> cs mk = 8 ->
  (forall a, stack_top - 40 - depth <= a -> mem mk a = mem (timer_enter (timer_entry m')) a) ->
  let saved := (deactivate p (timer_enter (timer_entry m))).1.1 in
  let m2 := activate set_usermode_segments saved mk in
  user_mode m2 = false /\
  let m3 := iretq (after_resume m2) in
  rip m3 = rip m' /\ rf m3 RSP = rf m' RSP /\ cs m3 = cs m' /\ ss m3 = ss m' /\ int_flag m3 = int_flag m' /\
  cr3 m3 = containing_frame (page_table_addr p) /\
  (forall a, ~ on_kernel_stack a -> mem m3 a = mem mk a) /\
  (m = m' -> forall r, rf m3 r = rf m r).
Proof using L Htss Hstack.
  intros Hu Hu' Hcs Hmem saved m2.
  pose proof stack_top_range. pose proof depth_range. pose proof reach_range. unfold DEACTIVATE_FRAME in *.
  destruct (enter_user m Hu) as (Hs0 & Hs1 & _ & _ & _ & Hr & _).
  destruct (enter_user m' Hu') as (Hs0' & Hs1' & [F1 F2 F3 F4 F5] & _).
  set (ret := stack_top - 40 - depth + DEACTIVATE_FRAME).
  destruct (activate_saved set_usermode_segments p (timer_enter (timer_entry m)) mk (mem mk ret))
    as (Arip & Arax & Arsp & Aregs & Acr & _ & Amem & Acs & _); [unfold DEACTIVATE_FRAME; lia..|by rewrite Hs1|].
  fold saved m2 in Arip, Arax, Arsp, Aregs, Acr, Amem, Acs.
  destruct (resume_law (timer_entry m') m2) as (Rsp & Rmem & (Rcs & _ & Rcr) & Rregs).
  { lia. }
  { rewrite Arip, Hs0'. apply Hmem. unfold ret, DEACTIVATE_FRAME. lia. }
  { done. }
  { rewrite Arsp, Hs1, Hs0'. done. }
  { rewrite Hs0', Amem. intros a Ha. unfold DEACTIVATE_FRAME in Ha. apply Hmem. lia. }
  rewrite Hs0' in Rsp, Rmem.
  destruct (iretq_frame stack_top m' (after_resume m2)) as (I1 & I2 & I3 & I4 & I5 & I6 & I7 & I8);
    [apply Hu'|apply Hu'|lia| |done|].
  { split; rewrite Rmem, Amem, Hmem by lia; done. }
  cbv zeta. split; [unfold user_mode; by rewrite Acs, Hcs|]. split_and!; [done..|by rewrite I8, Rcr| |].
  - intros a Ha. rewrite I7, Rmem, Amem; [done|]. unfold on_kernel_stack in Ha. lia.
  - intros <- r. destruct (decide (r = RSP)) as [->|Hne]; [done|]. rewrite I6, Rregs, Hr by done. done.
Qed.

(** The only task of the scheduler runs, in the address space at [a]. *)
Definition alone (a : Z) (s : Scheduler) : Prop :=
  exists t, Scheduler.tasks s = [t] /\ current_task s = 0 /\ 0 <= current_task_ticks s < QUANTUM /\
    page_table_addr (process t) = a.

(** The current task is saved and the task behind it, which is ready, runs. *)
Lemma swap_next fuel ts k n c e w t p m b r i :
  get ts c = Some t -> Z.of_nat (length ts) < 2 ^ 64 -> deactivate (process t) (cpu w) = (p, m, b) ->
  i = (if Z.of_nat (length ts) <=? c + 1 then 0 else c + 1) ->
  get (<[Z.to_nat c := set_process p t]> ts) i = Some r -> state r = READY ->
  swap_tasks set_usermode_segments (S fuel) (mkScheduler ts k n c e) w =
  Ret (mkScheduler (<[Z.to_nat i := set_state RUNNING r]> (<[Z.to_nat c := set_process p t]> ts)) 0 n i e,
       mkWorld (activate set_usermode_segments (process r) m) false, true).
Proof.
  intros Ht Hlen Hd Hi Hr Hready. unfold swap_tasks. cbn [Scheduler.tasks current_task]. rewrite Ht, Hd.
  pose proof (deactivate_false (process t) (cpu w)) as Hb. rewrite Hd in Hb. cbn in Hb. subst b.
  unfold with_task. cbn [Scheduler.tasks current_task]. rewrite Ht. cbv iota.
  apply get_Some in Ht as Hc. destruct Hc as [Hc Hl].
  set (ts' := <[Z.to_nat c := set_process p t]> ts) in *. assert (Hlen' : length ts' = length ts) by apply length_insert.
  unfold set_tasks, set_ticks. cbn [Scheduler.tasks current_task current_task_ticks next_task_id is_enabled].
  clearbody ts'. rewrite get_next_task_nonempty by (cbn; intros ->; by destruct ts). cbn [get_next_task_loop current_task]. rewrite add_u_ok, ret_bind by range. cbv zeta.
  cbn [Scheduler.tasks set_current]. rewrite Hlen', <-Hi. cbn [Scheduler.tasks set_current]. rewrite Hr, Hready, ret_bind.
  cbn [Scheduler.tasks current_task set_current]. rewrite Hr. done.
Qed.

Lemma tick_alone fuel s w a : alone a s ->
  exists s', alone a s' /\
    (tick set_usermode_segments (S fuel) s w = Ret (s', w, false) \/
     exists p, page_table_addr p = a /\ let '(p', m, _) := deactivate p (cpu w) in
       tick set_usermode_segments (S fuel) s w =
       Ret (s', mkWorld (activate set_usermode_segments p' m) false, true)).
Proof.
  intros (t & Ht & Hc & Hti & Ha). unfold tick. destruct (is_enabled s); cbn [negb].
  2: { exists s. split; [by exists t|by left]. }
  unfold QUANTUM in *. rewrite add_u_ok, ret_bind by range. cbv zeta. cbn [current_task_ticks set_ticks].
  case_bool.
  2: { eexists. split; [|by left]. exists t. cbn. unfold QUANTUM. by split_and!; try lia. }
  destruct s as [ts k n c e]. cbn in Ht, Hc, Hti. subst ts c.
  destruct (deactivate (process t) (cpu w)) as [[p' m] b] eqn:Hd.
  eexists. split; [|right; exists (process t); split; [done|]; rewrite Hd;
    by apply (swap_next fuel [set_state READY t] (k + 1) n 0 e w (set_state READY t) p' m b
      (set_process p' (set_state READY t)) 0)].
  eexists. cbn. split_and!; try done. by injection Hd as <- <- <-.
Qed.

Definition unlocked_irq (st : irq) : Prop := pics_locked st = false /\ sched_locked (world st) = false.

Lemma timer_interrupt_tick fuel m st s w b : unlocked_irq st ->
  tick set_usermode_segments fuel (scheduler st) (mkWorld (timer_enter (timer_entry m)) true) = Ret (s, w, b) ->
  exists st', scheduler st' = s /\ pics_locked st' = false /\
    console st' = console st /\ keyboard st' = keyboard st /\ sched_locked (world st') = (if b then sched_locked w else false) /\
    timer_interrupt fuel m st =
    Ret (if b then if user_mode (cpu w) then cpu w else iretq (after_resume (cpu w))
         else iretq (after_tick (cpu w)), st').
Proof.
  intros [Hp Hs] Ht. unfold timer_interrupt, timer_interrupt_handler, notify_end_of_interrupt.
  cbn [pics_locked set_sched]. rewrite Hp, ret_bind. cbn [world scheduler sched_locked cpu set_sched]. rewrite Hs, Ht, ret_bind.
  destruct b; rewrite ret_bind; cbn [world cpu set_sched]; eexists; split_and!; [| | | | |done| | | | | |done]; done.
Qed.

(** A timer interrupt does not disturb a process that is alone. *)
Lemma timer_interrupt_alone fuel a m st :
  in_user m -> unlocked_irq st -> alone a (scheduler st) -> cr3 m = containing_frame a ->
  exists m' st', timer_interrupt (S fuel) m st = Ret (m', st') /\ same_user m m' /\
    alone a (scheduler st') /\ unlocked_irq st' /\ console st' = console st /\ keyboard st' = keyboard st.
Proof using L Htss Hstack.
  intros Hu Hl Ha Hcr. pose proof stack_top_range. pose proof depth_range. pose proof reach_range.
  unfold DEACTIVATE_FRAME in *.
  destruct (enter_user m Hu) as (Hs0 & Hs1 & F & Hcs & Hcr1 & Hr & Hm).
  destruct (tick_alone fuel (scheduler st) (mkWorld (timer_enter (timer_entry m)) true) a Ha)
    as (s' & Ha' & [Ht | (p & Hp & Ht)]).
  - destruct (timer_interrupt_tick _ m st _ _ _ Hl Ht) as (st' & <- & Hp' & Hco & Hk & Hs' & ->). cbn [cpu] in *.
    destruct (tick_law (timer_entry m) (timer_enter (timer_entry m))) as (Tr & Tm & Tc & _ & Tcr); [lia|lia|done..|].
    destruct (iretq_frame stack_top m (after_tick (timer_enter (timer_entry m))))
      as (I1 & I2 & I3 & I4 & I5 & I6 & I7 & I8); [apply Hu|apply Hu|lia| |by rewrite Tr|].
    { destruct F. split; rewrite Tm by lia; done. }
    eexists _, st'. split; [done|]. split; [|done]. split; try done.
    + intros r. destruct (decide (r = RSP)) as [->|]; [done|]. by rewrite I6, Tr, Hr.
    + by rewrite I8, Tcr.
    + intros b Hb. unfold on_kernel_stack in Hb. rewrite I7, Tm by lia. by apply Hm.
  - cbn [cpu] in Ht. destruct (deactivate p (timer_enter (timer_entry m))) as [[p' mk] b] eqn:Hd.
    destruct (timer_interrupt_tick _ m st _ _ _ Hl Ht) as (st' & <- & Hp' & Hco & Hk & Hs' & ->). cbn [cpu] in *.
    assert (Hmk : mem mk = mem (timer_enter (timer_entry m)) /\ cs mk = 8) by (by injection Hd as <- <- <-).
    destruct Hmk as [Hmk Hck].
    pose proof (resume_over p m m mk Hu Hu Hck) as HR. rewrite Hd in HR. cbn [fst] in HR.
    destruct HR as (-> & R1 & R2 & R3 & R4 & R5 & R6 & R7 & R8); [by rewrite Hmk|]. eexists _, st'. split; [done|]. split; [|done]. split; try done.
    + by apply R8.
    + by rewrite R6, Hp.
    + intros c Hb. by rewrite R7, Hmk, Hm.
Qed.

(** A program, step by step, with timer interrupts where [true] is. *)
Fixpoint run_user (user_step : machine -> machine) (fuel : nat) (arrivals : list bool) (m : machine) (st : irq)
    : outcome (machine * irq) :=
  match arrivals with
  | [] => Ret (m, st)
  | false :: l => run_user user_step fuel l (user_step m) st
  | true :: l => '(m, st) ← timer_interrupt fuel m st; run_user user_step fuel l m st
  end.

(** C9: a process that is alone runs as if there were no timer.  Whatever its
    instructions do, as long as they do not look at the kernel stack and stay
    in user mode and in the address space, and wherever timer interrupts come,
    the machine the program sees is the one it would have without them:
    registers, flags, segments, address space and memory. *)
Theorem preemption_transparent user_step fuel arrivals a m st :
  Proper (same_user ==> same_user) user_step ->
  (forall m, in_user m -> in_user (user_step m) /\ cr3 (user_step m) = cr3 m) ->
  in_user m -> unlocked_irq st -> alone a (scheduler st) -> cr3 m = containing_frame a ->
  exists m' st', run_user user_step (S fuel) arrivals m st = Ret (m', st') /\
    same_user (Nat.iter (length (filter (fun b => b = false) arrivals)) user_step m) m' /\
    alone a (scheduler st') /\ unlocked_irq st'.
Proof using L Htss Hstack.
  intros Hprop Hstep. revert m st. induction arrivals as [|[ ] l IH]; intros m st Hu Hl Ha Hcr.
  - exists m, st. by split_and!.
  - destruct (timer_interrupt_alone fuel a m st) as (m1 & st1 & E & Hm1 & Ha1 & Hl1 & _); [done..|].
    assert (Hu1 : in_user m1).
    { destruct Hm1, Hu. split; [unfold user_mode in *; congruence|congruence..]. }
    destruct (IH m1 st1) as (m' & st' & E' & Hm' & Hrest); [done..|by rewrite (su_cr3 _ _ Hm1)|].
    exists m', st'. cbn [run_user]. rewrite E, ret_bind. split; [done|]. split; [|done].
    rewrite <-Hm'. rewrite filter_cons_False by done.
    clear -Hm1 Hprop. induction (length _) as [|n IHn]; [done|]. cbn. by apply Hprop.
  - destruct (Hstep m Hu) as [Hu1 Hc1].
    destruct (IH (user_step m) st) as (m' & st' & E' & Hm' & Hrest); [done..|by rewrite Hc1|].
    exists m', st'. split; [done|]. split; [|done]. rewrite filter_cons_True by done. cbn [length].
    by rewrite Nat.iter_succ_r.
Qed.

(** ** Two processes *)

(** The end of a quantum, with the task behind the current one ready. *)
Lemma tick_next fuel ts n c w t p m b r i :
  get ts c = Some t -> Z.of_nat (length ts) < 2 ^ 64 -> deactivate (process t) (cpu w) = (p, m, b) ->
  i = (if Z.of_nat (length ts) <=? c + 1 then 0 else c + 1) -> i <> c ->
  get ts i = Some r -> state r = READY ->
  tick set_usermode_segments (S fuel) (mkScheduler ts (QUANTUM - 1) n c true) w =
  Ret (mkScheduler (<[Z.to_nat i := set_state RUNNING r]> (<[Z.to_nat c := set_process p (set_state READY t)]> ts)) 0 n i true,
       mkWorld (activate set_usermode_segments (process r) m) false, true).
Proof.
  intros Ht Hlen Hd Hi Hne Hr Hready. unfold tick. cbn [is_enabled negb current_task_ticks].
  unfold QUANTUM. rewrite add_u_ok, ret_bind by range. cbv zeta.
  cbn [current_task_ticks set_ticks Scheduler.tasks current_task next_task_id is_enabled].
  change (20 <=? 20 - 1 + 1) with true. cbv iota. unfold with_task, set_ticks.
  cbn [Scheduler.tasks current_task current_task_ticks next_task_id is_enabled]. rewrite Ht. unfold set_tasks.
  cbn [Scheduler.tasks current_task current_task_ticks next_task_id is_enabled].
  apply get_Some in Ht as Hc. destruct Hc as [Hc Hl]. apply get_Some in Hr as Hi'. destruct Hi' as [Hi' Hri].
  rewrite (swap_next fuel _ _ n c true w (set_state READY t) p m b r i).
  - by rewrite list_insert_insert_eq.
  - rewrite get_lookup, list_lookup_insert_eq by lia. done.
  - by rewrite length_insert.
  - done.
  - by rewrite length_insert.
  - by rewrite get_lookup, list_insert_insert_eq, list_lookup_insert_ne by lia.
  - done.
Qed.

(** C31: a process that was preempted while another one ran continues with the
    context of the other.  The first process is interrupted in [ma] at the end
    of its quantum and the second, which is new, starts at its entry point.  It
    is interrupted in [mb] at the end of its own; then the first continues, in
    its address space, but at the instruction and on the stack that the second
    had in [mb]: both were interrupted on the same kernel stack. *)
Theorem preemption_mixes_contexts fuel ta tb n ma mb st :
  scheduler st = mkScheduler [ta; tb] (QUANTUM - 1) n 0 true -> unlocked_irq st ->
  state tb = READY -> process_state (process tb) = None -> in_user ma -> in_user mb ->
  exists m1 st1, timer_interrupt (S fuel) ma st = Ret (m1, st1) /\
    rip m1 = entry_offset (process tb) /\ cr3 m1 = containing_frame (page_table_addr (process tb)) /\
    forall st2, scheduler st2 = set_ticks (QUANTUM - 1) (scheduler st1) -> unlocked_irq st2 ->
      exists m2 st3, timer_interrupt (S fuel) mb st2 = Ret (m2, st3) /\
        cr3 m2 = containing_frame (page_table_addr (process ta)) /\
        rip m2 = rip mb /\ rf m2 RSP = rf mb RSP.
Proof using L Htss Hstack.
  intros Hs Hl Hready Hnew Hua Hub. pose proof stack_top_range. pose proof depth_range. pose proof reach_range.
  unfold DEACTIVATE_FRAME in *.
  destruct (enter_user ma Hua) as (_ & Hsa & _). destruct (enter_user mb Hub) as (_ & _ & _ & Hcb & _).
  set (wa := mkWorld (timer_enter (timer_entry ma)) true).
  destruct (deactivate (process ta) (cpu wa)) as [[pa mka] b] eqn:Hda.
  pose proof (tick_next fuel [ta; tb] n 0 wa ta pa mka b tb 1 eq_refl ltac:(cbn; lia) Hda eq_refl ltac:(lia) eq_refl
    Hready) as Ht.
  rewrite <-Hs in Ht. destruct (timer_interrupt_tick _ ma st _ _ _ Hl Ht) as (st1 & Hs1 & _ & _ & _ & _ & ->). cbn [cpu].
  assert (Hka : rf mka RSP = stack_top - 40 - depth) by (rewrite <-Hsa; by injection Hda as _ <- _).
  destruct (activate_first_run set_usermode_segments (process tb) mka 0x33 0x2b) as (F1 & F2 & F3 & F4 & F5 & F6);
    [apply set_usermode_segments_eq|range..|done|lia|].
  assert (Hmode : user_mode (activate set_usermode_segments (process tb) mka) = true).
  { unfold user_mode. by rewrite F4. }
  rewrite Hmode. eexists _, st1. split; [done|]. split_and!; [done..|]. intros st2 Hs2 Hl2.
  set (wb := mkWorld (timer_enter (timer_entry mb)) true).
  destruct (deactivate (process tb) (cpu wb)) as [[pb mkb] b'] eqn:Hdb.
  pose proof (tick_next fuel [set_process pa (set_state READY ta); set_state RUNNING tb] n 1 wb (set_state RUNNING tb)
    pb mkb b' (set_process pa (set_state READY ta)) 0 eq_refl ltac:(cbn; lia) Hdb eq_refl ltac:(lia) eq_refl
    eq_refl) as Ht2.
  assert (Hs2' : scheduler st2 =
    mkScheduler [set_process pa (set_state READY ta); set_state RUNNING tb] (QUANTUM - 1) n 1 true).
  { by rewrite Hs2, Hs1. }
  rewrite <-Hs2' in Ht2. destruct (timer_interrupt_tick _ mb st2 _ _ _ Hl2 Ht2) as (st3 & _ & _ & _ & _ & _ & ->). cbn [cpu].
  assert (Hmk : mem mkb = mem (timer_enter (timer_entry mb)) /\ cs mkb = 8) by (by injection Hdb as _ <- _).
  destruct Hmk as [Hmk Hck]. pose proof (resume_over (process ta) ma mb mkb Hua Hub Hck) as HR.
  change (timer_enter (timer_entry ma)) with (cpu wa) in HR. rewrite Hda in HR. cbn [fst] in HR.
  destruct HR as (HR0 & R1 & R2 & _ & _ & _ & R6 & _); [by rewrite Hmk|].
  cbn [process set_process]. rewrite HR0. eexists _, st3. by split_and!.
Qed.
End preempt.

(** ** Examples *)

(** A handler that saves all registers, with the return address of [deactivate]
    where [activate] expects it. *)
Definition handler_regs : list reg := [RAX; RBX; RCX; RDX; RSI; RDI; RBP; R8; R9; R10; R11; R12; R13; R14; R15].

#[local] Instance example_code : TimerCode := {|
  timer_enter m := exec 0 [PushImm 0x5000; AddImm RSP (- DEACTIVATE_FRAME)] (exec 0 (Push <$> handler_regs) m);
  after_tick m := exec 0 (Pop <$> rev handler_regs) (exec 0 [AddImm RSP (DEACTIVATE_FRAME + 8)] m);
  after_resume m := exec 0 (Pop <$> rev handler_regs) m;
|}.

Lemma example_enter m : 328 <= rf m RSP < 2 ^ 64 ->
  rf (timer_enter m) RSP = rf m RSP - 328 /\
  (forall a, a < rf m RSP - 128 \/ rf m RSP <= a -> mem (timer_enter m) a = mem m a) /\
  (forall i r, handler_regs !! i = Some r -> mem (timer_enter m) (rf m RSP - 8 * (Z.of_nat i + 1)) = rf m r).
Proof.
  intros H. destruct (exec_pushes 0 handler_regs m) as [E1 E2 E3 E4 E5]; [cbn; lia|reg_decide|].
  cbn [length handler_regs] in E1. unfold timer_enter, example_code.
  assert (Eb : forall a, a < rf m RSP - 120 -> mem (exec 0 (Push <$> handler_regs) m) a = mem m a).
  { intros a Ha. apply exec_pushes_below; cbn; lia. }
  set (mp := exec 0 (Push <$> handler_regs) m) in *. clearbody mp.
  rewrite exec_cons. cbn [step]. rewrite (push_word_at (rf m RSP - 120)) by lia.
  rewrite exec_cons, exec_nil. cbn [step]. unfold DEACTIVATE_FRAME. asm_read.
  rewrite wrap_small by range. split; [lia|]. split.
  - intros a Ha. rewrite mset_ne by lia. destruct Ha; [apply Eb; lia|by apply E4].
  - intros i r Hi. apply lookup_lt_Some in Hi as Hlt. cbn [length handler_regs] in Hlt. rewrite mset_ne by lia. by apply E3.
Qed.

(** The pops undo the pushes. *)
Lemma example_pops m m' : 328 <= rf m RSP < 2 ^ 64 -> rf m' RSP = rf m RSP - 120 ->
  (forall a, rf m RSP - 120 <= a < rf m RSP -> mem m' a = mem (timer_enter m) a) ->
  let m2 := exec 0 (Pop <$> rev handler_regs) m' in (forall r, rf m2 r = rf m r) /\ mem m2 = mem m'.
Proof.
  intros H Hsp Hm m2. destruct (example_enter m H) as (_ & _ & Hw).
  destruct (exec_pops 0 (rev handler_regs) m') as [E1 E2 E3 E4 E5]; [lia|cbn; lia|reg_decide|reg_decide|].
  split; [|done]. intros r. destruct (decide (r = RSP)) as [->|Hne].
  { unfold m2. rewrite E1. cbn. lia. }
  assert (Hi : exists i, handler_regs !! i = Some r /\ rev handler_regs !! (14 - i)%nat = Some r /\ (i <= 14)%nat).
  { destruct r; [exists 0%nat|exists 1%nat|exists 2%nat|exists 3%nat|exists 4%nat|exists 5%nat|exists 6%nat|done
      |exists 7%nat|exists 8%nat|exists 9%nat|exists 10%nat|exists 11%nat|exists 12%nat|exists 13%nat|exists 14%nat];
      split_and!; done || lia. }
  destruct Hi as (i & Hi & Hj & Hle). unfold m2. rewrite (E2 _ _ Hj), <-(Hw _ _ Hi), Hsp.
  replace (rf m RSP - 120 + 8 * Z.of_nat (14 - i)) with (rf m RSP - 8 * (Z.of_nat i + 1)) by lia. apply Hm. lia.
Qed.

#[local] Instance example_code_laws : TimerCodeLaws.
Proof.
  refine {| depth := 328; reach := 328 |}; unfold DEACTIVATE_FRAME; try done.
  - intros m H. by destruct (example_enter m H).
  - intros m a H Ha. destruct (example_enter m H) as (_ & -> & _); [done|lia].
  - intros m m' H Hsp Hr Hm. unfold after_tick, example_code. rewrite exec_cons, exec_nil. cbn [step].
    unfold DEACTIVATE_FRAME. rewrite Hsp, wrap_small by range.
    set (m1 := set_rf _ m'). assert (H1 : rf m1 RSP = rf m RSP - 120) by (unfold m1; asm_read; lia).
    destruct (example_pops m m1 H H1) as [E1 E2]; [intros a Ha; apply Hm; lia|].
    split; [exact E1|]. split; [by rewrite E2|done].
  - intros m m' H Hrip Hax Hsp Hm. unfold after_resume, example_code.
    destruct (example_pops m m' H) as [E1 E2]; [lia|intros a Ha; apply Hm; lia|].
    split; [by rewrite E1|]. split; [by rewrite E2|]. by split.
Defined.

Lemma example_tss : TSS 0x20000 0x40000 = Ret (mkTSS [0x50000; 0; 0] [0x25000; 0; 0; 0; 0; 0; 0]).
Proof. done. Qed.

Definition example_user (ip sp cr : Z) : machine :=
  mkMachine (rset RSP sp (fun _ => 7)) (fun _ => 0) ip true 0x33 0x2b cr 0.
Lemma example_in_user ip sp cr : in_user (example_user ip sp cr).
Proof. by split. Qed.
Definition running (p : Process) : Scheduler.Task := Scheduler.mkTask RUNNING p 1.

(** A program that counts in RAX: three steps, with interrupts before the
    second and after the third, the first of which ends the quantum. *)
Definition count_step (m : machine) : machine :=
  set_rip (rip m + 4) (set_rf (rset RAX (rf m RAX + 1) (rf m)) m).

Lemma preemption_transparent_witness :
  exists m' st', run_user (P := dev_profile) (mkTSS [0x50000; 0; 0] [0x25000; 0; 0; 0; 0; 0; 0]) 0x6000
      count_step 5 [false; true; false; false; true] (example_user 0x400000 0x80f000 0x5000)
      (example_irq (mkScheduler [running example_process] 19 2 0 true) false) = Ret (m', st') /\
    rf m' RAX = 10 /\ rip m' = 0x40000c.
Proof.
  destruct (preemption_transparent (P := dev_profile) _ 0x6000 0x20000 0x40000 example_tss ltac:(lia) count_step 4
    [false; true; false; false; true] 0x5123 (example_user 0x400000 0x80f000 0x5000)
    (example_irq (mkScheduler [running example_process] 19 2 0 true) false)) as (m' & st' & E & Hm & _).
  - intros m m' [E1 E2 E3 E4 E5 E6 E7]. split; cbn; try done.
    + intros r. unfold rset. rewrite !E1. done.
    + by rewrite E2.
  - intros m Hm. split; [destruct Hm; by split|done].
  - apply example_in_user.
  - done.
  - by exists (running example_process).
  - done.
  - exists m', st'. split; [exact E|]. split; [apply (su_regs _ _ _ Hm RAX)|apply (su_rip _ _ _ Hm)].
Defined.

Lemma preemption_mixes_contexts_witness :
  let tss := mkTSS [0x50000; 0; 0] [0x25000; 0; 0; 0; 0; 0; 0] in
  let tb := Scheduler.mkTask READY (mkProcess [] None 0x7000 0x600000 []) 3 in
  let mb := example_user 0x600010 0x80e000 0x7000 in
  let st := example_irq (mkScheduler [running example_process; tb] 19 4 0 true) false in
  exists m1 st1, timer_interrupt (P := dev_profile) tss 0x6000 5 (example_user 0x400000 0x80f000 0x5000) st = Ret (m1, st1) /\
    rip m1 = 0x600000 /\
    exists m2 st3, timer_interrupt (P := dev_profile) tss 0x6000 5 mb
        (set_sched (set_ticks 19 (scheduler st1)) (mkWorld m1 false) st) = Ret (m2, st3) /\
      cr3 m2 = 0x5000 /\ rip m2 = 0x600010.
Proof.
  intros tss tb mb st.
  destruct (preemption_mixes_contexts (P := dev_profile) tss 0x6000 0x20000 0x40000 example_tss ltac:(lia) 4
    (running example_process) tb 4 (example_user 0x400000 0x80f000 0x5000) mb st) as (m1 & st1 & E1 & H1 & _ & H2);
    [done|done|done|done|apply example_in_user|apply example_in_user|].
  exists m1, st1. split; [exact E1|]. split; [exact H1|].
  destruct (H2 (set_sched (set_ticks 19 (scheduler st1)) (mkWorld m1 false) st)) as (m2 & st3 & E2 & H3 & H4 & _);
    [exact eq_refl|split; exact eq_refl|].
  exists m2, st3. split; [exact E2|]. split; [exact H3|exact H4].
Defined.
