(* ===== verification/Disk.v ===== *)
(** * The AHCI disk driver

    [src/src/disk.rs]: the structures the driver shares with the host bus
    adapter (HBA), the set-up of the ports, and the transfers.  The HBA is
    device state of a type [D] behind the register accesses of the class
    [AhciDevice]; memory that is handed to it comes from [DmaMemory].  The
    structures in memory are typed: a command table is the record that the
    code casts its buffer to. *)
From S2P Require Import Prelude Fs Acpi Pci.

(** ** Structures *)

Inductive FISType :=
| RegH2D | RegD2H | DMAActivate | DMASetup | Data | BIST | PIOSetup | DeviceBits.
Definition FISType_discr (t : FISType) : Z :=
  match t with
  | RegH2D => 0x27 | RegD2H => 0x34 | DMAActivate => 0x39 | DMASetup => 0x41
  | Data => 0x46 | BIST => 0x58 | PIOSetup => 0x5F | DeviceBits => 0xA1
  end.

(** The type byte of a FIS in zeroed memory is none of the types yet, so the
    field is the byte. *)
Record FISRegH2D := mkFIS {
  fis_type : Z;
  fis_bit_field : Z;
  fis_command : Z;
  feature_low : Z;
  lba0 : Z;
  lba1 : Z;
  lba2 : Z;
  fis_device : Z;
  lba3 : Z;
  lba4 : Z;
  lba5 : Z;
  feature_high : Z;
  fis_count : Z;
  icc : Z;
  control : Z;
}.
Definition FIS_REG_H2D_SIZE : Z := 20.

Record HBACommandHeader := mkHeader {
  bit_field0 : Z;
  bit_field1 : Z;
  prdt_length : Z;
  prd_byte_count : Z;
  command_table_descriptor_base : Z;
}.

Record HBAPRDTEntry := mkPRDT { data_base : Z; prdt_bit_field : Z }.

Record HBACommandTable := mkTable { command_fis : FISRegH2D; prdt_entries : list HBAPRDTEntry }.

(** A table as [alloc_zeroed] returns it. *)
Definition zeroed_table : HBACommandTable :=
  mkTable (mkFIS 0 0 0 0 0 0 0 0 0 0 0 0 0 0 0) (replicate 8 (mkPRDT 0 0)).

(** The registers of a port, and those of the HBA the driver reads. *)
Inductive HBAPort :=
| cl_base | cl_base_upper | fis_base | fis_base_upper | interrupt_status | interrupt_enable
| command_status | task_file_data | signature | sata_status | sata_control | sata_error
| sata_active | command_issue.
Inductive HBA :=
| host_capability
| port_implemented
| hba_ports (i : Z) (r : HBAPort).

#[export] Instance HBAPort_eq_dec : EqDecision HBAPort.
Proof. solve_decision. Defined.
#[export] Instance HBA_eq_dec : EqDecision HBA.
Proof. solve_decision. Defined.

(** The references to the HBA and to its port are the address of the HBA and
    the index of the port; a buffer is its address with what is in it. *)
Record AHCIPort := mkPort {
  hba_mem : Z;
  port : Z;
  command_list_buffer : list HBACommandHeader;
  fis_buffer : Z;
  command_table_buffers : list (Z * HBACommandTable);
}.

(** ** The hardware and the libraries *)

(** Register accesses.  A write of [command_issue] makes the HBA fetch the
    commands of the port from memory, so it gets what is there. *)
Class AhciDevice (D : Type) := {
  read_reg : Z -> HBA -> D -> Z * D;
  write_reg : Z -> HBA -> Z -> D -> D;
  write_command_issue : AHCIPort -> Z -> D -> D;
}.

(** The global allocator, the mapper and the bytes of memory, by virtual
    ([load]) and by physical ([ram]) address. *)
Class DmaMemory (D : Type) := {
  dma_alloc : Z -> Z -> D -> Z * D;
  dma_alloc_zeroed : Z -> Z -> D -> Z * D;
  dma_dealloc : Z -> Z -> Z -> D -> D;
  translate_addr : Z -> option Z;
  load : Z -> D -> Z;
  ram : D -> Z -> Z;
}.

(** The setters that [bitfield_struct] generates: [set_bits off len raw v]
    writes [v] into the [len] bits of [raw] from bit [off] on. *)
Class BitfieldStruct := { set_bits : Z -> Z -> Z -> Z -> outcome Z }.
Definition bits (off len raw : Z) : Z := Z.land (Z.shiftr raw off) (Z.ones len).
Class BitfieldLaws `{BitfieldStruct} := {
  set_bits_fits : forall off len raw v, 0 <= off -> 0 < len -> 0 <= raw -> 0 <= v < 2 ^ len ->
    exists raw', set_bits off len raw v = Ret raw' /\ 0 <= raw' /\ bits off len raw' = v /\
      forall i, 0 <= i -> ~ off <= i < off + len -> Z.testbit raw' i = Z.testbit raw i;
  set_bits_nonneg : forall off len raw v raw', 0 <= raw -> set_bits off len raw v = Ret raw' -> 0 <= raw';
}.

(** ** The driver *)

Definition U32_MAX : Z := 2 ^ 32 - 1.

Record Vec_u8 := mkVec { vec_ptr : Z; vec_len : Z }.

Record DiskState (D : Type) := mkDisk { PORTS : list AHCIPort; dev : D }.
Arguments mkDisk {D} _ _.
Arguments PORTS {D} _.
Arguments dev {D} _.

Section driver.
Context {P : Profile} {D : Type} `{AhciDevice D} `{DmaMemory D} `{BitfieldStruct}.

(** [Vec::with_capacity]: an empty vector has a dangling pointer. *)
Definition with_capacity (n : Z) (d : D) : outcome (Z * D) :=
  if n =? 0 then Ret (1, d)
  else
    let (ptr, d) := dma_alloc n 1 d in
    if ptr =? 0 then Panic "memory allocation failed" else Ret (ptr, d).
Definition drop_vec (v : Vec_u8) (d : D) : D :=
  if vec_len v =? 0 then d else dma_dealloc (vec_ptr v) (vec_len v) 1 d.

Definition port_read (p : AHCIPort) (r : HBAPort) : D -> Z * D := read_reg (hba_mem p) (hba_ports (port p) r).
Definition port_write (p : AHCIPort) (r : HBAPort) : Z -> D -> D := write_reg (hba_mem p) (hba_ports (port p) r).

(** The loop of [find_command_slot]. *)
Fixpoint find_slot (slots : Z) (range : list Z) : outcome (option Z) :=
  match range with
  | [] => Ret None
  | i :: range =>
      s ← shr_u 32 slots i;
      if Z.land s 1 =? 0 then Ret (Some i) else find_slot slots range
  end.

Definition find_command_slot (p : AHCIPort) (d : D) : outcome (option Z * D) :=
  let (active, d) := port_read p sata_active d in
  let (issue, d) := port_read p command_issue d in
  let slots := Z.lor active issue in
  let (cap, d) := read_reg (hba_mem p) host_capability d in
  r ← find_slot slots (seqZ 0 (Z.land (Z.shiftr cap 8) 0xF0));
  Ret (r, d).

(** [set_command_fis_length] and [set_write] on a command header. *)
Definition set_header (write : Z) (h : HBACommandHeader) : outcome HBACommandHeader :=
  b ← set_bits 0 5 (bit_field0 h) (FIS_REG_H2D_SIZE / 4);
  b ← set_bits 6 1 b write;
  Ret (mkHeader b (bit_field1 h) (prdt_length h) (prd_byte_count h) (command_table_descriptor_base h)).

(** The entry of the region table: [data_base] and [bit_field]. *)
Definition set_prdt (phys sector_count : Z) (e : HBAPRDTEntry) : outcome HBAPRDTEntry :=
  n ← mul_u 64 512 sector_count;
  n ← sub_u 64 n 1;
  b ← set_bits 0 22 (prdt_bit_field e) n;
  b ← set_bits 31 1 b 1;
  Ret (mkPRDT phys b).

(** The command FIS. *)
Definition set_fis (command lba sector_count : Z) (f : FISRegH2D) : outcome FISRegH2D :=
  let lbas := to_le_bytes 8 lba in
  b ← set_bits 7 1 (fis_bit_field f) 1;
  l0 ← index lbas 0;
  l1 ← index lbas 1;
  l2 ← index lbas 2;
  l3 ← index lbas 3;
  l4 ← index lbas 4;
  l5 ← index lbas 5;
  Ret (mkFIS (FISType_discr RegH2D) b command (feature_low f) l0 l1 l2 64 l3 l4 l5 (feature_high f)
    sector_count (icc f) (control f)).

(** The loop that waits for the device to be neither busy nor requesting. *)
Fixpoint wait_ready (fuel : nat) (p : AHCIPort) (d : D) : outcome D :=
  match fuel with
  | O => NoFuel
  | S fuel =>
      let (tfd, d) := port_read p task_file_data d in
      if Z.land tfd 0x88 =? 0 then Ret d else wait_ready fuel p d
  end.

(** The loop that waits for the command, and the test behind it: [true] is a
    task file error. *)
Fixpoint wait_done (fuel : nat) (p : AHCIPort) (slot : Z) (d : D) : outcome (bool * D) :=
  match fuel with
  | O => NoFuel
  | S fuel =>
      let (ci, d) := port_read p command_issue d in
      m ← shl_u 32 1 slot;
      if Z.land ci m =? 0 then
        let (status, d) := port_read p interrupt_status d in
        Ret (Z.land (Z.shiftr status 30) 1 =? 1, d)
      else
        let (status, d) := port_read p interrupt_status d in
        if Z.land (Z.shiftr status 30) 1 =? 1 then Ret (true, d) else wait_done fuel p slot d
  end.

(** [command_issue |= 0b1 << slot] *)
Definition issue (p : AHCIPort) (slot : Z) (d : D) : outcome D :=
  let (command_issue, d) := port_read p command_issue d in
  m ← shl_u 32 1 slot;
  Ret (write_command_issue p (Z.lor command_issue m) d).

Definition set_list (p : AHCIPort) (l : list HBACommandHeader) : AHCIPort :=
  mkPort (hba_mem p) (port p) l (fis_buffer p) (command_table_buffers p).
Definition set_tables (p : AHCIPort) (l : list (Z * HBACommandTable)) : AHCIPort :=
  mkPort (hba_mem p) (port p) (command_list_buffer p) (fis_buffer p) l.

(** What both transfers do from the start to the choice of the buffer. *)
Definition begin_command (write : Z) (p : AHCIPort) (d : D) : outcome (Z * AHCIPort * D) :=
  let d := port_write p interrupt_status U32_MAX d in
  '(slot, d) ← find_command_slot p d;
  slot ← expect "No free command slots" slot;
  h ← index (command_list_buffer p) slot;
  h ← set_header write h;
  l ← index_set (command_list_buffer p) slot h;
  _ ← index (command_table_buffers p) slot;
  Ret (slot, set_list p l, d).

(** What both do with the physical address of the buffer. *)
Definition run_command (fuel : nat) (command lba sector_count phys slot : Z) (p : AHCIPort) (d : D)
    : outcome (bool * AHCIPort * D) :=
  '(a, cmd_table) ← index (command_table_buffers p) slot;
  prdt ← index (prdt_entries cmd_table) 0;
  prdt ← set_prdt phys sector_count prdt;
  l ← index_set (prdt_entries cmd_table) 0 prdt;
  fis ← set_fis command lba sector_count (command_fis cmd_table);
  tables ← index_set (command_table_buffers p) slot (a, mkTable fis l);
  let p := set_tables p tables in
  d ← wait_ready fuel p d;
  d ← issue p slot d;
  '(failed, d) ← wait_done fuel p slot d;
  Ret (failed, p, d).

Definition set_port (drive_num : Z) (p : AHCIPort) (st : DiskState D) (d : D) : DiskState D :=
  mkDisk (<[Z.to_nat drive_num := p]> (PORTS st)) d.

(** [read_sectors] *)
Definition read_sectors (fuel : nat) (drive_num lba sector_count : Z) (st : DiskState D)
    : outcome (result Vec_u8 DiskAccessError * DiskState D) :=
  p ← index (PORTS st) drive_num;
  '(slot, p, d) ← begin_command 0 p (dev st);
  n ← mul_u 64 512 sector_count;
  '(ptr, d) ← with_capacity n d;
  let output_buffer := mkVec ptr n in
  match translate_addr ptr with
  | None => Ret (Err NoCommandSlots, set_port drive_num p st (drop_vec output_buffer d))
  | Some phys =>
      '(failed, p, d) ← run_command fuel 0x25 lba sector_count phys slot p d;
      if failed : bool then Ret (Err TaskFileError, set_port drive_num p st (drop_vec output_buffer d))
      else Ret (Ok output_buffer, set_port drive_num p st d)
  end.

(** [write_sectors]: the buffer is dropped on every return. *)
Definition write_sectors (fuel : nat) (drive_num lba sector_count : Z) (buffer : Vec_u8) (st : DiskState D)
    : outcome (result unit DiskAccessError * DiskState D) :=
  p ← index (PORTS st) drive_num;
  '(slot, p, d) ← begin_command 1 p (dev st);
  match translate_addr (vec_ptr buffer) with
  | None => Ret (Err NoCommandSlots, set_port drive_num p st (drop_vec buffer d))
  | Some phys =>
      '(failed, p, d) ← run_command fuel 0x35 lba sector_count phys slot p d;
      let st := set_port drive_num p st (drop_vec buffer d) in
      Ret (if failed : bool then Err TaskFileError else Ok tt, st)
  end.

(** *** Set-up *)

(** The loop that waits for bits of [command_status] to be clear. *)
Fixpoint wait_stopped (fuel : nat) (stopped : Z -> bool) (hba i : Z) (d : D) : outcome D :=
  match fuel with
  | O => NoFuel
  | S fuel =>
      let (command_value, d) := read_reg hba (hba_ports i command_status) d in
      if stopped command_value then Ret d else wait_stopped fuel stopped hba i d
  end.

(** A header in memory that was not initialised: what its bytes say. *)
Definition header_at (a : Z) (d : D) : HBACommandHeader :=
  let n off w := le_val ((fun k => load (a + k) d) <$> seqZ off w) in
  mkHeader (n 0 1) (n 1 1) (n 2 2) (n 4 4) (n 8 8).

(** An address in a register and its upper half. *)
Definition write_base (hba i : Z) (low high : HBAPort) (phys : Z) (d : D) : D :=
  let d := write_reg hba (hba_ports i low) (Z.land phys U32_MAX) d in
  write_reg hba (hba_ports i high) (Z.shiftr phys 32) d.

(** The loop over the command headers, which allocates their tables. *)
Definition init_header (h : HBACommandHeader)
    (st : list HBACommandHeader * list (Z * HBACommandTable) * D)
    : outcome (list HBACommandHeader * list (Z * HBACommandTable) * D) :=
  let '(headers, tables, d) := st in
  let (mem, d) := dma_alloc_zeroed (32 * 256) 128 d in
  phys ← unwrap (translate_addr mem);
  Ret (headers ++ [mkHeader (bit_field0 h) (bit_field1 h) 8 (prd_byte_count h) phys],
       tables ++ [(mem, zeroed_table)], d).
Definition init_headers (headers : list HBACommandHeader) (d : D)
    : outcome (list HBACommandHeader * list (Z * HBACommandTable) * D) :=
  for_each headers init_header ([], [], d).

(** The body of the loop of [init_device] for a port with a device. *)
Definition init_port (fuel : nat) (hba i : Z) (d : D) : outcome (AHCIPort * D) :=
  let (command_value, d) := read_reg hba (hba_ports i command_status) d in
  let command_value := Z.land command_value (Z.lxor U32_MAX 0x0001) in
  let command_value := Z.land command_value (Z.lxor U32_MAX 0x0010) in
  let d := write_reg hba (hba_ports i command_status) command_value d in
  d ← wait_stopped fuel (fun v => (Z.land v 0x4000 =? 0) && (Z.land v 0x8000 =? 0)) hba i d;
  let (mem, d) := dma_alloc 1024 1024 d in
  let headers := (fun k => header_at (mem + 32 * k) d) <$> seqZ 0 32 in
  phys ← unwrap (translate_addr mem);
  let d := write_base hba i cl_base cl_base_upper phys d in
  let (fis, d) := dma_alloc 256 256 d in
  phys ← unwrap (translate_addr fis);
  let d := write_base hba i fis_base fis_base_upper phys d in
  '(headers, command_tables, d) ← init_headers headers d;
  d ← wait_stopped fuel (fun v => Z.land v 0x8000 =? 0) hba i d;
  let (command_value, d) := read_reg hba (hba_ports i command_status) d in
  let command_value := Z.lor command_value (Z.lor 0x01 0x100) in
  let d := write_reg hba (hba_ports i command_status) command_value d in
  Ret (mkPort hba i headers fis command_tables, d).

(** [init_device]; [mem] is the memory of the configuration spaces. *)
Definition init_device (fuel : nat) (mem : Z -> Z) (phys_offset controller : Z)
    (st : list AHCIPort * D) : outcome (list AHCIPort * D) :=
  abar_addr ← index (get_bars mem controller) 5;
  hba_ptr ← add_u 64 abar_addr phys_offset;
  for_each (seqZ 0 32)
    (fun i '(ports, d) =>
       let (implemented, d) := read_reg hba_ptr port_implemented d in
       m ← shl_u 32 1 i;
       if Z.land implemented m =? 0 then Ret (ports, d)
       else
         let (status, d) := read_reg hba_ptr (hba_ports i sata_status) d in
         if negb (Z.land status 0x101 =? 0x101) then Ret (ports, d)
         else
           '(ahci_port, d) ← init_port fuel hba_ptr i d;
           Ret (ports ++ [ahci_port], d))
    st.

(** [init]; [devices] is the static of [pci.rs]. *)
Definition is_ahci (mem : Z -> Z) (device_space : Z) : bool :=
  let device := get_identification mem device_space in
  (class device =? 0x1) && (ident_subclass device =? 0x6) && (interface device =? 0x1).

Definition init (fuel : nat) (mem : Z -> Z) (phys_offset : option Z) (devices : option (list Z))
    (st : DiskState D) : outcome (DiskState D) :=
  phys_offset ← expect "mapper not initialized" phys_offset;
  devices ← unwrap devices;
  let controllers := filter (fun a => is_ahci mem a = true) devices in
  '(ports, d) ← for_each controllers (init_device fuel mem phys_offset) ([], dev st);
  Ret (mkDisk ports d).

Definition get_disk_count (st : DiskState D) : Z := Z.of_nat (length (PORTS st)).
End driver.
