(* ===== verification/DiskSpec.v ===== *)
(** * What the disk driver does

    A specification of the host bus adapter (which command a slot holds, what
    a finished command has done), the invariant of the ports, and the proofs
    that [read_sectors] and [write_sectors] of [Disk] move the sectors; the
    driver is then an instance of the interface [BlockDevice] of the file
    system. *)
From S2P Require Import Prelude Fs FsSpec Acpi Pci Disk.

(** ** The specification of the hardware *)

(** A DMA transfer between [cmd_count] sectors from [cmd_lba] on and
    [cmd_len] bytes of memory at [cmd_addr]. *)
Record Command := mkCommand {
  cmd_write : bool;
  cmd_lba : Z;
  cmd_count : Z;
  cmd_addr : Z;
  cmd_len : Z;
}.

(** The command in a slot as the HBA finds it: a register FIS of five words
    with the command bit, no ATAPI command, the command READ DMA EXT or WRITE
    DMA EXT with the direction of the header, in LBA mode, and a first region
    in a table at the address the header gives. *)
Definition decode_command `{DmaMemory D} (p : AHCIPort) (slot : Z) : option Command :=
  h ← get (command_list_buffer p) slot;
  '(a, t) ← get (command_table_buffers p) slot;
  e ← head (prdt_entries t);
  let f := command_fis t in
  let write := fis_command f =? 0x35 in
  if (bits 0 5 (bit_field0 h) =? 5) && (bits 5 1 (bit_field0 h) =? 0) &&
     (bits 6 1 (bit_field0 h) =? Z.b2z write) && (1 <=? prdt_length h) &&
     bool_decide (translate_addr a = Some (command_table_descriptor_base h)) &&
     (fis_type f =? FISType_discr RegH2D) && (bits 7 1 (fis_bit_field f) =? 1) &&
     ((fis_command f =? 0x25) || write) && Z.testbit (fis_device f) 6
  then Some (mkCommand write (le_val [lba0 f; lba1 f; lba2 f; lba3 f; lba4 f; lba5 f]) (fis_count f)
               (data_base e) (bits 0 22 (prdt_bit_field e) + 1))
  else None.

(** [n] bytes of memory at a physical address. *)
Definition ram_bytes `{DmaMemory D} (d : D) (a n : Z) : list Z := (fun k => ram d (a + k)) <$> seqZ 0 n.

(** An image with new bytes at an offset. *)
Definition splice (img : list Z) (off : Z) (new : list Z) : list Z :=
  take (Z.to_nat off) img ++ new ++ drop (Z.to_nat off + length new) img.

(** An HBA with drives that have no defects.  [ready]: nothing is running and
    no error is reported.  [working d p slot c n]: the command [c] in [slot] of
    the port [p] is running, and will be found finished when [command_issue]
    has been read [n] more times. *)
Class AhciSpec (D : Type) := {
  ready : D -> Prop;
  working : D -> AHCIPort -> Z -> Command -> nat -> Prop;
  drive_image : D -> Z -> Z -> option (list Z);
  capability : Z -> Z;
  max_polls : nat;
  max_buffer : Z;
}.

Definition same_disks `{AhciSpec D} (d d' : D) : Prop :=
  forall hba i, drive_image d' hba i = drive_image d hba i.
Definition same `{AhciSpec D, DmaMemory D} (d d' : D) : Prop :=
  same_disks d d' /\ forall a, ram d' a = ram d a.

(** The command can be carried out by the drive of the port. *)
Definition possible (img : list Z) (c : Command) : Prop :=
  0 <= cmd_lba c /\ 1 <= cmd_count c /\ cmd_len c = SECTOR * cmd_count c /\
  SECTOR * (cmd_lba c + cmd_count c) <= Z.of_nat (length img).

(** What a finished command has done. *)
Definition completed `{AhciSpec D, DmaMemory D} (p : AHCIPort) (c : Command) (img : list Z) (d d' : D) : Prop :=
  if cmd_write c then
    (forall a, ram d' a = ram d a) /\
    forall hba i, drive_image d' hba i =
      if bool_decide (hba = hba_mem p /\ i = port p)
      then Some (splice img (SECTOR * cmd_lba c) (ram_bytes d (cmd_addr c) (cmd_len c)))
      else drive_image d hba i
  else same_disks d d' /\
    forall k, 0 <= k < cmd_len c -> get img (SECTOR * cmd_lba c + k) = Some (ram d' (cmd_addr c + k)).

(** What the driver relies on. *)
Class AhciLaws (D : Type) `{AhciDevice D, DmaMemory D, AhciSpec D} := {
  read_ready : forall d hba r v d', ready d -> read_reg hba r d = (v, d') ->
    ready d' /\ same d d' /\
    match r with
    | host_capability => v = capability hba
    | hba_ports _ sata_active | hba_ports _ command_issue => v = 0
    | hba_ports _ task_file_data => Z.land v 0x88 = 0
    | _ => True
    end;
  clear_ready : forall d hba i v, ready d ->
    let d' := write_reg hba (hba_ports i interrupt_status) v d in ready d' /\ same d d';
  issue_works : forall d p slot c img, ready d -> 0 <= slot < 32 ->
    decode_command p slot = Some c -> drive_image d (hba_mem p) (port p) = Some img -> possible img c ->
    let d' := write_command_issue p (2 ^ slot) d in
    same d d' /\ exists n, (n < max_polls)%nat /\ working d' p slot c n;
  working_status : forall d p slot c n v d', working d p slot c n ->
    port_read p interrupt_status d = (v, d') ->
    Z.testbit v 30 = false /\ working d' p slot c n /\ same d d';
  working_issue : forall d p slot c n v d', working d p slot c (S n) ->
    port_read p command_issue d = (v, d') ->
    Z.testbit v slot = true /\ working d' p slot c n /\ same d d';
  working_done : forall d p slot c img v d', working d p slot c 0 ->
    drive_image d (hba_mem p) (port p) = Some img -> port_read p command_issue d = (v, d') ->
    Z.testbit v slot = false /\ ready d' /\ completed p c img d d';
  ready_status : forall d hba i v d', ready d ->
    read_reg hba (hba_ports i interrupt_status) d = (v, d') -> Z.testbit v 30 = false;
  image_size : forall d hba i img, drive_image d hba i = Some img ->
    Z.of_nat (length img) <= SECTOR * 2 ^ 48;
  max_buffer_range : 256 <= max_buffer <= 8192;
  alloc_ready : forall d n ptr d', ready d -> 1 <= n <= SECTOR * max_buffer -> dma_alloc n 1 d = (ptr, d') ->
    ready d' /\ same_disks d d' /\ ptr <> 0 /\
    exists phys, forall k, 0 <= k < n -> translate_addr (ptr + k) = Some (phys + k);
  dealloc_ready : forall d ptr n, ready d ->
    let d' := dma_dealloc ptr n 1 d in ready d' /\ same_disks d d';
  load_ram : forall d v phys, translate_addr v = Some phys -> load v d = ram d phys;
}.

(** ** The invariant of the ports *)

(** The tables belong to the headers.  The bit of an ATAPI command is never
    written by the driver: it is what was in memory. *)
Record slot_wf `{DmaMemory D} (h : HBACommandHeader) (t : Z * HBACommandTable) : Prop := {
  header_prdt : prdt_length h = 8;
  header_table : translate_addr t.1 = Some (command_table_descriptor_base h);
  header_bits : 0 <= bit_field0 h;
  table_prdt : length (prdt_entries t.2) = 8%nat;
  table_bits : Forall (fun e => 0 <= prdt_bit_field e) (prdt_entries t.2);
  table_fis : 0 <= fis_bit_field (command_fis t.2);
}.
Record port_wf `{DmaMemory D} (p : AHCIPort) : Prop := {
  port_slots : length (command_list_buffer p) = 32%nat;
  port_tables : Forall2 slot_wf (command_list_buffer p) (command_table_buffers p);
}.
Definition no_atapi (p : AHCIPort) : Prop := Forall (fun h => bits 5 1 (bit_field0 h) = 0) (command_list_buffer p).
Definition disk_wf `{DmaMemory D} (st : DiskState D) : Prop := Forall port_wf (PORTS st).

(** ** Bit fields *)

Lemma bits_ext off len a b :
  0 <= off -> 0 <= len -> (forall i, off <= i < off + len -> Z.testbit a i = Z.testbit b i) ->
  bits off len a = bits off len b.
Proof.
  intros Ho Hl Hab. unfold bits. apply Z.bits_inj'. intros i Hi.
  rewrite !Z.land_spec, !Z.shiftr_spec by done. destruct (decide (i < len)).
  - rewrite Hab by lia. done.
  - by rewrite Z.ones_spec_high, !andb_false_r by lia.
Qed.

Section fields.
Context {P : Profile} `{BitfieldLaws}.

Lemma set_header_spec write h :
  0 <= bit_field0 h -> 0 <= write < 2 -> exists h', set_header write h = Ret h' /\
    0 <= bit_field0 h' /\ bits 0 5 (bit_field0 h') = 5 /\ bits 6 1 (bit_field0 h') = write /\
    bits 5 1 (bit_field0 h') = bits 5 1 (bit_field0 h) /\ prdt_length h' = prdt_length h /\
    command_table_descriptor_base h' = command_table_descriptor_base h.
Proof.
  intros Hh Hw. unfold set_header. change (FIS_REG_H2D_SIZE / 4) with 5.
  destruct (set_bits_fits 0 5 (bit_field0 h) 5) as (b1 & -> & Hb1 & Hlen & H1); [lia..|].
  rewrite ret_bind. destruct (set_bits_fits 6 1 b1 write) as (b2 & -> & Hb2 & Hwr & H2); [lia..|].
  eexists. split; [done|]. cbn. split_and!; try done.
  - transitivity (bits 0 5 b1); [|done]. apply bits_ext; [lia..|]. intros. apply H2; lia.
  - apply bits_ext; [lia..|]. intros. rewrite H2, H1; lia || done.
Qed.

Lemma set_prdt_spec phys n e :
  0 <= prdt_bit_field e -> 1 <= n <= 8192 -> exists e', set_prdt phys n e = Ret e' /\
    data_base e' = phys /\ 0 <= prdt_bit_field e' /\ bits 0 22 (prdt_bit_field e') + 1 = SECTOR * n.
Proof.
  intros He Hn. unfold set_prdt. do 2 run_arith.
  destruct (set_bits_fits 0 22 (prdt_bit_field e) (512 * n - 1)) as (b1 & -> & Hb1 & Hlen & _); [lia..|].
  rewrite ret_bind. destruct (set_bits_fits 31 1 b1 1) as (b2 & -> & Hb2 & _ & H2); [lia..|].
  eexists. split; [done|]. cbn. split_and!; try done.
  rewrite <- (bits_ext 0 22 b1 b2), Hlen; unfold SECTOR; [lia..|]. intros. symmetry. apply H2; lia.
Qed.

(** The six bytes of the address are those of the block number. *)
Lemma set_fis_spec command lba n f :
  0 <= fis_bit_field f -> 0 <= lba < 2 ^ 48 -> exists f', set_fis command lba n f = Ret f' /\
    0 <= fis_bit_field f' /\ bits 7 1 (fis_bit_field f') = 1 /\ fis_type f' = FISType_discr RegH2D /\
    fis_command f' = command /\ fis_count f' = n /\ fis_device f' = 64 /\
    le_val [lba0 f'; lba1 f'; lba2 f'; lba3 f'; lba4 f'; lba5 f'] = lba.
Proof.
  intros Hf Hlba. unfold set_fis.
  destruct (set_bits_fits 7 1 (fis_bit_field f) 1) as (b & -> & Hb & Hc & _); [lia..|].
  eexists. split; [done|]. cbn [fis_bit_field fis_type fis_command fis_count fis_device lba0 lba1 lba2 lba3 lba4 lba5].
  split_and!; try done.
  change (le_val (to_le_bytes 6 lba) = lba). rewrite le_val_to_le_bytes. by apply Z.mod_small.
Qed.
End fields.

(** ** Transfers *)

Section transfers.
Context {P : Profile} `{L : AhciLaws D} `{BF : BitfieldLaws}.

(** The code reads a number of slots that is not zero. *)
Definition has_slots (p : AHCIPort) : Prop := 0 < Z.land (Z.shiftr (capability (hba_mem p)) 8) 0xF0.

Lemma same_trans d1 d2 d3 : same d1 d2 -> same d2 d3 -> same d1 d3.
Proof. intros [H12 R12] [H23 R23]. split; [intros hba i; by rewrite H23|intros a; by rewrite R23]. Qed.

Lemma same_image d d' : same d d' -> forall hba i, drive_image d' hba i = drive_image d hba i.
Proof. by intros [? _]. Qed.

Lemma completed_from p c img d1 d2 d3 : same d1 d2 -> completed p c img d2 d3 -> completed p c img d1 d3.
Proof.
  intros [H12 R12]. unfold completed. destruct (cmd_write c).
  - intros [R23 H23]. split; [intros; by rewrite R23|]. intros hba i. rewrite H23, H12.
    case_match; [|done]. do 2 f_equal. unfold ram_bytes. apply list_fmap_ext. intros. apply R12.
  - intros [H23 HR]. split; [|done]. intros hba i. by rewrite H23.
Qed.

Lemma completed_to p c img d1 d2 d3 : completed p c img d1 d2 -> same d2 d3 -> completed p c img d1 d3.
Proof.
  unfold completed. intros H12 [H23 R23]. destruct (cmd_write c); destruct H12 as [R12 H12].
  - split; [intros a; by rewrite R23|intros hba i; by rewrite H23].
  - split; [intros hba i; by rewrite H23|]. intros. rewrite R23. by apply H12.
Qed.

(** A read of a register in a ready state. *)
Lemma read_ready_eq d hba r : ready d ->
  exists v d', read_reg hba r d = (v, d') /\ ready d' /\ same d d' /\
    match r with
    | host_capability => v = capability hba
    | hba_ports _ sata_active | hba_ports _ command_issue => v = 0
    | hba_ports _ task_file_data => Z.land v 0x88 = 0
    | _ => True
    end.
Proof using L. intros Hd. destruct (read_reg hba r d) as [v d'] eqn:E. exists v, d'. split; [done|]. by eapply read_ready. Qed.

(** All slots are free, and the first one is taken. *)
Lemma find_command_slot_ready p d : ready d -> has_slots p ->
  exists d', find_command_slot p d = Ret (Some 0, d') /\ ready d' /\ same d d'.
Proof using L.
  intros Hd Hs. unfold find_command_slot, port_read.
  destruct (read_ready_eq d (hba_mem p) (hba_ports (port p) sata_active) Hd) as (v1 & d1 & -> & Hd1 & S1 & ->).
  destruct (read_ready_eq d1 (hba_mem p) (hba_ports (port p) command_issue) Hd1) as (v2 & d2 & -> & Hd2 & S2 & ->).
  destruct (read_ready_eq d2 (hba_mem p) host_capability Hd2) as (v3 & d3 & -> & Hd3 & S3 & ->).
  exists d3. split; [|split; [done|eauto using same_trans]]. unfold has_slots in Hs. by rewrite seqZ_cons by lia.
Qed.

(** The header of the slot is set for a transfer. *)
Definition header_set (write : Z) (p : AHCIPort) (slot : Z) : Prop :=
  exists h, get (command_list_buffer p) slot = Some h /\
    bits 0 5 (bit_field0 h) = 5 /\ bits 6 1 (bit_field0 h) = write.

Lemma port_slot p slot : port_wf p -> 0 <= slot < 32 ->
  exists h a t, get (command_list_buffer p) slot = Some h /\
    get (command_table_buffers p) slot = Some (a, t) /\ slot_wf h (a, t).
Proof.
  intros [Hl Ht] Hs. rewrite !get_lookup by lia.
  destruct (lookup_lt_is_Some_2 (command_list_buffer p) (Z.to_nat slot)) as [h Hh]; [lia|].
  destruct (Forall2_lookup_l _ _ _ _ _ Ht Hh) as ([a t] & Hat & Hwf). by exists h, a, t.
Qed.

Lemma begin_command_ready write p d :
  ready d -> port_wf p -> no_atapi p -> has_slots p -> 0 <= write < 2 ->
  exists p' d', begin_command write p d = Ret (0, p', d') /\ ready d' /\ same d d' /\ port_wf p' /\
    no_atapi p' /\ hba_mem p' = hba_mem p /\ port p' = port p /\ header_set write p' 0.
Proof using All.
  intros Hd Hp Ha Hs Hw. unfold begin_command.
  destruct (clear_ready d (hba_mem p) (port p) U32_MAX Hd) as [Hd1 S1].
  destruct (find_command_slot_ready p _ Hd1 Hs) as (d2 & E & Hd2 & S2). unfold port_write. rewrite E.
  rewrite ret_bind. cbv beta iota zeta. cbn [expect mbind outcome_bind].
  destruct (port_slot p 0 Hp) as (h & a & t & Hh & Ht & Hwf); [lia|].
  unfold index. rewrite Hh, Ht. cbn [expect mbind outcome_bind].
  destruct (set_header_spec write h (header_bits _ _ Hwf) Hw) as (h' & -> & Hb & H5 & H6 & Hat & Hpr & Htab).
  rewrite ret_bind. destruct Hp as [Hlen Hall].
  rewrite index_set_ok by lia. cbn [expect mbind outcome_bind]. eexists _, d2. split; [done|].
  split; [done|]. split; [eauto using same_trans|]. rewrite get_lookup in Hh by lia. rewrite get_lookup in Ht by lia. split_and!; try done.
  - split; cbn; [by rewrite length_insert|].
    rewrite <- (list_insert_id (command_table_buffers p) _ _ Ht). apply Forall2_insert; [done|].
    destruct Hwf. by split; cbn; rewrite ?Hpr, ?Htab.
  - unfold no_atapi in *. cbn. apply Forall_insert; [done|]. rewrite Hat. exact (Forall_lookup_1 _ _ _ _ Ha Hh).
  - exists h'. split; [|done]. cbn. rewrite get_lookup, list_lookup_insert_eq; done || (cbn; lia).
Qed.

Lemma shl_one slot : 0 <= slot < 32 -> shl_u 32 1 slot = Ret (2 ^ slot).
Proof.
  intros Hs. unfold shl_u. case_bool; [|lia]. rewrite Z.shiftl_1_l, wrap_small; [done|].
  split; [apply Z.pow_nonneg; lia|]. apply Z.pow_lt_mono_r; lia.
Qed.

Lemma land_pow2 v n : 0 <= n -> (Z.land v (2 ^ n) =? 0) = negb (Z.testbit v n).
Proof.
  intros Hn. destruct (Z.testbit v n) eqn:E; cbn.
  - apply Z.eqb_neq. intros Hz. assert (Hb : Z.testbit (Z.land v (2 ^ n)) n = true).
    { by rewrite Z.land_spec, E, Z.pow2_bits_true by lia. }
    by rewrite Hz, Z.bits_0 in Hb.
  - apply Z.eqb_eq, Z.bits_inj'. intros i Hi. rewrite Z.land_spec, Z.bits_0, Z.pow2_bits_eqb by done.
    destruct (n =? i) eqn:Ei; prop_of_bool; subst; [by rewrite E|by rewrite andb_false_r].
Qed.

Lemma status_bit v n : 0 <= n -> (Z.land (Z.shiftr v n) 1 =? 1) = Z.testbit v n.
Proof.
  intros Hn. change 1 with (Z.ones 1) at 1. rewrite Z.land_ones, Z.shiftr_div_pow2 by lia.
  rewrite <- Z.testbit_spec' by done. by destruct (Z.testbit v n).
Qed.

(** The loop ends, without an error, when the command is done. *)
Lemma wait_done_works p slot c img n fuel d :
  working d p slot c n -> 0 <= slot < 32 -> drive_image d (hba_mem p) (port p) = Some img -> (n < fuel)%nat ->
  exists d', wait_done fuel p slot d = Ret (false, d') /\ ready d' /\ completed p c img d d'.
Proof using L.
  revert fuel d. induction n as [|n IH]; intros [|fuel] d Hw Hs Hi Hf; try lia; cbn [wait_done].
  - destruct (port_read p command_issue d) as [ci d1] eqn:E1.
    destruct (working_done _ _ _ _ _ _ _ Hw Hi E1) as (Hci & Hd1 & C1).
    rewrite shl_one, ret_bind, land_pow2, Hci by lia. cbn [negb].
    destruct (port_read p interrupt_status d1) as [st d2] eqn:E2.
    pose proof (ready_status _ _ _ _ _ Hd1 E2) as Hst. destruct (read_ready _ _ _ _ _ Hd1 E2) as (Hd2 & S2 & _).
    exists d2. rewrite status_bit, Hst by lia. eauto using completed_to.
  - destruct (port_read p command_issue d) as [ci d1] eqn:E1.
    destruct (working_issue _ _ _ _ _ _ _ Hw E1) as (Hci & Hw1 & S1).
    rewrite shl_one, ret_bind, land_pow2, Hci by lia. cbn [negb].
    destruct (port_read p interrupt_status d1) as [st d2] eqn:E2.
    destruct (working_status _ _ _ _ _ _ _ Hw1 E2) as (Hst & Hw2 & S2).
    rewrite status_bit, Hst by lia. pose proof (same_trans _ _ _ S1 S2) as S12.
    destruct (IH fuel d2 Hw2 Hs) as (d' & -> & Hd' & C'); [by rewrite (same_image _ _ S12)|lia|].
    exists d'. eauto using completed_from.
Qed.

(** The table of the slot is set for a transfer. *)
Definition table_set (command lba count phys : Z) (t : HBACommandTable) : Prop :=
  let f := command_fis t in
  bits 7 1 (fis_bit_field f) = 1 /\ fis_type f = FISType_discr RegH2D /\ fis_command f = command /\
  fis_count f = count /\ fis_device f = 64 /\
  le_val [lba0 f; lba1 f; lba2 f; lba3 f; lba4 f; lba5 f] = lba /\
  exists e es, prdt_entries t = e :: es /\ data_base e = phys /\
    bits 0 22 (prdt_bit_field e) + 1 = SECTOR * count.

Lemma decode_set (write : bool) lba count phys p a t :
  port_wf p -> no_atapi p -> header_set (Z.b2z write) p 0 -> get (command_table_buffers p) 0 = Some (a, t) ->
  table_set (if write then 0x35 else 0x25) lba count phys t ->
  decode_command p 0 = Some (mkCommand write lba count phys (SECTOR * count)).
Proof.
  intros Hp Ha (h & Hh & H5 & H6) Ht (H7 & Hty & Hcmd & Hcnt & Hdev & Hval & e & es & Hes & Hbase & Hlen).
  destruct (port_slot p 0 Hp) as (h' & a' & t' & Hh' & Ht' & [Hpr Htab _ _ _ _]); [lia|].
  rewrite Hh in Hh'. injection Hh' as <-. rewrite Ht in Ht'. injection Ht' as <- <-.
  unfold decode_command. rewrite Hh, Ht. cbn [mbind option_bind]. rewrite Hes. cbn [mbind option_bind head].
  rewrite get_lookup in Hh by lia. pose proof (Forall_lookup_1 _ _ _ _ Ha Hh) as Hat. cbn in Hat, Htab.
  rewrite H5, H6, H7, Hat, Hpr, Hty, Hcmd, Hcnt, Hdev, Hval, Hbase, Hlen, bool_decide_true by done.
  by destruct write.
Qed.

(** [run_command] up to the waiting: the table of the slot is filled in. *)
Lemma run_command_table fuel command lba count phys p d :
  port_wf p -> 0 <= lba < 2 ^ 48 -> 1 <= count <= 8192 ->
  exists a t, let p' := set_tables p (<[0%nat := (a, t)]> (command_table_buffers p)) in
    port_wf p' /\ get (command_table_buffers p') 0 = Some (a, t) /\ table_set command lba count phys t /\
    run_command fuel command lba count phys 0 p d =
      (d ← wait_ready fuel p' d; d ← issue p' 0 d; '(failed, d) ← wait_done fuel p' 0 d; Ret (failed, p', d)).
Proof using BF.
  intros Hp Hlba Hn. destruct (port_slot p 0 Hp) as (h & a & t & Hh & Ht & Hwf); [lia|].
  destruct Hp as [Hlen Hall]. pose proof (Forall2_length _ _ _ Hall) as Hlent.
  destruct t as [f es]. destruct Hwf as [Hpr Htab Hhb Hel Heb Hfb]. cbn in Hel, Heb, Hfb, Htab.
  destruct es as [|e es]; [done|]. apply Forall_cons in Heb as [He Hes].
  destruct (set_prdt_spec phys count e He Hn) as (e' & Ee & Hbase & He' & Hbytes).
  destruct (set_fis_spec command lba count f Hfb Hlba) as (f' & Ef & Hfb' & H7 & Hty & Hcmd & Hcnt & Hdev & Hval).
  exists a, (mkTable f' (e' :: es)). cbv zeta. rewrite get_lookup in Hh by lia. split_and!.
  - split; cbn; [done|]. rewrite <- (list_insert_id (command_list_buffer p) _ _ Hh).
    apply Forall2_insert; [done|]. split; cbn; try done. by apply Forall_cons.
  - cbn. rewrite get_lookup, list_lookup_insert_eq; done || (cbn; lia).
  - unfold table_set. cbn. split_and!; try done. by exists e', es.
  - unfold run_command. rewrite (index_get _ _ _ Ht), ret_bind. cbn [prdt_entries command_fis].
    change (index (e :: es) 0) with (Ret e). rewrite ret_bind, Ee, ret_bind.
    rewrite index_set_ok by (cbn [length]; lia). rewrite ret_bind, Ef, ret_bind.
    rewrite index_set_ok by lia. by rewrite ret_bind.
Qed.

(** The command is carried out. *)
Lemma run_command_works fuel (write : bool) lba count phys p d img :
  ready d -> port_wf p -> no_atapi p -> header_set (Z.b2z write) p 0 ->
  drive_image d (hba_mem p) (port p) = Some img -> 0 <= lba < 2 ^ 48 -> 1 <= count <= 8192 ->
  SECTOR * (lba + count) <= Z.of_nat (length img) -> (max_polls <= fuel)%nat -> (0 < fuel)%nat ->
  exists p' d', run_command fuel (if write then 0x35 else 0x25) lba count phys 0 p d = Ret (false, p', d') /\
    ready d' /\ port_wf p' /\ no_atapi p' /\ hba_mem p' = hba_mem p /\ port p' = port p /\
    completed p (mkCommand write lba count phys (SECTOR * count)) img d d'.
Proof using All.
  intros Hd Hp Ha Hhs Hi Hlba Hn Hin Hf Hf0.
  destruct (run_command_table fuel (if write then 0x35 else 0x25) lba count phys p d Hp Hlba Hn)
    as (a & t & Hp' & Ht & Hset & ->).
  pose proof (decode_set write lba count phys _ a t Hp' Ha Hhs Ht Hset) as Hdec.
  set (p' := set_tables p _) in *. destruct fuel as [|fuel]; [lia|]. cbn [wait_ready]. unfold port_read at 1.
  destruct (read_ready_eq d (hba_mem p') (hba_ports (port p') task_file_data) Hd) as (v1 & d1 & -> & Hd1 & S1 & ->).
  rewrite Z.eqb_refl, ret_bind. unfold issue, port_read at 1.
  destruct (read_ready_eq d1 (hba_mem p') (hba_ports (port p') command_issue) Hd1) as (v2 & d2 & -> & Hd2 & S2 & ->).
  rewrite shl_one, ret_bind, Z.lor_0_l, ret_bind by lia. pose proof (same_trans _ _ _ S1 S2) as S12.
  assert (Hi2 : drive_image d2 (hba_mem p') (port p') = Some img) by by rewrite (same_image _ _ S12).
  destruct (issue_works d2 p' 0 _ img Hd2 ltac:(lia) Hdec Hi2) as (S3 & n & Hn' & Hw).
  { unfold possible. cbn. lia. }
  destruct (wait_done_works p' 0 _ img n (S fuel) _ Hw) as (d' & -> & Hd' & C'); [lia| |lia|].
  { by rewrite (same_image _ _ S3). }
  exists p', d'. split; [done|]. split_and!; try done. exact (completed_from _ _ _ _ _ _ (same_trans _ _ _ S12 S3) C').
Qed.
(** The state of the driver between two calls, the image of a drive and the
    contents of a vector. *)
Definition port_ok (p : AHCIPort) : Prop := port_wf p /\ no_atapi p /\ has_slots p.
Definition disk_ok (st : DiskState D) : Prop := ready (dev st) /\ Forall port_ok (PORTS st).
Definition disk_image (st : DiskState D) (drive : Z) : option (list Z) :=
  p ← get (PORTS st) drive; drive_image (dev st) (hba_mem p) (port p).
Definition vec_bytes (d : D) (v : Vec_u8) : list Z :=
  (fun k => load (vec_ptr v + k) d) <$> seqZ 0 (vec_len v).

Lemma disk_port st drive img : disk_ok st -> disk_image st drive = Some img ->
  exists p, get (PORTS st) drive = Some p /\ port_ok p /\
    drive_image (dev st) (hba_mem p) (port p) = Some img.
Proof.
  intros [_ Hall] Himg. unfold disk_image in Himg. destruct (get _ _) as [p|] eqn:E; [|done].
  exists p. split_and!; [done| |done]. apply get_Some in E as [_ E]. exact (Forall_lookup_1 _ _ _ _ Hall E).
Qed.

(** A port is put back that is the same for the hardware. *)
Lemma set_port_ok st drive p p' d :
  disk_ok st -> get (PORTS st) drive = Some p -> ready d -> port_ok p' ->
  hba_mem p' = hba_mem p -> port p' = port p ->
  disk_ok (set_port drive p' st d) /\
  forall drive', disk_image (set_port drive p' st d) drive' =
    (q ← get (PORTS st) drive'; drive_image d (hba_mem q) (port q)).
Proof.
  intros [_ Hall] Hp Hd Hok Hh Hi. apply get_Some in Hp as [Hr Hp]. split.
  - split; [done|]. by apply Forall_insert.
  - intros drive'. unfold disk_image, set_port, get. cbn [PORTS dev]. rewrite length_insert.
    case_bool; [|done]. destruct (decide (drive' = drive)) as [->|].
    + rewrite list_lookup_insert_eq, Hp by lia. cbn. by rewrite Hh, Hi.
    + by rewrite list_lookup_insert_ne by lia.
Qed.

Lemma disk_image_same st drive' d : same_disks (dev st) d ->
  (q ← get (PORTS st) drive'; drive_image d (hba_mem q) (port q)) = disk_image st drive'.
Proof. intros Hs. unfold disk_image. destruct (get _ _); cbn; [apply Hs|done]. Qed.

(** The bytes of a buffer that lies in one piece in physical memory. *)
Lemma vec_bytes_ram d ptr n phys :
  (forall k, 0 <= k < n -> translate_addr (ptr + k) = Some (phys + k)) ->
  vec_bytes d (mkVec ptr n) = ram_bytes d phys n.
Proof using L.
  intros Ht. apply list_eq. intros i. unfold vec_bytes, ram_bytes. rewrite !list_lookup_fmap. cbn [vec_ptr vec_len].
  destruct (decide (Z.of_nat i < n)); [|by rewrite lookup_seqZ_ge by lia].
  rewrite lookup_seqZ_lt by lia. cbn. f_equal. apply load_ram. apply Ht. lia.
Qed.

Lemma ram_bytes_image d img a off n : 0 <= off -> 0 <= n ->
  (forall k, 0 <= k < n -> get img (off + k) = Some (ram d (a + k))) ->
  ram_bytes d a n = take (Z.to_nat n) (drop (Z.to_nat off) img).
Proof.
  intros Ho Hn Hg. apply list_eq. intros i. unfold ram_bytes. rewrite list_lookup_fmap.
  destruct (decide (Z.of_nat i < n)).
  - rewrite lookup_seqZ_lt, lookup_take_lt, lookup_drop by lia. cbn.
    rewrite <- Hg, get_lookup by lia. f_equal. lia.
  - by rewrite lookup_seqZ_ge, lookup_take_ge by lia.
Qed.

Lemma with_capacity_ready n d : ready d -> 1 <= n <= SECTOR * max_buffer ->
  exists ptr phys d', with_capacity n d = Ret (ptr, d') /\ ready d' /\ same_disks d d' /\
    forall k, 0 <= k < n -> translate_addr (ptr + k) = Some (phys + k).
Proof using L.
  intros Hd Hn. unfold with_capacity. case_bool; [lia|].
  destruct (dma_alloc n 1 d) as [ptr d'] eqn:Ea.
  destruct (alloc_ready d n ptr d' Hd Hn Ea) as (Hd' & Hs & Hnz & phys & Ht).
  exists ptr, phys, d'. case_bool; [lia|]. done.
Qed.

Lemma translate_first ptr phys n : 1 <= n ->
  (forall k, 0 <= k < n -> translate_addr (ptr + k) = Some (phys + k)) -> translate_addr ptr = Some phys.
Proof. intros Hn Ht. rewrite <- (Z.add_0_r ptr), <- (Z.add_0_r phys). apply Ht. lia. Qed.

(** A read returns the sectors, and the driver is as before. *)
Lemma read_sectors_data fuel drive lba count st img :
  (max_polls <= fuel)%nat -> (0 < fuel)%nat ->
  disk_ok st -> disk_image st drive = Some img -> 0 <= lba -> 1 <= count <= max_buffer ->
  SECTOR * (lba + count) <= Z.of_nat (length img) ->
  exists v st', read_sectors fuel drive lba count st = Ret (Ok v, st') /\
    vec_bytes (dev st') v = sectors img lba count /\ disk_ok st' /\
    forall drive', disk_image st' drive' = disk_image st drive'.
Proof using All.
  intros Hf Hf0 Hst Himg Hlba Hn Hin. pose proof max_buffer_range as Hmax.
  destruct (disk_port _ _ _ Hst Himg) as (p & Hp & (Hwf & Ha & Hs) & Hi). pose proof Hst as [Hd _].
  pose proof (image_size _ _ _ _ Hi) as Hsz. unfold SECTOR in *.
  unfold read_sectors. rewrite (index_get _ _ _ Hp), ret_bind.
  destruct (begin_command_ready 0 p (dev st) Hd Hwf Ha Hs) as (p1 & d1 & -> & Hd1 & S1 & Hwf1 & Ha1 & Hh1 & Hp1 & Hset1);
    [lia|]. rewrite ret_bind. cbv beta iota zeta. rewrite mul_u_ok by range. rewrite ret_bind.
  destruct (with_capacity_ready (512 * count) d1 Hd1) as (ptr & phys & d2 & -> & Hd2 & S2 & Ht);
    [unfold SECTOR; lia|]. rewrite ret_bind. cbv beta iota zeta.
  rewrite (translate_first ptr phys (512 * count)) by (lia || done).
  assert (Hi2 : drive_image d2 (hba_mem p1) (port p1) = Some img).
  { by rewrite S2, (same_image _ _ S1), Hh1, Hp1. }
  destruct (run_command_works fuel false lba count phys p1 d2 img Hd2 Hwf1 Ha1 Hset1 Hi2)
    as (p3 & d3 & E & Hd3 & Hwf3 & Ha3 & Hh3 & Hp3 & C3); [unfold SECTOR; lia..|]. rewrite E, ret_bind.
  cbv beta iota zeta. destruct C3 as [S3 Hram]. cbn [cmd_len cmd_lba cmd_addr cmd_count] in Hram.
  destruct (set_port_ok st drive p p3 d3 Hst Hp Hd3) as [Hok Himgs].
  { unfold port_ok, has_slots in *. by rewrite Hh3, Hh1. }
  { by rewrite Hh3. } { by rewrite Hp3. }
  eexists _, _. split; [done|]. split; [|split; [done|]].
  - cbn [dev set_port]. rewrite (vec_bytes_ram _ _ _ phys) by done. unfold sectors.
    apply ram_bytes_image; unfold SECTOR; [lia..|done].
  - intros drive'. rewrite Himgs. apply disk_image_same. intros hba i. by rewrite S3, S2, (same_image _ _ S1).
Qed.
(** The buffer of a write lies in one piece in physical memory. *)
Definition contiguous (v : Vec_u8) : Prop :=
  exists phys, forall k, 0 <= k < vec_len v -> translate_addr (vec_ptr v + k) = Some (phys + k).

Lemma drop_vec_ready v d : ready d -> ready (drop_vec v d) /\ same_disks d (drop_vec v d).
Proof using L. intros Hd. unfold drop_vec. case_bool; [done|]. by apply dealloc_ready. Qed.

Lemma write_sectors_data fuel drive lba count v st img :
  (max_polls <= fuel)%nat -> (0 < fuel)%nat ->
  disk_ok st -> disk_image st drive = Some img -> 0 <= lba -> 1 <= count <= 8192 ->
  SECTOR * (lba + count) <= Z.of_nat (length img) -> vec_len v = SECTOR * count -> contiguous v ->
  exists st', write_sectors fuel drive lba count v st = Ret (Ok tt, st') /\ disk_ok st' /\
    disk_image st' drive = Some (splice img (SECTOR * lba) (vec_bytes (dev st) v)).
Proof using All.
  intros Hf Hf0 Hst Himg Hlba Hn Hin Hlen [phys Ht]. destruct v as [ptr len]. cbn [vec_len vec_ptr] in *. subst len.
  destruct (disk_port _ _ _ Hst Himg) as (p & Hp & (Hwf & Ha & Hs) & Hi). pose proof Hst as [Hd _].
  pose proof (image_size _ _ _ _ Hi) as Hsz. unfold SECTOR in Hsz, Hin.
  unfold write_sectors. rewrite (index_get _ _ _ Hp), ret_bind.
  destruct (begin_command_ready 1 p (dev st) Hd Hwf Ha Hs) as (p1 & d1 & -> & Hd1 & S1 & Hwf1 & Ha1 & Hh1 & Hp1 & Hset1);
    [lia|]. rewrite ret_bind. cbv beta iota zeta. cbn [vec_ptr].
  rewrite (translate_first ptr phys (SECTOR * count)) by (unfold SECTOR; lia || done).
  assert (Hi1 : drive_image d1 (hba_mem p1) (port p1) = Some img) by by rewrite (same_image _ _ S1), Hh1, Hp1.
  destruct (run_command_works fuel true lba count phys p1 d1 img Hd1 Hwf1 Ha1 Hset1 Hi1)
    as (p3 & d3 & E & Hd3 & Hwf3 & Ha3 & Hh3 & Hp3 & C3); [unfold SECTOR; lia..|]. rewrite E, ret_bind.
  cbv beta iota zeta. apply (completed_from _ _ _ _ _ _ S1) in C3 as [_ C3].
  destruct (drop_vec_ready (mkVec ptr (SECTOR * count)) d3 Hd3) as [Hd4 S4].
  destruct (set_port_ok st drive p p3 _ Hst Hp Hd4) as [Hok Himgs].
  { unfold port_ok, has_slots in *. by rewrite Hh3, Hh1. }
  { by rewrite Hh3. } { by rewrite Hp3. }
  eexists. split; [done|]. split; [done|]. rewrite Himgs, Hp. cbn [mbind option_bind].
  rewrite S4, C3, bool_decide_true by done. by rewrite (vec_bytes_ram _ _ _ phys).
Qed.
End transfers.

Lemma sectors_splice img lba count new :
  0 <= lba -> 0 <= count -> length new = Z.to_nat (SECTOR * count) ->
  SECTOR * (lba + count) <= Z.of_nat (length img) ->
  length (splice img (SECTOR * lba) new) = length img /\ sectors (splice img (SECTOR * lba) new) lba count = new.
Proof.
  intros Hl Hc Hn Hin. unfold splice, sectors, SECTOR in *. split.
  - rewrite !length_app, length_take, length_drop. lia.
  - rewrite drop_app_ge by (rewrite length_take; lia).
    rewrite length_take, Nat.min_l, Nat.sub_diag by lia. cbn [drop]. rewrite <- Hn. apply take_app_length.
Qed.

(** ** The theorems of the transfers *)

(** The driver as the block device of the file system. *)
#[export] Instance ahci_block_device {P : Profile} `{AhciDevice D, DmaMemory D, BitfieldStruct} (fuel : nat)
    : BlockDevice (DiskState D) :=
  fun drive lba count st =>
    '(r, st) ← read_sectors fuel drive lba count st;
    Ret (match r with Ok v => Ok (vec_bytes (dev st) v) | Err e => Err e end, st).

(** A device answers within the fuel. *)
Class Responsive `{AhciSpec D} (fuel : nat) := responsive : (max_polls <= fuel)%nat /\ (0 < fuel)%nat.

#[export] Instance ahci_block_device_laws {P : Profile} `{AhciLaws D} `{BitfieldLaws} (fuel : nat)
    `{R : !Responsive fuel} : @BlockDeviceLaws (DiskState D) (ahci_block_device fuel).
Proof.
  refine (@Build_BlockDeviceLaws _ (ahci_block_device fuel) disk_ok disk_image max_buffer max_buffer_range _).
  intros st drive img lba count Hst Himg Hlba Hn Hin. destruct R as [R1 R2].
  destruct (read_sectors_data fuel drive lba count st img) as (v & st' & E & Hv & Hok & Hs); [done..|].
  exists st'. unfold Fs.read_sectors, ahci_block_device. rewrite E, ret_bind. cbn. by rewrite Hv.
Defined.


(** ** The invariant holds in every state of the driver *)

Section invariant.
Context {P : Profile} `{AhciDevice D, DmaMemory D} `{BF : BitfieldLaws}.
Hypothesis load_byte : forall a (d : D), in_u 8 (load a d).

Lemma begin_command_wf write p d slot p' d' :
  port_wf p -> 0 <= write < 2 -> begin_command write p d = Ret (slot, p', d') -> port_wf p'.
Proof using BF.
  unfold begin_command. intros Hp Hw Hb. inv_bind Hb. destruct a as [r d1]. inv_bind Hb. rename a into slot1.
  inv_bind Hb. rename a into h. unfold index in Ha1. destruct (get (command_list_buffer p) slot1) as [h0|] eqn:Eh; [|done].
  injection Ha1 as <-. pose proof (get_Some _ _ _ Eh) as [Hs Hh]. destruct Hp as [Hlen Hall].
  destruct (Forall2_lookup_l _ _ _ _ _ Hall Hh) as (t & Ht & Hwf).
  destruct (set_header_spec write h0 (header_bits _ _ Hwf) Hw) as (h' & Eh' & Hb' & _ & _ & _ & Hpr & Htab).
  rewrite Eh', ret_bind, index_set_ok, ret_bind in Hb by lia. inv_bind Hb. injection Hb as <- <- <-.
  split; cbn; [by rewrite length_insert|].
  rewrite <- (list_insert_id (command_table_buffers p) _ _ Ht). apply Forall2_insert; [done|].
  destruct Hwf. by split; cbn; rewrite ?Hpr, ?Htab.
Qed.

Lemma run_command_wf fuel command lba count phys slot p d r p' d' :
  port_wf p -> run_command fuel command lba count phys slot p d = Ret (r, p', d') -> port_wf p'.
Proof using BF.
  unfold run_command. intros [Hlen Hall] Hb. inv_bind Hb. destruct a as [a t]. unfold index in Ha at 1.
  destruct (get (command_table_buffers p) slot) as [t0|] eqn:Et; [|done]. injection Ha as ->.
  pose proof (get_Some _ _ _ Et) as [Hs Ht]. destruct (Forall2_lookup_r _ _ _ _ _ Hall Ht) as (h & Hh & Hwf).
  destruct Hwf as [Hpr Htab Hhb Hel Heb Hfb]. cbn in Hel, Heb, Hfb, Htab.
  destruct t as [f [|e es]]; [done|]. cbn [prdt_entries command_fis] in *.
  change (index (e :: es) 0) with (Ret e) in Hb. rewrite ret_bind in Hb. apply Forall_cons in Heb as [He Hes].
  inv_bind Hb. rename a0 into e'. assert (He' : 0 <= prdt_bit_field e').
  { unfold set_prdt in Ha. do 4 inv_bind Ha. injection Ha as <-. cbn. eauto using set_bits_nonneg. }
  rewrite index_set_ok in Hb by (cbn [length]; lia). rewrite ret_bind in Hb.
  inv_bind Hb. rename a0 into f'. assert (Hf' : 0 <= fis_bit_field f').
  { unfold set_fis in Ha0. inv_bind Ha0. injection Ha0 as <-. cbn. eauto using set_bits_nonneg. }
  rewrite index_set_ok, ret_bind in Hb by lia. cbv zeta in Hb. do 3 inv_bind Hb.
  destruct a2 as [failed d2]. injection Hb as <- <- <-. split; cbn; [done|].
  rewrite <- (list_insert_id (command_list_buffer p) _ _ Hh). apply Forall2_insert; [done|].
  split; cbn; try done. by apply Forall_cons.
Qed.

Lemma set_port_wf drive p st d : disk_wf st -> port_wf p -> disk_wf (set_port drive p st d).
Proof. intros Hst Hp. by apply Forall_insert. Qed.

Lemma index_port st drive p : disk_wf st -> index (PORTS st) drive = Ret p -> port_wf p.
Proof.
  unfold index. destruct (get _ _) as [q|] eqn:E; [|done]. intros Hst [= <-].
  apply get_Some in E as [_ E]. exact (Forall_lookup_1 _ _ _ _ Hst E).
Qed.

Lemma read_sectors_wf fuel drive lba count st r st' :
  disk_wf st -> read_sectors fuel drive lba count st = Ret (r, st') -> disk_wf st'.
Proof using BF.
  intros Hst Hb. unfold read_sectors in Hb. inv_bind Hb. inv_bind Hb. destruct a0 as [[slot p1] d1].
  pose proof (begin_command_wf 0 _ _ _ _ _ (index_port _ _ _ Hst Ha) ltac:(lia) Ha0) as Hp1.
  inv_bind Hb. inv_bind Hb. destruct a1 as [ptr d2]. case_match; [|injection Hb as <- <-; by apply set_port_wf].
  inv_bind Hb. destruct a1 as [[failed p3] d3]. pose proof (run_command_wf _ _ _ _ _ _ _ _ _ _ _ Hp1 Ha3).
  destruct failed; injection Hb as <- <-; by apply set_port_wf.
Qed.

Lemma write_sectors_wf fuel drive lba count v st r st' :
  disk_wf st -> write_sectors fuel drive lba count v st = Ret (r, st') -> disk_wf st'.
Proof using BF.
  intros Hst Hb. unfold write_sectors in Hb. inv_bind Hb. inv_bind Hb. destruct a0 as [[slot p1] d1].
  pose proof (begin_command_wf 1 _ _ _ _ _ (index_port _ _ _ Hst Ha) ltac:(lia) Ha0) as Hp1.
  case_match; [|injection Hb as <- <-; by apply set_port_wf].
  inv_bind Hb. destruct a0 as [[failed p3] d3]. pose proof (run_command_wf _ _ _ _ _ _ _ _ _ _ _ Hp1 Ha1).
  injection Hb as <- <-; by apply set_port_wf.
Qed.
Lemma init_headers_wf hs st hs' ts d' :
  Forall (fun h => 0 <= bit_field0 h) hs -> Forall2 slot_wf st.1.1 st.1.2 ->
  for_each hs init_header st = Ret (hs', ts, d') ->
  Forall2 slot_wf hs' ts /\ length hs' = (length st.1.1 + length hs)%nat.
Proof.
  intros Hhs. revert st. induction Hhs as [|h hs Hh Hhs IH]; intros [[hs0 ts0] d] Hst Hr; cbn [for_each length] in *.
  - injection Hr as <- <- <-. split; [done|cbn; lia].
  - inv_bind Hr. unfold init_header in Ha. destruct (dma_alloc_zeroed (32 * 256) 128 d) as [mem d1].
    unfold unwrap in Ha. destruct (translate_addr mem) as [phys|] eqn:Et; [|done]. injection Ha as <-.
    apply IH in Hr as [Hwf Hlen].
    + split; [done|]. rewrite Hlen. cbn. rewrite length_app. cbn. lia.
    + cbn. apply Forall2_app; [done|]. apply Forall2_cons_2; [|by apply Forall2_nil_2].
      split; cbn; try done. by repeat constructor.
Qed.

Lemma init_port_wf fuel hba i d p d' : init_port fuel hba i d = Ret (p, d') -> port_wf p.
Proof using load_byte.
  unfold init_port. intros Hb. destruct (read_reg _ _ d) as [v d1]. inv_bind Hb.
  destruct (dma_alloc 1024 1024 a) as [m d2]. inv_bind Hb. destruct (dma_alloc 256 256 _) as [fis d3].
  inv_bind Hb. inv_bind Hb. destruct a2 as [[hs ts] d4]. inv_bind Hb.
  destruct (read_reg _ _ a2) as [v2 d5]. injection Hb as <- <-.
  apply init_headers_wf in Ha2 as [Hwf Hlen]; [..|by apply Forall2_nil_2].
  - split; [|done]. cbn. by rewrite Hlen, length_fmap, length_seqZ.
  - apply Forall_fmap, Forall_forall. intros k _.
    apply le_val_range, Forall_fmap, Forall_forall. intros j _. apply load_byte.
Qed.

Lemma init_device_wf fuel mem off c ports d ports' d' :
  Forall port_wf ports -> init_device fuel mem off c (ports, d) = Ret (ports', d') -> Forall port_wf ports'.
Proof using load_byte.
  intros Hp Hb. unfold init_device in Hb. do 2 inv_bind Hb.
  refine (for_each_inv (fun s : list AHCIPort * D => Forall port_wf s.1) _ _ (ports, d) (ports', d') _ Hp Hb).
  clear -load_byte. intros i [ps d] [ps' d'] _ Hps Hi. cbn in *.
  destruct (read_reg _ port_implemented d) as [v d1]. inv_bind Hi. case_match; [by injection Hi as <- <-|].
  destruct (read_reg _ _ d1) as [v2 d2]. case_match; [by injection Hi as <- <-|].
  inv_bind Hi. destruct a1 as [p d3]. injection Hi as <- <-. apply Forall_app. split; [done|].
  apply Forall_singleton. by eapply init_port_wf.
Qed.

Lemma init_wf fuel mem off devices st st' : init fuel mem off devices st = Ret st' -> disk_wf st'.
Proof using load_byte.
  intros Hb. unfold init in Hb. do 3 inv_bind Hb. destruct a1 as [ports d]. injection Hb as <-.
  refine (for_each_inv (fun s : list AHCIPort * D => Forall port_wf s.1) _ _ _ (ports, d) _ _ Ha1); [|by apply Forall_nil].
  intros c [ps d1] [ps' d2] _. apply init_device_wf.
Qed.

(** A call of the driver that returns. *)
Inductive disk_step : DiskState D -> DiskState D -> Prop :=
| step_init fuel mem off devices st st' : init fuel mem off devices st = Ret st' -> disk_step st st'
| step_read fuel drive lba count st r st' :
    read_sectors fuel drive lba count st = Ret (r, st') -> disk_step st st'
| step_write fuel drive lba count v st r st' :
    write_sectors fuel drive lba count v st = Ret (r, st') -> disk_step st st'.

(** C20: the structures in memory are well-formed after every sequence of
    calls, for any device and whether the calls succeed or not: a port has 32
    headers, a header describes eight regions and points to the physical
    address of the table of its slot, and a table has its eight regions. *)
Theorem disk_structures_wf d st : rtc disk_step (mkDisk [] d) st -> disk_wf st.
Proof using All.
  assert (H0' : disk_wf (mkDisk [] d)) by by apply Forall_nil.
  intros Hr. revert H0'. induction Hr as [|st1 st2 st3 Hs _ IH]; [done|]. intros Hwf. apply IH.
  destruct Hs; eauto using init_wf, read_sectors_wf, write_sectors_wf.
Qed.
End invariant.

(** ** The set-up leaves the reception of FISes disabled *)

(** [fis_receive_off d hba i]: the bit FRE (bit 4) of [command_status] of the
    port is clear.  Only a write of that register changes it. *)
Class FisReceive (D : Type) `{AhciDevice D, DmaMemory D} := {
  fis_receive_off : D -> Z -> Z -> Prop;
  fre_value : forall d hba i, fis_receive_off d hba i ->
    Z.testbit (read_reg hba (hba_ports i command_status) d).1 4 = false;
  fre_clear : forall d hba i v, Z.testbit v 4 = false ->
    fis_receive_off (write_reg hba (hba_ports i command_status) v d) hba i;
  fre_other : forall d hba i hba' r v, (hba', r) <> (hba, hba_ports i command_status) ->
    fis_receive_off d hba i -> fis_receive_off (write_reg hba' r v d) hba i;
  fre_read : forall d hba i hba' r, fis_receive_off d hba i -> fis_receive_off (read_reg hba' r d).2 hba i;
  fre_alloc : forall d hba i n a, fis_receive_off d hba i -> fis_receive_off (dma_alloc n a d).2 hba i;
  fre_alloc_zeroed : forall d hba i n a,
    fis_receive_off d hba i -> fis_receive_off (dma_alloc_zeroed n a d).2 hba i;
}.

Section fis_receive.
Context {P : Profile} `{F : FisReceive D}.

(** Nothing is enabled from one state to the other. *)
Definition keeps (d d' : D) : Prop := forall hba i, fis_receive_off d hba i -> fis_receive_off d' hba i.

#[local] Instance keeps_preorder : PreOrder keeps.
Proof. split; [by intros ???|]. intros d1 d2 d3 H12 H23 hba i Hd. auto. Qed.

Lemma keeps_write d hba r v : (forall i, r = hba_ports i command_status -> Z.testbit v 4 = false) ->
  keeps d (write_reg hba r v d).
Proof using F.
  intros Hv hba' i Hd. destruct (decide (hba = hba' /\ r = hba_ports i command_status)) as [[-> ->]|Hne].
  - apply fre_clear. by apply (Hv i).
  - apply fre_other; [|done]. intros [= -> ->]. by apply Hne.
Qed.

Lemma keeps_write_base d hba i low high phys :
  low <> command_status -> high <> command_status -> keeps d (write_base hba i low high phys d).
Proof using F.
  intros Hl Hh. unfold write_base.
  transitivity (write_reg hba (hba_ports i low) (Z.land phys U32_MAX) d);
    apply keeps_write; by intros j [= -> ->].
Qed.

Lemma wait_stopped_keeps fuel f hba i d d' : wait_stopped fuel f hba i d = Ret d' -> keeps d d'.
Proof using F.
  revert d. induction fuel as [|fuel IH]; intros d Hr; [done|]. cbn in Hr.
  destruct (read_reg _ _ d) as [v d1] eqn:E. assert (keeps d d1).
  { intros h j Hd. pose proof (fre_read d h j hba (hba_ports i command_status) Hd) as Hk. by rewrite E in Hk. }
  case_match; [by injection Hr as <-|]. etransitivity; [done|by apply IH].
Qed.

Lemma init_headers_keeps hs st st' : for_each hs init_header st = Ret st' -> keeps st.2 st'.2.
Proof using F.
  revert st. induction hs as [|h hs IH]; intros st Hr; cbn [for_each] in Hr; [by injection Hr as <-|].
  inv_bind Hr. apply IH in Hr. etransitivity; [|done]. destruct st as [[hs0 ts0] d]. unfold init_header in Ha.
  destruct (dma_alloc_zeroed _ _ d) as [m d1] eqn:E. inv_bind Ha. injection Ha as <-. intros hba i Hd.
  pose proof (fre_alloc_zeroed d hba i (32 * 256) 128 Hd) as Hk. by rewrite E in Hk.
Qed.
Lemma read_keeps d hba r v d' : read_reg hba r d = (v, d') -> keeps d d'.
Proof using F. intros E h i Hd. pose proof (fre_read d h i hba r Hd) as Hk. by rewrite E in Hk. Qed.
Lemma alloc_keeps d n a ptr d' : dma_alloc n a d = (ptr, d') -> keeps d d'.
Proof using F. intros E h i Hd. pose proof (fre_alloc d h i n a Hd) as Hk. by rewrite E in Hk. Qed.

(** The value that is written first. *)
Lemma stop_value v : Z.testbit (Z.land (Z.land v (Z.lxor U32_MAX 0x0001)) (Z.lxor U32_MAX 0x0010)) 4 = false.
Proof. rewrite !Z.land_spec. change (Z.testbit (Z.lxor U32_MAX 0x0010) 4) with false. apply andb_false_r. Qed.

Lemma init_port_keeps fuel hba i d p d' : init_port fuel hba i d = Ret (p, d') ->
  keeps d d' /\ fis_receive_off d' hba i /\ hba_mem p = hba /\ port p = i.
Proof using F.
  unfold init_port. intros Hb. destruct (read_reg _ _ d) as [v d1] eqn:E1. cbv zeta in Hb.
  set (d2 := write_reg hba (hba_ports i command_status) _ d1) in Hb.
  assert (K2 : keeps d1 d2) by (apply keeps_write; intros; apply stop_value).
  assert (O2 : fis_receive_off d2 hba i) by (apply fre_clear, stop_value). clearbody d2.
  inv_bind Hb. apply wait_stopped_keeps in Ha. destruct (dma_alloc 1024 1024 a) as [m d3] eqn:E3. inv_bind Hb.
  pose proof (keeps_write_base d3 hba i cl_base cl_base_upper a0 ltac:(done) ltac:(done)) as K4.
  destruct (dma_alloc 256 256 _) as [fis d5] eqn:E5. inv_bind Hb.
  pose proof (keeps_write_base d5 hba i fis_base fis_base_upper a1 ltac:(done) ltac:(done)) as K6.
  inv_bind Hb. destruct a2 as [[hs ts] d7]. apply init_headers_keeps in Ha2. cbn [snd] in Ha2. inv_bind Hb.
  apply wait_stopped_keeps in Ha3. destruct (read_reg _ _ a2) as [v2 d9] eqn:E9. injection Hb as <- <-.
  apply read_keeps in E1. apply alloc_keeps in E3. apply alloc_keeps in E5.
  assert (K : keeps d2 a2) by (repeat (etransitivity; [eassumption|]); reflexivity).
  pose proof (fre_value a2 hba i (K _ _ O2)) as Hv. rewrite E9 in Hv. cbn [fst] in Hv.
  assert (Hv' : Z.testbit (Z.lor v2 (Z.lor 1 256)) 4 = false) by by rewrite Z.lor_spec, Hv.
  split_and!; try done; [|by apply fre_clear].
  do 3 (etransitivity; [eassumption|]). etransitivity; [by eapply read_keeps|]. by apply keeps_write.
Qed.

Lemma init_device_keeps fuel mem off c s s' :
  Forall (fun p => fis_receive_off s.2 (hba_mem p) (port p)) s.1 -> init_device fuel mem off c s = Ret s' ->
  Forall (fun p => fis_receive_off s'.2 (hba_mem p) (port p)) s'.1.
Proof using F.
  intros Hp Hb. unfold init_device in Hb. do 2 inv_bind Hb. revert Hp Hb.
  apply (for_each_inv (fun s => Forall (fun p => fis_receive_off s.2 (hba_mem p) (port p)) s.1)).
  clear -F. intros i [ps d] [ps' d'] _ Hps Hi. cbn in *.
  assert (Hk : forall d', keeps d d' -> Forall (fun p => fis_receive_off d' (hba_mem p) (port p)) ps).
  { intros d1 K. eapply Forall_impl; [exact Hps|]. intros p. apply K. }
  destruct (read_reg _ port_implemented d) as [v d1] eqn:E1. apply read_keeps in E1. inv_bind Hi.
  case_match; [injection Hi as <- <-; by apply Hk|].
  destruct (read_reg _ _ d1) as [v2 d2] eqn:E2. apply read_keeps in E2.
  case_match; [injection Hi as <- <-; apply Hk; by transitivity d1|].
  apply bind_ret_inv in Hi as ([p d3] & Hi' & Hi). injection Hi as <- <-. apply init_port_keeps in Hi' as (K3 & O3 & Eh & Ei).
  apply Forall_app. split; [|apply Forall_singleton; by rewrite Eh, Ei]. apply Hk. etransitivity; [done|]. by etransitivity.
Qed.

(** A port that [init] has set up runs with the reception of FISes
    disabled: the code clears FRE (0x10) and starts the port with the bits
    0x101, which do not have it. *)
Theorem init_leaves_fis_receive_off fuel mem off devices st st' p :
  init fuel mem off devices st = Ret st' -> p ∈ PORTS st' ->
  fis_receive_off (dev st') (hba_mem p) (port p).
Proof using F.
  intros Hb Hp. unfold init in Hb. do 3 inv_bind Hb. destruct a1 as [ports d]. injection Hb as <-.
  assert (Hall : Forall (fun p => fis_receive_off d (hba_mem p) (port p)) ports).
  { refine (for_each_inv (fun s : list AHCIPort * D => Forall (fun p => fis_receive_off s.2 (hba_mem p) (port p)) s.1)
      _ _ _ (ports, d) _ _ Ha1); [|by apply Forall_nil]. intros c s s' _. apply init_device_keeps. }
  rewrite Forall_forall in Hall. by apply Hall.
Qed.
End fis_receive.

(** ** Command slots *)

Section slots.
Context {P : Profile} `{AhciDevice D, DmaMemory D, BitfieldStruct}.

Lemma find_slot_lowest slots lo n :
  0 <= lo -> lo + Z.of_nat n <= 32 -> exists r, find_slot slots (seqZ lo (Z.of_nat n)) = Ret r /\
    match r with
    | Some i => lo <= i < lo + Z.of_nat n /\ Z.testbit slots i = false /\
        forall j, lo <= j < i -> Z.testbit slots j = true
    | None => forall j, lo <= j < lo + Z.of_nat n -> Z.testbit slots j = true
    end.
Proof.
  revert lo. induction n as [|n IH]; intros lo Hlo Hn.
  - exists None. split; [done|]. intros j. lia.
  - rewrite seqZ_cons by lia. cbn [find_slot]. unfold shr_u at 1. case_bool; [|lia].
    rewrite ret_bind. replace (Z.land (Z.shiftr slots lo) 1 =? 0) with (negb (Z.testbit slots lo)).
    + destruct (Z.testbit slots lo) eqn:El; cbn [negb].
      * destruct (IH (Z.succ lo)) as (r & Hr & Hspec); [lia..|]. exists r.
        replace (Z.pred (Z.of_nat (S n))) with (Z.of_nat n) by lia. split; [done|].
        destruct r as [i|].
        -- destruct Hspec as (? & ? & Hj). split_and!; [lia..|done|]. intros j Hj'.
           destruct (decide (j = lo)) as [->|]; [done|]. apply Hj. lia.
        -- intros j Hj. destruct (decide (j = lo)) as [->|]; [done|]. apply Hspec. lia.
      * exists (Some lo). split; [done|]. split_and!; [lia..|done|]. intros j. lia.
    + rewrite <- (status_bit slots lo) by done. change 1 with (Z.ones 1) at 1 3. rewrite !Z.land_ones by lia.
      pose proof (Z.mod_pos_bound (Z.shiftr slots lo) (2 ^ 1) ltac:(lia)) as Hb. change (2 ^ 1) with 2 in *.
      assert (Z.shiftr slots lo mod 2 = 0 \/ Z.shiftr slots lo mod 2 = 1) as [-> | ->] by lia; done.
Qed.

(** The slot that [find_command_slot] returns is the lowest one below the
    count taken from the capabilities that is neither active nor issued, and
    it returns none only if all of those are in use. *)
Theorem find_command_slot_lowest p d active d1 issued d2 cap d3 :
  port_read p sata_active d = (active, d1) -> port_read p command_issue d1 = (issued, d2) ->
  read_reg (hba_mem p) host_capability d2 = (cap, d3) ->
  let n := Z.land (Z.shiftr cap 8) 0xF0 in
  let used i := Z.testbit (Z.lor active issued) i in
  n <= 32 -> exists r, find_command_slot p d = Ret (r, d3) /\
    match r with
    | Some i => 0 <= i < n /\ used i = false /\ forall j, 0 <= j < i -> used j = true
    | None => forall j, 0 <= j < n -> used j = true
    end.
Proof.
  intros E1 E2 E3 n used Hn. unfold find_command_slot. rewrite E1, E2, E3. fold n.
  assert (H0n : 0 <= n) by (apply Z.land_nonneg; by right).
  destruct (find_slot_lowest (Z.lor active issued) 0 (Z.to_nat n)) as (r & Hr & Hspec); [lia..|].
  rewrite Z2Nat.id in Hr, Hspec by done. exists r. rewrite Hr. done.
Qed.

(** On an HBA whose capability register has its bits 12 to 15 clear (up
    to 16 command slots, and none of the features of the other three bits),
    every read panics, whether slots are free or not: the code masks the wrong
    bits and counts no slots. *)
Theorem read_sectors_no_slots fuel drive lba count st p :
  get (PORTS st) drive = Some p ->
  (forall d, Z.land (read_reg (hba_mem p) host_capability d).1 0xF000 = 0) ->
  read_sectors fuel drive lba count st = Panic "No free command slots".
Proof.
  intros Hp Hcap. unfold read_sectors. rewrite (index_get _ _ _ Hp), ret_bind. unfold begin_command, find_command_slot.
  destruct (port_read p sata_active _) as [v1 d1]. destruct (port_read p command_issue d1) as [v2 d2].
  destruct (read_reg (hba_mem p) host_capability d2) as [cap d3] eqn:E. pose proof (Hcap d2) as Hc.
  rewrite E in Hc. cbn [fst] in Hc. change 0xF0 with (Z.shiftr 0xF000 8). by rewrite <- Z.shiftr_land, Hc.
Qed.
End slots.

(** ** Examples *)

(** Setters that replace the bits. *)
#[local] Instance replacing : BitfieldStruct :=
  {| set_bits off len raw v :=
       let mask := Z.ones (Z.max 0 len) in
       Ret (Z.lor (Z.ldiff raw (Z.shiftl mask off)) (Z.shiftl (Z.land v mask) off)) |}.

Lemma ones_nonneg len : 0 <= Z.ones (Z.max 0 len).
Proof. rewrite Z.ones_equiv. pose proof (Z.pow_pos_nonneg 2 (Z.max 0 len)). lia. Qed.

#[local] Instance replacing_laws : BitfieldLaws.
Proof.
  split.
  - intros off len raw v Ho Hl Hraw Hv. eexists. split; [done|]. pose proof (ones_nonneg len).
    rewrite Z.max_r in * by lia. split_and!.
    + apply Z.lor_nonneg. rewrite Z.ldiff_nonneg, Z.shiftl_nonneg, Z.land_nonneg. auto.
    + unfold bits. apply Z.bits_inj'. intros i Hi.
      rewrite Z.land_spec, Z.shiftr_spec, Z.lor_spec, Z.ldiff_spec, !Z.shiftl_spec, Z.land_spec by lia.
      replace (i + off - off) with i by lia. destruct (decide (i < len)).
      * rewrite Z.ones_spec_low by lia. cbn. by rewrite !andb_true_r, andb_false_r, orb_false_l.
      * rewrite Z.ones_spec_high, !andb_false_r by lia. symmetry. apply (testbit_high v len); lia.
    + intros i Hi Hout. rewrite Z.lor_spec, Z.ldiff_spec, !Z.shiftl_spec, Z.land_spec by lia.
      destruct (decide (i < off)); [rewrite !(Z.testbit_neg_r _ (i - off)) by lia|
        rewrite Z.ones_spec_high by lia]; cbn; by rewrite ?andb_false_r, andb_true_r, orb_false_r.
  - intros off len raw v raw' Hraw [= <-]. pose proof (ones_nonneg len). apply Z.lor_nonneg.
    rewrite Z.ldiff_nonneg, Z.shiftl_nonneg, Z.land_nonneg. auto.
Qed.

(** An HBA whose registers are at the physical address 0x1000, which is mapped
    at 2^40 + 0x1000, with one drive, on port 0.  A command is
    found running once, and is carried out when [command_issue] is read the
    second time.  Memory is mapped one to one and never freed. *)
Definition HBA_ADDR : Z := 2 ^ 40 + 0x1000.
Record Machine := mkMachine {
  m_image : list Z;
  m_ram : Z -> Z;
  m_next : Z;
  m_current : option (AHCIPort * Z * Command * nat);
}.

#[local] Instance machine_memory : DmaMemory Machine :=
  {| dma_alloc n a d := (m_next d, mkMachine (m_image d) (m_ram d) (m_next d + Z.max 0 n) (m_current d));
     dma_alloc_zeroed n a d :=
       (m_next d, mkMachine (m_image d) (fun v => if (m_next d <=? v) && (v <? m_next d + n) then 0 else m_ram d v)
                    (m_next d + Z.max 0 n) (m_current d));
     dma_dealloc _ _ _ d := d;
     translate_addr v := Some v;
     load v d := m_ram d v;
     ram := m_ram |}.

Definition carry_out (c : Command) (d : Machine) : Machine :=
  if cmd_write c then
    mkMachine (splice (m_image d) (SECTOR * cmd_lba c) (ram_bytes d (cmd_addr c) (cmd_len c)))
      (m_ram d) (m_next d) None
  else
    mkMachine (m_image d)
      (fun v => if (cmd_addr c <=? v) && (v <? cmd_addr c + cmd_len c)
                then default 0 (get (m_image d) (SECTOR * cmd_lba c + (v - cmd_addr c))) else m_ram d v)
      (m_next d) None.

#[local] Instance machine_hba : AhciDevice Machine :=
  {| read_reg _ r d :=
       match r, m_current d with
       | host_capability, _ => (0x1F00, d)
       | port_implemented, _ => (1, d)
       | hba_ports _ sata_status, _ => (0x123, d)
       | hba_ports _ command_issue, Some (_, _, c, O) => (0, carry_out c d)
       | hba_ports _ command_issue, Some (p, slot, c, S n) =>
           (2 ^ slot, mkMachine (m_image d) (m_ram d) (m_next d) (Some (p, slot, c, n)))
       | _, _ => (0, d)
       end;
     write_reg _ _ _ d := d;
     write_command_issue p v d :=
       match decode_command p (Z.log2 v) with
       | Some c => mkMachine (m_image d) (m_ram d) (m_next d) (Some (p, Z.log2 v, c, 1%nat))
       | None => d
       end |}.

#[local] Instance machine_spec : AhciSpec Machine :=
  {| ready d := m_current d = None /\ 1 <= m_next d;
     working d p slot c n := m_current d = Some (p, slot, c, n) /\ 1 <= m_next d /\ 0 <= slot < 32 /\
       hba_mem p = HBA_ADDR /\ port p = 0 /\ possible (m_image d) c;
     drive_image d hba i :=
       if (hba =? HBA_ADDR) && (i =? 0) && (Z.of_nat (length (m_image d)) <=? SECTOR * 2 ^ 48)
       then Some (m_image d) else None;
     capability _ := 0x1F00;
     max_polls := 2;
     max_buffer := 256 |}.

Lemma machine_image d hba i img : drive_image d hba i = Some img ->
  hba = HBA_ADDR /\ i = 0 /\ img = m_image d /\ Z.of_nat (length img) <= SECTOR * 2 ^ 48.
Proof. cbn. case_bool; [|done]. intros [= <-]. prop_of_bool. by subst. Qed.

Lemma length_ram_bytes `{DmaMemory D} (d : D) a n : length (ram_bytes d a n) = Z.to_nat n.
Proof. unfold ram_bytes. by rewrite length_fmap, length_seqZ. Qed.

Lemma carry_out_completed p c d img :
  hba_mem p = HBA_ADDR -> port p = 0 -> possible (m_image d) c -> drive_image d (hba_mem p) (port p) = Some img ->
  completed p c img d (carry_out c d).
Proof.
  intros Hh Hi (Hlba & Hn & Hlen & Hin) Himg. apply machine_image in Himg as (_ & _ & -> & Hsz).
  unfold completed, carry_out. destruct (cmd_write c).
  - split; [done|]. intros hba i. rewrite Hh, Hi.
    destruct (sectors_splice (m_image d) (cmd_lba c) (cmd_count c) (ram_bytes d (cmd_addr c) (cmd_len c)))
      as [Hl _]; [lia..|by rewrite length_ram_bytes, Hlen|done|].
    cbn [drive_image machine_spec m_image]. rewrite Hl. destruct (decide (hba = HBA_ADDR /\ i = 0)) as [[-> ->]|Hne].
    + rewrite bool_decide_true by done. rewrite !Z.eqb_refl. cbn [andb]. case_bool; [done|lia].
    + rewrite bool_decide_false by done. case_bool; [|done]. destruct Hne. lia.
  - split; [done|]. intros k Hk. cbn. case_bool; [|lia].
    replace (cmd_addr c + k - cmd_addr c) with k by lia.
    unfold SECTOR in *. destruct (get_is_Some (m_image d) (512 * cmd_lba c + k)) as [b ->]; [lia|done].
Qed.

#[local] Instance machine_laws : AhciLaws Machine.
Proof.
  split.
  - intros d hba r v d' [Hc Hn] Hr. cbn in Hr. rewrite Hc in Hr.
    destruct r as [| |i [ ]]; injection Hr as <- <-; done.
  - done.
  - intros d p slot c img [Hc Hn] Hs Hdec Himg Hpos. cbv zeta. unfold write_command_issue, machine_hba.
    rewrite Z.log2_pow2, Hdec by lia. split; [done|]. exists 1%nat. split; [cbn; lia|].
    apply machine_image in Himg as (? & ? & -> & _). done.
  - intros d p slot c n v d' (Hc & Hw) Hr. unfold port_read in Hr. cbn in Hr. rewrite ?Hc in Hr.
    injection Hr as <- <-. done.
  - intros d p slot c n v d' (Hc & Hw) Hr. unfold port_read in Hr. cbn in Hr. rewrite Hc in Hr.
    injection Hr as <- <-. split; [apply Z.pow2_bits_true; lia|done].
  - intros d p slot c img v d' (Hc & Hn & Hs & Hh & Hi & Hpos) Himg Hr. unfold port_read in Hr. cbn in Hr.
    rewrite Hc in Hr. injection Hr as <- <-. split_and!; [apply Z.bits_0| |].
    + unfold carry_out. by destruct (cmd_write c).
    + by apply carry_out_completed.
  - intros d hba i v d' [Hc Hn] Hr. cbn in Hr. injection Hr as <- <-. done.
  - intros d hba i img Himg. by apply machine_image in Himg as (_ & _ & _ & ?).
  - done.
  - intros d n ptr d' [Hc Hn] Hr Ha. injection Ha as <- <-. cbn. split_and!; [done|lia|done|lia|].
    exists (m_next d). done.
  - done.
  - intros d v phys [= ->]. done.
Qed.

(** A port as [init_port] leaves it, in memory that was zero. *)
Definition example_port : AHCIPort :=
  mkPort HBA_ADDR 0 ((fun k => mkHeader 0 0 8 0 (0x4000 + 0x2000 * k)) <$> seqZ 0 32) 0x2000
    ((fun k => (0x4000 + 0x2000 * k, zeroed_table)) <$> seqZ 0 32).
Definition example_disk (img : list Z) : DiskState Machine :=
  mkDisk [example_port] (mkMachine img (fun a => a mod 256) 0x100000 None).

Lemma example_port_ok : port_ok example_port.
Proof.
  split; [|split; [|done]].
  - split; [done|]. apply Forall2_fmap. apply Forall_Forall2_diag, Forall_forall. intros k _.
    split; cbn; done || by repeat constructor.
  - apply Forall_fmap, Forall_forall. done.
Qed.

Lemma example_disk_ok img : disk_ok (example_disk img).
Proof. split; [done|]. apply Forall_singleton, example_port_ok. Qed.


(** A controller of class 1.6.1 whose registers are at 0x1000. *)
Definition example_config : list Z :=
  replicate 9 0 ++ [1; 6; 1] ++ replicate 24 0 ++ to_le_bytes 4 0x1000.
Definition config_mem (a : Z) : Z := default 0 (get example_config a).
Definition initial : DiskState Machine := mkDisk [] (mkMachine [] (fun _ => 0) 0x4000 None).
Definition example_init (M : DmaMemory Machine) : DiskState Machine :=
  match @init dev_profile _ _ M 2 config_mem (Some 0) (Some [0]) initial with Ret st => st | _ => initial end.

Lemma example_init_eq M : PORTS (example_init M) <> [] ->
  @init dev_profile _ _ M 2 config_mem (Some 0) (Some [0]) initial = Ret (example_init M).
Proof. unfold example_init. by destruct (init _ _ _ _ _). Qed.

Lemma find_command_slot_lowest_witness :
  exists r d3, @find_command_slot dev_profile _ _ example_port (dev initial) = Ret (r, d3) /\
    match r with Some i => 0 <= i < 16 | None => False end.
Proof.
  destruct (@find_command_slot_lowest dev_profile _ _ example_port (dev initial) 0 (dev initial) 0
    (dev initial) 0x1F00 (dev initial)) as (r & Hr & Hspec).
  - reflexivity.
  - reflexivity.
  - reflexivity.
  - vm_compute. discriminate.
  - exists r, (dev initial). split; [exact Hr|]. destruct r as [i|]; [exact (proj1 Hspec)|].
    specialize (Hspec 0 ltac:(vm_compute; done)). discriminate Hspec.
Defined.

(** The same memory with bytes that are all zero when they are read. *)
Definition zero_memory : DmaMemory Machine :=
  {| dma_alloc n a d := dma_alloc n a d; dma_alloc_zeroed n a d := dma_alloc_zeroed n a d;
     dma_dealloc _ _ _ d := d; translate_addr v := Some v; load _ _ := 0; ram := m_ram |}.

Lemma disk_structures_wf_witness :
  length (PORTS (example_init zero_memory)) = 1%nat /\ @disk_wf Machine zero_memory (example_init zero_memory).
Proof.
  assert (Hl : length (PORTS (example_init zero_memory)) = 1%nat) by (vm_compute; reflexivity).
  split; [exact Hl|]. refine (@disk_structures_wf dev_profile Machine machine_hba zero_memory _ _ _ (dev initial) _ _).
  - intros a d. split; [done|reflexivity].
  - apply rtc_once, (@step_init _ _ _ zero_memory _ 2 config_mem (Some 0) (Some [0])).
    apply example_init_eq. intros E. rewrite E in Hl. discriminate Hl.
Defined.

#[local] Instance machine_fre : FisReceive Machine.
Proof. by refine {| fis_receive_off _ _ _ := True |}. Defined.

Lemma init_leaves_fis_receive_off_witness :
  exists p, p ∈ PORTS (example_init _) /\ fis_receive_off (dev (example_init _)) (hba_mem p) (port p).
Proof.
  assert (Hl : length (PORTS (example_init machine_memory)) = 1%nat) by (vm_compute; reflexivity).
  destruct (PORTS (example_init machine_memory)) as [|p ps] eqn:E; [discriminate Hl|].
  exists p. split; [left|].
  apply (@init_leaves_fis_receive_off dev_profile _ _ _ _ 2 config_mem (Some 0) (Some [0]) initial
    (example_init machine_memory)).
  - apply example_init_eq. rewrite E. discriminate.
  - rewrite E. left.
Defined.

(** The same HBA with 8 command slots. *)
Definition few_slots : AhciDevice Machine :=
  {| read_reg hba r d := match r with host_capability => (0x0700, d) | _ => read_reg hba r d end;
     write_reg := write_reg; write_command_issue := write_command_issue |}.

Lemma read_sectors_no_slots_witness :
  @read_sectors release_profile _ few_slots _ _ 5 0 0 1 (example_disk (replicate 512 0)) =
    Panic "No free command slots".
Proof.
  apply (@read_sectors_no_slots release_profile _ few_slots _ _ 5 0 0 1 _ example_port).
  - reflexivity.
  - intros d. reflexivity.
Defined.
