(* ===== verification/Layout.v ===== *)
(** * The layout of the structures in memory

    The [#[repr(C, packed)]] structs of [src/src/disk.rs], [src/src/elf.rs],
    [src/src/fs.rs], [src/src/acpi.rs] and [src/src/pci.rs] as lists of fields
    with their sizes, and their bit fields.  Size and offsets follow from the
    lists; they are what the hardware and the file formats prescribe, the
    decoders of the other files read the fields where the structs have them,
    and a structure that is written to memory is read back from it. *)
From S2P Require Import Prelude Fs Acpi Pci Elf Disk DiskSpec.

(** The fields in order, with their sizes in bytes ([Packed]) or bits
    ([Bitfield]). *)
Abbreviation Packed := (list (string * nat)).
Abbreviation Bitfield := (list (string * nat)).

Definition size_of (l : Packed) : nat := sum_list (snd <$> l).
Fixpoint locate (l : Packed) (name : string) : option (nat * nat) :=
  match l with
  | [] => None
  | (n, sz) :: l => if decide (n = name) then Some (0%nat, sz) else prod_map (Nat.add sz) id <$> locate l name
  end.
Definition offset_of (l : Packed) (name : string) : option nat := fst <$> locate l name.

(** The number and the bytes in a field of a struct at the start of [b]. *)
Definition get_num (l : Packed) (name : string) (b : list Z) : option Z :=
  '(off, sz) ← locate l name; Some (field b off sz).
Definition get_bytes (l : Packed) (name : string) (b : list Z) : option (list Z) :=
  '(off, sz) ← locate l name; Some (take sz (drop off b)).
(** A field of bits. *)
Definition get_bits (l : Bitfield) (name : string) (raw : Z) : option Z :=
  '(off, sz) ← locate l name; Some (Disk.bits (Z.of_nat off) (Z.of_nat sz) raw).

(** The bytes of a struct whose fields have the given bytes. *)
Definition encode (l : Packed) (vs : list Z) : list Z :=
  concat (zip_with (fun f v => to_le_bytes (snd f) v) l vs).

(** ** [disk.rs] *)

Definition FISRegH2D_layout : Packed :=
  [("fis_type", 1); ("bit_field", 1); ("command", 1); ("feature_low", 1); ("lba0", 1); ("lba1", 1); ("lba2", 1);
   ("device", 1); ("lba3", 1); ("lba4", 1); ("lba5", 1); ("feature_high", 1); ("count", 2); ("icc", 1); ("control", 1);
   ("_reserved1", 4)]%nat.
Definition FISRegH2DBitField : Bitfield := [("pmport", 4); ("_reserved0", 3); ("c", 1)]%nat.

Definition FISRegD2H : Packed :=
  [("fis_type", 1); ("bit_field", 1); ("status", 1); ("error", 1); ("lba0", 1); ("lba1", 1); ("lba2", 1);
   ("device", 1); ("lba3", 1); ("lba4", 1); ("lba5", 1); ("_reserved2", 1); ("count", 2); ("_reserved3", 2);
   ("_reserved4", 4)]%nat.
Definition FISRegD2HBitField : Bitfield := [("pmport", 4); ("_reserved0", 2); ("interrupt", 1); ("_reserved1", 1)]%nat.

(** Without the bytes of [data], of which there is no fixed number. *)
Definition FISData : Packed := [("fis_type", 1); ("bitfield", 1); ("_reserved1", 2)]%nat.
Definition FISDataBitField : Bitfield := [("pmport", 4); ("_reserved0", 4)]%nat.

Definition FISPIOSetup : Packed :=
  [("fis_type", 1); ("bit_field", 1); ("status", 1); ("error", 1); ("lba0", 1); ("lba1", 1); ("lba2", 1);
   ("device", 1); ("lba3", 1); ("lba4", 1); ("lba5", 1); ("_reserved2", 1); ("count", 2); ("_reserved3", 1);
   ("e_status", 1); ("transfer_count", 2); ("_reserved4", 2)]%nat.
Definition FISPIOSetupBitField : Bitfield :=
  [("pmport", 4); ("_reserved0", 1); ("data_direction", 1); ("interrupt", 1); ("_reserved1", 1)]%nat.

Definition FISDMASetup : Packed :=
  [("fis_type", 1); ("bit_field", 1); ("_reserved1", 2); ("dma_buffer_id", 8); ("_reserved2", 4);
   ("dma_buffer_offset", 4); ("transfer_count", 4); ("_reserved3", 4)]%nat.
Definition FISDMASetupBitfield : Bitfield :=
  [("pmport", 4); ("_reserved0", 1); ("data_direction", 1); ("interrupt", 1); ("auto_activate", 1)]%nat.

Definition HBAPort_layout : Packed :=
  [("cl_base", 4); ("cl_base_upper", 4); ("fis_base", 4); ("fis_base_upper", 4); ("interrupt_status", 4);
   ("interrupt_enable", 4); ("command_status", 4); ("_reserved0", 0x120 - 0x11C); ("task_file_data", 4);
   ("signature", 4); ("sata_status", 4); ("sata_control", 4); ("sata_error", 4); ("sata_active", 4);
   ("command_issue", 4); ("_reserved1", 0x180 - 0x13C)]%nat.
Definition HBA_layout : Packed :=
  [("host_capability", 4); ("global_host_control", 4); ("interrupt_status", 4); ("port_implemented", 4);
   ("version", 4); ("ccc_control", 4); ("ccc_ports", 4); ("em_location", 4); ("em_control", 4);
   ("host_capability_ex", 4); ("bios_handoff", 4); ("_reserved", 0xA0 - 0x2C); ("vendor", 0x100 - 0xA0);
   ("hba_ports", 32 * size_of HBAPort_layout)]%nat.

Definition HBAFIS : Packed :=
  [("ds_fis", size_of FISDMASetup); ("_pad0", 4); ("ps_fis", size_of FISPIOSetup); ("_pad1", 12);
   ("r_fis", size_of FISRegD2H); ("_pad2", 4); ("sdb_fis", 8); ("u_fis", 64); ("_reserved", 0x100 - 0xA0)]%nat.

Definition HBACommandHeader_layout : Packed :=
  [("bit_field0", 1); ("bit_field1", 1); ("prdt_length", 2); ("prd_byte_count", 4);
   ("command_table_descriptor_base", 8); ("_reserved", 4 * 4)]%nat.
Definition HBACommandHeaderBitField0 : Bitfield :=
  [("command_fis_length", 5); ("atapi", 1); ("write", 1); ("prefetchable", 1)]%nat.
Definition HBACommandHeaderBitField1 : Bitfield :=
  [("reset", 1); ("bist", 1); ("clear", 1); ("_reserved", 1); ("pmp", 4)]%nat.

Definition HBAPRDTEntry_layout : Packed := [("data_base", 8); ("_reserved", 4); ("bit_field", 4)]%nat.
Definition HBAPRDTEntryBitField : Bitfield := [("byte_count", 22); ("_reserved", 9); ("interrupt", 1)]%nat.
Definition HBACommandTable_layout : Packed :=
  [("command_fis", 64); ("atapi_command", 16); ("_reserved", 48); ("prdt_entries", 8 * size_of HBAPRDTEntry_layout)]%nat.

(** ** [elf.rs], [fs.rs], [acpi.rs] and [pci.rs] *)

Definition ElfHeader_layout : Packed :=
  [("magic_num", 4); ("bits", 1); ("endianness", 1); ("elf_header_version", 1); ("os_abi", 1); ("_reserved", 8);
   ("elf_type", 2); ("instruction_set", 2); ("elf_version", 4); ("program_entry", 8); ("program_header_table", 8);
   ("section_header_table", 8); ("flags", 4); ("header_size", 2); ("program_entry_size", 2);
   ("program_entry_count", 2); ("section_entry_size", 2); ("section_entry_count", 2); ("section_names_idx", 2)]%nat.
Definition ProgramHeader_layout : Packed :=
  [("header_type", 4); ("flags", 4); ("offset", 8); ("virt_addr", 8); ("_reserved", 8); ("file_size", 8);
   ("mem_size", 8); ("align", 8)]%nat.

Definition FatBootSector32Ext : Packed :=
  [("table_size_32", 4); ("extended_flags", 2); ("fat_version", 2); ("root_cluster", 4); ("fat_info", 2);
   ("backup_boot_sector", 2); ("_reserved_0", 12); ("drive_number", 1); ("_reserved_1", 1); ("boot_signature", 1);
   ("volume_id", 4); ("volume_label", 11); ("fat_type_label", 8)]%nat.
(** The fields of [extended_section] stand for themselves. *)
Definition FatBootSector_layout : Packed :=
  ([("boot_jmp", 3); ("oem_name", 8); ("bytes_per_sector", 2); ("sectors_per_cluster", 1);
   ("reserved_sector_count", 2); ("table_count", 1); ("root_entry_count", 2); ("total_sectors_16", 2);
   ("media_type", 1); ("table_size_16", 2); ("sectors_per_track", 2); ("head_side_count", 2);
   ("hidden_sector_count", 4); ("total_sectors_32", 4)]%nat ++ FatBootSector32Ext).
Definition FileAttributes : Bitfield :=
  [("read_only", 1); ("hidden", 1); ("system", 1); ("volume_id", 1); ("directory", 1); ("archive", 1);
   ("_reserved", 2)]%nat.
Definition FileTime : Bitfield := [("seconds", 5); ("minutes", 6); ("hours", 5)]%nat.
Definition FileDate : Bitfield := [("day", 5); ("month", 4); ("year", 7)]%nat.
Definition File_layout : Packed :=
  [("name", 11); ("attributes", 1); ("_reserved", 1); ("creation_duration", 1); ("creation_time", 2);
   ("creation_date", 2); ("last_accessed", 2); ("cluster_h", 2); ("modified_time", 2); ("modified_date", 2);
   ("cluster_l", 2); ("file_size", 4)]%nat.

Definition RSDPDescriptor_layout : Packed :=
  [("signature", 8); ("checksum", 1); ("oem_id", 6); ("revision", 1); ("rsdt_address", 4)]%nat.
Definition RSDPExtended : Packed :=
  [("base_descriptor", size_of RSDPDescriptor_layout); ("length", 4); ("xsdt_address", 8); ("extended_checksum", 1);
   ("reserved", 3)]%nat.
Definition SDTHeader_layout : Packed :=
  [("signature", 4); ("length", 4); ("revision", 1); ("checksum", 1); ("oem_id", 6); ("oem_table_id", 8);
   ("oem_revision", 4); ("creator_id", 4); ("creator_revision", 4)]%nat.
Definition MCFGEntry_layout : Packed :=
  [("config_space", 8); ("segment_group", 2); ("start_bus", 1); ("end_bus", 1); ("reserved", 4)]%nat.

Definition CommandRegister : Bitfield :=
  [("io_space", 1); ("memory_space", 1); ("bus_master", 1); ("special_cycles", 1); ("memory_write", 1);
   ("vga_snoop", 1); ("parity_error_response", 1); ("_reserved0", 1); ("serr_enable", 1); ("fast_b2b_enable", 1);
   ("interrupt_disable", 1); ("_reserved1", 5)]%nat.
Definition BaseConfigurationSpace_layout : Packed :=
  [("vendor_id", 2); ("device_id", 2); ("command", 2); ("status", 2); ("revision_id", 1); ("prog_if", 1);
   ("subclass", 1); ("class_code", 1); ("cache_line_size", 1); ("latency_timer", 1); ("header_type", 1);
   ("bist", 1)]%nat.
Definition DeviceConfigurationSpace_layout : Packed :=
  (BaseConfigurationSpace_layout ++
  [("bar_0", 4); ("bar_1", 4); ("bar_2", 4); ("bar_3", 4); ("bar_4", 4); ("bar_5", 4); ("cis_ptr", 4);
   ("subsystem_vendor_id", 2); ("subsystem_id", 2); ("expansion_rom_base", 4); ("capabilities_ptr", 1);
   ("_reserved", 7); ("interrupt_line", 1); ("interrupt_pin", 1); ("min_grant", 1); ("max_latency", 1)]%nat).

(** ** Writing and reading a structure *)

Lemma length_encode l vs : length vs = length l -> length (encode l vs) = size_of l.
Proof.
  unfold encode, size_of. revert vs. induction l as [|[n sz] l IH]; intros [|v vs] Hl; try done.
  cbn. rewrite length_app, length_to_le_bytes, IH by (cbn in Hl; lia). done.
Qed.

Lemma field_skip k pre b off n : length pre = k -> field (pre ++ b) (k + off) n = field b off n.
Proof. intros <-. unfold field. by rewrite drop_app_add. Qed.

(** A field of a structure that was written has its value. *)
Lemma get_num_encode l vs rest i name sz v :
  NoDup (l.*1) -> l !! i = Some (name, sz) -> vs !! i = Some v -> in_u (8 * Z.of_nat sz) v -> length vs = length l ->
  get_num l name (encode l vs ++ rest) = Some v.
Proof.
  revert vs i. induction l as [|[n s] l IH]; intros [|v0 vs] [|i] Hd Hl Hv Hr Hlen; try done.
  - injection Hl as -> ->. injection Hv as ->. unfold get_num, encode. cbn. rewrite decide_True by done. cbn.
    unfold field. rewrite drop_0, <-app_assoc, take_app_length' by (symmetry; apply length_to_le_bytes).
    by rewrite le_val_to_le_bytes, Z.mod_small.
  - cbn in Hd. apply NoDup_cons in Hd as [Hn Hd].
    specialize (IH vs i Hd Hl Hv Hr ltac:(cbn in Hlen; lia)). revert IH. unfold get_num. cbn [locate].
    rewrite decide_False; [|intros ->; apply Hn, list_elem_of_fmap; exists (name, sz); split; [done|by eapply list_elem_of_lookup_2]].
    destruct (locate l name) as [[off s']|]; [|done]. cbn. intros [= <-]. f_equal.
    unfold encode. cbn. rewrite <-app_assoc. apply field_skip, length_to_le_bytes.
Qed.

(** All fields of [named] are read from [b] as they are there. *)
Definition reads (l : Packed) (b : list Z) (named : list (string * Z)) : Prop :=
  Forall (fun '(name, v) => get_num l name b = Some v) named.

Lemma reads_encode l vs rest named :
  bool_decide (NoDup (l.*1)) = true -> length vs = length l ->
  Forall (fun '(name, v) => exists i sz, l !! i = Some (name, sz) /\ vs !! i = Some v /\ in_u (8 * Z.of_nat sz) v) named ->
  reads l (encode l vs ++ rest) named.
Proof.
  intros Hd%bool_decide_eq_true Hl Hn. eapply Forall_impl; [exact Hn|]. intros [name v] (i & sz & Hi & Hv & Hr). by eapply get_num_encode.
Qed.

(** The structures of the driver as they are in memory. *)
Definition FISRegH2D_bytes (f : FISRegH2D) : list Z :=
  encode FISRegH2D_layout
    [fis_type f; fis_bit_field f; fis_command f; feature_low f; lba0 f; lba1 f; lba2 f; fis_device f; lba3 f; lba4 f;
     lba5 f; feature_high f; fis_count f; icc f; control f; 0].
Definition HBACommandHeader_bytes (h : HBACommandHeader) : list Z :=
  encode HBACommandHeader_layout
    [bit_field0 h; bit_field1 h; prdt_length h; prd_byte_count h; command_table_descriptor_base h; 0].
Definition HBAPRDTEntry_bytes (e : HBAPRDTEntry) : list Z := encode HBAPRDTEntry_layout [data_base e; 0; prdt_bit_field e].
Definition HBACommandTable_bytes (t : HBACommandTable) : list Z :=
  FISRegH2D_bytes (command_fis t) ++ replicate (64 - size_of FISRegH2D_layout) 0 ++ replicate 16 0 ++ replicate 48 0 ++
  concat (HBAPRDTEntry_bytes <$> prdt_entries t).

Lemma in_u_testbit w v : 0 <= w -> 0 <= v -> (forall i, w <= i -> Z.testbit v i = false) -> in_u w v.
Proof.
  intros Hw Hv Hb. replace v with (v mod 2 ^ w); [apply Z.mod_pos_bound; lia|]. apply Z.bits_inj'. intros i Hi.
  destruct (decide (i < w)); [by rewrite Z.mod_pow2_bits_low|]. rewrite Z.mod_pow2_bits_high by lia. by rewrite Hb by lia.
Qed.

Section command.
Context {P : Profile} `{BF : BitfieldLaws}.

(** A setter of a field stays within the width of the bit field. *)
Lemma set_bits_in w off len raw v :
  0 <= off -> 0 < len -> off + len <= w -> in_u w raw -> 0 <= v < 2 ^ len ->
  exists raw', set_bits off len raw v = Ret raw' /\ in_u w raw' /\ Disk.bits off len raw' = v /\
    forall i, 0 <= i -> ~ off <= i < off + len -> Z.testbit raw' i = Z.testbit raw i.
Proof.
  intros Ho Hl Hw [Hr1 Hr2] Hv. destruct (set_bits_fits off len raw v) as (raw' & E & H0 & Hb & Ht); [done..|].
  exists raw'. split_and!; try done. apply in_u_testbit; [lia..|]. intros i Hi. rewrite Ht by lia. by apply (testbit_high raw w).
Qed.

Lemma header_in_memory write h :
  in_u 8 (bit_field0 h) -> in_u 16 (prdt_length h) -> in_u 64 (command_table_descriptor_base h) -> 0 <= write < 2 ->
  exists h' raw, set_header write h = Ret h' /\
    reads HBACommandHeader_layout (HBACommandHeader_bytes h')
      [("bit_field0", raw); ("prdt_length", prdt_length h); ("command_table_descriptor_base", command_table_descriptor_base h)] /\
    get_bits HBACommandHeaderBitField0 "command_fis_length" raw = Some (Z.of_nat (size_of FISRegH2D_layout) / 4) /\
    get_bits HBACommandHeaderBitField0 "write" raw = Some write.
Proof using BF.
  intros H1 H2 H3 Hw. unfold set_header. change (FIS_REG_H2D_SIZE / 4) with 5.
  destruct (set_bits_in 8 0 5 (bit_field0 h) 5) as (b1 & -> & Hb1 & Hf1 & _); [done || lia..|]. rewrite ret_bind.
  destruct (set_bits_in 8 6 1 b1 write) as (b2 & -> & Hb2 & Hf2 & Ht); [done || lia..|]. rewrite ret_bind.
  eexists _, b2. split; [done|]. split; [|split].
  - rewrite <- (app_nil_r (HBACommandHeader_bytes _)). apply reads_encode; [by vm_compute|done|].
    repeat constructor; [exists 0%nat|exists 2%nat|exists 4%nat]; by eexists.
  - change (Some (Disk.bits 0 5 b2) = Some 5). f_equal. transitivity (Disk.bits 0 5 b1); [|done]. apply bits_ext; [lia..|]. intros. apply Ht; lia.
  - change (Some (Disk.bits 6 1 b2) = Some write). by f_equal.
Qed.

Lemma prdt_in_memory phys n e rest :
  in_u 32 (prdt_bit_field e) -> in_u 64 phys -> 1 <= n <= 8192 ->
  exists e' raw, set_prdt phys n e = Ret e' /\
    reads HBAPRDTEntry_layout (HBAPRDTEntry_bytes e' ++ rest) [("data_base", phys); ("bit_field", raw)] /\
    get_bits HBAPRDTEntryBitField "byte_count" raw = Some (SECTOR * n - 1) /\
    get_bits HBAPRDTEntryBitField "interrupt" raw = Some 1.
Proof using BF.
  intros H1 H2 Hn. unfold set_prdt. do 2 run_arith.
  destruct (set_bits_in 32 0 22 (prdt_bit_field e) (512 * n - 1)) as (b1 & -> & Hb1 & Hf1 & _); [done || lia..|]. rewrite ret_bind.
  destruct (set_bits_in 32 31 1 b1 1) as (b2 & -> & Hb2 & Hf2 & Ht); [done || lia..|]. rewrite ret_bind.
  eexists _, b2. split; [done|]. split; [|split].
  - apply reads_encode; [by vm_compute|done|]. repeat constructor; [exists 0%nat|exists 2%nat]; by eexists.
  - change (Some (Disk.bits 0 22 b2) = Some (512 * n - 1)). f_equal. rewrite <-Hf1. apply bits_ext; [lia..|]. intros. apply Ht; lia.
  - change (Some (Disk.bits 31 1 b2) = Some 1). by f_equal.
Qed.

Lemma fis_in_memory command lba n f rest :
  in_u 8 (fis_bit_field f) -> in_u 8 command -> 0 <= lba < 2 ^ 48 -> in_u 16 n ->
  exists f' raw, set_fis command lba n f = Ret f' /\
    reads FISRegH2D_layout (FISRegH2D_bytes f' ++ rest)
      ([("fis_type", 0x27); ("bit_field", raw); ("command", command); ("device", 64); ("count", n)] ++
       zip ["lba0"; "lba1"; "lba2"; "lba3"; "lba4"; "lba5"]%string (to_le_bytes 6 lba)) /\
    get_bits FISRegH2DBitField "c" raw = Some 1.
Proof using BF.
  intros H1 H2 Hl Hn. unfold set_fis.
  destruct (set_bits_in 8 7 1 (fis_bit_field f) 1) as (b & -> & Hb & Hf & _); [done || lia..|]. rewrite ret_bind.
  eexists _, b. split; [done|]. split; [|change (Some (Disk.bits 7 1 b) = Some 1); by f_equal].
  pose proof (to_le_bytes_bytes 8 lba) as Hby. cbn in Hby.
  apply reads_encode; [by vm_compute|done|]. repeat (apply Forall_cons in Hby as [? Hby]).
  repeat constructor;
    [exists 0%nat|exists 1%nat|exists 2%nat|exists 7%nat|exists 12%nat
    |exists 4%nat|exists 5%nat|exists 6%nat|exists 8%nat|exists 9%nat|exists 10%nat]; by eexists.
Qed.

End command.

(** ** Sizes, offsets and widths *)

(** The sizes and offsets of AHCI 1.3.1, chapters 3.1, 3.3 and 4.2. *)
Lemma layouts_match_ahci :
  size_of <$> [FISRegH2D_layout; FISRegD2H; FISPIOSetup; FISDMASetup; HBAFIS; HBACommandHeader_layout;
               HBAPRDTEntry_layout; HBACommandTable_layout; HBAPort_layout; HBA_layout] =
    [20; 20; 20; 28; 0x100; 32; 16; 0x100; 0x80; 0x1100]%nat /\
  offset_of HBA_layout <$> ["host_capability"; "port_implemented"; "hba_ports"]%string = Some <$> [0x00; 0x0C; 0x100]%nat /\
  offset_of HBAPort_layout <$> ["cl_base"; "cl_base_upper"; "fis_base"; "fis_base_upper"; "interrupt_status"; "command_status";
                   "task_file_data"; "sata_status"; "sata_active"; "command_issue"]%string =
    Some <$> [0x00; 0x04; 0x08; 0x0C; 0x10; 0x18; 0x20; 0x28; 0x34; 0x38]%nat /\
  offset_of HBAFIS <$> ["ds_fis"; "ps_fis"; "r_fis"; "sdb_fis"; "u_fis"]%string = Some <$> [0x00; 0x20; 0x40; 0x58; 0x60]%nat /\
  size_of <$> [FISRegH2DBitField; FISRegD2HBitField; FISDataBitField; FISPIOSetupBitField; FISDMASetupBitfield;
               HBACommandHeaderBitField0; HBACommandHeaderBitField1; HBAPRDTEntryBitField; CommandRegister; FileAttributes;
               FileTime; FileDate] = [8; 8; 8; 8; 8; 8; 8; 32; 16; 8; 16; 16]%nat.
Proof. by vm_compute. Qed.

(** ** The decoders *)

Lemma field_read mem a n off w : (off + w <= n)%nat ->
  field (read mem a (Z.of_nat n)) off w = read_num mem (a + Z.of_nat off) (Z.of_nat w).
Proof.
  intros H. unfold field, read_num, read. f_equal. rewrite <-fmap_drop, <-fmap_take. apply list_eq. intros i.
  rewrite !list_lookup_fmap. destruct (decide (i < w)%nat).
  - rewrite lookup_take_lt, lookup_drop, !lookup_seqZ_lt by lia. cbn. do 2 f_equal. lia.
  - by rewrite lookup_take_ge, lookup_seqZ_ge by lia.
Qed.

Lemma reads_memory l mem a named :
  Forall (fun '(name, v) => exists off sz, locate l name = Some (off, sz) /\ (off + sz <= size_of l)%nat /\
    v = read_num mem (a + Z.of_nat off) (Z.of_nat sz)) named ->
  reads l (read mem a (Z.of_nat (size_of l))) named.
Proof.
  intros Hn. eapply Forall_impl; [exact Hn|]. intros [name v] (off & sz & Hl & Hle & ->). unfold get_num. rewrite Hl.
  cbn. by rewrite field_read.
Qed.

(** Each field is where the decoder reads it. *)
Ltac reads_fields :=
  first [apply reads_memory | idtac];
  repeat (apply Forall_cons; split); try apply Forall_nil;
  first [reflexivity | eexists _, _; split; [reflexivity|]; split; [by apply Nat.leb_le|];
    first [reflexivity | by rewrite Z.add_0_r]].


(** ** Examples *)

#[local] Existing Instance replacing.
#[local] Existing Instance replacing_laws.

