(* ===== verification/Syscall.v ===== *)
(** * System calls

    [src/src/syscall.rs], [src/src/syscall/display.rs] and
    [src/src/syscall/process.rs]: the MSRs that enable [syscall], the naked
    wrapper that switches to a stack of its own, the dispatch, and the two
    system calls.  The Rust functions the wrapper calls follow the System V
    calling convention; what the compiled code leaves in the other registers
    and in the memory it owns is the parameter [clobber]. *)
From S2P Require Import Prelude Asm Context Scheduler Vga FixedBlock Fs Gdt.

Definition MSR_SCE : Z := 0xC0000080.
Definition IA32_STAR : Z := 0xC0000081.
Definition IA32_LSTAR : Z := 0xC0000082.
Definition IA32_FMASK : Z := 0xC0000084.
Definition STACK_SIZE : Z := 0x1000.

(** The values of the model specific registers. *)
Abbreviation msrs := (Z -> Z).
Definition wrmsr (r v : Z) (regs : msrs) : msrs := mset r v regs.

Definition init (syscall_wrapper : Z) (regs : msrs) : msrs :=
  let new_sce := Z.lor (regs MSR_SCE) 1 in
  let regs := wrmsr MSR_SCE new_sce regs in
  let regs := wrmsr IA32_FMASK 0x200 regs in
  let regs := wrmsr IA32_LSTAR syscall_wrapper regs in
  wrmsr IA32_STAR 0x23000800000000 regs.

(** The [syscall] instruction, as far as the interrupt flag is concerned: the
    flag goes to R11, where [sysretq] finds it, and is cleared if FMASK says
    so; the segments come from STAR. *)
Definition syscall_insn (regs : msrs) (m : machine) : machine :=
  let rflags := if int_flag m then 0x200 else 0 in
  let base := Z.land (Z.shiftr (regs IA32_STAR) 32) 0xFFFF in
  set_rf (rset RCX (rip m) (rset R11 rflags (rf m)))
    (set_segments base (base + 8)
      (set_int_flag (int_flag m && negb (Z.testbit (regs IA32_FMASK) IF_BIT))
        (set_rip (regs IA32_LSTAR) m))).

(** What the system calls act on. *)
Record Kernel `{FallbackHeap} := mkKernel {
  allocator : FixedBlockAlloc;
  vga_writer : Writer;
  vga_locked : bool;
  scheduler : Scheduler;
  world : World;
}.

Section syscall.
Context {P : Profile} `{FallbackHeap} `{DescriptorTable}.

Definition set_allocator (a : FixedBlockAlloc) (k : Kernel) : Kernel :=
  mkKernel _ a (vga_writer k) (vga_locked k) (scheduler k) (world k).
Definition set_world (w : World) (k : Kernel) : Kernel :=
  mkKernel _ (allocator k) (vga_writer k) (vga_locked k) (scheduler k) w.
Definition set_scheduler (s : Scheduler) (k : Kernel) : Kernel :=
  mkKernel _ (allocator k) (vga_writer k) (vga_locked k) s (world k).
Definition set_cpu (m : machine) (k : Kernel) : Kernel :=
  set_world (mkWorld m (sched_locked (world k))) k.

(** A call either returns to its caller with a value, or control has gone to
    another process (or the CPU has halted) in the given state. *)
Inductive flow := Returns (v : Z) (k : Kernel) | Leaves (k : Kernel).

Definition stack_layout : Layout := mkLayout STACK_SIZE 0x8.

Definition setup_syscall_stack (k : Kernel) : outcome (Z * Kernel) :=
  '(syscall_stack, a) ← FixedBlock.alloc stack_layout (allocator k);
  Ret (wrap 64 (syscall_stack + size stack_layout), set_allocator a k).

Definition delete_syscall_stack (stack_end_ptr : Z) (k : Kernel) : outcome Kernel :=
  let stack_ptr := wrap 64 (stack_end_ptr - size stack_layout) in
  a ← FixedBlock.dealloc stack_ptr stack_layout (allocator k);
  Ret (set_allocator a k).

(** [print!] on the shared writer. *)
Definition print (pieces : list (list Z)) (k : Kernel) : outcome Kernel :=
  c ← _print pieces (mkConsole (vga_writer k) (vga_locked k) (int_flag (cpu (world k))));
  Ret (set_cpu (set_int_flag (interrupts c) (cpu (world k)))
    (mkKernel _ (allocator k) (writer c) (writer_locked c) (scheduler k) (world k))).

(** The bytes of user memory. *)
Context (user_mem : Z -> Z).

Definition print_vga_text (text_addr length : Z) (k : Kernel) : outcome (Z * Kernel) :=
  let bytes := (fun i => user_mem (text_addr + i)) <$> seqZ 0 length in
  if utf8_valid bytes then
    k ← print [bytes] k;
    Ret (0, k)
  else Ret (-1, k).

(** The decimal digits that [{}] prints for a [u64], which has at most 20. *)
Fixpoint decimal (fuel : nat) (n : Z) (acc : list Z) : list Z :=
  match fuel with
  | O => acc
  | S fuel =>
      let acc := (48 + n mod 10) :: acc in
      if n / 10 =? 0 then acc else decimal fuel (n / 10) acc
  end.

(** ["unknown syscall: "] *)
Definition UNKNOWN_SYSCALL : list Z :=
  [117; 110; 107; 110; 111; 119; 110; 32; 115; 121; 115; 99; 97; 108; 108; 58; 32].

Definition default_syscall (syscall_id : Z) (k : Kernel) : outcome (Z * Kernel) :=
  k ← print [UNKNOWN_SYSCALL; decimal 20 syscall_id []; [NEWLINE]] k;
  Ret (0, k).

(** [fuel] is for the search of the next task.  A lock that is taken is
    waited for forever. *)
Definition exit (fuel : nat) (exit_code stack_addr : Z) (k : Kernel) : outcome flow :=
  k ← delete_syscall_stack stack_addr k;
  if sched_locked (world k) then NoFuel
  else
    '(s, w, _) ← end_current_task set_usermode_segments fuel (scheduler k)
                    (mkWorld (cpu (world k)) true);
    Ret (Leaves (set_scheduler s (set_world w k))).

Definition syscall_handler (fuel : nat) (syscall_id arg0 arg1 arg2 arg3 stack_addr : Z) (k : Kernel)
    : outcome flow :=
  if syscall_id =? 0 then '(r, k) ← print_vga_text arg0 arg1 k; Ret (Returns r k)
  else if syscall_id =? 1 then exit fuel arg0 stack_addr k
  else '(r, k) ← default_syscall syscall_id k; Ret (Returns r k).

(** What the compiled body of a called function does to the machine beside
    returning its value. *)
Context (clobber : machine -> machine).

Definition run (star : Z) (code : list instr) (k : Kernel) : Kernel :=
  set_cpu (exec star code (cpu (world k))) k.
(** [call] of a function with a result in RAX, and of one without. *)
Definition returning (r : Z) (k : Kernel) : Kernel :=
  let m := clobber (cpu (world k)) in set_cpu (set_rf (rset RAX (wrap 64 r) (rf m)) m) k.
Definition returning_unit (k : Kernel) : Kernel := set_cpu (clobber (cpu (world k))) k.

Definition wrapper_entry : list instr :=
  [Push RCX; Push R11; Push RBP; Push RBX; Push R12; Push R13; Push R14; Push R15;
   Mov RBP RSP; Push RAX; Push RDI; Push RSI; Push RDX; Push R10].
Definition wrapper_enter_stack : list instr :=
  [Mov R9 RAX; Sti; Pop R8; Pop RCX; Pop RDX; Pop RSI; Pop RDI; Mov RSP R9; Push R9].
Definition wrapper_leave_stack : list instr := [Cli; Pop RDI].
Definition wrapper_return : list instr :=
  [Mov RSP RBP; Pop R15; Pop R14; Pop R13; Pop R12; Pop RBX; Pop RBP; Pop R11; Pop RCX; Sysretq].

Definition syscall_wrapper (fuel : nat) (star : Z) (k : Kernel) : outcome flow :=
  let k := run star wrapper_entry k in
  '(stack, k) ← setup_syscall_stack k;
  let k := returning stack k in
  let k := run star wrapper_enter_stack k in
  let m := cpu (world k) in
  f ← syscall_handler fuel (rf m RDI) (rf m RSI) (rf m RDX) (rf m RCX) (rf m R8) (rf m R9) k;
  match f with
  | Leaves k => Ret (Leaves k)
  | Returns r k =>
      let k := returning r k in
      let k := run star wrapper_leave_stack k in
      k ← delete_syscall_stack (rf (cpu (world k)) RDI) k;
      let k := returning_unit k in
      Ret (Returns (rf (cpu (world k)) RAX) (run star wrapper_return k))
  end.
End syscall.
