(* ===== verification/SyscallSpec.v ===== *)
(** * What a system call does

    The selectors that [syscall], [sysretq] and the first start of a process
    use agree; the wrapper hands the arguments to the handler, runs it on a
    stack of its own, frees that stack and returns to the caller with the
    registers it must preserve. *)
From S2P Require Import Prelude Asm Context Scheduler Vga FixedBlock FixedBlockSpec Fs Gdt Syscall.

Section segments.
Context {T : DescriptorTable}.

(** After [init], [syscall] enters the wrapper with interrupts off and
    with the kernel's segments of the GDT, and [sysretq] goes back to the
    segments a process is started with. *)
Theorem syscall_segments wrapper regs m m' :
  let regs := init wrapper regs in
  cs (syscall_insn regs m) = code_selector GDT.2 /\
  ss (syscall_insn regs m) = data_selector GDT.2 /\
  int_flag (syscall_insn regs m) = false /\
  rip (syscall_insn regs m) = wrapper /\
  (cs (sysretq (regs IA32_STAR) m'), ss (sysretq (regs IA32_STAR) m')) = set_usermode_segments.
Proof.
  intros regs'. unfold set_usermode_segments.
  destruct GDT_selectors as (rpl1 & rpl2 & H1 & H2 & ->).
  unfold regs', init, wrmsr, syscall_insn. cbn [cs ss int_flag rip code_selector data_selector
    user_code_selector user_data_selector set_rf set_segments set_int_flag set_rip].
  split; [done|]. split; [done|]. split; [by destruct (int_flag m)|]. split; [done|].
  destruct H1 as [-> | ->], H2 as [-> | ->]; done.
Qed.
End segments.

Lemma syscall_segments_witness :
  let regs := init 0x1000 (fun _ => 0) in
  rip (syscall_insn regs (example_machine 0x1000 0 0)) = 0x1000 /\ @set_usermode_segments counting_table = (0x33, 0x2B).
Proof.
  destruct (@syscall_segments counting_table 0x1000 (fun _ => 0) (example_machine 0x1000 0 0) (example_machine 0x1000 0 0))
    as (_ & _ & _ & H & _).
  split; [exact H|reflexivity].
Defined.

Section stack.
Context {P : Profile} {H : FallbackHeap} {L : FallbackLaws H}.

Lemma stack_block_index : block_index stack_layout = None.
Proof. done. Qed.

Lemma setup_eq (k : Kernel) p h :
  allocate_first_fit stack_layout (fallback (allocator k)) = Some (p, h) ->
  0 <= p < 2 ^ 64 - STACK_SIZE ->
  setup_syscall_stack k = Ret (p + STACK_SIZE, set_allocator (set_fallback h (allocator k)) k).
Proof.
  intros Ha Hp. unfold setup_syscall_stack, FixedBlock.alloc. rewrite stack_block_index.
  unfold fallback_alloc. rewrite Ha. cbn [mbind outcome_bind].
  change (size stack_layout) with STACK_SIZE.
  by rewrite wrap_small by (unfold STACK_SIZE in *; range).
Qed.

Lemma delete_eq (k : Kernel) p :
  0 < p < 2 ^ 64 - STACK_SIZE ->
  delete_syscall_stack (p + STACK_SIZE) k =
  Ret (set_allocator (set_fallback (deallocate p stack_layout (fallback (allocator k))) (allocator k)) k).
Proof.
  intros Hp. unfold delete_syscall_stack, FixedBlock.dealloc. rewrite stack_block_index.
  change (size stack_layout) with STACK_SIZE.
  replace (p + STACK_SIZE - STACK_SIZE) with p by lia.
  rewrite wrap_small by (unfold STACK_SIZE in *; range). rewrite decide_False by lia. done.
Qed.

(** The stack of a system call is a block of its own that no one else
    owns, and deleting it gives exactly that block back to the heap. *)
Theorem syscall_stack_roundtrip (k : Kernel) O p h :
  heap_owns (fallback (allocator k)) O ->
  allocate_first_fit stack_layout (fallback (allocator k)) = Some (p, h) ->
  p < 2 ^ 64 - STACK_SIZE ->
  exists k1 k2, setup_syscall_stack k = Ret (p + STACK_SIZE, k1) /\
    heap_owns (fallback (allocator k1)) (<[p := STACK_SIZE]> O) /\
    (forall q n, O !! q = Some n -> disjoint_ranges p STACK_SIZE q n) /\
    delete_syscall_stack (p + STACK_SIZE) k1 = Ret k2 /\
    heap_owns (fallback (allocator k2)) O /\ list_heads (allocator k2) = list_heads (allocator k).
Proof.
  intros HO Ha Hp. destruct (allocate_fresh _ _ stack_layout _ _ HO ltac:(done) Ha)
    as (HO' & H0 & _ & Hnew & Hdis).
  eexists _, _. split; [by apply setup_eq; [|lia]|]. split; [done|]. split; [done|].
  split; [by apply delete_eq|]. split; [|done]. cbn [allocator set_allocator fallback set_fallback].
  rewrite <- (delete_insert_id O p STACK_SIZE Hnew). apply deallocate_owned; [done|].
  apply lookup_insert_eq.
Qed.
End stack.

(** ** The wrapper *)

(** The registers the wrapper keeps on the caller's stack, in the order of the
    pushes: the ones to restore, and the arguments. *)
Definition saved_regs : list reg := [RCX; R11; RBP; RBX; R12; R13; R14; R15].
Definition arg_regs : list reg := [RAX; RDI; RSI; RDX; R10].

(** The words below [sp] of [mm] hold the registers [rs] of [m]. *)
Definition stored (rs : list reg) (sp : Z) (m : machine) (mm : Z -> Z) : Prop :=
  forall i r, rs !! i = Some r -> mm (sp - 8 * (Z.of_nat i + 1)) = rf m r.

(** The registers that a function preserves, beside the stack pointer. *)
Definition kept_regs : list reg := [RBX; RBP; R12; R13; R14; R15].

Lemma stored_word (rs : list reg) sp m mm off (i : nat) r :
  stored rs sp m mm -> rs !! i = Some r -> off = sp - 8 * (Z.of_nat i + 1) -> mm off = rf m r.
Proof. intros Hst Hi ->. by apply Hst. Qed.

Lemma stored_ext rs sp m mm mm' :
  (forall a, sp - 8 * Z.of_nat (length rs) <= a < sp -> mm' a = mm a) ->
  stored rs sp m mm -> stored rs sp m mm'.
Proof.
  intros He Hst i r Hi. rewrite He; [by apply Hst|]. apply lookup_lt_Some in Hi. lia.
Qed.

Lemma wrapper_entry_pushes :
  wrapper_entry = (Push <$> saved_regs) ++ [Mov RBP RSP] ++ (Push <$> arg_regs).
Proof. done. Qed.
Lemma wrapper_enter_pops :
  wrapper_enter_stack =
  [Mov R9 RAX; Sti] ++ (Pop <$> [R8; RCX; RDX; RSI; RDI]) ++ [Mov RSP R9; Push R9].
Proof. done. Qed.
Lemma wrapper_return_pops :
  wrapper_return = [Mov RSP RBP] ++ (Pop <$> rev saved_regs) ++ [Sysretq].
Proof. done. Qed.

(** The moves between the pushes and the pops. *)
Lemma exec_mov star d r m :
  let m' := exec star [Mov d r] m in
  rf m' d = rf m r /\ (forall x, x <> d -> rf m' x = rf m x) /\ mem m' = mem m.
Proof.
  cbn. split; [apply rset_eq|]. split; [|done]. intros x Hx. by apply rset_ne.
Qed.

Lemma exec_mov_sti star d r m :
  let m' := exec star [Mov d r; Sti] m in
  rf m' d = rf m r /\ (forall x, x <> d -> rf m' x = rf m x) /\ mem m' = mem m /\ int_flag m' = true.
Proof.
  cbn. split; [apply rset_eq|]. split; [|done]. intros x Hx. by apply rset_ne.
Qed.

Lemma exec_switch_stack star m top :
  rf m R9 = top -> 8 <= top < 2 ^ 64 ->
  let m' := exec star [Mov RSP R9; Push R9] m in
  rf m' RSP = top - 8 /\ (forall x, x <> RSP -> rf m' x = rf m x) /\
  mem m' = mset (top - 8) top (mem m) /\ int_flag m' = int_flag m.
Proof.
  intros H9 Htop m'. unfold m'. rewrite !exec_cons, exec_nil. cbn [step]. rewrite H9.
  rewrite (push_word_at top) by (asm_read; done || lia). split; [by asm_read|].
  split; [|split]; [|autorewrite with asm; rewrite rset_ne by done; by rewrite H9|done].
  intros x Hx. autorewrite with asm. by rewrite !rset_ne by congruence.
Qed.

Lemma exec_sysretq star m :
  let m' := exec star [Sysretq] m in
  rip m' = rf m RCX /\ int_flag m' = Z.testbit (rf m R11) IF_BIT /\ rf m' = rf m /\
  cs m' = Z.lor (Z.shiftr star 48 + 16) 3 /\ ss m' = Z.lor (Z.shiftr star 48 + 8) 3.
Proof. done. Qed.

Lemma wrapper_entry_ok star m sp :
  rf m RSP = sp -> 104 <= sp < 2 ^ 64 ->
  let m1 := exec star wrapper_entry m in
  rf m1 RSP = sp - 104 /\ rf m1 RBP = sp - 64 /\
  stored saved_regs sp m (mem m1) /\ stored arg_regs (sp - 64) m (mem m1).
Proof.
  intros Hsp Hr m1. unfold m1. rewrite wrapper_entry_pushes, !exec_app.
  destruct (exec_pushes star saved_regs m) as [Ha1 Ha2 Ha3 _ _]; [rewrite Hsp; cbn; lia|reg_decide|].
  generalize dependent (exec star (Push <$> saved_regs) m). intros m8 Ha1 Ha2 Ha3.
  rewrite Hsp in *. change (length saved_regs) with 8%nat in Ha1.
  destruct (exec_mov star RBP RSP m8) as (Hm1 & Hm2 & Hm3).
  generalize dependent (exec star [Mov RBP RSP] m8). intros m9 Hm1 Hm2 Hm3.
  assert (H9 : rf m9 RSP = sp - 64) by (rewrite Hm2 by done; lia).
  destruct (exec_pushes star arg_regs m9) as [Hb1 Hb2 Hb3 Hb4 _]; [rewrite H9; cbn; lia|reg_decide|].
  generalize dependent (exec star (Push <$> arg_regs) m9). intros m10 Hb1 Hb2 Hb3 Hb4.
  rewrite H9, Hm3 in *. change (length arg_regs) with 5%nat in Hb1.
  split; [lia|]. split; [rewrite Hb2 by done; lia|]. split.
  - apply (stored_ext _ _ _ (mem m8)); [|exact Ha3]. cbn [length saved_regs]. intros a Ha. apply Hb4. lia.
  - intros i r Hi. rewrite (Hb3 i r Hi). assert (r <> RBP /\ r <> RSP) as [H1 H2].
    { apply list_elem_of_lookup_2 in Hi. split; intros ->; revert Hi; reg_decide. }
    by rewrite Hm2, Ha2.
Qed.

Lemma wrapper_enter_ok star m m2 sp top :
  rf m2 RSP = sp - 104 -> 104 <= sp < 2 ^ 64 -> 8 <= top < 2 ^ 64 -> rf m2 RAX = top ->
  stored arg_regs (sp - 64) m (mem m2) ->
  let m3 := exec star wrapper_enter_stack m2 in
  (rf m3 <$> argument_regs) = (rf m <$> arg_regs) ++ [top] /\
  rf m3 RSP = top - 8 /\ int_flag m3 = true /\ mem m3 = mset (top - 8) top (mem m2) /\
  (forall r, r ∈ kept_regs -> rf m3 r = rf m2 r).
Proof.
  intros Hsp Hr Htop Hrax Hst m3. unfold m3. rewrite wrapper_enter_pops, !exec_app.
  destruct (exec_mov_sti star R9 RAX m2) as (H9 & Hregs & Hmem & Hif). rewrite Hrax in H9.
  generalize dependent (exec star [Mov R9 RAX; Sti] m2). intros n H9 Hregs Hmem Hif.
  assert (Hn : rf n RSP = sp - 104) by by rewrite Hregs.
  destruct (exec_pops star [R8; RCX; RDX; RSI; RDI] n) as [_ Hp2 Hp3 Hp4 (_ & Hp5 & _)];
    [lia|cbn; lia|reg_decide|reg_decide|].
  generalize dependent (exec star (Pop <$> [R8; RCX; RDX; RSI; RDI]) n). intros n2 Hp2 Hp3 Hp4 Hp5.
  assert (H92 : rf n2 R9 = top) by (rewrite Hp3; [done|reg_decide|done]).
  destruct (exec_switch_stack star n2 top H92 Htop) as (F1 & F2 & F3 & F4).
  generalize dependent (exec star [Mov RSP R9; Push R9] n2). intros n3 F1 F2 F3 F4.
  assert (Hw : forall i r, arg_regs !! i = Some r -> forall a, a = sp - 64 - 8 * (Z.of_nat i + 1) ->
    mem m2 a = rf m r) by (intros i r Hi a ->; by apply Hst).
  rewrite Hn, Hmem in *. split; [|split; [done|split; [congruence|split; [congruence|]]]].
  - cbn [fmap list_fmap argument_regs arg_regs app]. rewrite !F2, H92 by done.
    rewrite (Hp2 4%nat RDI), (Hp2 3%nat RSI), (Hp2 2%nat RDX), (Hp2 1%nat RCX), (Hp2 0%nat R8) by done.
    rewrite (Hw 0%nat RAX), (Hw 1%nat RDI), (Hw 2%nat RSI), (Hw 3%nat RDX), (Hw 4%nat R10) by (done || lia).
    done.
  - intros r Hin. assert ((r ∉ [R8; RCX; RDX; RSI; RDI]) /\ r <> RSP /\ r <> R9) as (? & ? & ?).
    { unfold kept_regs in Hin. reg_cases Hin; reg_decide. }
    by rewrite F2, Hp3, Hregs.
Qed.

Lemma wrapper_return_ok star m m6 sp :
  rf m6 RBP = sp - 64 -> 104 <= sp < 2 ^ 64 -> stored saved_regs sp m (mem m6) ->
  let m7 := exec star wrapper_return m6 in
  rip m7 = rf m RCX /\ int_flag m7 = Z.testbit (rf m R11) IF_BIT /\ rf m7 RSP = sp /\
  (forall r, r ∈ kept_regs -> rf m7 r = rf m r) /\ rf m7 RAX = rf m6 RAX /\
  cs m7 = cs (sysretq star m) /\ ss m7 = ss (sysretq star m).
Proof.
  intros Hbp Hr Hst m7. unfold m7. rewrite wrapper_return_pops, !exec_app.
  destruct (exec_mov star RSP RBP m6) as (Hn & Hax & Hmem). rewrite Hbp in Hn.
  generalize dependent (exec star [Mov RSP RBP] m6). intros n Hn Hax Hmem.
  destruct (exec_pops star (rev saved_regs) n) as [Hp1 Hp2 Hp3 _ _]; [lia|cbn; lia|reg_decide|reg_decide|].
  generalize dependent (exec star (Pop <$> rev saved_regs) n). intros n2 Hp1 Hp2 Hp3.
  change (length (rev saved_regs)) with 8%nat in Hp1. rewrite Hn, Hmem in *.
  assert (Hw : forall i j r, rev saved_regs !! i = Some r -> saved_regs !! j = Some r ->
    (i + j = 7)%nat -> rf n2 r = rf m r).
  { intros i j r Hi Hj Hij. rewrite (Hp2 i) by done. rewrite <- (Hst j r Hj). f_equal. lia. }
  destruct (exec_sysretq star n2) as (-> & -> & -> & -> & ->).
  rewrite (Hw 7%nat 0%nat RCX), (Hw 6%nat 1%nat R11) by done.
  split; [done|]. split; [done|]. split; [lia|]. split; [|split; [|done]].
  - intros r Hin. unfold kept_regs in Hin. reg_cases Hin.
    + by apply (Hw 4%nat 3%nat).
    + by apply (Hw 5%nat 2%nat).
    + by apply (Hw 3%nat 4%nat).
    + by apply (Hw 2%nat 5%nat).
    + by apply (Hw 1%nat 6%nat).
    + by apply (Hw 0%nat 7%nat).
  - rewrite Hp3, Hax; [done|done|reg_decide|done].
Qed.

Create Rewrite HintDb kernel.

Section wrapper.
Context {P : Profile} {H : FallbackHeap} {T : DescriptorTable}.
Context (user_mem : Z -> Z) (clobber : machine -> machine).

(** What the calls leave alone: the registers the calling convention names,
    the words on the caller's stack and the word on top of the new stack. *)
Record conforming (sp top : Z) : Prop := {
  conf_regs : forall m r, r ∈ callee_saved -> rf (clobber m) r = rf m r;
  conf_mem : forall m a, sp - 104 <= a < sp \/ a = top - 8 -> mem (clobber m) a = mem m a;
}.

(** What a system call other than [exit] shows on the screen. *)
Definition syscall_effect (id arg0 arg1 : Z) (t : Terminal) : Terminal :=
  if id =? 0 then
    let text := (fun i => user_mem (arg0 + i)) <$> seqZ 0 arg1 in
    if utf8_valid text then term_write t text else t
  else term_write t (UNKNOWN_SYSCALL ++ decimal 20 id [] ++ [NEWLINE]).

Definition syscall_result (id arg0 arg1 : Z) : Z :=
  if id =? 0 then
    if utf8_valid ((fun i => user_mem (arg0 + i)) <$> seqZ 0 arg1) then 0 else -1
  else 0.

Definition set_vga (w : Writer) (k : Kernel) : Kernel :=
  mkKernel _ (allocator k) w false (scheduler k) (world k).

Lemma print_kernel pieces k t :
  vga_locked k = false -> shows t (vga_writer k) ->
  exists w, print pieces k = Ret (set_vga w k) /\ shows (term_write t (concat pieces)) w.
Proof.
  intros Hl Hs. unfold print.
  destruct (print_ok pieces (mkConsole (vga_writer k) (vga_locked k) (int_flag (cpu (world k)))) t Hl Hs)
    as (w & -> & Hw). exists w. split; [|done]. destruct k as [? ? ? ? [[] ?]]. reflexivity.
Qed.

Lemma syscall_handler_ok fuel id a0 a1 a2 a3 stack k t :
  id <> 1 -> vga_locked k = false -> shows t (vga_writer k) ->
  exists w, syscall_handler user_mem fuel id a0 a1 a2 a3 stack k =
      Ret (Returns (syscall_result id a0 a1) (set_vga w k)) /\
    shows (syscall_effect id a0 a1 t) w.
Proof.
  intros Hid Hl Hs. unfold syscall_handler, syscall_result, syscall_effect, print_vga_text, default_syscall.
  destruct (id =? 0).
  - cbv zeta. destruct (utf8_valid _).
    + destruct (print_kernel [(fun i => user_mem (a0 + i)) <$> seqZ 0 a1] k t Hl Hs) as (w & -> & Hw).
      exists w. split; [done|]. cbn [concat] in Hw. by rewrite app_nil_r in Hw.
    + exists (vga_writer k). split; [|done]. by destruct k; cbn in Hl; subst.
  - destruct (id =? 1) eqn:E; [by prop_of_bool|].
    destruct (print_kernel [UNKNOWN_SYSCALL; decimal 20 id []; [NEWLINE]] k t Hl Hs) as (w & -> & Hw).
    by exists w.
Qed.

(** The machine after a call with a result. *)
Definition called (r : Z) (m : machine) : machine :=
  set_rf (rset RAX r (rf (clobber m))) (clobber m).

(** The machine part of the state and the rest of it. *)
Lemma returning_called v k :
  returning clobber v k = set_cpu (called (wrap 64 v) (cpu (world k))) k.
Proof. done. Qed.
Lemma returning_unit_clobber k : returning_unit clobber k = set_cpu (clobber (cpu (world k))) k.
Proof. done. Qed.
Lemma run_exec star code k : run star code k = set_cpu (exec star code (cpu (world k))) k.
Proof. done. Qed.
Lemma cpu_set_cpu m k : cpu (world (set_cpu m k)) = m.
Proof. done. Qed.
Lemma set_cpu_set_cpu m m' k : set_cpu m (set_cpu m' k) = set_cpu m k.
Proof. done. Qed.
Lemma allocator_set_cpu m k : allocator (set_cpu m k) = allocator k.
Proof. done. Qed.
Lemma set_allocator_set_cpu a m k : set_allocator a (set_cpu m k) = set_cpu m (set_allocator a k).
Proof. done. Qed.
Lemma set_vga_set_cpu w m k : set_vga w (set_cpu m k) = set_cpu m (set_vga w k).
Proof. done. Qed.
Hint Rewrite returning_called returning_unit_clobber run_exec cpu_set_cpu set_cpu_set_cpu
  allocator_set_cpu set_allocator_set_cpu set_vga_set_cpu : kernel.

Lemma called_keeps sp top r m :
  conforming sp top ->
  rf (called r m) RAX = r /\ (forall x, x ∈ callee_saved -> rf (called r m) x = rf m x) /\
  (forall a, sp - 104 <= a < sp \/ a = top - 8 -> mem (called r m) a = mem m a).
Proof.
  intros [Hr Hm]. unfold called. split; [by asm_read|].
  split; [|intros a Ha; rewrite mem_set_rf; by apply Hm].
  intros x Hx. autorewrite with asm. rewrite rset_ne; [by apply Hr|].
  intros <-. revert Hx. reg_decide.
Qed.

(** From the entry to the call of the handler. *)
Lemma wrapper_to_handler star m sp top :
  rf m RSP = sp -> 104 <= sp < 2 ^ 64 -> 8 <= top < 2 ^ 64 ->
  (top - 8 < sp - 104 \/ sp <= top - 8) -> conforming sp top ->
  let m3 := exec star wrapper_enter_stack (called top (exec star wrapper_entry m)) in
  (rf m3 <$> argument_regs) = (rf m <$> arg_regs) ++ [top] /\ rf m3 RSP = top - 8 /\
  rf m3 RBP = sp - 64 /\ stored saved_regs sp m (mem m3) /\ mem m3 (top - 8) = top /\ int_flag m3 = true.
Proof.
  intros Hm Hsp Htop Hdis Hc m3. subst m3.
  destruct (wrapper_entry_ok star m sp Hm Hsp) as (H1 & H2 & H4 & H5).
  generalize dependent (exec star wrapper_entry m). intros m1 H1 H2 H4 H5.
  destruct (called_keeps sp top top m1 Hc) as (C1 & C2 & C3).
  generalize dependent (called top m1). intros m2 C1 C2 C3.
  destruct (wrapper_enter_ok star m m2 sp top) as (E1 & E2 & E3 & E4 & E5);
    [by rewrite C2 by reg_decide|done|done|done| |].
  { apply (stored_ext _ _ _ (mem m1)); [|done]. cbn [length arg_regs]. intros a Ha. apply C3. lia. }
  generalize dependent (exec star wrapper_enter_stack m2). intros m3 E1 E2 E3 E4 E5.
  split; [done|]. split; [done|]. split; [by rewrite E5, C2 by reg_decide|].
  rewrite E4. split; [|split; [apply mset_eq|done]].
  apply (stored_ext _ _ _ (mem m1)); [|done]. cbn [length saved_regs]. intros a Ha.
  rewrite mset_ne by lia. apply C3. lia.
Qed.

(** From the return of the handler to the return of the call that frees the
    stack. *)
Lemma wrapper_from_handler star m m3 r sp top :
  8 <= top < 2 ^ 64 -> conforming sp top -> rf m3 RSP = top - 8 -> rf m3 RBP = sp - 64 ->
  stored saved_regs sp m (mem m3) -> mem m3 (top - 8) = top ->
  let m5 := exec star wrapper_leave_stack (called r m3) in
  rf m5 RDI = top /\ rf (clobber m5) RBP = sp - 64 /\ stored saved_regs sp m (mem (clobber m5)).
Proof.
  intros Htop Hc Hsp Hbp Hst Hw m5. destruct (called_keeps sp top r m3 Hc) as (_ & C2 & C3).
  destruct Hc as [Hr Hm]. subst m5.
  generalize dependent (called r m3). intros m4 C2 C3.
  unfold wrapper_leave_stack. rewrite !exec_cons, exec_nil. cbn [step].
  assert (Hsp4 : rf m4 RSP = top - 8) by by rewrite C2 by reg_decide.
  rewrite (pop_to_at (top - 8)) by (asm_read; done || lia).
  set (m5 := pop_at _ _ _). assert (Hm5 : mem m5 = mem m4) by done.
  split; [unfold m5; asm_read; by rewrite C3 by lia|]. split.
  - rewrite Hr by reg_decide. unfold m5. asm_read. by rewrite C2 by reg_decide.
  - apply (stored_ext _ _ _ (mem m3)); [|done]. cbn [length saved_regs]. intros a Ha.
    rewrite Hm, Hm5 by lia. apply C3. lia.
Qed.

(** The whole wrapper. *)
Lemma syscall_wrapper_eq fuel star k t p h :
  let m := cpu (world k) in
  let sp := rf m RSP in
  let top := p + STACK_SIZE in
  104 <= sp < 2 ^ 64 ->
  allocate_first_fit stack_layout (fallback (allocator k)) = Some (p, h) ->
  0 < p < 2 ^ 64 - STACK_SIZE -> (top - 8 < sp - 104 \/ sp <= top - 8) -> conforming sp top ->
  rf m RAX <> 1 -> vga_locked k = false -> shows t (vga_writer k) ->
  exists w m5, syscall_wrapper user_mem clobber fuel star k =
      Ret (Returns (rf (clobber m5) RAX)
        (set_cpu (exec star wrapper_return (clobber m5))
          (set_allocator (set_fallback (deallocate p stack_layout h) (allocator k)) (set_vga w k)))) /\
    rf (clobber m5) RBP = sp - 64 /\ stored saved_regs sp m (mem (clobber m5)) /\
    shows (syscall_effect (rf m RAX) (rf m RDI) (rf m RSI) t) w.
Proof.
  intros m sp top Hsp Halloc Hp Hdis Hc Hid Hl Hs. unfold syscall_wrapper.
  assert (Htop : 8 <= top < 2 ^ 64) by (unfold top, STACK_SIZE in *; lia).
  destruct (wrapper_to_handler star m sp top eq_refl Hsp Htop Hdis Hc) as (E1 & E2 & E3 & E4 & E5 & _).
  rewrite run_exec. fold m. generalize dependent (exec star wrapper_entry m).
  intros m1 E1 E2 E3 E4 E5. rewrite (setup_eq _ p h) by (done || lia). rewrite ret_bind. cbv beta iota zeta.
  autorewrite with kernel. rewrite wrap_small by range. fold top.
  generalize dependent (exec star wrapper_enter_stack (called top m1)). intros m3 E1 E2 E3 E4 E5.
  cbn [fmap list_fmap argument_regs arg_regs app] in E1. injection E1 as -> -> -> -> -> ->.
  match goal with |- context [syscall_handler _ _ _ _ _ _ _ _ ?k0] =>
    destruct (syscall_handler_ok fuel (rf m RAX) (rf m RDI) (rf m RSI) (rf m RDX) (rf m R10) top k0 t
      Hid Hl Hs) as (w & -> & Hw) end.
  rewrite ret_bind. cbv beta iota zeta. autorewrite with kernel. set (r := wrap 64 (syscall_result _ _ _)).
  destruct (wrapper_from_handler star m m3 r sp top Htop Hc E2 E3 E4 E5) as (F1 & F2 & F3).
  rewrite F1. unfold top at 1. rewrite delete_eq by done. rewrite ret_bind. cbv beta iota zeta.
  autorewrite with kernel.
  generalize dependent (exec star wrapper_leave_stack (called r m3)). intros m5 _ F2 F3.
  exists w, m5. split; [|done]. generalize (exec star wrapper_return (clobber m5)). done.
Qed.


(** The result of the handler does not reach the caller: RAX holds what
    the function that frees the stack leaves there, also when a conforming
    function leaves some fixed value. *)
Theorem syscall_result_lost fuel star k t p h x :
  let m := cpu (world k) in
  let sp := rf m RSP in
  let top := p + STACK_SIZE in
  104 <= sp < 2 ^ 64 ->
  allocate_first_fit stack_layout (fallback (allocator k)) = Some (p, h) ->
  0 < p < 2 ^ 64 - STACK_SIZE -> (top - 8 < sp - 104 \/ sp <= top - 8) -> conforming sp top ->
  rf m RAX <> 1 -> vga_locked k = false -> shows t (vga_writer k) ->
  (forall m, rf (clobber m) RAX = x) ->
  exists v k', syscall_wrapper user_mem clobber fuel star k = Ret (Returns v k') /\
    rf (cpu (world k')) RAX = x.
Proof.
  intros m sp top Hsp Halloc Hp Hdis Hc Hid Hl Hs Hx.
  destruct (syscall_wrapper_eq fuel star k t p h Hsp Halloc Hp Hdis Hc Hid Hl Hs)
    as (w & m5 & -> & Hbp & Hst & Hw).
  destruct (wrapper_return_ok star m (clobber m5) sp Hbp Hsp Hst) as (_ & _ & _ & _ & R5 & _).
  eexists _, _. split; [done|]. cbn [cpu world set_cpu set_world]. by rewrite R5.
Qed.

End wrapper.

(** ** Examples *)

#[local] Existing Instance bump_heap.
#[local] Existing Instance bump_laws.

(** A process that makes the system call 7 on its stack at [0x810000]. *)
Definition example_kernel : Kernel :=
  mkKernel _ example_alloc (Vga.new example_video) false SCHEDULER
    (mkWorld (example_machine 0x810000 0 0) false).

Lemma syscall_stack_roundtrip_witness :
  exists k1 k2, setup_syscall_stack example_kernel = Ret (0x5008, k1) /\
    delete_syscall_stack 0x5008 k1 = Ret k2 /\ heap_owns (fallback (allocator k2)) ∅.
Proof.
  destruct (@syscall_stack_roundtrip _ _ example_kernel ∅ 0x4008 0x5008)
    as (k1 & k2 & H1 & _ & _ & H2 & H3 & _).
  - split; [vm_compute; discriminate|]. intros p n Hp. by apply lookup_empty_Some in Hp.
  - reflexivity.
  - reflexivity.
  - exists k1, k2. split; [exact H1|]. split; [exact H2|exact H3].
Defined.


Lemma syscall_result_lost_witness :
  exists v k', @syscall_wrapper dev_profile _ _ (fun _ => 0)
      (fun m => set_rf (rset RAX 42 (rf m)) m) 0 0x23000800000000
      example_kernel = Ret (Returns v k') /\ rf (cpu (world k')) RAX = 42.
Proof.
  apply (@syscall_result_lost dev_profile _ _ (fun _ => 0) (fun m => set_rf (rset RAX 42 (rf m)) m)
    0 0x23000800000000 example_kernel (mkTerminal example_video 0 0 (ColorCode_new White Black false))
    0x4008 0x5008).
  - vm_compute. split; [discriminate|reflexivity].
  - reflexivity.
  - vm_compute. split; reflexivity.
  - left. vm_compute. reflexivity.
  - split; [|done]. intros m r Hr. unfold callee_saved in Hr. reg_cases Hr; done.
  - discriminate.
  - reflexivity.
  - apply example_video_shows.
  - reflexivity.
Defined.

