(* ===== verification/System.v ===== *)
(** * The kernel at work

    The system after the start: a user program, the interrupts that come while
    it runs and the system calls it makes, as steps of one transition system.
    The theorem is that a kernel with one process serves it forever: every
    interrupt and every system call comes back to the program, in user mode and
    in its address space, with all locks of the kernel free.  A system call is one
    event: interrupts that come while it runs are not considered. *)
From S2P Require Import Prelude Asm Context Scheduler SchedulerSpec Vga FixedBlock FixedBlockSpec Fs Gdt Syscall SyscallSpec.
From S2P Require Import Executor Keyboard Interrupts Preempt.

(** Only a call can change the address space. *)
Definition no_call (i : instr) : Prop := match i with Call _ => False | _ => True end.
Lemma exec_cr3 star code m : Forall no_call code -> cr3 (exec star code m) = cr3 m.
Proof.
  intros Hc. revert m. induction Hc as [|i code Hi _ IH]; intros m; [done|]. rewrite exec_cons, IH. by destruct i.
Qed.


Section syscall_space.
Context {P : Profile} {F : FallbackHeap} {T : DescriptorTable}.
Context (user_mem : Z -> Z) (clobber : machine -> machine) (Hclobber : forall m, cr3 (clobber m) = cr3 m).
Abbreviation lock k := (sched_locked (Syscall.world k)).
Abbreviation space k := (cr3 (cpu (Syscall.world k))).

Lemma print_space pieces k k' : print pieces k = Ret k' -> space k' = space k /\ lock k' = lock k.
Proof. intros E. unfold print in E. inv_bind E. by injection E as <-. Qed.

Lemma handler_space fuel id x0 x1 x2 x3 stack k v k' :
  syscall_handler user_mem fuel id x0 x1 x2 x3 stack k = Ret (Returns v k') -> space k' = space k /\ lock k' = lock k.
Proof.
  unfold syscall_handler, print_vga_text, default_syscall, exit. intros E.
  destruct (id =? 0); [|destruct (id =? 1)]; inv_bind E.
  - destruct a. injection E as <- <-. cbv zeta in Ha. destruct (utf8_valid _).
    + inv_bind Ha. injection Ha as <- <-. by eapply print_space.
    + by injection Ha as <- <-.
  - destruct (sched_locked _); [done|]. inv_bind E. by destruct a0 as [[] ?].
  - destruct a. injection E as <- <-. inv_bind Ha. injection Ha as <- <-. by eapply print_space.
Qed.

Lemma run_space star code k : Forall no_call code -> space (run star code k) = space k.
Proof. apply exec_cr3. Qed.

(** A system call that comes back does so in the address space it came from. *)
Lemma wrapper_space fuel star k v k' :
  syscall_wrapper user_mem clobber fuel star k = Ret (Returns v k') -> space k' = space k /\ lock k' = lock k.
Proof using Hclobber.
  unfold syscall_wrapper. cbv zeta. intros E. inv_bind E. destruct a as [stack k1]. inv_bind E.
  destruct a as [r k2|k2]; [|done]. apply handler_space in Ha0 as [Hs2 Hl2]. inv_bind E. rename a into k3.
  injection E as _ <-. rewrite run_space by (repeat constructor). cbn [returning_unit set_cpu set_world cpu Syscall.world].
  unfold delete_syscall_stack in Ha0. inv_bind Ha0. injection Ha0 as <-.
  unfold setup_syscall_stack in Ha. inv_bind Ha. destruct a0 as [q a0]. injection Ha as <- <-.
  rewrite Hclobber. cbn [set_allocator Syscall.world]. rewrite run_space by (repeat constructor).
  split; [|done]. cbn [returning set_cpu set_world cpu Syscall.world set_rf cr3]. rewrite Hclobber, Hs2.
  rewrite run_space by (repeat constructor). cbn [returning set_cpu set_world cpu Syscall.world set_rf cr3].
  rewrite Hclobber. apply run_space. repeat constructor.
Qed.
End syscall_space.

(** ** The system *)

Section system.
Context {P : Profile} {F : FallbackHeap} {FL : FallbackLaws F} {T : DescriptorTable}.
Context {Q : Type -> Type} `{ArrayQueue Q} {A : Type} `{AtomicWaker A}.
Context {C : TimerCode} {L : TimerCodeLaws} (tss : TaskStateSegment) (handler : Z) (msr : msrs).
Context (fault_stack kernel_stack : Z) (wrapper : Z).
Context (Htss : TSS fault_stack kernel_stack = Ret tss) (Hstack : 0 <= kernel_stack < 2 ^ 64 - 0x10000).

(** The CPU while it runs the program, what the handlers act on, and the heap. *)
Record System := mkSystem { sys_cpu : machine; sys_irq : @IrqState Q A; sys_heap : FixedBlockAlloc }.

(** What happens next: instructions of the program, which leave the machine
    [m]; a timer interrupt; another interrupt or exception, whose handler
    leaves the machine [m]; or a system call. *)
Inductive event :=
| UserCode (m : machine)
| TimerTick
| Interrupt (vector scancode : Z) (frame code : list Z) (m : machine)
| SystemCall (user_mem : Z -> Z) (clobber : machine -> machine).

(** The kernel as a system call finds it, and the system it leaves. *)
Definition call_kernel (s : System) : Kernel :=
  let st := sys_irq s in
  mkKernel _ (sys_heap s) (writer (console st)) (writer_locked (console st)) (scheduler st)
    (mkWorld (syscall_insn (init wrapper msr) (sys_cpu s)) (sched_locked (world st))).
Definition leave_kernel (k : Kernel) (s : System) : System :=
  let st := sys_irq s in
  mkSystem (cpu (Syscall.world k))
    (mkIrq (pics_locked st) (ended st) (Syscall.scheduler k) (Syscall.world k)
      (mkConsole (vga_writer k) (vga_locked k) (interrupts (console st))) (keyboard st))
    (allocator k).

Definition sys_event (fuel : nat) (e : event) (s : System) : outcome System :=
  match e with
  | UserCode m => Ret (mkSystem m (sys_irq s) (sys_heap s))
  | TimerTick =>
      '(m, st) ← Preempt.timer_interrupt tss handler fuel (sys_cpu s) (sys_irq s);
      Ret (mkSystem m st (sys_heap s))
  | Interrupt vector scancode frame code m =>
      f ← dispatch set_usermode_segments fuel vector scancode frame code (sys_irq s);
      Ret (mkSystem m (irq_state f) (sys_heap s))
  | SystemCall user_mem clobber =>
      f ← syscall_wrapper user_mem clobber fuel ((init wrapper msr) IA32_STAR) (call_kernel s);
      match f with Returns _ k | Leaves k => Ret (leave_kernel k s) end
  end.

(** What the events may be.  The program stays in user mode and in its address
    space.  The handlers of exceptions save and restore what the program sees;
    a page fault and a double fault stop the kernel.  The program makes its
    system calls, other than [exit], on a stack with room for the registers;
    the heap has a block for the stack of the call, which the compiled code
    respects. *)
Definition allowed (e : event) (s : System) : Prop :=
  match e with
  | UserCode m => in_user m /\ cr3 m = cr3 (sys_cpu s)
  | TimerTick => True
  | Interrupt vector _ _ _ m => (vector ∉ [8; 14; 32]) /\ same_user kernel_stack (sys_cpu s) m
  | SystemCall _ clobber =>
      let sp := rf (sys_cpu s) RSP in
      exists p h, allocate_first_fit stack_layout (fallback (sys_heap s)) = Some (p, h) /\
        p < 2 ^ 64 - STACK_SIZE /\ 104 <= sp < 2 ^ 64 /\
        (p + STACK_SIZE - 8 < sp - 104 \/ sp <= p + STACK_SIZE - 8) /\
        conforming clobber sp (p + STACK_SIZE) /\ (forall m, cr3 (clobber m) = cr3 m) /\
        rf (sys_cpu s) RAX <> 1
  end.

(** What the program sees of an event: nothing of an interrupt, and after a
    system call it goes on behind it with its stack and its registers. *)
Definition comes_back (e : event) (m m' : machine) : Prop :=
  match e with
  | UserCode m1 => m' = m1
  | TimerTick | Interrupt _ _ _ _ _ => same_user kernel_stack m m'
  | SystemCall _ _ =>
      rip m' = rip m /\ rf m' RSP = rf m RSP /\ (forall r, r ∈ kept_regs -> rf m' r = rf m r) /\
      int_flag m' = int_flag m
  end.

(** The invariant: a program runs in user mode, in the address space at [a] of
    the only task, with the locks free; the screen shows [t], and the blocks
    [O] of the heap are owned. *)
Record serving (a : Z) (O : gmap Z Z) (t : Terminal) (s : System) : Prop := {
  sv_user : in_user (sys_cpu s);
  sv_space : cr3 (sys_cpu s) = containing_frame a;
  sv_alone : alone a (scheduler (sys_irq s));
  sv_locks : unlocked (sys_irq s);
  sv_screen : shows t (writer (console (sys_irq s)));
  sv_queue : SCANCODE_QUEUE (keyboard (sys_irq s)) = None;
  sv_heap : heap_owns (fallback (sys_heap s)) O;
}.

(** An exception prints its text; the keyboard, for which no one waits, prints
    a warning. *)
Lemma print_exception_ok pieces (st : @IrqState Q A) t :
  unlocked st -> shows t (writer (console st)) ->
  exists w t', print_exception pieces st = Ret (Iret (set_console (mkConsole w false (interrupts (console st))) st)) /\
    shows t' w /\ extends t t'.
Proof.
  intros (_ & _ & Hl) Hs. destruct (print_ok (pieces ++ [[NEWLINE]]) (console st) t Hl Hs) as (w & E & Hw).
  exists w. eexists. unfold print_exception. rewrite E. split; [done|]. split; [exact Hw|]. by eapply term_write_extends.
Qed.

Lemma keyboard_warns scancode (st : @IrqState Q A) t :
  unlocked st -> shows t (writer (console st)) -> SCANCODE_QUEUE (keyboard st) = None ->
  exists w t' k e, keyboard_interrupt_handler scancode st =
      Ret (Iret (mkIrq false e (scheduler st) (world st) (mkConsole w false (interrupts (console st))) k)) /\
    SCANCODE_QUEUE k = None /\ shows t' w /\ extends t t'.
Proof.
  intros (Hp & _ & Hl) Hs Hq. unfold keyboard_interrupt_handler, add_scancode. rewrite Hq, ret_bind.
  cbn [printed println]. rewrite drop_app_length. unfold print_warnings. cbn [for_each].
  destruct (print_ok [text uninitialized_msg; [NEWLINE]] (console st) t Hl Hs) as (w & E & Hw). rewrite E, !ret_bind.
  unfold notify_end_of_interrupt. cbn [pics_locked set_console set_keyboard]. rewrite Hp, ret_bind.
  eexists w, _, _, _. split; [done|]. split; [done|]. split; [exact Hw|]. by eapply term_write_extends.
Qed.

Lemma interrupt_returns fuel vector scancode frame code (st : @IrqState Q A) t :
  vector ∉ [8; 14; 32] -> unlocked st -> shows t (writer (console st)) -> SCANCODE_QUEUE (keyboard st) = None ->
  exists st' t', dispatch set_usermode_segments fuel vector scancode frame code st = Ret (Iret st') /\
    unlocked st' /\ scheduler st' = scheduler st /\ SCANCODE_QUEUE (keyboard st') = None /\
    shows t' (writer (console st')) /\ extends t t'.
Proof.
  intros Hv Hu Hs Hq.
  assert (HE : forall pieces, exists st' t', print_exception pieces st = Ret (Iret st') /\
    unlocked st' /\ scheduler st' = scheduler st /\ SCANCODE_QUEUE (keyboard st') = None /\
    shows t' (writer (console st')) /\ extends t t').
  { intros pieces. destruct (print_exception_ok pieces st t Hu Hs) as (w & t' & -> & Hw & Ht).
    eexists _, t'. split; [done|]. destruct Hu as (? & ? & ?). by split_and!. }
  unfold dispatch. destruct (IDT !! vector) as [[h ist]|] eqn:E; [|apply HE].
  apply elem_of_map_to_list in E. vm_compute in E.
  repeat (apply elem_of_cons in E as [[= -> -> ->]|E]; [cbn [handler_fn fmap option_fmap option_map];
    first [apply HE | (exfalso; apply Hv; by repeat constructor) | idtac]|]); [|by apply elem_of_nil in E].
  destruct (keyboard_warns scancode st t Hu Hs Hq) as (w & t' & k & e & -> & Hk & Hw & Ht).
  destruct Hu as (? & ? & ?). eexists _, t'. by split_and!.
Qed.

Lemma in_user_same m m' : in_user m -> same_user kernel_stack m m' -> in_user m'.
Proof. intros [] []. split; [unfold user_mode in *; congruence|congruence..]. Qed.

Abbreviation event_served fuel e s a O t := (exists s' t', sys_event fuel e s = Ret s' /\
  comes_back e (sys_cpu s) (sys_cpu s') /\ serving a O t' s' /\ extends t t').

Lemma timer_served fuel a O t s : serving a O t s -> event_served (S fuel) TimerTick s a O t.
Proof using L Htss Hstack.
  intros [Hu Hcr Ha (Hp & Hl & Hw) Hs Hq HO].
  destruct (timer_interrupt_alone tss handler fault_stack kernel_stack Htss Hstack fuel a (sys_cpu s) (sys_irq s))
    as (m' & st' & E & Hm & Ha' & [Hp' Hl'] & Hco & Hk); [done..|].
  cbn [sys_event]. rewrite E, ret_bind. eexists _, t. split; [done|]. split; [done|]. split; [|by split].
  split; cbn [sys_cpu sys_irq sys_heap]; try done.
  - by eapply in_user_same.
  - by rewrite (su_cr3 _ _ _ Hm).
  - split_and!; [done..|by rewrite Hco].
  - by rewrite Hco.
  - by rewrite Hk.
Qed.

Lemma interrupt_served fuel vector scancode fr code m a O t s :
  serving a O t s -> allowed (Interrupt vector scancode fr code m) s ->
  event_served fuel (Interrupt vector scancode fr code m) s a O t.
Proof.
  intros [Hu Hcr Ha Hl Hs Hq HO] [Hv Hm].
  destruct (interrupt_returns fuel vector scancode fr code (sys_irq s) t Hv Hl Hs Hq)
    as (st' & t' & E & Hl' & Hsc & Hq' & Hs' & Ht).
  cbn [sys_event]. rewrite E, ret_bind. eexists _, t'. split; [done|]. split; [done|]. split; [|done].
  split; cbn [sys_cpu sys_irq sys_heap irq_state]; try done.
  - by eapply in_user_same.
  - by rewrite (su_cr3 _ _ _ Hm).
  - by rewrite Hsc.
Qed.

Lemma syscall_effect_extends user_mem id x y t w : shows t w -> extends t (syscall_effect user_mem id x y t).
Proof.
  intros Hs. unfold syscall_effect. destruct (id =? 0); cbv zeta; [destruct (utf8_valid _)|]; try by eapply term_write_extends.
  by split.
Qed.

(** The registers and flags that [syscall] leaves. *)
Lemma call_kernel_cpu s : let m := cpu (Syscall.world (call_kernel s)) in
  (forall r, r <> RCX -> r <> R11 -> rf m r = rf (sys_cpu s) r) /\ rf m RCX = rip (sys_cpu s) /\
  Z.testbit (rf m R11) IF_BIT = int_flag (sys_cpu s) /\ cr3 m = cr3 (sys_cpu s) /\
  cs (sysretq ((init wrapper msr) IA32_STAR) m) = 0x33 /\ ss (sysretq ((init wrapper msr) IA32_STAR) m) = 0x2b.
Proof.
  cbn. split; [intros r H1 H2; by rewrite !rset_ne by congruence|]. split; [by rewrite rset_eq|].
  rewrite rset_ne, rset_eq by done. split; [by destruct (int_flag _)|done].
Qed.

Lemma syscall_served fuel user_mem clobber a O t s :
  serving a O t s -> allowed (SystemCall user_mem clobber) s ->
  event_served fuel (SystemCall user_mem clobber) s a O t.
Proof using FL.
  intros [Hu Hcr Ha (Hp & Hl & Hw) Hs Hq HO] (p & h & Halloc & Hpr & Hsp & Hdis & Hconf & Hcl & Hid).
  destruct (allocate_fresh _ _ stack_layout _ _ HO ltac:(done) Halloc) as (HO' & Hp0 & _ & Hnew & _).
  destruct (call_kernel_cpu s) as (Kr & Krcx & Kr11 & Kcr & Kcs & Kss).
  destruct (syscall_wrapper_eq user_mem clobber fuel ((init wrapper msr) IA32_STAR) (call_kernel s) t p h)
    as (w & m5 & E & Hbp & Hst & Hw'); try (by rewrite ?Kr by done).
  destruct (wrapper_space user_mem clobber Hcl _ _ _ _ _ E) as [Hspace Hlock].
  destruct (wrapper_return_ok ((init wrapper msr) IA32_STAR) _ (clobber m5) _ Hbp ltac:(by rewrite Kr) Hst)
    as (R1 & R2 & R3 & R4 & _ & R6 & R7).
  cbn [sys_event]. rewrite E, ret_bind. cbv iota.
  set (m7 := exec _ _ _) in *. clearbody m7. cbn [cpu Syscall.world set_cpu set_world sched_locked set_allocator set_vga] in Hspace, Hlock.
  eexists _, _. split; [done|]. split; [|split; [|by eapply syscall_effect_extends]].
  - cbn. rewrite R1, R2, R3, Krcx, Kr11, Kr by done. split_and!; try done. intros r Hr. rewrite R4 by done.
    apply Kr; intros ->; revert Hr; reg_decide.
  - split; cbn [sys_cpu sys_irq leave_kernel cpu Syscall.world set_cpu set_world]; try done.
    + rewrite Kcs in R6. rewrite Kss in R7. split; [unfold user_mode; by rewrite R6|rewrite R6; range|rewrite R7; range].
    + by rewrite Hspace, Kcr.
    + cbn. rewrite <- (delete_insert_id O p STACK_SIZE Hnew). apply deallocate_owned; [done|]. apply lookup_insert_eq.
Qed.

Lemma event_ok fuel e a O t s : serving a O t s -> allowed e s -> event_served (S fuel) e s a O t.
Proof using FL L Htss Hstack.
  intros Hs Ha. destruct e.
  - destruct Ha as [Hu Hc], Hs. eexists _, t. split; [done|]. split; [done|]. split; [|by split].
    split; try done. by rewrite <-sv_space0.
  - by apply timer_served.
  - by apply interrupt_served.
  - by apply syscall_served.
Qed.

(** A sequence of events each of which is allowed when it comes, and that each
    of them is served: it finishes, the program continues, and the invariant
    holds again with the same address space, the same blocks of the heap and
    a screen to which at most text was added. *)
Fixpoint allowed_run (fuel : nat) (es : list event) (s : System) : Prop :=
  match es with
  | [] => True
  | e :: es => allowed e s /\ forall s', sys_event fuel e s = Ret s' -> allowed_run fuel es s'
  end.
Fixpoint served_run (fuel : nat) (a : Z) (O : gmap Z Z) (es : list event) (t : Terminal) (s : System) : Prop :=
  match es with
  | [] => True
  | e :: es => exists s' t', sys_event fuel e s = Ret s' /\ comes_back e (sys_cpu s) (sys_cpu s') /\
      serving a O t' s' /\ extends t t' /\ served_run fuel a O es t' s'
  end.

Lemma serving_served fuel es a O t s :
  serving a O t s -> allowed_run (S fuel) es s -> served_run (S fuel) a O es t s.
Proof using FL L Htss Hstack.
  revert s t. induction es as [|e es IH]; intros s t Hs Hal; [done|]. destruct Hal as [Ha Hal].
  destruct (event_ok fuel e a O t s Hs Ha) as (s' & t' & E & Hb & Hs' & Ht).
  exists s', t'. split_and!; try done. apply IH; [done|]. by apply Hal.
Qed.

End system.

(** ** Examples *)

#[local] Existing Instance bump_heap.
#[local] Existing Instance bump_laws.
#[local] Existing Instance list_queue_ops.
#[local] Existing Instance option_waker.
#[local] Existing Instance example_code.
#[local] Existing Instance example_code_laws.

(** A program whose quantum ends with the next tick. *)
Definition example_system : System :=
  mkSystem (example_user 0x400000 0x810000 0x7000)
    (example_irq (mkScheduler [running (mkProcess [] None 0x7000 0x400000 [])] 19 2 0 true) false) example_alloc.

(** A key is pressed, the program goes on, makes the system call 7 and is
    interrupted by the timer. *)
Definition example_events : list event :=
  [Interrupt 33 0x1e [] [] (sys_cpu example_system); UserCode (example_user 0x400010 0x810000 0x7000);
   SystemCall (fun _ => 0) (fun m => m); TimerTick].

