(* ===== verification/Boot.v ===== *)
(** * The start of the kernel

    [init] and [get_bash] of [src/src/lib.rs], which bring up the parts of the
    kernel in order, find the shell on the disk and start it.  The theorem at
    the end is about the composition: file system, loader, paging, scheduler
    and context switch together bring the CPU to the entry point of the shell. *)
From S2P Require Import Prelude Asm Context Scheduler SchedulerSpec Vga FixedBlock FixedBlockSpec Frames Elf Spawn Fs FsSpec.
From S2P Require Import Acpi Pci Gdt Syscall Executor Keyboard Disk DiskSpec Interrupts Preempt System.

(** ["BIN        "] and ["BASH       "] *)
Definition BIN_NAME : list Z := [0x42; 0x49; 0x4E] ++ replicate 8 0x20.
Definition BASH_NAME : list Z := [0x42; 0x41; 0x53; 0x48] ++ replicate 7 0x20.

(** [iter().find(|n| n.data().get_name() == name)] *)
Fixpoint find_named (nm : list Z) (ts : list Tree) : outcome (option Tree) :=
  match ts with
  | [] => Ret None
  | Node f cs :: ts =>
      n ← get_name f;
      if bool_decide (n = nm) then Ret (Some (Node f cs)) else find_named nm ts
  end.

Definition children (t : Tree) : list Tree := match t with Node _ cs => cs end.
Definition data (t : Tree) : File := match t with Node f _ => f end.

Section get_bash.
Context {P : Profile} {B : Type} `{BlockDevice B}.

(** [get_bash]; [mapper] says whether [MAPPER] is set. *)
Definition get_bash (mapper : option unit) (uninit : Z -> Z) (boot : option (Z * FatBootSector)) (fs : Tree)
    (b : B) : outcome (list Z * B) :=
  bin ← find_named BIN_NAME (children fs);
  bin ← expect "no bin folder in root directory" bin;
  bash ← find_named BASH_NAME (children bin);
  bash ← expect "no bash executable in /bin" bash;
  let bash_file := data bash in
  _ ← unwrap mapper;
  '(r, b) ← get_data uninit boot bash_file b;
  match r with
  | Ok v => Ret (v, b)
  | Err _ => Panic "failed to get bash data (corrupted disk?)"
  end.
End get_bash.

(** What the last part of [init] works on, beside the scheduler. *)
Record ShellEnv := mkShellEnv {
  she_uninit : Z -> Z;          (** memory that was not initialised *)
  she_beyond : Z -> Z;          (** memory behind the file in the heap *)
  she_box : Z;                  (** where the level 4 table is allocated *)
  she_tables : Tables;
  she_user_mem : Z -> Z;
}.

Section start_shell.
Context {P : Profile} {B M S : Type} `{BlockDevice B} `{L : MapperLaws M} {F : FrameAllocator S} {V : VirtAddrNew}
  {E : PageTableEntry} {O : OffsetPageTable M}.

(** [init] from [fs::init] on.  The lock of the scheduler is taken for the two
    calls and released at the end. *)
Definition start_shell (fuel : nat) (mapper : Z * (Z -> option Z)) (env : ShellEnv) (fs : FsState) (b : B)
    (frames : S) (s : Scheduler) (w : World) : outcome (FsState * B * @Spawned M S * Scheduler * World) :=
  '(fs, b) ← Fs.init fuel 1 fs b;
  tree ← expect "file system not initialized" (FILE_SYSTEM fs);
  '(shell, b) ← get_bash (Some tt) (she_uninit env) (BOOT_SECTOR fs) tree b;
  '(r, sp) ← spawn_from_file (she_beyond env) shell (Some mapper) (she_box env) frames (she_tables env)
               (she_user_mem env) (cpu w);
  match r with
  | Err _ => Panic unwrap_err_msg
  | Ok process =>
      if sched_locked w then NoFuel
      else
        '(_, s) ← push_task process s;
        Ret (fs, b, sp, enable s, mkWorld (sp_cpu sp) false)
  end.
End start_shell.

(** ** The whole of [init] *)

Record BootInfo := mkBootInfo { memory_map : MemoryMap; physical_memory_offset : Z }.

(** The machine the kernel finds: the CPU and its model specific registers, the
    bytes of memory by virtual address, the devices, and the address of
    [syscall_wrapper]. *)
Record Hardware (D : Type) := mkHardware {
  hw_cpu : machine;
  hw_msrs : msrs;
  hw_mem : Z -> Z;
  hw_device : D;
  hw_syscall_wrapper : Z;
}.
Arguments hw_cpu {D} _.
Arguments hw_msrs {D} _.
Arguments hw_mem {D} _.
Arguments hw_device {D} _.
Arguments hw_syscall_wrapper {D} _.

Section init.
Context {P : Profile} `{FallbackHeap} {M : Type} `{L : MapperLaws M} {V : VirtAddrNew} {E : PageTableEntry}
  {O : OffsetPageTable M} `{DescriptorTable} {D : Type} `{AhciDevice D, DmaMemory D, BitfieldStruct}.

(** The state of the kernel after [init]. *)
Record KernelState := mkKernelState {
  ks_gdt : Gdt * Z * Z;
  ks_msrs : msrs;
  ks_ports : list (Z * Z);
  ks_idt : gmap Z Entry;
  ks_mapper : M;
  ks_heap : FixedBlockAlloc;
  ks_acpi : AcpiState;
  ks_pci : PciState;
  ks_disk : DiskState D;
  ks_fs : FsState;
  ks_spawned : @Spawned M BuddyAllocator;
  ks_scheduler : Scheduler;
  ks_world : World;
}.

(** The initialisation of the interrupt controllers is in [pic8259].  [env] has
    what the allocations of the last part find; [polls] is the fuel of the
    loops that wait for the disks and [fuel] that of the directory scan. *)
Definition init (polls fuel : nat) (boot_info : BootInfo) (env : ShellEnv) (hw : Hardware D) : outcome KernelState :=
  let off := physical_memory_offset boot_info in
  let gdt := Gdt.init in
  let regs := Syscall.init (hw_syscall_wrapper hw) (hw_msrs hw) in
  let '(ports, idt) := init_idt in
  let m := set_int_flag true (hw_cpu hw) in
  mapper ← memory_init (Some off) (she_tables env) m;
  let simple_allocator := Linear_init (memory_map boot_info) in
  '(r, mapper, simple_allocator, heap) ← init_heap mapper simple_allocator (FixedBlock.new (fun _ => 0));
  match r with
  | Err _ => Panic "Failed to initialize heap"
  | Ok _ =>
      let frame_allocator := Buddy_init (memory_map boot_info) (get_used simple_allocator) in
      acpi ← Acpi.init (hw_mem hw) off (mkAcpi None None);
      pci ← Pci.init (hw_mem hw) off (RSDT_cell acpi) (mkPci None None);
      disk ← Disk.init polls (hw_mem hw) (Some off) (DEVICES pci) (mkDisk [] (hw_device hw));
      '(fs, disk, sp, s, w) ←
        start_shell (H := ahci_block_device polls) fuel (off, translate_addr) env (mkFs None None) disk
          frame_allocator SCHEDULER (mkWorld m false);
      Ret (mkKernelState gdt regs ports idt mapper heap acpi pci disk fs sp s w)
  end.
End init.

(** ** The first ticks *)

Section ticks.
Context {P : Profile} (user_segments : Z * Z) {Q : Type -> Type} `{ArrayQueue Q} {A : Type} `{AtomicWaker A}.

(** Successive timer interrupts, until one does not return. *)
Fixpoint timer_interrupts (n fuel : nat) (st : @IrqState Q A) : outcome irq_flow :=
  match n with
  | O => Ret (Iret st)
  | S n =>
      f ← timer_interrupt_handler user_segments fuel st;
      match f with
      | Iret st => timer_interrupts n fuel st
      | Switched st => Ret (Switched st)
      end
  end.

(** A scheduler to which one task has been pushed, [k] ticks later. *)
Definition fresh_scheduler (p : Process) (k : Z) : Scheduler :=
  mkScheduler [Scheduler.mkTask READY p 1] k 2 (USIZE_MAX - 1) true.

Lemma push_first p : push_task p SCHEDULER = Ret (1, mkScheduler [Scheduler.mkTask READY p 1] 0 2 (USIZE_MAX - 1) false).
Proof. unfold push_task. by do 2 (rewrite add_u_ok by (cbn; range); rewrite ret_bind; cbv zeta). Qed.

Lemma idle_tick p k fuel w : 0 <= k < 19 ->
  tick user_segments fuel (fresh_scheduler p k) w = Ret (fresh_scheduler p (k + 1), w, false).
Proof.
  intros Hk. unfold tick. cbn [negb is_enabled fresh_scheduler current_task_ticks].
  rewrite add_u_ok, ret_bind by range. cbv zeta. cbn [current_task_ticks set_ticks].
  case_bool; [unfold QUANTUM in *; lia|done].
Qed.

Lemma last_tick p fuel w :
  tick user_segments (S fuel) (fresh_scheduler p 19) w =
  Ret (mkScheduler [Scheduler.mkTask RUNNING p 1] 0 2 0 true,
       mkWorld (activate user_segments p (cpu w)) false, true).
Proof.
  unfold tick. cbn [negb is_enabled fresh_scheduler current_task_ticks].
  rewrite add_u_ok, ret_bind by range. cbv zeta. cbn [current_task_ticks set_ticks].
  change (QUANTUM <=? 19 + 1) with true. cbv iota. unfold swap_tasks.
  change (with_task _ (set_state READY) _) with (set_ticks 20 (fresh_scheduler p 19)).
  change (get (Scheduler.tasks (set_ticks 20 (fresh_scheduler p 19)))
    (current_task (set_ticks 20 (fresh_scheduler p 19)))) with (@None Scheduler.Task). cbv iota beta.
  unfold get_next_task. cbn [Scheduler.tasks set_ticks fresh_scheduler get_next_task_loop current_task].
  rewrite add_u_ok by (unfold USIZE_MAX; range). rewrite ret_bind. cbv zeta.
  cbn [length]. case_bool; [|unfold USIZE_MAX in *; lia]. done.
Qed.

Lemma timer_returns (st : @IrqState Q A) fuel s w :
  pics_locked st = false -> sched_locked (world st) = false ->
  tick user_segments fuel (scheduler st) (mkWorld (cpu (world st)) true) = Ret (s, w, false) ->
  exists st' : @IrqState Q A, timer_interrupt_handler user_segments fuel st = Ret (Iret st') /\
    pics_locked st' = false /\ scheduler st' = s /\ world st' = mkWorld (cpu w) false /\
    console st' = console st /\ keyboard st' = keyboard st.
Proof.
  intros Hp Hs Ht. unfold timer_interrupt_handler, notify_end_of_interrupt. rewrite Hp, ret_bind. cbn [world scheduler].
  rewrite Hs, Ht, ret_bind. eexists. split; [done|]. done.
Qed.

(** The twentieth interrupt gives the CPU to the first task. *)
Lemma twentieth_interrupt n p m (st : @IrqState Q A) fuel :
  (n <= 19)%nat -> pics_locked st = false -> scheduler st = fresh_scheduler p (19 - Z.of_nat n) ->
  world st = mkWorld m false ->
  exists st' : @IrqState Q A, timer_interrupts (S n) (S fuel) st = Ret (Switched st') /\
    world st' = mkWorld (activate user_segments p m) false /\
    scheduler st' = mkScheduler [Scheduler.mkTask RUNNING p 1] 0 2 0 true /\ pics_locked st' = false /\
    console st' = console st /\ keyboard st' = keyboard st.
Proof.
  revert st. induction n as [|n IH]; intros st Hn Hp Hs Hw.
  - cbn [timer_interrupts]. unfold timer_interrupt_handler, notify_end_of_interrupt. rewrite Hp, ret_bind.
    cbn [world scheduler]. rewrite Hw, Hs. cbn [sched_locked cpu].
    change (19 - Z.of_nat 0) with 19. rewrite last_tick, !ret_bind. eexists. split; [done|]. done.
  - destruct (timer_returns st (S fuel) (fresh_scheduler p (19 - Z.of_nat n)) (mkWorld m true))
      as (st1 & E & Hp1 & Hs1 & Hw1 & Hc1 & Hk1); [done|by rewrite Hw| |].
    { rewrite Hs, Hw, idle_tick by lia. do 3 f_equal. f_equal. lia. }
    destruct (IH st1) as (st' & E' & Hw' & ? & ? & ? & ?); [lia|done|done|by rewrite Hw1|].
    exists st'. split; [|by split_and!; congruence]. cbn [timer_interrupts] in *. by rewrite E, ret_bind.
Qed.
End ticks.

(** ** From the disk to the shell *)

Section shell.
Context {P : Profile} {B : Type} `{LB : BlockDeviceLaws B} {M S : Type} `{OL : OffsetPageTableLaws M}
  {F : FrameAllocator S} {V : VirtAddrNew} `{DescriptorTable}.
Context (bs : FatBootSector) (img : list Z).

(** The second drive has a FAT32 image with the file [f] as /BIN/BASH, in
    successive clusters; its contents are an executable with the header [h]. *)
Record shell_on_disk (beyond : Z -> Z) (b : B) (f : File) (h : ElfHeader) : Prop := {
  sd_geometry : geometry bs;
  sd_device : device_ok b /\ image b 1 = Some img;
  sd_boot : SECTOR <= Z.of_nat (length img) /\ FatBootSector_of_bytes (take BOOT_SECTOR_SIZE img) = bs;
  sd_tree : exists depth ts g cs fcs, dir_at bs img depth (root_cluster bs) ts /\
    find_named BIN_NAME ts = Ret (Some (Node g cs)) /\ find_named BASH_NAME cs = Ret (Some (Node f fcs));
  sd_file : stored bs img f;
  sd_executable : executable beyond (file_bytes bs img f) h;
}.

Lemma get_shell env (b : B) f h :
  shell_on_disk (she_beyond env) b f h -> exists fuel, forall n, (fuel <= n)%nat ->
    exists fs b1 b2 tree, Fs.init n 1 (mkFs None None) b = Ret (fs, b1) /\ FILE_SYSTEM fs = Some tree /\
      get_bash (Some tt) (she_uninit env) (BOOT_SECTOR fs) tree b1 = Ret (file_bytes bs img f, b2).
Proof using LB.
  intros [Hgeo Hd [Hlen Hbs] (depth & ts & g & cs & fcs & Hdir & Hbin & Hbash) [Hsz Hc Hin] _].
  destruct (init_reads_tree bs img 1 Hgeo (mkFs None None) depth ts b Hd eq_refl Hlen Hbs Hdir) as [fuel Hrun].
  exists fuel. intros n Hn. destruct (Hrun n Hn) as (b1 & E1 & Hb1).
  destruct (get_data_contiguous bs img 1 Hgeo (she_uninit env) f b1 Hb1 Hsz Hc Hin) as (b2 & E2 & _).
  eexists _, b1, b2, _. split; [exact E1|]. split; [done|].
  unfold get_bash. cbn [children]. rewrite Hbin, ret_bind. cbn [expect mbind outcome_bind children].
  rewrite Hbash, ret_bind. cbn [expect unwrap mbind outcome_bind BOOT_SECTOR data]. by rewrite E2, ret_bind.
Qed.

(** The last part of [init] makes it the only task of the scheduler. *)
Lemma start_shell_ok env (b : B) f h off translate phys (frames frames2 : S) w f0 f1 t0 t00 :
  shell_on_disk (she_beyond env) b f h ->
  spawn_ok off translate (she_box env) phys frames frames2 (she_tables env) (cpu w) f0 f1 t0 t00 ->
  (forall i, 1 <= i < 512 -> get (she_tables env (f1 + off)) i = Some 0) ->
  can_allocate (68 + length (headers (she_beyond env) (file_bytes bs img f) h) * 4) frames2 ->
  sched_locked w = false ->
  exists fuel, forall n, (fuel <= n)%nat -> exists fs b' sp p,
    start_shell n (off, translate) env (mkFs None None) b frames SCHEDULER w =
      Ret (fs, b', sp, fresh_scheduler p 0, mkWorld (set_int_flag true (cpu w)) false) /\
    process_loaded (M := M) (she_beyond env) (file_bytes bs img f) h p sp /\ page_table_addr p = phys.
Proof using LB OL.
  intros Hsd Hso Hclear Hcan Hlock. destruct (get_shell env b f h Hsd) as [fuel Hget].
  destruct (spawn_loads (she_beyond env) (file_bytes bs img f) h off translate (she_box env) phys frames frames2
    (she_tables env) (she_user_mem env) (cpu w) f0 f1 t0 t00 Hso Hclear (sd_executable _ _ _ _ Hsd) Hcan)
    as (p & sp & Esp & Hpl & Hphys & Hcpu).
  exists fuel. intros n Hn. destruct (Hget n Hn) as (fs & b1 & b2 & tree & E1 & Etree & E2).
  exists fs, b2, sp, p. split; [|done].
  unfold start_shell. rewrite E1, ret_bind, Etree. cbn [expect mbind outcome_bind]. rewrite E2, ret_bind, Esp, ret_bind.
  by rewrite Hlock, push_first, ret_bind, Hcpu.
Qed.
End shell.

(** ** The whole start *)

Section whole.
Context {P : Profile} `{FallbackHeap} {M : Type} `{OL : OffsetPageTableLaws M} {V : VirtAddrNew} `{DescriptorTable}
  {D : Type} `{LD : AhciLaws D} `{BF : BitfieldLaws}.
Context {Q : Type -> Type} `{ArrayQueue Q} {A : Type} `{AtomicWaker A}.
Context (polls : nat) {R : Responsive (D := D) polls}.

(** The first parts of [init] succeed: the heap is mapped, the firmware tables
    are found and the disks are set up. *)
Record hardware_ok (boot_info : BootInfo) (env : ShellEnv) (hw : Hardware D)
    (frames : BuddyAllocator) (disk : DiskState D) : Prop := {
  ho_heap : exists (mapper mapper' : M) lin heap,
    memory_init (Some (physical_memory_offset boot_info)) (she_tables env) (set_int_flag true (hw_cpu hw)) = Ret mapper /\
    init_heap mapper (Linear_init (memory_map boot_info)) (FixedBlock.new (fun _ => 0)) = Ret (Ok tt, mapper', lin, heap) /\
    frames = Buddy_init (memory_map boot_info) (get_used lin);
  ho_disk : exists acpi pci,
    Acpi.init (hw_mem hw) (physical_memory_offset boot_info) (mkAcpi None None) = Ret acpi /\
    Pci.init (hw_mem hw) (physical_memory_offset boot_info) (RSDT_cell acpi) (mkPci None None) = Ret pci /\
    Disk.init polls (hw_mem hw) (Some (physical_memory_offset boot_info)) (DEVICES pci) (mkDisk [] (hw_device hw)) = Ret disk;
}.

(** The start up to the entry point of the shell. *)
Lemma init_to_shell boot_info env (hw : Hardware D) frames frames2 disk bs img f h phys f0 f1 t0 t00 :
  let off := physical_memory_offset boot_info in
  hardware_ok boot_info env hw frames disk ->
  shell_on_disk (H := ahci_block_device polls) (LB := ahci_block_device_laws polls) bs img (she_beyond env) disk f h ->
  spawn_ok off translate_addr (she_box env) phys frames frames2 (she_tables env) (set_int_flag true (hw_cpu hw)) f0 f1 t0 t00 ->
  (forall i, 1 <= i < 512 -> get (she_tables env (f1 + off)) i = Some 0) ->
  can_allocate (68 + length (headers (she_beyond env) (file_bytes bs img f) h) * 4) frames2 ->
  exists fuel, forall n, (fuel <= n)%nat -> exists k p,
    init (M := M) polls n boot_info env hw = Ret k /\
    process_loaded (she_beyond env) (file_bytes bs img f) h p (ks_spawned k) /\
    int_flag (cpu (ks_world k)) = true /\ sched_locked (ks_world k) = false /\
    forall (st : @IrqState Q A) m, scheduler st = ks_scheduler k -> world st = mkWorld m false ->
      pics_locked st = false -> 40 <= rf m RSP < 2 ^ 64 ->
      exists st' m', timer_interrupts set_usermode_segments 20 1 st = Ret (Switched st') /\
        world st' = mkWorld m' false /\ rip m' = program_entry h /\ rf m' RSP = USERSPACE_STACK /\
        Asm.cs m' = 0x33 /\ ss m' = 0x2b /\ int_flag m' = true /\ cr3 m' = containing_frame phys /\
        alone phys (scheduler st') /\ pics_locked st' = false /\ console st' = console st /\ keyboard st' = keyboard st.
Proof using OL LD BF R.
  intros off [(mapper & mapper' & lin & heap & Em & Eh & Hfr) (acpi & pci & Ea & Ep & Ed)] Hsd Hso Hclear Hcan. subst off.
  destruct (start_shell_ok (LB := ahci_block_device_laws polls) bs img env disk f h _ translate_addr phys frames frames2
    (mkWorld (set_int_flag true (hw_cpu hw)) false) f0 f1 t0 t00 Hsd Hso Hclear Hcan eq_refl) as [fuel Hrun].
  exists fuel. intros n Hn. destruct (Hrun n Hn) as (fs & b' & sp & p & Es & Hpl & Hphys).
  eexists _, p. split.
  { unfold init. cbv zeta. unfold init_idt. cbv beta iota. rewrite Em, ret_bind, Eh, ret_bind. cbv beta iota.
    rewrite <- Hfr, Ea, ret_bind, Ep, ret_bind, Ed, ret_bind, Es, ret_bind. reflexivity. }
  cbn [ks_spawned ks_world ks_scheduler cpu sched_locked int_flag set_int_flag]. split_and!; try done.
  intros st m Hs Hw Hp Hsp.
  destruct (twentieth_interrupt set_usermode_segments 19 p m st 0) as (st' & E3 & Hw' & Hsc & Hrest); [lia|done|done|done|].
  exists st', (activate set_usermode_segments p m). split; [exact E3|]. split; [done|].
  destruct Hpl as [Hnew Hentry _ _]. rewrite set_usermode_segments_eq, <- Hentry, <- Hphys.
  destruct (activate_first_run (0x33, 0x2b) p m 0x33 0x2b) as (? & ? & ? & ? & ? & ?); [done || range..|].
  split_and!; try done; try apply Hrest. rewrite Hsc. by eexists.
Qed.


End whole.

(** ** The lock window *)

Section window.
Context {P : Profile} {M S : Type} `{L : MapperLaws M} {F : FrameAllocator S} {V : VirtAddrNew}
  {E : PageTableEntry} {O : OffsetPageTable M}.

Lemma spawn_enables_interrupts beyond file mapper box_addr (s : S) tables mem m r (sp : @Spawned M S) :
  spawn_from_file beyond file mapper box_addr s tables mem m = Ret (r, sp) -> int_flag (sp_cpu sp) = true.
Proof.
  unfold spawn_from_file. intros Hs. inv_bind Hs. destruct a as [off tr]. do 2 inv_bind Hs. destruct a0 as [[pt s1] ts1].
  do 4 inv_bind Hs. destruct a3 as [m1 s2]. inv_bind Hs. destruct a3 as [[rg ep] st]. by injection Hs as <- <-.
Qed.

End window.

(** ** Examples *)

#[local] Existing Instance dev_profile.
#[local] Existing Instance list_queue_ops.
#[local] Existing Instance option_waker.
#[local] Existing Instance map_mapper.
#[local] Existing Instance map_mapper_laws.
#[local] Existing Instance lower_half.
#[local] Existing Instance Spawn.example_entry.
#[local] Existing Instance example_offset_table.
#[local] Existing Instance example_offset_laws.
#[local] Existing Instance replacing.
#[local] Existing Instance replacing_laws.
#[local] Existing Instance machine_memory.
#[local] Existing Instance machine_hba.
#[local] Existing Instance machine_spec.
#[local] Existing Instance machine_laws.
#[local] Existing Instance bump_heap.
#[local] Existing Instance bump_laws.
#[local] Existing Instance example_code.
#[local] Existing Instance example_code_laws.

(** A volume with the executable of [Elf] as /BIN/BASH. *)
Definition shell_entry : list Z := FsSpec.example_entry [0x42; 0x41; 0x53; 0x48] 0x20 4 (Z.of_nat (length example_file)).
Definition shell_image : list Z :=
  pad 512 example_boot ++ pad 512 [] ++ pad 512 dir_entry ++
  pad 512 (FsSpec.example_entry [0x2E] 0x10 3 0 ++ shell_entry) ++ pad 512 example_file.
Definition shell_tree : list Tree := [Node (File_of_bytes dir_entry) [Node (File_of_bytes shell_entry) []]].

#[local] Instance example_responsive : Responsive 5.
Proof. split; cbn; lia. Defined.
#[local] Instance shell_device : BlockDevice (DiskState Machine) := ahci_block_device (P := dev_profile) 5.
#[local] Instance shell_device_laws : BlockDeviceLaws (DiskState Machine) := ahci_block_device_laws (P := dev_profile) 5.

Lemma shell_bytes : file_bytes example_bs shell_image (File_of_bytes shell_entry) = example_file.
Proof. vm_compute. reflexivity. Qed.

Lemma shell_cluster c : 2 <= c <= 4 -> cluster_ok example_bs shell_image c.
Proof. intros Hc. assert (c = 2 \/ c = 3 \/ c = 4) as [->|[->| ->]] by lia; by split; vm_compute. Qed.

Lemma shell_entries c es rest :
  2 <= c <= 4 -> cluster_entries example_bs shell_image c = es ++ replicate 32 0 :: rest ->
  Forall entry_ok es -> dir_entries example_bs shell_image c es.
Proof.
  intros Hc Heq Hes. exists 1%nat, (replicate 32 0), rest. split; [|split; [|done]].
  - apply Forall_cons. split; [by apply shell_cluster|by apply Forall_nil].
  - change (seqZ c (Z.of_nat 1)) with [0 + c]. cbn. by rewrite app_nil_r.
Qed.

Lemma shell_dir : dir_at example_bs shell_image 2 2 shell_tree.
Proof.
  exists [dir_entry]. split.
  - apply (shell_entries _ _ (replicate 14 (replicate 32 0))); [lia|by vm_compute|].
    repeat (apply Forall_cons; split); [split; [done|by right]|by apply Forall_nil].
  - vm_compute filter. apply Forall2_cons. split; [|by apply Forall2_nil]. split; [done|].
    exists [FsSpec.example_entry [0x2E] 0x10 3 0; shell_entry]. split.
    + apply (shell_entries _ _ (replicate 13 (replicate 32 0))); [by vm_compute|by vm_compute|].
      repeat (apply Forall_cons; split); [split; [done|by right]|split; [done|by right]|by apply Forall_nil].
    + vm_compute filter. apply Forall2_cons. split; [|by apply Forall2_nil]. done.
Qed.

Lemma example_executable : executable (fun _ => 0) example_file example_header.
Proof.
  split.
  - by apply Nat.leb_le.
  - by vm_compute.
  - by vm_compute.
  - change (Forall (fun ph => is_load ph -> small example_file ph) (program_headers (fun _ => 0) example_file 64 2)).
    rewrite example_program_headers. constructor; [done|]. constructor; [intros _; apply example_small|constructor].
  - change (ForallOrdPairs (fun ph ph' => is_load ph -> is_load ph' -> apart ph ph')
      (program_headers (fun _ => 0) example_file 64 2)).
    rewrite example_program_headers. repeat constructor. done.
  - change (forall ph, ph ∈ program_headers (fun _ => 0) example_file 64 2 -> is_load ph ->
      2 ^ 21 <= seg_page ph < 2 ^ 30 /\ seg_page ph ∉ stack_range).
    rewrite example_program_headers. intros ph [->|[->|H]%elem_of_cons]%elem_of_cons Hl; [done| |by apply elem_of_nil in H].
    split; [by vm_compute|]. apply (bool_decide_unpack _). by vm_compute.
Qed.

(** Firmware memory: the root pointer, its table with the one entry for the
    MCFG, and on bus 0 two AHCI controllers with registers at 0x9000 and
    0x1000. *)
Definition ahci_function (a bar5 : Z) (mem : Z -> Z) : Z -> Z :=
  at_addr a ([0x86; 0x80] ++ replicate 7 0 ++ [1; 6; 1] ++ replicate 24 0 ++ to_le_bytes 4 bar5) mem.
Definition firmware : Z -> Z :=
  at_addr (example_offset + 0x80000) example_rsdp
    (at_addr (example_offset + 0x1000) ([0x52; 0x53; 0x44; 0x54] ++ to_le_bytes 4 40 ++ replicate 28 0 ++ to_le_bytes 4 0x2000)
    (at_addr (example_offset + 0x2000) (MCFG_SIGNATURE ++ to_le_bytes 4 60 ++ replicate 28 0 ++ replicate 8 0 ++
       to_le_bytes 8 0xB0000000 ++ [0; 0; 0; 1; 0; 0; 0; 0])
    (ahci_function (example_offset + 0xB0000000) 0x9000
    (ahci_function (example_offset + 0xB0008000) 0x1000 (fun _ => 0xFF))))).

Definition boot_info : BootInfo := mkBootInfo [mkRegion 0x200000 0x380000 true] example_offset.
Definition hardware : Hardware Machine :=
  mkHardware _ example_cpu (fun _ => 0) firmware (mkMachine shell_image (fun _ => 0) 0x100000 None) 0x8000.
Definition shell_env : ShellEnv :=
  mkShellEnv (fun _ => 0) (fun _ => 0) 0x444444440000 (example_tables (replicate 512 0)) (fun _ => 0).

Definition ret_or {X} (x : X) (o : outcome X) : X := match o with Ret y => y | _ => x end.
Lemma ret_or_eq {X} (x : X) o : match o with Ret _ => true | _ => false end = true -> o = Ret (ret_or x o).
Proof. by destruct o. Qed.
Definition booted_acpi : AcpiState :=
  ret_or (mkAcpi None None) (Acpi.init (P := dev_profile) firmware example_offset (mkAcpi None None)).
Definition booted_pci : PciState :=
  ret_or (mkPci None None) (Pci.init (P := dev_profile) firmware example_offset (RSDT_cell booted_acpi) (mkPci None None)).
Definition booted_disk : DiskState Machine :=
  ret_or (mkDisk [] (hw_device hardware))
    (Disk.init (P := dev_profile) 5 firmware (Some example_offset) (DEVICES booted_pci) (mkDisk [] (hw_device hardware))).

(** A port as it is set up, with its command list at [a]. *)
Definition booted_port (hba a : Z) : AHCIPort :=
  mkPort hba 0 ((fun k => mkHeader 0 0 8 0 (a + 0x500 + 0x2000 * k)) <$> seqZ 0 32) (a + 0x400)
    ((fun k => (a + 0x500 + 0x2000 * k, zeroed_table)) <$> seqZ 0 32).

Lemma booted_ports :
  PORTS booted_disk = [booted_port (example_offset + 0x9000) 0x100000; booted_port (example_offset + 0x1000) 0x140500].
Proof. vm_compute. reflexivity. Qed.
Lemma booted_port_ok hba a : port_ok (booted_port hba a).
Proof.
  split; [|split; [|done]].
  - split; [done|]. apply Forall2_fmap. apply Forall_Forall2_diag, Forall_forall. intros k _.
    split; cbn; done || by repeat constructor.
  - apply Forall_fmap, Forall_forall. done.
Qed.

Lemma booted_disk_ok : disk_ok booted_disk.
Proof.
  split; [by vm_compute|]. rewrite booted_ports.
  apply Forall_cons. split; [apply booted_port_ok|]. apply Forall_singleton, booted_port_ok.
Qed.

Definition booted_mapper : page_map :=
  mapper_new (she_tables shell_env (example_offset + 0x100000)) example_offset (she_tables shell_env).
Definition booted_frames : BuddyAllocator := Buddy_init (memory_map boot_info) 256.

Lemma booted_heap : exists mapper' lin heap,
  init_heap booted_mapper (Linear_init (memory_map boot_info)) (FixedBlock.new (fun _ => 0)) = Ret (Ok tt, mapper', lin, heap) /\
  booted_frames = Buddy_init (memory_map boot_info) (get_used lin).
Proof.
  assert (Hc : match init_heap booted_mapper (Linear_init (memory_map boot_info)) (FixedBlock.new (fun _ => 0)) with
    | Ret (Ok _, _, lin, _) => get_used lin =? 256 | _ => false end = true) by (vm_compute; reflexivity).
  destruct (init_heap _ _ _) as [[[[[[]|e] m'] lin] heap]| |]; try discriminate Hc.
  apply Z.eqb_eq in Hc. exists m', lin, heap. by rewrite Hc.
Qed.

Lemma booted_drivers : exists acpi pci,
  Acpi.init firmware example_offset (mkAcpi None None) = Ret acpi /\
  Pci.init firmware example_offset (RSDT_cell acpi) (mkPci None None) = Ret pci /\
  Disk.init 5 firmware (Some example_offset) (DEVICES pci) (mkDisk [] (hw_device hardware)) = Ret booted_disk.
Proof.
  exists booted_acpi, booted_pci. split; [|split]; apply ret_or_eq; vm_compute; reflexivity.
Qed.

Lemma booted_hardware : hardware_ok 5 boot_info shell_env hardware booted_frames booted_disk.
Proof.
  split; [|exact booted_drivers]. destruct booted_heap as (m' & lin & heap & E1 & E2).
  exists booted_mapper, m', lin, heap. split; [by vm_compute|]. split; [exact E1|exact E2].
Qed.

Lemma booted_shell : shell_on_disk example_bs shell_image (fun _ => 0) booted_disk (File_of_bytes shell_entry) example_header.
Proof.
  split.
  - apply example_geometry.
  - split; [apply booted_disk_ok|by vm_compute].
  - by split; vm_compute.
  - eexists 2%nat, shell_tree, _, _, _. split; [apply shell_dir|]. split; by vm_compute.
  - split; [by vm_compute|apply shell_cluster; by vm_compute|by vm_compute].
  - rewrite shell_bytes. apply example_executable.
Qed.

Definition booted_frames_after : BuddyAllocator := mkBuddy (memory_map boot_info) (drop 2 (frame_iter booted_frames)).
Lemma booted_spawn : spawn_ok example_offset translate_addr 0x444444440000 0x444444440000 booted_frames
  booted_frames_after (she_tables shell_env) (set_int_flag true example_cpu) 0x300000 0x301000
  (example_offset + 0x101000) (example_offset + 0x102000).
Proof.
  split.
  - by vm_compute.
  - split; [by vm_compute|by vm_compute| |by vm_compute| |by vm_compute|by vm_compute].
    + exists 0x101003. by vm_compute.
    + exists 0x102003. by vm_compute.
  - by vm_compute.
  - by vm_compute.
  - exists (mkBuddy (memory_map boot_info) (drop 1 (frame_iter booted_frames))). by vm_compute.
  - apply (bool_decide_unpack _). by vm_compute.
  - by vm_compute.
  - by vm_compute.
Qed.



