(* ===== verification/Messages.v ===== *)
(** * What the kernel prints about itself

    The listing of a directory tree ([tree] of [src/src/fs.rs]), the decimal
    numbers of [{}], and the messages of the errors ([Display] in
    [src/src/disk.rs], [src/src/elf.rs] and [src/src/process.rs]). *)
From S2P Require Import Prelude Asm Context Scheduler Vga FixedBlock Frames Elf Spawn Fs FsSpec Gdt Syscall Executor Keyboard Interrupts.

(** ** Operations *)

Section tree.
Context {P : Profile}.

(** ["  ".repeat(depth)] *)
Definition indent (depth : Z) : list Z := replicate (Z.to_nat (2 * depth)) 32.

Fixpoint tree (node : Tree) (depth : Z) (c : Console) {struct node} : outcome Console :=
  match node with
  | Node data cs =>
      name ← get_name data;
      c ← _print [indent depth; name; [NEWLINE]] c;
      (fix children (cs : list Tree) (c : Console) : outcome Console :=
         match cs with
         | [] => Ret c
         | child :: cs =>
             d ← add_u 64 depth 1;
             c ← tree child d c;
             children cs c
         end) cs c
  end.
End tree.

Definition DiskAccessError_fmt (e : DiskAccessError) : list Z :=
  text match e with NoCommandSlots => "no command slots" | TaskFileError => "task file error" end.
Definition ProcessSpawnError_fmt (e : ProcessSpawnError) : list Z :=
  text "failed to spawn process: " ++ match e with MapFail => text "map process error" end.
Definition ElfVerifyError_fmt (e : ElfVerifyError) : list Z :=
  text "failed to verify elf header: " ++
  match e with
  | BadSliceSize n => text "incorrect slice size of " ++ decimal 20 n [] ++ text " provided"
  | BadMagicNum => text "incorrect ELF magic num"
  | Elf32Bit => text "only 64-bit elf is supported"
  | BadEndianness => text "ELF is not little endian"
  | BadArch => text "ELF is not x64"
  end.

(** ** The listing *)

(** The lines of a tree: the name of each node behind two blanks for each level,
    a directory in front of its entries. *)
Fixpoint listing (node : Tree) (depth : Z) : list Z :=
  match node with Node f cs => indent depth ++ name f ++ [NEWLINE] ++ concat ((fun n => listing n (depth + 1)) <$> cs) end.

(** All names are text, and there are at most [n] levels. *)
Fixpoint listable (n : nat) (node : Tree) : Prop :=
  match n, node with
  | O, _ => False
  | S n, Node f cs => get_name f = Ret (name f) /\ Forall (listable n) cs
  end.

Section listing.
Context {P : Profile}.

(** The listing of a tree writes one line for each of its nodes, in the order
    of the tree; it does not panic. *)
Theorem tree_lists n node depth c t :
  listable n node -> 0 <= depth -> depth + Z.of_nat n < 2 ^ 64 -> writer_locked c = false -> shows t (writer c) ->
  exists w, tree node depth c = Ret (mkConsole w false (interrupts c)) /\ shows (term_write t (listing node depth)) w.
Proof.
  revert node depth c t. induction n as [|n IH]; intros [f cs] depth c t Hn H0 Hd Hl Hs; [done|].
  destruct Hn as [Hname Hcs]. cbn [tree listing]. rewrite Hname, ret_bind.
  destruct (print_ok [indent depth; name f; [NEWLINE]] c t Hl Hs) as (w1 & -> & Hw1). rewrite ret_bind.
  rewrite (app_assoc (name f)), app_assoc, term_write_app. cbn [concat] in Hw1. rewrite app_nil_r in Hw1.
  generalize dependent (term_write t (indent depth ++ name f ++ [NEWLINE])). intros t1 Hw1.
  rewrite add_u_ok by range. clear Hname Hs. revert w1 t1 Hw1.
  induction Hcs as [|child cs Hc _ IHc]; intros w1 t1 Hw1; [by exists w1|]. rewrite ret_bind.
  destruct (IH child (depth + 1) (mkConsole w1 false (interrupts c)) t1) as (w2 & -> & Hw2); [done|lia..|done|done|].
  rewrite ret_bind. cbn [fmap list_fmap concat interrupts]. rewrite term_write_app. by apply IHc.
Qed.
End listing.

(** ** Numbers *)

(** The value of a text of digits. *)
Definition digits_value (l : list Z) : Z := foldl (fun v d => 10 * v + (d - 48)) 0 l.

Lemma decimal_app fuel n acc : decimal fuel n acc = decimal fuel n [] ++ acc.
Proof.
  revert n acc. induction fuel as [|fuel IH]; intros n acc; [done|]. cbn [decimal]. cbv zeta.
  destruct (n / 10 =? 0); [done|]. rewrite IH, (IH (n / 10) [_]). by rewrite <-app_assoc.
Qed.

Lemma decimal_value fuel n : 0 <= n < 10 ^ Z.of_nat fuel -> digits_value (decimal fuel n []) = n.
Proof.
  revert n. induction fuel as [|fuel IH]; intros n Hn; [cbn in *; lia|]. cbn [decimal]. cbv zeta.
  rewrite Nat2Z.inj_succ, Z.pow_succ_r in Hn by lia.
  pose proof (Z.div_mod n 10 ltac:(lia)). pose proof (Z.mod_pos_bound n 10 ltac:(lia)). case_bool.
  - cbn. lia.
  - rewrite decimal_app. unfold digits_value. rewrite foldl_app. fold (digits_value (decimal fuel (n / 10) [])).
    rewrite IH; [cbn; lia|]. split; [apply Z.div_pos; lia|apply Z.div_lt_upper_bound; lia].
Qed.

(** The text of a [u64] says which number it is. *)
Lemma decimal_u64 n : in_u 64 n -> digits_value (decimal 20 n []) = n.
Proof. intros Hn. apply decimal_value. change (10 ^ Z.of_nat 20) with (10 ^ 20). range. Qed.

Lemma ElfVerifyError_fmt_inj e e' :
  (forall n, e = BadSliceSize n -> in_u 64 n) -> (forall n, e' = BadSliceSize n -> in_u 64 n) ->
  ElfVerifyError_fmt e = ElfVerifyError_fmt e' -> e = e'.
Proof.
  intros H H' E. unfold ElfVerifyError_fmt in E. apply app_inv_head in E.
  destruct e as [n| | | |], e' as [n'| | | |]; try reflexivity.
  1: { apply app_inv_head, app_inv_tail in E. f_equal. by rewrite <-(decimal_u64 n), <-(decimal_u64 n'), E by auto. }
  all: exfalso; revert E; try generalize (decimal 20 n []); try generalize (decimal 20 n' []); intros;
    apply (f_equal (take 12)) in E; vm_compute in E; discriminate E.
Qed.
