(* ===== verification/Entry.v ===== *)
(** * The entry of the kernel, panics and the test harness

    [src/src/display/serial.rs], [src/src/main.rs], the test harness of
    [src/src/lib.rs] and the tests of [src/src/display/vga_text.rs].  The serial
    port belongs to the crate [uart_16550]; the texts that the formatting of a
    [PanicInfo] gives are parameters.  A function that halts the CPU for good
    ([hlt_loop]) ends with the state it leaves. *)
From S2P Require Import Prelude Asm Context Scheduler Vga FixedBlock FixedBlockSpec Frames Elf Spawn Fs Gdt Syscall.
From S2P Require Import Disk DiskSpec Interrupts Boot.

(** [SerialPort] of [uart_16550]; [false] is an error of [write_str]. *)
Class SerialPort := {
  Uart : Type;
  uart_new : Z -> Uart;
  uart_init : Uart -> Uart;
  uart_write : list Z -> Uart -> bool * Uart;
}.

(** Writing to the port does not fail; [sent] is what has gone out. *)
Class SerialLaws (S : SerialPort) := {
  sent : Uart -> list Z;
  uart_write_law : forall s u, exists u', uart_write s u = (true, u') /\ sent u' = sent u ++ s;
}.

Inductive QemuExitCode := Success | Failed.
Definition qemu_u32 (c : QemuExitCode) : Z := match c with Success => 0x10 | Failed => 0x11 end.

Section entry.
Context {P : Profile} {U : SerialPort}.
(** [{:?}] and [{}] of the information about a panic. *)
Context (debug_info display_info : string -> list Z).

(** The lock [SERIAL1] and the port behind it. *)
Record Serial := mkSerial { port : Uart; serial_locked : bool }.
Definition SERIAL1 : Serial := mkSerial (uart_init (uart_new 0x3F8)) false.

(** What the harness acts on: the serial port, the screen, and the I/O ports. *)
Record Env := mkEnv { serial : Serial; screen : Console; ports : list (Z * Z) }.
Definition set_serial (s : Serial) (e : Env) : Env := mkEnv s (screen e) (ports e).
Definition set_screen (c : Console) (e : Env) : Env := mkEnv (serial e) c (ports e).

(** A call returns, panics in a state, or waits for a lock forever. *)
Inductive ran := Returned (e : Env) | Panicked (info : string) (e : Env) | Stuck.
Definition and_then (r : ran) (f : Env -> ran) : ran := match r with Returned e => f e | r => r end.

(** [write_fmt] hands over the pieces until one fails. *)
Fixpoint write_fmt (pieces : list (list Z)) (u : Uart) : bool * Uart :=
  match pieces with
  | [] => (true, u)
  | p :: pieces => match uart_write p u with (true, u) => write_fmt pieces u | (false, u) => (false, u) end
  end.

(** The guard of the lock is still alive when [expect] panics. *)
Definition serial_print (pieces : list (list Z)) (e : Env) : ran :=
  if serial_locked (serial e) then Stuck
  else
    match write_fmt pieces (port (serial e)) with
    | (true, u) => Returned (set_serial (mkSerial u false) e)
    | (false, u) => Panicked "Printing to serial failed" (set_serial (mkSerial u true) e)
    end.
Definition serial_println (pieces : list (list Z)) : Env -> ran := serial_print (pieces ++ [[NEWLINE]]).

(** [println!]; a panic inside it leaves the screen locked. *)
Definition println (pieces : list (list Z)) (e : Env) : ran :=
  match _print (pieces ++ [[NEWLINE]]) (screen e) with
  | Ret c => Returned (set_screen c e)
  | Panic info => Panicked info (set_screen (mkConsole (writer (screen e)) true false) e)
  | NoFuel => Stuck
  end.

Definition exit_qemu (exit_code : QemuExitCode) (e : Env) : Env :=
  mkEnv (serial e) (screen e) (ports e ++ outl 0xf4 (qemu_u32 exit_code)).

(** A test: the name of its type and the function. *)
Record Testable := mkTestable { type_name : list Z; call : Env -> ran }.

Definition TAB : Z := 9.
Definition run (t : Testable) (e : Env) : ran :=
  and_then (serial_print [type_name t; text "..." ++ [TAB]] e) (fun e =>
  and_then (call t e) (serial_println [text "[passed]"])).

Fixpoint run_all (tests : list Testable) (e : Env) : ran :=
  match tests with
  | [] => Returned e
  | t :: tests => and_then (run t e) (run_all tests)
  end.
Definition test_runner (tests : list Testable) (e : Env) : ran :=
  and_then (serial_println [text "Running "; decimal 20 (Z.of_nat (length tests)) []; text " tests"] e) (fun e =>
  and_then (run_all tests e) (fun e => Returned (exit_qemu Success e))).

Definition test_panic_handler (info : string) (e : Env) : ran :=
  and_then (serial_println [text "[failed]"; [NEWLINE]] e) (fun e =>
  and_then (serial_println [text "Error: "; display_info info; [NEWLINE]] e) (fun e =>
  Returned (exit_qemu Failed e))).

(** [panic] of [main.rs]. *)
Definition panic (info : string) (e : Env) : ran :=
  and_then (serial_println [text "Panicked! "; debug_info info] e)
    (println [text "Panicked! "; debug_info info]).

(** A panic calls the handler, also a panic in the handler; then the CPU is
    halted. *)
Fixpoint halts (fuel : nat) (handler : string -> Env -> ran) (r : ran) : outcome Env :=
  match fuel, r with
  | S fuel, Returned e => Ret e
  | S fuel, Panicked info e => halts fuel handler (handler info e)
  | _, _ => NoFuel
  end.

(** [test_kernel_main] *)
Definition test_kernel_main (fuel : nat) (tests : list Testable) (e : Env) : outcome Env :=
  halts fuel test_panic_handler (test_runner tests e).

(** The tests of [vga_text.rs]. *)
Definition test_println_simple (e : Env) : ran := println [text "testing" ++ [NEWLINE] ++ text "testing"] e.
Definition test_println_many (e : Env) : ran :=
  Nat.iter 150 (fun r => and_then r (println [text "testing"])) (Returned e).
Definition test_println_non_ascii (e : Env) : ran := println [[0x00; 0x12; 0x7F]] e.

(** ** What goes out *)

Context {L : SerialLaws U}.

Lemma serial_print_ok pieces e : serial_locked (serial e) = false ->
  exists u, serial_print pieces e = Returned (set_serial (mkSerial u false) e) /\
    sent u = sent (port (serial e)) ++ concat pieces.
Proof.
  intros Hl. unfold serial_print. rewrite Hl.
  assert (H : forall u, exists u', write_fmt pieces u = (true, u') /\ sent u' = sent u ++ concat pieces).
  { induction pieces as [|p ps IH]; intros u; [exists u; by rewrite app_nil_r|].
    destruct (uart_write_law p u) as (u1 & E1 & H1). destruct (IH u1) as (u2 & E2 & H2).
    exists u2. cbn. by rewrite E1, H2, H1, <-app_assoc. }
  destruct (H (port (serial e))) as (u & -> & Hu). by exists u.
Qed.

Lemma serial_println_ok pieces e : serial_locked (serial e) = false ->
  exists u, serial_println pieces e = Returned (set_serial (mkSerial u false) e) /\
    sent u = sent (port (serial e)) ++ concat pieces ++ [NEWLINE].
Proof.
  intros Hl. destruct (serial_print_ok (pieces ++ [[NEWLINE]]) e Hl) as (u & E & H). exists u. split; [exact E|].
  by rewrite H, concat_app.
Qed.

Lemma println_ok pieces e t : writer_locked (screen e) = false -> shows t (writer (screen e)) ->
  exists w, println pieces e = Returned (set_screen (mkConsole w false (interrupts (screen e))) e) /\
    shows (term_write t (concat pieces ++ [NEWLINE])) w.
Proof.
  intros Hl Hs. unfold println. destruct (print_ok (pieces ++ [[NEWLINE]]) (screen e) t Hl Hs) as (w & -> & Hw).
  exists w. split; [done|]. by rewrite concat_app in Hw.
Qed.

(** ** The harness *)

(** What a test that only prints on the screen does. *)
Inductive verdict := Pass (c : Console) | Fail (info : string) (c : Console).
Definition acts (t : Testable) (g : Console -> verdict) : Prop :=
  forall e, call t e = match g (screen e) with
    | Pass c => Returned (set_screen c e)
    | Fail info c => Panicked info (set_screen c e)
    end.

(** The text that the harness sends for a sequence of tests, and its verdict:
    the tests run in order, up to the first that fails. *)
Fixpoint transcript (tests : list Testable) (gs : list (Console -> verdict)) (c : Console) : list Z * QemuExitCode :=
  match tests, gs with
  | t :: tests, g :: gs =>
      let start := type_name t ++ text "..." ++ [TAB] in
      match g c with
      | Pass c => let '(l, code) := transcript tests gs c in (start ++ text "[passed]" ++ [NEWLINE] ++ l, code)
      | Fail info _ =>
          (start ++ text "[failed]" ++ [NEWLINE; NEWLINE] ++ text "Error: " ++ display_info info ++ [NEWLINE; NEWLINE], Failed)
      end
  | _, _ => ([], Success)
  end.

(** The state after the harness has sent [l] and written the exit code. *)
Definition finished (e e' : Env) (l : list Z) (code : QemuExitCode) : Prop :=
  serial_locked (serial e') = false /\ sent (port (serial e')) = sent (port (serial e)) ++ l /\
  ports e' = ports e ++ outl 0xf4 (qemu_u32 code).

Lemma test_panic_handler_ok info e : serial_locked (serial e) = false ->
  exists e', test_panic_handler info e = Returned e' /\
    finished e e' (text "[failed]" ++ [NEWLINE; NEWLINE] ++ text "Error: " ++ display_info info ++ [NEWLINE; NEWLINE]) Failed.
Proof using L.
  intros Hl. unfold test_panic_handler.
  destruct (serial_println_ok [text "[failed]"; [NEWLINE]] e Hl) as (u1 & -> & H1). cbn [and_then].
  destruct (serial_println_ok [text "Error: "; display_info info; [NEWLINE]] (set_serial (mkSerial u1 false) e) eq_refl)
    as (u2 & -> & H2). cbn [and_then]. eexists. split; [done|]. split; [done|]. split; [|done].
  cbn [serial port exit_qemu set_serial]. rewrite H2. cbn [serial port set_serial]. rewrite H1.
  cbn [concat]. by rewrite app_nil_r, <-!app_assoc.
Qed.

(** The tests, with the rest of the runner. *)
Lemma run_all_ok fuel tests gs e :
  Forall2 acts tests gs -> serial_locked (serial e) = false ->
  exists e', halts (S (S fuel)) test_panic_handler
      (and_then (run_all tests e) (fun e => Returned (exit_qemu Success e))) = Ret e' /\
    let '(l, code) := transcript tests gs (screen e) in finished e e' l code.
Proof using L.
  intros Hall. revert e. induction Hall as [|t g tests gs Ht _ IH]; intros e Hl.
  { eexists. split; [done|]. cbn. split; [done|]. by rewrite app_nil_r. }
  cbn [run_all transcript]. unfold run.
  destruct (serial_print_ok [type_name t; text "..." ++ [TAB]] e Hl) as (u & -> & Hu). cbn [and_then].
  rewrite Ht. cbn [screen set_serial]. cbn [concat] in Hu. rewrite app_nil_r in Hu. destruct (g (screen e)) as [c|info c].
  - cbn [and_then]. destruct (serial_println_ok [text "[passed]"] (set_screen c (set_serial (mkSerial u false) e)) eq_refl)
      as (u2 & -> & H2). cbn [and_then concat serial port set_screen set_serial] in *. rewrite app_nil_r, Hu in H2.
    destruct (IH (set_serial (mkSerial u2 false) (set_screen c (set_serial (mkSerial u false) e))) eq_refl) as (e' & -> & He').
    exists e'. split; [done|]. cbn [screen set_serial set_screen] in He'.
    destruct (transcript tests gs c) as [l code]. destruct He' as (A1 & A2 & A3). split; [done|]. split; [|done].
    rewrite A2. cbn [serial port set_serial]. by rewrite H2, <-!app_assoc.
  - cbn [and_then halts].
    destruct (test_panic_handler_ok info (set_screen c (set_serial (mkSerial u false) e)) eq_refl) as (e' & -> & A1 & A2 & A3).
    exists e'. split; [done|]. split; [done|]. split; [|done]. rewrite A2. cbn [serial port set_serial set_screen].
    by rewrite Hu, <-!app_assoc.
Qed.

(** C29: the test harness reports what happens.  For tests that only print on
    the screen it sends the number of tests, and for each test in order its name
    and whether it passed, up to the first that panics; the last thing it does
    is to write the exit code, once: success when all tests return, failure when
    one panics. *)
Theorem test_harness_reports fuel tests gs e :
  Forall2 acts tests gs -> serial_locked (serial e) = false ->
  let '(l, code) := transcript tests gs (screen e) in
  exists e', test_kernel_main (S (S fuel)) tests e = Ret e' /\
    finished e e' (text "Running " ++ decimal 20 (Z.of_nat (length tests)) [] ++ text " tests" ++ [NEWLINE] ++ l) code.
Proof using L.
  intros Hall Hl. unfold test_kernel_main, test_runner.
  destruct (serial_println_ok [text "Running "; decimal 20 (Z.of_nat (length tests)) []; text " tests"] e Hl) as (u & -> & Hu).
  cbn [and_then]. destruct (run_all_ok fuel tests gs (set_serial (mkSerial u false) e) Hall eq_refl) as (e' & E & He').
  cbn [screen set_serial] in He'. destruct (transcript tests gs (screen e)) as [l code]. exists e'. split; [exact E|].
  destruct He' as (A1 & A2 & A3). split; [done|]. split; [|done]. rewrite A2. cbn [serial port set_serial]. rewrite Hu.
  cbn [concat]. by rewrite app_nil_r, <-!app_assoc.
Qed.

(** ** The tests of the screen *)

Definition vga_tests (names : list Z * list Z * list Z) : list Testable :=
  [mkTestable names.1.1 test_println_simple; mkTestable names.1.2 test_println_many; mkTestable names.2 test_println_non_ascii].

(** [e'] is [e] with [text] written on a screen that showed [t]. *)
Definition printed (t : Terminal) (text : list Z) (e e' : Env) : Prop :=
  exists w, e' = set_screen (mkConsole w false (interrupts (screen e))) e /\ shows (term_write t text) w.

Lemma println_many n pieces e t : writer_locked (screen e) = false -> shows t (writer (screen e)) ->
  exists e', Nat.iter n (fun r => and_then r (println pieces)) (Returned e) = Returned e' /\
    printed t (concat (replicate n (concat pieces ++ [NEWLINE]))) e e'.
Proof.
  intros Hl Hs. induction n as [|n (e' & IH & w & -> & Hw)].
  - exists e. split; [done|]. exists (writer (screen e)). split; [|done]. destruct e as [? [? ? ?] ?]. cbn in *. by subst.
  - change (Nat.iter (S n) ?f ?x) with (f (Nat.iter n f x)). rewrite IH. cbn [and_then].
    destruct (println_ok pieces (set_screen (mkConsole w false (interrupts (screen e))) e) _ eq_refl Hw) as (w' & -> & Hw').
    eexists. split; [done|]. exists w'. split; [done|].
    rewrite replicate_S_end, concat_app, term_write_app. cbn [concat]. by rewrite app_nil_r.
Qed.

(** A test that prints [s] passes. *)
Lemma run_printed name f s t e :
  (forall e, writer_locked (screen e) = false -> shows t (writer (screen e)) -> exists e', f e = Returned e' /\ printed t s e e') ->
  serial_locked (serial e) = false -> writer_locked (screen e) = false -> shows t (writer (screen e)) ->
  exists e', run (mkTestable name f) e = Returned e' /\ serial_locked (serial e') = false /\
    sent (port (serial e')) = sent (port (serial e)) ++ name ++ text "..." ++ [TAB] ++ text "[passed]" ++ [NEWLINE] /\
    writer_locked (screen e') = false /\ shows (term_write t s) (writer (screen e')) /\ ports e' = ports e.
Proof using L.
  intros Hf Hl Hw Hs. unfold run. cbn [type_name call].
  destruct (serial_print_ok [name; text "..." ++ [TAB]] e Hl) as (u & -> & Hu). cbn [and_then].
  destruct (Hf (set_serial (mkSerial u false) e) Hw Hs) as (e1 & -> & w & -> & Hw1). cbn [and_then].
  match goal with |- context [serial_println _ ?e0] =>
    destruct (serial_println_ok [text "[passed]"] e0 eq_refl) as (u2 & -> & H2) end.
  eexists. split; [done|]. cbn [serial port screen writer ports set_serial set_screen writer_locked serial_locked] in *.
  split_and!; try done. rewrite H2, Hu. cbn [concat]. by rewrite !app_nil_r, <-!app_assoc.
Qed.

Definition many_lines : list Z := concat (replicate 150 (text "testing" ++ [NEWLINE])).

(** The three tests of the screen pass.  Run by the harness on any screen,
    they return, the harness reports success, and the screen shows the 152 lines
    they print, where bytes that are not ASCII are shown as question marks. *)
Theorem vga_tests_pass fuel names e t :
  serial_locked (serial e) = false -> writer_locked (screen e) = false -> shows t (writer (screen e)) ->
  exists e', test_kernel_main (S fuel) (vga_tests names) e = Ret e' /\ ports e' = ports e ++ outl 0xf4 0x10 /\
    shows (term_write t (text "testing" ++ [NEWLINE] ++ text "testing" ++ [NEWLINE] ++ many_lines ++ text "???" ++ [NEWLINE]))
      (writer (screen e')).
Proof using L.
  intros Hl Hw Hs. unfold test_kernel_main, test_runner.
  match goal with |- context [serial_println ?ps e] => destruct (serial_println_ok ps e Hl) as (u & -> & _) end.
  cbn [and_then run_all vga_tests]. set (e0 := set_serial _ e).
  destruct (run_printed names.1.1 test_println_simple (text "testing" ++ [NEWLINE] ++ text "testing" ++ [NEWLINE]) t e0)
    as (e1 & -> & L1 & _ & W1 & S1 & P1); [|done..|].
  { intros e1 He1 Hs1. destruct (println_ok [text "testing" ++ [NEWLINE] ++ text "testing"] e1 t He1 Hs1) as (w & E & H).
    eexists. split; [exact E|]. by exists w. }
  cbn [and_then].
  match type of S1 with shows ?t1 _ =>
    destruct (run_printed names.1.2 test_println_many many_lines t1 e1) as (e2 & -> & L2 & _ & W2 & S2 & P2); [|done..|] end.
  { intros e2 He2 Hs2. exact (println_many 150 [text "testing"] e2 _ He2 Hs2). }
  cbn [and_then].
  match type of S2 with shows ?t2 _ =>
    destruct (run_printed names.2 test_println_non_ascii (text "???" ++ [NEWLINE]) t2 e2)
      as (e3 & -> & L3 & _ & W3 & S3 & P3); [|done..|] end.
  { intros e3 He3 Hs3. destruct (println_ok [[0x00; 0x12; 0x7F]] e3 _ He3 Hs3) as (w & E & H).
    eexists. split; [exact E|]. by exists w. }
  cbn [and_then halts]. eexists. split; [done|]. cbn [ports exit_qemu screen].
  split; [by rewrite P3, P2, P1|]. rewrite <- !term_write_app in S3. by rewrite <-!app_assoc in S3.
Qed.

(** ** The kernel *)

Section kernel_main.
Context `{FallbackHeap} {M : Type} `{MapperLaws M} {V : VirtAddrNew} {PE : PageTableEntry} {O : OffsetPageTable M}
  `{DescriptorTable} {D : Type} `{AhciDevice D, DmaMemory D, BitfieldStruct}.

(** [init] itself does not print. *)
Definition kernel_main (polls fuel : nat) (boot_info : BootInfo) (env : ShellEnv) (hw : Hardware D) (e : Env)
    : outcome (Env * option (KernelState (M := M) (D := D))) :=
  match println [text "Starting LobsterOS"] e with
  | Returned e =>
      match Boot.init polls fuel boot_info env hw with
      | Ret k => Ret (e, Some k)
      | Panic info => e ← halts 3 panic (panic info e); Ret (e, None)
      | NoFuel => NoFuel
      end
  | r => e ← halts 3 panic r; Ret (e, None)
  end.

(** C30: the kernel greets on the screen and, when [init] returns, sleeps with
    its state; a panic of [init] is reported on the serial port and on the
    screen, and the kernel halts. *)
Theorem kernel_main_reports polls fuel boot_info env (hw : Hardware D) e t :
  serial_locked (serial e) = false -> writer_locked (screen e) = false -> shows t (writer (screen e)) ->
  let banner := text "Starting LobsterOS" ++ [NEWLINE] in
  match Boot.init polls fuel boot_info env hw with
  | Ret k => exists e', kernel_main polls fuel boot_info env hw e = Ret (e', Some k) /\
      shows (term_write t banner) (writer (screen e')) /\ serial e' = serial e
  | Panic info =>
      let message := text "Panicked! " ++ debug_info info ++ [NEWLINE] in
      exists e', kernel_main polls fuel boot_info env hw e = Ret (e', None) /\
        shows (term_write t (banner ++ message)) (writer (screen e')) /\
        sent (port (serial e')) = sent (port (serial e)) ++ message
  | NoFuel => kernel_main polls fuel boot_info env hw e = NoFuel
  end.
Proof using L.
  intros Hl Hw Hs banner. unfold kernel_main.
  destruct (println_ok [text "Starting LobsterOS"] e t Hw Hs) as (w & -> & Hw1).
  destruct (Boot.init polls fuel boot_info env hw) as [k|info|]; [by eexists| |done].
  cbv zeta. unfold panic.
  match goal with |- context [serial_println ?ps ?e0] => destruct (serial_println_ok ps e0 Hl) as (u & -> & Hu) end.
  cbn [and_then].
  match goal with |- context [println ?ps ?e0] => destruct (println_ok ps e0 _ eq_refl Hw1) as (w2 & -> & Hw2) end.
  cbn [halts mbind outcome_bind]. eexists. split; [done|]. cbn [screen writer set_screen serial port set_serial].
  split; [|by rewrite Hu; cbn [concat]; rewrite app_nil_r, <-app_assoc].
  rewrite <- term_write_app in Hw2. cbn [concat] in Hw2. by rewrite !app_nil_r, <- !app_assoc in Hw2.
Qed.
End kernel_main.
End entry.

(** ** Examples *)

#[local] Existing Instance dev_profile.
#[local] Existing Instance map_mapper.
#[local] Existing Instance map_mapper_laws.
#[local] Existing Instance lower_half.
#[local] Existing Instance Spawn.example_entry.
#[local] Existing Instance example_offset_table.
#[local] Existing Instance replacing.
#[local] Existing Instance machine_memory.
#[local] Existing Instance machine_hba.
#[local] Existing Instance bump_heap.

(** A port that keeps what is sent. *)
#[local] Instance log_port : SerialPort :=
  {| Uart := list Z; uart_new := fun _ => []; uart_init := fun u => u; uart_write := fun s u => (true, u ++ s) |}.
#[local] Instance log_laws : SerialLaws log_port.
Proof. refine {| sent := (fun u => u : list Z) : Uart -> list Z |}. intros s u. by exists (u ++ s). Defined.

Definition example_env : Env := mkEnv SERIAL1 (mkConsole (Vga.new example_video) false true) [].

(** A test that passes before one that does not. *)
Lemma test_harness_reports_witness :
  let pass := mkTestable (text "a") (fun e => Returned e) in
  let fail := mkTestable (text "b") (fun e => Panicked "no" e) in
  exists e', test_kernel_main text 2 [pass; fail; pass] example_env = Ret e' /\
    port (serial e') = text "Running 3 tests" ++ [NEWLINE] ++ text "a..." ++ [TAB] ++ text "[passed]" ++ [NEWLINE] ++
      text "b..." ++ [TAB] ++ text "[failed]" ++ [NEWLINE; NEWLINE] ++ text "Error: no" ++ [NEWLINE; NEWLINE] /\
    ports e' = [(0xf4, 0x11); (0xf5, 0); (0xf6, 0); (0xf7, 0)].
Proof.
  intros pass fail.
  destruct (test_harness_reports text 0 [pass; fail; pass] [Pass; Fail "no"; Pass] example_env) as (e' & E & _ & H1 & H2).
  - repeat (constructor; [intros []; reflexivity|]). constructor.
  - reflexivity.
  - exists e'. split; [exact E|]. split; [exact H1|exact H2].
Defined.

Lemma vga_tests_pass_witness :
  exists e', test_kernel_main text 1 (vga_tests (text "x", text "y", text "z")) example_env = Ret e' /\
    ports e' = [(0xf4, 0x10); (0xf5, 0); (0xf6, 0); (0xf7, 0)].
Proof.
  destruct (vga_tests_pass text 0 (text "x", text "y", text "z") example_env
    (mkTerminal example_video 0 0 (ColorCode_new White Black false))) as (e' & E & H & _).
  - reflexivity.
  - reflexivity.
  - apply example_video_shows.
  - exists e'. split; [exact E|exact H].
Defined.

(** A machine without memory. *)
Lemma kernel_main_reports_witness :
  exists e', kernel_main (M := page_map) text 5 5 (mkBootInfo [] example_offset) shell_env hardware example_env =
      Ret (e', None) /\
    port (serial e') = text "Panicked! Failed to initialize heap" ++ [NEWLINE].
Proof.
  pose proof (kernel_main_reports (M := page_map) text 5 5 (mkBootInfo [] example_offset) shell_env hardware example_env
    (mkTerminal example_video 0 0 (ColorCode_new White Black false)) eq_refl eq_refl example_video_shows) as H.
  assert (E : Boot.init (M := page_map) 5 5 (mkBootInfo [] example_offset) shell_env hardware = Panic "Failed to initialize heap")
    by (vm_compute; reflexivity).
  rewrite E in H. destruct H as (e' & H1 & _ & H2). exists e'. split; [exact H1|exact H2].
Defined.
